(* ===== verification/_CoqProject ===== *)
-Q . S2P
Prelude.v
Text.v
Numeral.v
Json.v
JsonFacts.v
Encoding.v
JsonText.v
Effects.v
Platform.v
Primitives.v
EncString.v
Kdf.v
Policy.v
Wordlist.v
Identifier.v
Totp.v
Account.v
Sharing.v
Backup.v
VaultFile.v
Objects.v
Items.v
Portable.v
Api.v
Session.v
VaultStore.v
Login.v
Process.v
Ui.v
Protocol.v
Background.v
Worker.v
Health.v
Views.v
Popup.v
Transfer.v
Content.v
Biometric.v
WebVault.v
WebPanels.v
Editor.v
AsyncButton.v
ItemUi.v
PanelsUi.v
IdleLock.v
Clipboard.v
WebAuth.v
AuthUi.v
Desktop.v
DesktopApp.v
DesktopUi.v
TransferUi.v
WebUi.v
WebApp.v
Theme.v
PopupUi.v
PopupLife.v
GenVectors.v
