(* ===== verification/Prelude.v ===== *)
(** * passwd: the clients of a zero-knowledge password manager

    This library models the TypeScript of passwd (src/clients): the
    cryptographic core, the API client, the offline desktop vault, the browser
    extension and the web vault, the three with their screens, and proves what
    makes them correct.
    The reader needs the repository and nothing else.

    ** The program

    A user has an identifier and a master password.  [packages/crypto] derives a
    master key from them, stretches it into an encryption key and an
    authentication hash, seals a random user key under the former and every vault
    item under the user key (through a key per item); backups, vault files,
    recovery codes and shares are further uses of the same envelope.
    [packages/api-client] talks to the backend, which stores ciphertexts only, and
    turns a login into a session whose operations load, add, save, remove, import,
    export and share items.  Three clients use the two packages: the web vault
    (apps/web), the browser extension (apps/extension: a background worker that
    owns the session, a popup that sends it messages, a content script that fills
    and captures forms) and the desktop app (apps/desktop), which uses no server
    and keeps a vault file.

    ** Representation

    A JavaScript string is the list of its UTF-16 code units, a byte array the
    list of its bytes, both [list Z] with the ranges as predicates ([text_ok],
    [bytes_ok]).  JSON values, [undefined] included where the code meets it, are
    [json] and [jsv]; an object is the list of its members in order, with the
    engine's ordering of integer keys.  A number is an exact decimal ([jsnum]).
    The 32-bit operators of totp.ts are written out on [Z].  A function that
    awaits, throws or draws random bytes is a computation of the monad [M S A]
    (Effects.v): from a state to a value or an exception, and a state; what it
    did before it threw is kept.  Handlers of the background worker are process
    trees instead ([proc], Process.v), since other handlers run at every await.

    ** The files

    Foundations:
    - Prelude: list, option and integer lemmas, hint databases, tactics.
    - Text, Numeral: String.prototype methods, number formatting and parsing.
    - Json, JsonFacts, JsonText, Objects: JSON.parse, JSON.stringify, property
      access, spreads, and their laws.
    - Encoding: UTF-8 and base64 (TextEncoder, TextDecoder, btoa, atob).
    - Effects, Process: the monad of exceptions and state; asynchronous handlers
      with their scheduler and a rely/guarantee logic.
    - Platform: what the program calls and does not contain, as classes with
      documented laws and a concrete instance: WebCrypto and hash-wasm, the URL
      parser, the clock.  [Unicode] (Text) is the case table and white space
      beyond ASCII, [Entropy] (Primitives) crypto.getRandomValues, [Environment]
      (Api) the backend and the network.

    packages/crypto/src:
    - Primitives (primitives.ts), EncString (encstring.ts), Kdf (kdf.ts), Policy
      (password.ts), Wordlist (wordlist.ts), Identifier (identifier.ts), Totp
      (totp.ts), Account (account.ts and generateUserKeypair of sharing.ts),
      Sharing (sharing.ts), Backup (backup.ts), VaultFile (vault.ts), GenVectors
      (../scripts/gen-vectors.ts, vectors.test.ts and docs/test-vectors.json).

    packages/api-client/src:
    - Items (the item types and normalizeItemFields of session.ts), Portable
      (portable.ts), Api (api.ts), Session (the flows of session.ts), VaultStore
      (loadVault, addItem, saveItem, removeItem against a server that keeps
      ciphertexts), Login (registration and login against a server that keeps
      registration bundles).

    apps/extension:
    - Protocol (utils/protocol.ts), Background and Worker
      (entrypoints/background.ts: each handler alone, and all of them
      interleaved), Popup (entrypoints/popup/App.tsx: its state and actions),
      PopupUi (its screens), Content (entrypoints/content.ts, and the popup's
      request to fill), PopupLife (popup, worker and API client against the server
      of WebApp, and the two clients of one account).

    apps/web:
    - WebAuth (App.tsx: the flows of the sign-in page and the shell around the
      session), AuthUi (the page as it is rendered), WebVault (VaultScreen.tsx:
      the actions on items and the sign-in alert), Editor (the edits of the item
      editor, the notes of the detail pane), WebPanels (the panels: two-factor,
      passkeys, recovery code, account, activity, sharing, security check),
      ItemUi and PanelsUi (the detail pane, the editor and the panels as they are
      rendered), WebUi (the whole VaultScreen), Transfer and TransferUi
      (ImportExport.tsx), Health (health.ts), Biometric (biometric.ts), WebApp
      (the App component: the page or the vault, against a server that keeps
      accounts and ciphers).

    apps/desktop:
    - Desktop (storage.ts and types.ts), DesktopApp (the actions of
      VaultScreen.tsx and App.tsx), DesktopUi (their screens), Clipboard (the copy
      of a secret).

    What they share:
    - Ui (screens as lists of elements, PasswordField.tsx), Views (what the three
      clients list), AsyncButton (AsyncButton.tsx), IdleLock (the idle timers of
      both App.tsx), Theme (ThemeToggle.tsx).

    A component of React is a record of its state, a handler a computation over
    that record and the world.  What it renders is a list of elements in the order
    of the markup (Ui): texts, fields, check boxes, buttons with their disabled
    flag, buttons that ask first, each with the action it has on the state it was
    drawn from.  [offered] says that somebody looking at the screen can do an
    action, [shown] what he reads, [alike] that two screens cannot be told apart;
    [ui_step] is the machine whose only gestures are those its screen offers, with
    its events.  A renderer returns an option where drawing throws.  A gesture
    runs to its end before the next one: the flags that grey out a button while
    its handler runs are drawn but never seen set.  Where it matters that they are
    not, timers, repeated clicks and handlers in flight are step relations or
    processes of their own (IdleLock, Clipboard, AsyncButton, the saves and
    password changes of DesktopUi).  State that a component forgets when it
    unmounts is reset by the parent's [remount].

    ** What is proved

    - The key hierarchy: a registration unlocks with its password and any spelling
      of its identifier; recovery codes work in any spelling; shares, backups,
      items and vault files round-trip; unlocking and decrypting return only what
      was sealed ([registration_unlock], [recovery_roundtrip], [share_roundtrip],
      [backup_restore], [item_roundtrip], [unlock_authentic],
      [decryptItemKeyed_authentic]).
    - Histories: any sequence of saves, password changes and reopenings of a vault
      file keeps the payload and the user key ([vault_history]), and the desktop
      app on top of it loses nothing but by a write that is refused
      ([desktop_history], [refused_save_loses]).
    - Whole clients, driven by gestures on what their screens offer and by events:
      the desktop app ([desktop_session]), the web vault ([web_session]), and the
      web app from registration through any number of locks and sign-ins
      ([web_life]): the storage represents the vault on the screen, every item of
      it has its row, and signing in or unlocking gives it back.  The server may
      refuse any request for the vault, for good or for a while: an access token
      lives for 15 minutes and no client refreshes it, a body can be too large, the
      network can be down.  So a run has a log of the gestures that ask for
      something ([logged], WebVault), and the vault at its end is what these make
      of the vault at its start, each in its turn done as it says or refused at
      that point with nothing changed ([replay]); a list is of that vault unless an
      error is shown with it.  The same for the
      extension, through its popup, its messages and its worker
      ([extension_life]), and for one account used in both ([clients_agree]).  The
      sign-in page
      can always be finished ([page_never_stuck]); the popup falls back to an empty
      form when it locks ([popup_forgets]) and its editor changes only what it
      shows ([popup_editor_keeps]); the import dialog imports what it previews
      ([dialog_imports_preview]); no account is deleted before DELETE is typed, and
      no recovery code replaced while it is shown ([panel_guards]);
      secrets that are not revealed are not on the screen ([detail_masks_secrets],
      [popup_hides_secrets], [desktop_hides_passwords]).
    - Refinement: the session operations on an encrypted store implement a map
      ([vault_refines_map]), and so do the actions of the web vault's screen
      ([web_actions_refine]), its editor, down to what is typed ([editor_saves]),
      and the desktop app's ([saveItem_updates]); registering and logging in
      against a server that keeps bundles arrives at the same keys, from the API
      client ([register_then_login]) and from the sign-in page
      ([page_register_login]); while it is unlocked the worker is the API client
      behind a deadline ([unlocked_requests]), and keeps its message protocol on
      every path ([protocol_typed]).
    - Handlers: what the sign-in page sends and refuses ([submit_outcomes]), the
      phrase it shows ([phrase_is_identifier]), the biometric button
      ([unlockBio_verified]), the recovery code that is shown
      ([shown_code_recovers]), the sign-in alert over two visits
      ([notice_visits]), the security check ([flagged_exact]).
    - Locking, as reachability over all interleavings of messages, alarm, clock and
      restarts: [idle_bound], [locked_stays_locked]; and [lock_race], the one way
      in which a lock can be undone.  Timers, as reachability over all orders of
      events: [idle_lock_punctual], [copied_secret_cleared], [async_button_exact].
    - Formats: JSON and CSV export and import, envelopes, base32, one-time codes
      against RFC 4226 and RFC 4648, otpauth links, identifiers, host matching; the
      known-answer vectors pass their own suite ([generated_vectors_pass]), and the
      committed file is to the letter what the script prints
      ([committed_vectors]).
    - Error paths: every text given to openVault, decryptBackup or
      parseVaultImport ends in a listed outcome.

    Places where the code does something its comments exclude, or loses what was
    entered, are theorems too: [totp_one_letter], [openVault_malformed],
    [hostMatches_www_tld], [import_smuggles], [import_null_row], [import_drops_phone],
    [item_loses_bom], [refused_save_loses],
    [lock_race], [stale_notes_overwrite], [star_drops_notes], [fill_claims_success],
    [dice_flag_stale], [notice_misses_ties], [offline_all_clear],
    [late_timer_keeps_open], [submitOpen_outcomes], [early_clear], [late_close],
    [card_hint_wrong], [late_save_reopens], [rekey_drops_item],
    [unnamed_factor_dead_end], [imported_backup_offered_again],
    [no_match_says_empty], [error_outlives_reload], [list_no_match_says_empty],
    [shared_error_stays], [theme_sticks].

    ** Fuel and bounds

    The JSON parser is fuelled by the length of its input, which is proved to be
    enough (JsonFacts); number formatting by the bit length of the number.
    [generateAccountId] redraws samples above a multiple of the number of words:
    with 2048 words no 32-bit sample is rejected, so one draw for each word
    suffices, which [generateAccountId_spec] includes.  No theorem assumes that a
    computation returns unless it is about what a success means.

    ** Not modelled

    The Go backend (a parameter: the classes [CipherServer], [AccountServer] and
    [VaultServer] state what the clients rely on and have instances), the Tauri
    shell in Rust, the website, styles, build files and generated lock files, the
    icons, and the entry points that only mount a component; WebAuthn ceremonies,
    the biometric plug-in, the page a content script runs in, localStorage, SHA-1
    and SHA-256, the parsing of dates, the collation of a locale and its dates and
    numbers, which are parameters (classes with the laws that are relied on).  Of
    the screens, layout is left out: the drawer of narrow screens, suggestions of
    the folder input, highlighting; the page under an open card of the web vault is
    out of reach, although a keyboard can walk to it.

    Two handlers that are pending at once in the same component are not
    interleaved, except in the background worker, the desktop's saves and password
    changes, and [star_drops_notes].

    What the theorems assume of the server.  [CipherServer]: a request for the vault
    that is accepted is done and answered, one that is not changes nothing and is
    answered with an error or not at all; which requests are accepted is a function
    of the server's state that nothing is assumed of (the concrete servers refuse
    large bodies and unknown identifiers, and that of WebApp any token older than
    15 minutes).  A request that is done and whose answer is lost on the way is not
    covered.  [AccountServer]: registrations and sign-ins with the right password
    are answered; the backend also locks an account out for a while after failed
    attempts and limits their rate, which it does not describe, and so [web_life],
    [extension_life] and [clients_agree] send the sign-in form with the account's
    own password only.  They leave out signing in by passkey, by biometrics, with a
    second factor and by recovery code, and use one client at a time.
    [VaultServer]: a token that was just given out is taken once, for the reading
    that follows.  Where an error has to be seen, the engine's messages of
    TypeError and SyntaxError are assumed not to be empty.
    Of the disk, [desktop_session] assumes that the list of recent vaults is not the
    vault's own file.
    [web_session] and [web_life] are about the
    gestures on items; the panels, whose requests no [CipherServer] promises
    anything about, have theorems of their own, and so has the reading of the
    activity log, which these two leave out. *)
From Stdlib Require Import ZArith Lia.
From stdpp Require Export base tactics list strings numbers option gmap.

#[global] Open Scope Z_scope.

(** ** Text and bytes

    A JavaScript string is the list of its UTF-16 code units, a [Uint8Array]
    the list of its bytes; both are lists of [Z], and the range of the elements
    is a predicate. *)
Abbreviation jsstr := (list Z) (only parsing).
Abbreviation bytes := (list Z) (only parsing).

Definition byte_ok (b : Z) : Prop := 0 <= b < 256.
Definition unit_ok (u : Z) : Prop := 0 <= u < 65536.
Definition ascii_ok (u : Z) : Prop := 0 <= u < 128.
Abbreviation bytes_ok := (Forall byte_ok).
Abbreviation units_ok := (Forall unit_ok).
Abbreviation ascii := (Forall ascii_ok).

#[global] Instance byte_ok_dec b : Decision (byte_ok b).
Proof. unfold byte_ok. apply _. Defined.
#[global] Instance unit_ok_dec u : Decision (unit_ok u).
Proof. unfold unit_ok. apply _. Defined.
#[global] Instance ascii_ok_dec u : Decision (ascii_ok u).
Proof. unfold ascii_ok. apply _. Defined.

(** A string literal of the source. *)
Fixpoint js (s : string) : jsstr :=
  match s with
  | EmptyString => []
  | String c s' => Z.of_N (Ascii.N_of_ascii c) :: js s'
  end.
Arguments js _%_string.

(** A literal written with apostrophes for the double quotes of the text. *)
Definition jq (s : string) : jsstr := map (fun u => if u =? 39 then 34 else u) (js s).
Arguments jq _%_string.

(** Character codes used by the parsers of the source. *)
Abbreviation c_tab := 9.
Abbreviation c_lf := 10.
Abbreviation c_cr := 13.
Abbreviation c_space := 32.
Abbreviation c_quote := 34.
Abbreviation c_plus := 43.
Abbreviation c_comma := 44.
Abbreviation c_minus := 45.
Abbreviation c_dot := 46.
Abbreviation c_slash := 47.
Abbreviation c_0 := 48.
Abbreviation c_9 := 57.
Abbreviation c_colon := 58.
Abbreviation c_eq := 61.
Abbreviation c_lbrack := 91.
Abbreviation c_bslash := 92.
Abbreviation c_rbrack := 93.
Abbreviation c_lbrace := 123.
Abbreviation c_pipe := 124.
Abbreviation c_rbrace := 125.

Definition str_eqb (a b : jsstr) : bool := bool_decide (a = b).

(** ** Tactics *)

(** Split the boolean connectives and comparisons of the context. *)
Ltac bool_prop :=
  repeat match goal with
  | H : _ && _ = true |- _ => apply andb_true_iff in H as [? ?]
  | H : _ || _ = false |- _ => apply orb_false_iff in H as [? ?]
  | H : negb _ = true |- _ => apply negb_true_iff in H
  | H : negb _ = false |- _ => apply negb_false_iff in H
  | H : (_ =? _)%Z = true |- _ => apply Z.eqb_eq in H
  | H : (_ =? _)%Z = false |- _ => apply Z.eqb_neq in H
  | H : (_ <=? _)%Z = true |- _ => apply Z.leb_le in H
  | H : (_ <=? _)%Z = false |- _ => apply Z.leb_gt in H
  | H : (_ <? _)%Z = true |- _ => apply Z.ltb_lt in H
  | H : (_ <? _)%Z = false |- _ => apply Z.ltb_ge in H
  | H : bool_decide _ = true |- _ => apply bool_decide_eq_true in H
  | H : bool_decide _ = false |- _ => apply bool_decide_eq_false in H
  end.

(** Decide the comparisons of the goal one by one, closing the impossible
    branches by linear arithmetic. *)
Ltac zcase :=
  match goal with
  | |- context [(?a =? ?b)%Z] => destruct (Z.eqb_spec a b); try lia
  | |- context [(?a <? ?b)%Z] => destruct (Z.ltb_spec a b); try lia
  | |- context [(?a <=? ?b)%Z] => destruct (Z.leb_spec a b); try lia
  end.
Ltac zcases := repeat (zcase; cbn [andb orb negb]); try lia; try done.

Ltac unfold_ok := unfold byte_ok, unit_ok, ascii_ok in *.

(** Linear arithmetic with quotients and remainders by constants. *)
Ltac divlia := unfold_ok; Z.to_euclidean_division_equations; lia.

Create HintDb passwd.
#[export] Hint Resolve Forall_nil_2 Forall_cons_2 Forall_app_2 : passwd.

(** ** Lists *)
Section Lists.
Context {A B : Type}.

Lemma forallb_Forall_iff (p : A -> bool) (P : A -> Prop) l :
  (forall x, p x = true <-> P x) -> forallb p l = true <-> Forall P l.
Proof.
  intros Hp. induction l as [|x l IH]; simpl; [split; auto|].
  rewrite andb_true_iff, Forall_cons, Hp, IH. done.
Qed.

Lemma take_app_exact (l1 l2 : list A) n : n = length l1 -> take n (l1 ++ l2) = l1.
Proof. intros ->. by rewrite take_app_length. Qed.

Lemma drop_app_exact (l1 l2 : list A) n : n = length l1 -> drop n (l1 ++ l2) = l2.
Proof. intros ->. by rewrite drop_app_length. Qed.

Lemma Forall_impl_list (P Q : A -> Prop) l :
  (forall x, P x -> Q x) -> Forall P l -> Forall Q l.
Proof. intros HPQ Hl. eapply Forall_impl; eauto. Qed.

Lemma mapM_map_Some (f : A -> option B) (g : B -> A) l :
  Forall (fun b => f (g b) = Some b) l -> mapM f (map g l) = Some l.
Proof. induction 1 as [|b l Hb _ IH]; [done|]. cbn. rewrite Hb. cbn. by rewrite IH. Qed.
End Lists.

Lemma ascii_unit u : ascii_ok u -> unit_ok u.
Proof. unfold_ok; lia. Qed.

Lemma ascii_byte u : ascii_ok u -> byte_ok u.
Proof. unfold_ok; lia. Qed.

Lemma byte_unit u : byte_ok u -> unit_ok u.
Proof. unfold_ok; lia. Qed.

Lemma ascii_units l : ascii l -> units_ok l.
Proof. apply Forall_impl_list, ascii_unit. Qed.

Lemma ascii_bytes l : ascii l -> bytes_ok l.
Proof. apply Forall_impl_list, ascii_byte. Qed.

Lemma bytes_units l : bytes_ok l -> units_ok l.
Proof. apply Forall_impl_list, byte_unit. Qed.

#[export] Hint Resolve ascii_unit ascii_byte byte_unit ascii_units ascii_bytes bytes_units : passwd.

Lemma js_app s t : js (s +:+ t) = js s ++ js t.
Proof. induction s as [|c s IH]; [done|]. exact (f_equal (cons _) IH). Qed.

(** Every literal of the development is bytes; the ASCII ones are checked. *)
Lemma js_bytes s : bytes_ok (js s).
Proof.
  induction s as [|c s IH]; cbn; [constructor|]. constructor; [|done].
  pose proof (Ascii.N_ascii_bounded c). unfold_ok. lia.
Qed.
#[export] Hint Resolve js_bytes : passwd.

(** Solve [Forall P l] on a concrete list by evaluation. *)
Ltac decide_forall := apply (bool_decide_unpack _); vm_compute; exact I.
