(* ===== verification/Text.v ===== *)
(** JavaScript string operations: the [String.prototype] methods and the regular
    expressions the source applies to strings, as total functions on code units. *)
From S2P Require Import Prelude.

(** [WhiteSpace] and [LineTerminator]: what [trim] removes and [\s] matches. *)
Definition is_ws (u : Z) : bool :=
  ((9 <=? u) && (u <=? 13)) || (u =? 32) || (u =? 160) || (u =? 5760)
  || ((8192 <=? u) && (u <=? 8202)) || (u =? 8232) || (u =? 8233) || (u =? 8239)
  || (u =? 8287) || (u =? 12288) || (u =? 65279).

Definition is_digit (u : Z) : bool := (48 <=? u) && (u <=? 57).
Definition is_lower (u : Z) : bool := (97 <=? u) && (u <=? 122).
Definition is_upper (u : Z) : bool := (65 <=? u) && (u <=? 90).
Definition is_alnum (u : Z) : bool := is_lower u || is_upper u || is_digit u.

(** [s.trim()] *)
Fixpoint trim_start (s : jsstr) : jsstr :=
  match s with
  | [] => []
  | u :: s' => if is_ws u then trim_start s' else s
  end.
Definition trim_end (s : jsstr) : jsstr := reverse (trim_start (reverse s)).
Definition trim (s : jsstr) : jsstr := trim_end (trim_start s).

(** [s.replace(/\s+/g, " ")]: the last character of each maximal run of white
    space becomes the space, the others vanish. *)
Fixpoint collapse_ws (s : jsstr) : jsstr :=
  match s with
  | [] => []
  | u :: s' =>
      if is_ws u
      then match s' with
           | v :: _ => if is_ws v then collapse_ws s' else c_space :: collapse_ws s'
           | [] => [c_space]
           end
      else u :: collapse_ws s'
  end.

(** [s.indexOf(c)] for a one-unit [c]; [None] is -1. *)
Fixpoint index_of (c : Z) (s : jsstr) : option nat :=
  match s with
  | [] => None
  | u :: s' => if u =? c then Some O else S <$> index_of c s'
  end.

(** [s.split(c)] for a one-unit [c]. *)
Fixpoint split_on (c : Z) (s : jsstr) : list jsstr :=
  match s with
  | [] => [[]]
  | u :: s' =>
      if u =? c then [] :: split_on c s'
      else match split_on c s' with
           | w :: ws => (u :: w) :: ws
           | [] => [[u]]
           end
  end.

(** [l.join(sep)] *)
Fixpoint join (sep : jsstr) (l : list jsstr) : jsstr :=
  match l with
  | [] => []
  | [s] => s
  | s :: l' => s ++ sep ++ join sep l'
  end.

(** [s.startsWith(p)], [s.endsWith(p)], [s.includes(p)] *)
Fixpoint starts_with (p s : jsstr) : bool :=
  match p, s with
  | [], _ => true
  | a :: p', b :: s' => (a =? b) && starts_with p' s'
  | _ :: _, [] => false
  end.
Definition ends_with (p s : jsstr) : bool := starts_with (reverse p) (reverse s).
Fixpoint includes (p s : jsstr) : bool :=
  starts_with p s || match s with [] => false | _ :: s' => includes p s' end.

(** [s.padStart(n, c)] *)
Definition pad_start (n : nat) (c : Z) (s : jsstr) : jsstr :=
  replicate (n - length s) c ++ s.

(** Case mapping of the ASCII letters. *)
Definition ascii_lower (u : Z) : Z := if is_upper u then u + 32 else u.
Definition ascii_upper (u : Z) : Z := if is_lower u then u - 32 else u.

(** The Unicode tables of the engine ([normalize("NFKC")], [toLowerCase],
    [toUpperCase]) are data the repository does not carry. What is fixed is
    their documented behaviour on ASCII, on which they are the identity and the
    letter-by-letter case maps. *)
Class Unicode := {
  nfkc : jsstr -> jsstr;
  to_lower : jsstr -> jsstr;
  to_upper : jsstr -> jsstr;
  nfkc_ascii : forall s, ascii s -> nfkc s = s;
  to_lower_ascii : forall s, ascii s -> to_lower s = map ascii_lower s;
  to_upper_ascii : forall s, ascii s -> to_upper s = map ascii_upper s;
  nfkc_units : forall s, units_ok s -> units_ok (nfkc s);
  nfkc_nonempty : forall s, s <> [] -> nfkc s <> [];
  to_lower_units : forall s, units_ok s -> units_ok (to_lower s);
}.

(** Latin-1 case mapping (the first two Unicode blocks; the sharp s upper-cases
    to two letters), the concrete instance the examples evaluate. *)
Definition latin1_lower (u : Z) : Z :=
  if is_upper u || ((192 <=? u) && (u <=? 222) && negb (u =? 215)) then u + 32 else u.
Definition latin1_upper (u : Z) : list Z :=
  if u =? 223 then js "SS"
  else if u =? 255 then [376]
  else if u =? 181 then [924]
  else if is_lower u || ((224 <=? u) && (u <=? 254) && negb (u =? 247)) then [u - 32] else [u].

Lemma latin1_lower_ascii s : ascii s -> map latin1_lower s = map ascii_lower s.
Proof.
  induction 1 as [|u s Hu _ IH]; [done|]. cbn [map]. rewrite IH. f_equal.
  unfold latin1_lower, ascii_lower. unfold_ok.
  destruct (is_upper u); [done|]. cbn. zcases.
Qed.

Lemma latin1_upper_ascii s : ascii s -> s ≫= latin1_upper = map ascii_upper s.
Proof.
  induction 1 as [|u s Hu _ IH]; [done|]. cbn [map]. rewrite bind_cons, IH.
  unfold latin1_upper, ascii_upper. unfold_ok.
  zcase. zcase. zcase. destruct (is_lower u); [done|]. cbn. zcases.
Qed.

Lemma latin1_lower_units s : units_ok s -> units_ok (map latin1_lower s).
Proof.
  intros H. apply Forall_map. eapply Forall_impl; [exact H|]. intros u Hu. cbn.
  unfold latin1_lower. case_match eqn:E; [|done].
  unfold is_upper in E. rewrite orb_true_iff in E. unfold_ok. destruct E; bool_prop; lia.
Qed.

Definition latin1_unicode : Unicode := {|
  nfkc s := s;
  to_lower := map latin1_lower;
  to_upper s := s ≫= latin1_upper;
  nfkc_ascii _ _ := eq_refl;
  to_lower_ascii := latin1_lower_ascii;
  to_upper_ascii := latin1_upper_ascii;
  nfkc_units _ H := H;
  nfkc_nonempty _ H := H;
  to_lower_units := latin1_lower_units;
|}.

(** ** Laws of the string operations *)

Definition no_ws (s : jsstr) : Prop := Forall (fun u => is_ws u = false) s.

Lemma trim_start_nows u s : is_ws u = false -> trim_start (u :: s) = u :: s.
Proof. intros Hu. cbn. by rewrite Hu. Qed.

(** A string that neither begins nor ends with white space is its own [trim]. *)
Definition trimmed (s : jsstr) : Prop :=
  match s with [] => True | u :: _ => is_ws u = false end /\
  match last s with None => True | Some u => is_ws u = false end.

Lemma trim_start_head s :
  match trim_start s with [] => True | u :: _ => is_ws u = false end.
Proof. induction s as [|u s IH]; cbn; [done|]. by destruct (is_ws u) eqn:E. Qed.

Lemma trim_start_suffix s : exists w, s = w ++ trim_start s.
Proof.
  induction s as [|u s [w IH]]; [by exists []|]. cbn.
  destruct (is_ws u); [exists (u :: w); cbn; by f_equal|by exists []].
Qed.

Lemma trim_start_Forall (P : Z -> Prop) s : Forall P s -> Forall P (trim_start s).
Proof.
  intros H. destruct (trim_start_suffix s) as [w E]. rewrite E in H.
  by apply Forall_app in H as [_ ?].
Qed.

Lemma trim_Forall (P : Z -> Prop) s : Forall P s -> Forall P (trim s).
Proof.
  intros H. unfold trim, trim_end. apply Forall_reverse, trim_start_Forall, Forall_reverse.
  by apply trim_start_Forall.
Qed.

Lemma trim_trimmed s : trimmed (trim s).
Proof.
  unfold trimmed, trim, trim_end. set (t := trim_start s).
  pose proof (trim_start_head s) as Hh. fold t in Hh.
  destruct (trim_start_suffix (reverse t)) as [w Hw].
  pose proof (trim_start_head (reverse t)) as Hl.
  set (r := trim_start (reverse t)) in *. split.
  - assert (Ht : t = reverse r ++ reverse w)
      by (rewrite <- reverse_app, <- Hw, reverse_involutive; done).
    destruct (reverse r) as [|u r']; [done|]. rewrite Ht in Hh. exact Hh.
  - rewrite last_reverse. by destruct r.
Qed.

Lemma trimmed_trim s : trimmed s -> trim s = s.
Proof.
  intros [Hh Hl]. unfold trim, trim_end.
  assert (trim_start s = s) as ->.
  { destruct s as [|u s]; [done|]. by apply trim_start_nows. }
  destruct (reverse s) as [|u r] eqn:E.
  - apply (f_equal reverse) in E. rewrite reverse_involutive in E. by rewrite E.
  - rewrite trim_start_nows; [by rewrite <- E, reverse_involutive|].
    clear Hh.
    assert (Hs : s = reverse r ++ [u]).
    { apply (f_equal reverse) in E. by rewrite <- (reverse_involutive s), E, reverse_cons. }
    rewrite Hs, last_snoc in Hl. exact Hl.
Qed.

(** No two adjacent white-space characters, and every one is a plain space. *)
Fixpoint ws_normal (s : jsstr) : Prop :=
  match s with
  | [] => True
  | u :: s' =>
      (is_ws u = true -> u = c_space /\ match s' with v :: _ => is_ws v = false | [] => True end)
      /\ ws_normal s'
  end.

Lemma collapse_head s v r : collapse_ws s = v :: r -> is_ws v = false ->
  match s with u :: _ => is_ws u = false | [] => True end.
Proof.
  destruct s as [|u s]; [done|]. cbn. destruct (is_ws u) eqn:E; [|done].
  revert u E. induction s as [|w s IH]; intros u E; [by intros [= <- <-]|].
  destruct (is_ws w) eqn:Ew; [|by intros [= <- <-]].
  cbn. rewrite Ew. apply (IH w Ew).
Qed.

Lemma collapse_ws_nows_head u s : is_ws u = false -> collapse_ws (u :: s) = u :: collapse_ws s.
Proof. intros E. cbn. by rewrite E. Qed.

Lemma collapse_ws_normal s : ws_normal (collapse_ws s).
Proof.
  induction s as [|u s IH]; [done|]. cbn. destruct (is_ws u) eqn:Eu.
  - destruct s as [|v s]; [done|]. destruct (is_ws v) eqn:Ev; [done|].
    split; [|done]. intros _. split; [done|].
    rewrite collapse_ws_nows_head by done. done.
  - split; [congruence|done].
Qed.

Lemma ws_normal_collapse s : ws_normal s -> collapse_ws s = s.
Proof.
  induction s as [|u s IH]; [done|]. intros [Hu Hs]. cbn. rewrite (IH Hs).
  destruct (is_ws u) eqn:E; [|done]. destruct (Hu eq_refl) as [-> Hv].
  destruct s as [|v s]; [done|]. by rewrite Hv.
Qed.

Lemma split_on_nosep c s : Forall (fun u => u <> c) s -> split_on c s = [s].
Proof.
  induction 1 as [|u s Hu _ IH]; [done|]. cbn. rewrite IH.
  by destruct (Z.eqb_spec u c).
Qed.

Lemma split_on_app c s t :
  Forall (fun u => u <> c) s -> split_on c (s ++ c :: t) = s :: split_on c t.
Proof.
  induction 1 as [|u s Hu _ IH]; cbn; [by rewrite Z.eqb_refl|]. rewrite IH.
  by destruct (Z.eqb_spec u c).
Qed.

Lemma split_on_nonempty c s : split_on c s <> [].
Proof. destruct s as [|u s]; [done|]. cbn. destruct (u =? c); [done|]. by destruct (split_on c s). Qed.

Lemma split_on_join c s : join [c] (split_on c s) = s.
Proof.
  induction s as [|u s IH]; [done|]. cbn. destruct (Z.eqb_spec u c) as [->|Hne].
  - pose proof (split_on_nonempty c s). destruct (split_on c s); [done|].
    cbn in *. by rewrite IH.
  - pose proof (split_on_nonempty c s). destruct (split_on c s) as [|w [|w' ws]]; [done|..];
      cbn in *; by rewrite IH.
Qed.

Lemma join_cons sep s l : l <> [] -> join sep (s :: l) = s ++ sep ++ join sep l.
Proof. by destruct l. Qed.

(** Splitting undoes joining when no part has the separator. *)
Lemma split_on_joined c l : l <> [] -> Forall (fun s => Forall (fun u => u <> c) s) l ->
  split_on c (join [c] l) = l.
Proof.
  intros Hl Hs. induction Hs as [|s l Hn Hs IH]; [done|]. destruct l as [|t l].
  - by rewrite split_on_nosep.
  - rewrite join_cons by done. change ([c] ++ ?r) with (c :: r). rewrite split_on_app by done. by rewrite IH.
Qed.

Lemma index_of_app c s t :
  Forall (fun u => u <> c) s -> index_of c (s ++ c :: t) = Some (length s).
Proof.
  induction 1 as [|u s Hu _ IH]; cbn; [by rewrite Z.eqb_refl|]. rewrite IH.
  by destruct (Z.eqb_spec u c).
Qed.

Lemma starts_with_spec p s : starts_with p s = true <-> exists t, s = p ++ t.
Proof.
  revert s. induction p as [|a p IH]; intros s; cbn; [split; eauto|].
  destruct s as [|b s]; [split; [done|by intros [t [=]]]|].
  rewrite andb_true_iff, Z.eqb_eq, IH. split.
  - intros [-> [t ->]]. by exists t.
  - intros [t [= -> ->]]. eauto.
Qed.

Lemma ends_with_spec p s : ends_with p s = true <-> exists t, s = t ++ p.
Proof.
  unfold ends_with. rewrite starts_with_spec. split.
  - intros [t E]. exists (reverse t). apply (f_equal reverse) in E.
    by rewrite reverse_app, !reverse_involutive in E.
  - intros [t ->]. exists (reverse t). by rewrite reverse_app.
Qed.

Lemma pad_start_length n c s : (length s <= n)%nat -> length (pad_start n c s) = n.
Proof. intros H. unfold pad_start. rewrite length_app, length_replicate. lia. Qed.

Lemma ascii_lower_ascii s : ascii s -> ascii (map ascii_lower s).
Proof.
  intros H. apply Forall_map. eapply Forall_impl; [exact H|]. intros u Hu. cbn.
  unfold ascii_lower, is_upper. unfold_ok. zcases.
Qed.

Lemma ascii_lower_idem u : ascii_lower (ascii_lower u) = ascii_lower u.
Proof.
  unfold ascii_lower. destruct (is_upper u) eqn:E; [|by rewrite E].
  unfold is_upper in *. bool_prop. zcases.
Qed.

Lemma ascii_lower_ws u : is_ws (ascii_lower u) = is_ws u.
Proof.
  unfold ascii_lower. destruct (is_upper u) eqn:E; [|done].
  unfold is_upper in E. bool_prop. unfold is_ws. zcases.
Qed.
