(* ===== verification/Numeral.v ===== *)
(** JavaScript numbers as the source uses them: [Number::toString],
    [Number(string)], [parseInt(s, 10)] and the number token of JSON.

    A finite number is an exact decimal: an integer, or a mantissa over a power
    of ten.  Rounding to binary64 is not modelled; every number the program
    computes with (versions, KDF costs, counters, timestamps, lengths) is an
    integer below 2^53, on which the two agree. *)
From S2P Require Import Prelude Text.

Inductive jsnum :=
| NInt (z : Z)
| NDec (m : Z) (d : nat)   (* m / 10^d, m not a multiple of ten, d > 0 *)
| NInf (neg : bool)
| NNaN.

#[global] Instance jsnum_eq_dec : EqDecision jsnum.
Proof. solve_decision. Defined.

(** ** Printing *)

Fixpoint dec_digits (fuel : nat) (n : Z) (acc : jsstr) : jsstr :=
  match fuel with
  | O => acc
  | S f =>
      let acc' := (c_0 + n mod 10) :: acc in
      if n <? 10 then acc' else dec_digits f (n / 10) acc'
  end.

(** The decimal digits of a non-negative integer; one digit per bit is enough fuel. *)
Definition dec (n : Z) : jsstr := dec_digits (S (Z.to_nat (Z.log2 n))) n [].

Fixpoint strip_zeros_rev (s : jsstr) : jsstr :=
  match s with
  | u :: s' => if u =? c_0 then strip_zeros_rev s' else s
  | [] => []
  end.
Definition strip_zeros (s : jsstr) : jsstr := reverse (strip_zeros_rev (reverse s)).

(** [Number::toString] on the digits [s] (no trailing zero) of 0.s * 10^n. *)
Definition format_num (s : jsstr) (n : Z) : jsstr :=
  let k := Z.of_nat (length s) in
  if (k <=? n) && (n <=? 21) then s ++ replicate (Z.to_nat (n - k)) c_0
  else if (0 <? n) && (n <=? 21) then take (Z.to_nat n) s ++ c_dot :: drop (Z.to_nat n) s
  else if (-6 <? n) && (n <=? 0) then c_0 :: c_dot :: replicate (Z.to_nat (- n)) c_0 ++ s
  else
    let e := n - 1 in
    let es := js "e" ++ (if 0 <=? e then js "+" else js "-") ++ dec (Z.abs e) in
    match s with
    | [] => []
    | [d] => d :: es
    | d :: r => d :: c_dot :: r ++ es
    end.

Definition with_sign (neg : bool) (s : jsstr) : jsstr := if neg then c_minus :: s else s.

Definition num_to_string (n : jsnum) : jsstr :=
  match n with
  | NInt z =>
      let ds := dec (Z.abs z) in
      with_sign (z <? 0)
        (if Z.abs z <? 10 ^ 21 then ds
         else format_num (strip_zeros ds) (Z.of_nat (length ds)))
  | NDec m d =>
      let ds := dec (Z.abs m) in
      with_sign (m <? 0) (format_num ds (Z.of_nat (length ds) - Z.of_nat d))
  | NInf neg => with_sign neg (js "Infinity")
  | NNaN => js "NaN"
  end.

(** ** Scanning *)

Definition horner (acc : Z) (ds : jsstr) : Z := foldl (fun a u => 10 * a + (u - c_0)) acc ds.

Fixpoint span_digits (s : jsstr) : jsstr * jsstr :=
  match s with
  | u :: s' => if is_digit u then let '(ds, r) := span_digits s' in (u :: ds, r) else ([], s)
  | [] => ([], [])
  end.

(** m * 10^-d, reduced. *)
Fixpoint mk_frac (d : nat) (m : Z) : jsnum :=
  match d with
  | O => NInt m
  | S d' => if m mod 10 =? 0 then mk_frac d' (m / 10) else NDec m d
  end.
Definition mk_dec (m e : Z) : jsnum :=
  if 0 <=? e then NInt (m * 10 ^ e) else mk_frac (Z.to_nat (- e)) m.

(** A fraction part; JSON requires a digit after the point. *)
Definition scan_fraction (need_digit : bool) (s : jsstr) : option (jsstr * jsstr) :=
  match s with
  | u :: r =>
      if u =? c_dot then
        let '(ds, r') := span_digits r in
        match ds with
        | [] => if need_digit then None else Some ([], r')
        | _ => Some (ds, r')
        end
      else Some ([], s)
  | [] => Some ([], [])
  end.

Definition scan_sign (s : jsstr) : bool * jsstr :=
  match s with
  | u :: r => if u =? c_minus then (true, r) else if u =? c_plus then (false, r) else (false, s)
  | [] => (false, [])
  end.

Definition scan_exponent (s : jsstr) : option (Z * jsstr) :=
  match s with
  | u :: r =>
      if (u =? 101) || (u =? 69) then
        let '(neg, r1) := scan_sign r in
        let '(ds, r2) := span_digits r1 in
        match ds with
        | [] => None
        | _ => Some ((if neg then - horner 0 ds else horner 0 ds), r2)
        end
      else Some (0, s)
  | [] => Some (0, [])
  end.

Definition scan_tail (need_digit neg : bool) (ip s : jsstr) : option (jsnum * jsstr) :=
  '(fr, s1) ← scan_fraction need_digit s;
  '(e, s2) ← scan_exponent s1;
  let m := horner 0 (ip ++ fr) in
  Some (mk_dec (if neg then - m else m) (e - Z.of_nat (length fr)), s2).

(** The number token of JSON: no plus sign, no leading zero, no bare point. *)
Definition scan_json_number (s : jsstr) : option (jsnum * jsstr) :=
  let '(neg, s1) := match s with
                    | u :: r => if u =? c_minus then (true, r) else (false, s)
                    | [] => (false, [])
                    end in
  match s1 with
  | [] => None
  | u :: r =>
      if u =? c_0 then scan_tail true neg [u] r
      else let '(ip, s2) := span_digits s1 in
           match ip with
           | [] => None
           | _ => scan_tail true neg ip s2
           end
  end.

Definition hex_val (u : Z) : option Z :=
  if is_digit u then Some (u - 48)
  else if (97 <=? u) && (u <=? 102) then Some (u - 87)
  else if (65 <=? u) && (u <=? 70) then Some (u - 55)
  else None.

(** Digits of a 0x, 0o or 0b literal. *)
Fixpoint radix_value (radix acc : Z) (s : jsstr) : option Z :=
  match s with
  | [] => Some acc
  | u :: s' =>
      d ← hex_val u;
      if d <? radix then radix_value radix (radix * acc + d) s' else None
  end.

Definition radix_number (radix : Z) (s : jsstr) : jsnum :=
  match s with
  | [] => NNaN
  | _ => match radix_value radix 0 s with Some z => NInt z | None => NNaN end
  end.

Definition decimal_number (s : jsstr) : jsnum :=
  let '(neg, s1) := scan_sign s in
  if str_eqb s1 (js "Infinity") then NInf neg
  else
    let '(ip, s2) := span_digits s1 in
    match ip, s2 with
    | [], u :: v :: _ =>
        if (u =? c_dot) && is_digit v
        then match scan_tail true neg [] s2 with Some (n, []) => n | _ => NNaN end
        else NNaN
    | [], _ => NNaN
    | _, _ => match scan_tail false neg ip s2 with Some (n, []) => n | _ => NNaN end
    end.

(** [Number(s)] on a string. *)
Definition js_number (s : jsstr) : jsnum :=
  match trim s with
  | [] => NInt 0
  | z :: x :: r =>
      if z =? c_0 then
        if (x =? 120) || (x =? 88) then radix_number 16 r
        else if (x =? 111) || (x =? 79) then radix_number 8 r
        else if (x =? 98) || (x =? 66) then radix_number 2 r
        else decimal_number (z :: x :: r)
      else decimal_number (z :: x :: r)
  | s' => decimal_number s'
  end.

(** [parseInt(s, 10)]; [None] is [NaN]. *)
Definition parse_int (s : jsstr) : option Z :=
  let '(neg, s1) := scan_sign (trim_start s) in
  match (span_digits s1).1 with
  | [] => None
  | ds => Some (if neg then - horner 0 ds else horner 0 ds)
  end.

(** ** Laws *)

Definition digits_ok (s : jsstr) : Prop := Forall (fun u => is_digit u = true) s.

Lemma horner_app a s t : horner a (s ++ t) = horner (horner a s) t.
Proof. apply foldl_app. Qed.

Lemma digit_of_mod n : is_digit (c_0 + n mod 10) = true.
Proof. pose proof (Z.mod_pos_bound n 10 eq_refl). unfold is_digit. zcases. Qed.

Lemma digit_ascii u : is_digit u = true -> ascii_ok u.
Proof. unfold is_digit. intros H. bool_prop. unfold_ok. lia. Qed.

Lemma digits_ascii s : digits_ok s -> ascii s.
Proof. apply Forall_impl_list, digit_ascii. Qed.

(** What the digit loop produces: digits, with the right value, and a leading
    zero only for zero itself. *)
Lemma dec_digits_spec fuel : forall n acc,
  0 <= n < 2 ^ Z.of_nat fuel -> (0 < fuel)%nat ->
  exists ds, dec_digits fuel n acc = ds ++ acc /\ digits_ok ds /\ horner 0 ds = n
    /\ ((exists u ds', ds = u :: ds' /\ u <> c_0) \/ ds = [c_0]).
Proof.
  induction fuel as [|fuel IH]; intros n acc Hn Hf; [lia|]. cbn [dec_digits].
  destruct (Z.ltb_spec n 10) as [Hlt|Hge].
  - exists [c_0 + n mod 10]. rewrite Z.mod_small by lia. split_and!; [done| | |].
    + constructor; [|constructor]. unfold is_digit. zcases.
    + unfold horner. cbn. lia.
    + destruct (decide (n = 0)) as [->|]; [by right|left].
      exists (48 + n), []. split; [done|]. lia.
  - rewrite Nat2Z.inj_succ, Z.pow_succ_r in Hn by lia.
    destruct (IH (n / 10) ((c_0 + n mod 10) :: acc)) as (ds & E & Hd & Hh & Hz).
    { split; [apply Z.div_pos; lia|]. apply Z.div_lt_upper_bound; lia. }
    { destruct fuel; [cbn in *; lia|lia]. }
    exists (ds ++ [c_0 + n mod 10]). split_and!.
    + rewrite E, <- app_assoc. done.
    + apply Forall_app; split; [done|]. constructor; [apply digit_of_mod|constructor].
    + rewrite horner_app, Hh. unfold horner. cbn.
      pose proof (Z.div_mod n 10 ltac:(lia)). lia.
    + left. destruct Hz as [(u & ds' & -> & Hu)| -> ]; [by exists u, (ds' ++ [48 + n mod 10])|].
      exfalso. unfold horner in Hh. cbn in Hh.
      assert (1 <= n / 10) by (apply Z.div_le_lower_bound; lia). lia.
Qed.

Lemma dec_spec n : 0 <= n ->
  digits_ok (dec n) /\ horner 0 (dec n) = n
  /\ ((exists u ds, dec n = u :: ds /\ u <> c_0) \/ dec n = [c_0]).
Proof.
  intros Hn. unfold dec.
  destruct (dec_digits_spec (S (Z.to_nat (Z.log2 n))) n []) as (ds & E & ?); [|lia|].
  - split; [done|]. rewrite Nat2Z.inj_succ, Z2Nat.id by apply Z.log2_nonneg.
    destruct (decide (n = 0)) as [->|]; [done|]. apply Z.log2_spec. lia.
  - rewrite E, app_nil_r. done.
Qed.

Lemma dec_digits_ok n : 0 <= n -> digits_ok (dec n).
Proof. intros Hn. by destruct (dec_spec n Hn) as (? & _ & _). Qed.

Lemma dec_nonempty n : 0 <= n -> dec n <> [].
Proof. intros Hn. destruct (dec_spec n Hn) as (_ & _ & [(u & ds & -> & _)| ->]); done. Qed.

Lemma dec_ascii n : 0 <= n -> ascii (dec n).
Proof. intros. by apply digits_ascii, dec_digits_ok. Qed.

Definition stop_digit (r : jsstr) : Prop :=
  match r with [] => True | u :: _ => is_digit u = false end.

Lemma span_digits_app ds r : digits_ok ds -> stop_digit r -> span_digits (ds ++ r) = (ds, r).
Proof.
  intros Hds Hr. induction Hds as [|u ds Hu _ IH]; cbn.
  - destruct r as [|u r]; [done|]. cbn in *. by rewrite Hr.
  - by rewrite Hu, IH.
Qed.

Lemma span_digits_spec s ds r : span_digits s = (ds, r) -> s = ds ++ r /\ digits_ok ds.
Proof.
  revert ds r. induction s as [|u s IH]; intros ds r; cbn; [intros [= <- <-]; split; [done|constructor]|].
  destruct (is_digit u) eqn:E; [|intros [= <- <-]; split; [done|constructor]].
  destruct (span_digits s) as [ds' r'] eqn:Es. intros [= <- <-].
  destruct (IH _ _ eq_refl) as [-> ?]. split; [done|]. by constructor.
Qed.

(** A text after which a number token certainly ends. *)
Definition stop_number (r : jsstr) : Prop :=
  match r with
  | [] => True
  | u :: _ => is_digit u = false /\ u <> c_dot /\ u <> 101 /\ u <> 69
  end.

Lemma stop_number_digit r : stop_number r -> stop_digit r.
Proof. destruct r; [done|]. by intros [? _]. Qed.

Lemma scan_tail_stop need neg ip r : stop_number r ->
  scan_tail need neg ip r = Some (NInt (if neg then - horner 0 ip else horner 0 ip), r).
Proof.
  intros Hr. unfold scan_tail.
  assert (scan_fraction need r = Some ([], r)) as ->.
  { destruct r as [|u r]; [done|]. destruct Hr as (_ & Hd & _). cbn. by destruct (Z.eqb_spec u 46). }
  cbn [mbind option_bind].
  assert (scan_exponent r = Some (0, r)) as ->.
  { destruct r as [|u r]; [done|]. destruct Hr as (_ & _ & H1 & H2). cbn. zcases. }
  cbn. rewrite app_nil_r. unfold mk_dec. cbn. destruct neg; by rewrite Z.mul_1_r.
Qed.

(** Printing an integer and reading it back as a JSON number. *)
Lemma scan_json_number_dec z r :
  Z.abs z < 10 ^ 21 -> stop_number r ->
  scan_json_number (num_to_string (NInt z) ++ r) = Some (NInt z, r).
Proof.
  intros Hz Hr. cbn [num_to_string]. rewrite (proj2 (Z.ltb_lt _ _) Hz).
  destruct (dec_spec (Z.abs z) (Z.abs_nonneg z)) as (Hd & Hh & Hc).
  set (ds := dec (Z.abs z)) in *.
  assert (Hcore : match ds ++ r with
    | [] => None
    | u :: r' =>
      if u =? c_0 then scan_tail true (z <? 0) [u] r'
      else let '(ip, s2) := span_digits (ds ++ r) in
           match ip with [] => None | _ => scan_tail true (z <? 0) ip s2 end
    end = Some (NInt z, r)).
  { destruct Hc as [(u & ds' & E & Hu)|E].
    - rewrite span_digits_app by auto using stop_number_digit. rewrite E in *. cbn [app].
      destruct (Z.eqb_spec u c_0); [done|]. rewrite scan_tail_stop by done. rewrite Hh.
      destruct (Z.ltb_spec z 0); do 3 f_equal; lia.
    - rewrite E in *. cbn [app]. rewrite Z.eqb_refl, scan_tail_stop by done.
      rewrite Hh. destruct (Z.ltb_spec z 0); do 3 f_equal; lia. }
  unfold scan_json_number, with_sign. destruct (z <? 0).
  - cbn [app]. rewrite Z.eqb_refl. exact Hcore.
  - destruct Hc as [(u & ds' & E & Hu)|E]; rewrite E in *; cbn [app] in *; [|exact Hcore].
    apply Forall_cons in Hd as [Hu' _].
    destruct (Z.eqb_spec u c_minus) as [->|_]; [done|exact Hcore].
Qed.

Example num_to_string_ex :
  map num_to_string [NInt 0; NInt (-120); NDec 15 1; NDec (-5) 8; NInt (12 * 10 ^ 30)]
  = [js "0"; js "-120"; js "1.5"; js "-5e-8"; js "1.2e+31"].
Proof. vm_compute. reflexivity. Qed.

Example js_number_ex :
  map js_number [js ""; js " 1 "; js "0x1F"; js "1e0"; js "+01"; js "1.50"; js ".5"; js "1a"]
  = [NInt 0; NInt 1; NInt 31; NInt 1; NInt 1; NDec 15 1; NDec 5 1; NNaN].
Proof. vm_compute. reflexivity. Qed.

Lemma horner_bound ds a : digits_ok ds -> 0 <= a ->
  a * 10 ^ Z.of_nat (length ds) <= horner a ds < (a + 1) * 10 ^ Z.of_nat (length ds).
Proof.
  intros Hds. revert a. induction Hds as [|u ds Hu _ IH]; intros a Ha; [cbn; lia|].
  unfold horner in *. cbn [foldl length]. unfold is_digit in Hu. bool_prop.
  specialize (IH (10 * a + (u - c_0)) ltac:(lia)).
  rewrite Nat2Z.inj_succ, Z.pow_succ_r by lia. nia.
Qed.

(** A number below 10^d has at most [d] digits. *)
Lemma dec_length n d : (1 <= d)%nat -> 0 <= n < 10 ^ Z.of_nat d -> (length (dec n) <= d)%nat.
Proof.
  intros Hd Hn. destruct (dec_spec n) as (Hok & Hh & [(u & ds & E & Hu)|E]); [lia| |rewrite E; cbn; lia].
  rewrite E in *. apply Forall_cons in Hok as [Hu' Hds]. unfold is_digit in Hu'. bool_prop.
  pose proof (horner_bound ds (u - c_0) Hds ltac:(lia)) as Hb.
  change (horner 0 (u :: ds)) with (horner (u - c_0) ds) in Hh. rewrite Hh in Hb.
  destruct (Nat.le_gt_cases (length (u :: ds)) d) as [|Hgt]; [done|exfalso]. cbn in Hgt.
  assert (10 ^ Z.of_nat d <= 10 ^ Z.of_nat (length ds)) by (apply Z.pow_le_mono_r; lia). nia.
Qed.

(** ** [Number(String(z))] *)

Lemma digit_no_ws u : is_digit u = true -> is_ws u = false.
Proof. unfold is_digit, is_ws. intros Hu. bool_prop. zcases; lia. Qed.

Lemma digits_trim ds : digits_ok ds -> trim ds = ds.
Proof.
  intros Hd. apply trimmed_trim. split.
  - destruct Hd; [done|by apply digit_no_ws].
  - destruct (last ds) as [u|] eqn:El; [|done]. apply last_Some_elem_of in El. apply digit_no_ws.
    by apply (proj1 (Forall_forall _ _) Hd).
Qed.

Lemma decimal_number_dec z : 0 <= z -> decimal_number (dec z) = NInt z.
Proof.
  intros Hz. destruct (dec_spec z Hz) as (Hd & Hh & _). pose proof (dec_nonempty z Hz) as Hn.
  pose proof (span_digits_app (dec z) [] Hd I) as Hs. rewrite app_nil_r in Hs.
  destruct (dec z) as [|u ds] eqn:E; [done|]. apply Forall_cons in Hd as [Hu _].
  assert (Hu2 : 48 <= u <= 57) by (unfold is_digit in Hu; bool_prop; lia).
  unfold decimal_number.
  assert (scan_sign (u :: ds) = (false, u :: ds)) as ->.
  { cbn. destruct (Z.eqb_spec u c_minus), (Z.eqb_spec u c_plus); [lia..|done]. }
  assert (str_eqb (u :: ds) (js "Infinity") = false) as ->.
  { change (js "Infinity") with (73 :: js "nfinity"). apply bool_decide_eq_false. intros [= -> _]. lia. }
  rewrite Hs, scan_tail_stop by done. by rewrite Hh.
Qed.

Lemma js_number_dec z : 0 <= z -> js_number (dec z) = NInt z.
Proof.
  intros Hz. destruct (dec_spec z Hz) as (Hd & _). pose proof (decimal_number_dec z Hz) as Hn.
  unfold js_number. rewrite digits_trim by done. pose proof (dec_nonempty z Hz).
  destruct (dec z) as [|u [|x r]]; [done|done|]. apply Forall_cons in Hd as [_ [Hx _]%Forall_cons].
  destruct (u =? c_0); [|done]. unfold is_digit in Hx. bool_prop.
  rewrite !(proj2 (Z.eqb_neq x _)) by lia. done.
Qed.
