(* ===== verification/Json.v ===== *)
(** JSON values as the source handles them: property lookup, [String(v)],
    truthiness, [JSON.stringify] (compact and indented) and [JSON.parse]. *)
From S2P Require Import Prelude Text Numeral.

#[local] Unset Elimination Schemes.
Inductive json :=
| JNull
| JBool (b : bool)
| JNum (n : jsnum)
| JStr (s : jsstr)
| JArr (l : list json)
| JObj (o : list (jsstr * json)).
#[local] Set Elimination Schemes.

(** A JavaScript value the program can meet: [None] is [undefined]. *)
Abbreviation jsv := (option json).

Section json_ind.
Variable P : json -> Prop.
Hypothesis Hnull : P JNull.
Hypothesis Hbool : forall b, P (JBool b).
Hypothesis Hnum : forall n, P (JNum n).
Hypothesis Hstr : forall s, P (JStr s).
Hypothesis Harr : forall l, Forall P l -> P (JArr l).
Hypothesis Hobj : forall o, Forall (fun kv => P kv.2) o -> P (JObj o).

Definition json_ind : forall v, P v :=
  fix go v :=
    match v with
    | JNull => Hnull
    | JBool b => Hbool b
    | JNum n => Hnum n
    | JStr s => Hstr s
    | JArr l =>
        Harr l ((fix all l : Forall P l :=
          match l with
          | [] => Forall_nil_2 P
          | w :: l' => Forall_cons_2 P w l' (go w) (all l')
          end) l)
    | JObj o =>
        Hobj o ((fix all o : Forall (fun kv => P kv.2) o :=
          match o with
          | [] => Forall_nil_2 (fun kv : jsstr * json => P kv.2)
          | (k, w) :: o' => Forall_cons_2 (fun kv : jsstr * json => P kv.2) (k, w) o' (go w) (all o')
          end) o)
    end.
End json_ind.

Fixpoint json_eqb (v w : json) {struct v} : bool :=
  match v, w with
  | JNull, JNull => true
  | JBool b, JBool c => Bool.eqb b c
  | JNum m, JNum n => bool_decide (m = n)
  | JStr s, JStr t => bool_decide (s = t)
  | JArr l, JArr l' =>
      (fix all (l l' : list json) : bool :=
        match l, l' with
        | [], [] => true
        | a :: l, b :: l' => json_eqb a b && all l l'
        | _, _ => false
        end) l l'
  | JObj o, JObj o' =>
      (fix all (o o' : list (jsstr * json)) : bool :=
        match o, o' with
        | [], [] => true
        | (k, a) :: o, (k', b) :: o' => bool_decide (k = k') && (json_eqb a b && all o o')
        | _, _ => false
        end) o o'
  | _, _ => false
  end.

Lemma json_eqb_eq v : forall w, json_eqb v w = true <-> v = w.
Proof.
  induction v as [|b|n|s|l IH|o IH] using json_ind; intros w; destruct w as [|c|m|t|l'|o']; cbn;
    try (split; [done|discriminate]); try done.
  - rewrite eqb_true_iff. split; congruence.
  - rewrite bool_decide_eq_true. split; congruence.
  - rewrite bool_decide_eq_true. split; congruence.
  - revert l'. induction IH as [|a l Ha _ IHl]; intros [|b l']; try (split; [done|discriminate]); try done.
    rewrite andb_true_iff, Ha, IHl. split; [by intros [-> [= ->]]|by intros [= -> ->]].
  - revert o'. induction IH as [|[k a] o Ha _ IHo]; intros [|[k' b] o'];
      try (split; [done|discriminate]); try done.
    rewrite !andb_true_iff, bool_decide_eq_true, (Ha b), IHo. cbn.
    split; [by intros (-> & -> & [= ->])|by intros [= -> -> ->]].
Qed.

#[global] Instance json_eq_dec : EqDecision json.
Proof.
  intros v w. refine (match json_eqb v w as b return json_eqb v w = b -> Decision (v = w) with
    | true => fun E => left (proj1 (json_eqb_eq v w) E)
    | false => fun E => right _ end eq_refl).
  intros H. apply json_eqb_eq in H. congruence.
Defined.

(** ** Objects *)

(** Own properties keep insertion order, but array-index keys come first, in
    numeric order. *)
Definition array_index (k : jsstr) : option Z :=
  match k with
  | [] => None
  | u :: k' =>
      if forallb is_digit k && (negb (u =? c_0) || bool_decide (k' = [])) && (Nat.leb (length k) 10)
      then let n := horner 0 k in if n <? 2 ^ 32 - 1 then Some n else None
      else None
  end.
Definition key_rank (k : jsstr) : Z := default (2 ^ 32) (array_index k).

Fixpoint obj_get (k : jsstr) (o : list (jsstr * json)) : jsv :=
  match o with
  | [] => None
  | (k', v) :: o' => if str_eqb k k' then Some v else obj_get k o'
  end.

Fixpoint obj_replace (k : jsstr) (v : json) (o : list (jsstr * json)) : list (jsstr * json) :=
  match o with
  | [] => []
  | (k', w) :: o' => if str_eqb k k' then (k', v) :: o' else (k', w) :: obj_replace k v o'
  end.

Fixpoint obj_insert (k : jsstr) (v : json) (o : list (jsstr * json)) : list (jsstr * json) :=
  match o with
  | [] => [(k, v)]
  | (k', w) :: o' =>
      if key_rank k <? key_rank k' then (k, v) :: o else (k', w) :: obj_insert k v o'
  end.

(** [o[k] = v] *)
Definition obj_put (k : jsstr) (v : json) (o : list (jsstr * json)) : list (jsstr * json) :=
  match obj_get k o with
  | Some _ => obj_replace k v o
  | None => obj_insert k v o
  end.

(** [{...o, ...entries}]: a spread, entry by entry. *)
Definition obj_assign (o entries : list (jsstr * json)) : list (jsstr * json) :=
  foldl (fun acc kv => obj_put kv.1 kv.2 acc) o entries.

(** An object literal with possibly undefined members; [JSON.stringify] drops those. *)
Definition obj_of (members : list (jsstr * jsv)) : json :=
  JObj (omap (fun kv => pair kv.1 <$> kv.2) members).

(** [v.k] on a value that is neither null nor undefined. *)
Definition get_prop (k : jsstr) (v : json) : jsv :=
  match v with JObj o => obj_get k o | _ => None end.

Definition keys (o : list (jsstr * json)) : list jsstr := o.*1.

(** Keys are distinct and in property order. *)
Fixpoint keys_ok (ks : list jsstr) : bool :=
  match ks with
  | [] => true
  | k :: ks' =>
      forallb (fun k' => negb (str_eqb k' k) && negb (key_rank k' <? key_rank k)) ks' && keys_ok ks'
  end.

(** ** Conversions *)

Definition truthy (v : jsv) : bool :=
  match v with
  | None | Some JNull => false
  | Some (JBool b) => b
  | Some (JNum n) => negb (bool_decide (n = NInt 0 \/ n = NNaN))
  | Some (JStr s) => match s with [] => false | _ => true end
  | Some _ => true
  end.

Definition nullish (v : jsv) : bool :=
  match v with None | Some JNull => true | _ => false end.

Definition is_array (v : jsv) : bool := match v with Some (JArr _) => true | _ => false end.

(** [typeof v === "object"], true of null too. *)
Definition typeof_object (v : jsv) : bool :=
  match v with Some (JObj _) | Some (JArr _) | Some JNull => true | _ => false end.

(** [String(v)]; [None] is the TypeError an own [toString] that is not callable
    (all a JSON object can carry) provokes. *)
Fixpoint json_to_string (v : json) : option jsstr :=
  match v with
  | JNull => Some (js "null")
  | JBool true => Some (js "true")
  | JBool false => Some (js "false")
  | JNum n => Some (num_to_string n)
  | JStr s => Some s
  | JArr l =>
      join [c_comma] <$>
        (fix all (l : list json) : option (list jsstr) :=
          match l with
          | [] => Some []
          | w :: l' =>
              s ← match w with JNull => Some [] | _ => json_to_string w end;
              ss ← all l';
              Some (s :: ss)
          end) l
  | JObj o =>
      match obj_get (js "toString") o with
      | Some _ => None
      | None => Some (js "[object Object]")
      end
  end.
Definition js_to_string (v : jsv) : option jsstr :=
  match v with None => Some (js "undefined") | Some w => json_to_string w end.

(** [ToNumber(v)]; [None] is a TypeError. *)
Definition json_to_number (v : json) : option jsnum :=
  match v with
  | JNull => Some (NInt 0)
  | JBool b => Some (NInt (if b then 1 else 0))
  | JNum n => Some n
  | JStr s => Some (js_number s)
  | JArr _ | JObj _ => js_number <$> json_to_string v
  end.
Definition js_to_number (v : jsv) : option jsnum :=
  match v with None => Some NNaN | Some w => json_to_number w end.

(** [v ?? d] *)
Definition coalesce (v : jsv) (d : json) : json :=
  match v with None | Some JNull => d | Some w => w end.

(** ** [JSON.stringify] *)

Definition is_high (u : Z) : bool := (55296 <=? u) && (u <=? 56319).
Definition is_low (u : Z) : bool := (56320 <=? u) && (u <=? 57343).

Definition hex_digit (d : Z) : Z := if d <? 10 then 48 + d else 87 + d.
Definition hex4 (u : Z) : jsstr :=
  [hex_digit (u / 4096 mod 16); hex_digit (u / 256 mod 16); hex_digit (u / 16 mod 16);
   hex_digit (u mod 16)].
Definition unicode_escape (u : Z) : jsstr := c_bslash :: 117 :: hex4 u.

(** One unit of a quoted string, between its neighbours: a surrogate is
    escaped unless it is half of a pair. *)
Definition quote_unit (prev : option Z) (u : Z) (next : option Z) : jsstr :=
  if u =? 8 then [c_bslash; 98]
  else if u =? c_tab then [c_bslash; 116]
  else if u =? c_lf then [c_bslash; 110]
  else if u =? 12 then [c_bslash; 102]
  else if u =? c_cr then [c_bslash; 114]
  else if u =? c_quote then [c_bslash; c_quote]
  else if u =? c_bslash then [c_bslash; c_bslash]
  else if u <? 32 then unicode_escape u
  else if is_high u then
    if match next with Some v => is_low v | None => false end then [u] else unicode_escape u
  else if is_low u then
    if match prev with Some v => is_high v | None => false end then [u] else unicode_escape u
  else [u].

Fixpoint quote_units (prev : option Z) (s : jsstr) : jsstr :=
  match s with
  | [] => []
  | u :: s' => quote_unit prev u (head s') ++ quote_units (Some u) s'
  end.
Definition quote (s : jsstr) : jsstr := c_quote :: quote_units None s ++ [c_quote].

(** Bracketing of the members of an array or object, with the gap of the third
    argument of [JSON.stringify] and the current indentation. *)
Definition layout (opn cls : Z) (gap ind : jsstr) (parts : list jsstr) : jsstr :=
  match parts with
  | [] => [opn; cls]
  | _ =>
      match gap with
      | [] => opn :: join [c_comma] parts ++ [cls]
      | _ =>
          let ind' := ind ++ gap in
          opn :: c_lf :: ind' ++ join (c_comma :: c_lf :: ind') parts ++ c_lf :: ind ++ [cls]
      end
  end.
Definition key_sep (gap : jsstr) : jsstr :=
  match gap with [] => [c_colon] | _ => [c_colon; c_space] end.

Fixpoint stringify_at (gap ind : jsstr) (v : json) : jsstr :=
  match v with
  | JNull => js "null"
  | JBool true => js "true"
  | JBool false => js "false"
  | JNum (NInf _) | JNum NNaN => js "null"
  | JNum n => num_to_string n
  | JStr s => quote s
  | JArr l => layout c_lbrack c_rbrack gap ind (map (stringify_at gap (ind ++ gap)) l)
  | JObj o =>
      layout c_lbrace c_rbrace gap ind
        (map (fun '(k, w) => quote k ++ key_sep gap ++ stringify_at gap (ind ++ gap) w) o)
  end.

(** [JSON.stringify(v)] and [JSON.stringify(v, null, 2)] *)
Definition stringify (v : json) : jsstr := stringify_at [] [] v.
Definition stringify2 (v : json) : jsstr := stringify_at [c_space; c_space] [] v.

(** ** [JSON.parse] *)

Definition is_json_ws (u : Z) : bool :=
  (u =? c_tab) || (u =? c_lf) || (u =? c_cr) || (u =? c_space).
Fixpoint skip_ws (s : jsstr) : jsstr :=
  match s with
  | u :: s' => if is_json_ws u then skip_ws s' else s
  | [] => []
  end.

Definition hex4_value (a b c d : Z) : option Z :=
  x ← hex_val a; y ← hex_val b; z ← hex_val c; w ← hex_val d;
  Some (4096 * x + 256 * y + 16 * z + w).

Definition simple_escape (e : Z) : option Z :=
  if (e =? c_quote) || (e =? c_bslash) || (e =? c_slash) then Some e
  else if e =? 98 then Some 8
  else if e =? 102 then Some 12
  else if e =? 110 then Some c_lf
  else if e =? 114 then Some c_cr
  else if e =? 116 then Some c_tab
  else None.

Definition cons_fst (u : Z) (r : option (jsstr * jsstr)) : option (jsstr * jsstr) :=
  '(s, rest) ← r; Some (u :: s, rest).

(** The body of a string literal, after the opening quote. *)
Fixpoint parse_str (s : jsstr) : option (jsstr * jsstr) :=
  match s with
  | [] => None
  | u :: r =>
      if u =? c_quote then Some ([], r)
      else if u =? c_bslash then
        match r with
        | [] => None
        | e :: r1 =>
            if e =? 117 then
              match r1 with
              | a :: b :: c :: d :: r2 => z ← hex4_value a b c d; cons_fst z (parse_str r2)
              | _ => None
              end
            else z ← simple_escape e; cons_fst z (parse_str r1)
        end
      else if u <? 32 then None
      else cons_fst u (parse_str r)
  end.

(** Result of a parsing step: [POut] is fuel exhaustion, never a verdict on the text. *)
Inductive pres :=
| POk (v : json) (rest : jsstr)
| PErr
| POut.

Definition parse_literal (s : jsstr) : pres :=
  if starts_with (js "null") s then POk JNull (drop 4 s)
  else if starts_with (js "true") s then POk (JBool true) (drop 4 s)
  else if starts_with (js "false") s then POk (JBool false) (drop 5 s)
  else match scan_json_number s with Some (n, r) => POk (JNum n) r | None => PErr end.

Fixpoint parse_value (fuel : nat) (s : jsstr) : pres :=
  match fuel with
  | O => POut
  | S f =>
      match s with
      | [] => PErr
      | u :: r =>
          if u =? c_quote then
            match parse_str r with Some (t, r') => POk (JStr t) r' | None => PErr end
          else if u =? c_lbrack then
            match skip_ws r with
            | [] => PErr
            | v :: r' => if v =? c_rbrack then POk (JArr []) r' else parse_elems f (v :: r') []
            end
          else if u =? c_lbrace then
            match skip_ws r with
            | [] => PErr
            | v :: r' => if v =? c_rbrace then POk (JObj []) r' else parse_members f (v :: r') []
            end
          else parse_literal s
      end
  end
with parse_elems (fuel : nat) (s : jsstr) (acc : list json) : pres :=
  match fuel with
  | O => POut
  | S f =>
      match parse_value f s with
      | POk v r =>
          match skip_ws r with
          | [] => PErr
          | u :: r' =>
              if u =? c_comma then parse_elems f (skip_ws r') (acc ++ [v])
              else if u =? c_rbrack then POk (JArr (acc ++ [v])) r'
              else PErr
          end
      | e => e
      end
  end
with parse_members (fuel : nat) (s : jsstr) (acc : list (jsstr * json)) : pres :=
  match fuel with
  | O => POut
  | S f =>
      match s with
      | [] => PErr
      | q :: s1 =>
          if q =? c_quote then
            match parse_str s1 with
            | None => PErr
            | Some (k, s2) =>
                match skip_ws s2 with
                | [] => PErr
                | c :: s3 =>
                    if c =? c_colon then
                      match parse_value f (skip_ws s3) with
                      | POk v r =>
                          match skip_ws r with
                          | [] => PErr
                          | u :: r' =>
                              if u =? c_comma then parse_members f (skip_ws r') (obj_put k v acc)
                              else if u =? c_rbrace then POk (JObj (obj_put k v acc)) r'
                              else PErr
                          end
                      | e => e
                      end
                    else PErr
                end
            end
          else PErr
      end
  end.

(** [JSON.parse(s)]; [None] is the SyntaxError. *)
Definition json_parse (s : jsstr) : option json :=
  match parse_value (2 * length s + 2) (skip_ws s) with
  | POk v r => match skip_ws r with [] => Some v | _ => None end
  | _ => None
  end.

Example json_parse_ex :
  json_parse (jq " { 'b' : [1, 2.50, -3e2, 'a\u0041\n'], '2': true, '1': null, 'b': {} } ")
  = Some (JObj [(js "1", JNull); (js "2", JBool true); (js "b", JObj [])]).
Proof. vm_compute. reflexivity. Qed.
