(* ===== verification/JsonFacts.v ===== *)
(** Laws of the JSON layer: the parser never runs out of fuel, and reads back
    exactly what either printer writes. *)
From S2P Require Import Prelude Text Numeral Json.

(** ** Well-formed values: what [JSON.stringify] prints without loss *)
Definition num_ok (n : jsnum) : Prop := match n with NInt z => Z.abs z < 10 ^ 21 | _ => False end.

Fixpoint json_ok (v : json) : Prop :=
  match v with
  | JNull | JBool _ => True
  | JNum n => num_ok n
  | JStr s => units_ok s
  | JArr l => (fix all l := match l with [] => True | w :: l' => json_ok w /\ all l' end) l
  | JObj o =>
      keys_ok (keys o) = true /\
      (fix all (o : list (jsstr * json)) :=
        match o with [] => True | (k, w) :: o' => (units_ok k /\ json_ok w) /\ all o' end) o
  end.

Lemma json_ok_arr l : json_ok (JArr l) <-> Forall json_ok l.
Proof.
  cbn. induction l as [|w l IH]; [split; [constructor|done]|]. rewrite Forall_cons, <- IH. done.
Qed.

Lemma json_ok_obj o :
  json_ok (JObj o) <-> keys_ok (keys o) = true /\ Forall (fun kv => units_ok kv.1 /\ json_ok kv.2) o.
Proof.
  cbn. apply and_iff_compat_l.
  induction o as [|[k w] o IH]; [split; [constructor|done]|]. rewrite Forall_cons, <- IH. done.
Qed.

(** The same as a test, to check concrete values by evaluation. *)
Fixpoint json_okb (v : json) : bool :=
  match v with
  | JNull | JBool _ => true
  | JNum (NInt z) => Z.abs z <? 10 ^ 21
  | JNum _ => false
  | JStr s => bool_decide (units_ok s)
  | JArr l => forallb json_okb l
  | JObj o => keys_ok (keys o) && forallb (fun '(k, w) => bool_decide (units_ok k) && json_okb w) o
  end.

Lemma json_okb_ok v : json_okb v = true -> json_ok v.
Proof.
  induction v as [|b|n|s|l IH|o IH] using json_ind; cbn [json_okb]; intros H; try done.
  - destruct n; try done. by apply Z.ltb_lt.
  - by apply bool_decide_eq_true in H.
  - apply json_ok_arr. induction IH as [|w l Hw _ IHl]; [constructor|]. cbn in H.
    apply andb_true_iff in H as [H1 H2]. constructor; auto.
  - apply andb_true_iff in H as [Hk H]. apply json_ok_obj. split; [done|]. clear Hk.
    induction IH as [|[k w] o Hw _ IHo]; [constructor|]. cbn in H. rewrite !andb_true_iff in H.
    destruct H as [[H1%bool_decide_eq_true H2] H3]. constructor; [split; auto|auto].
Qed.

(** ** Strings *)

Lemma hex_val_digit d : 0 <= d < 16 -> hex_val (hex_digit d) = Some d.
Proof. intros H. unfold hex_val, hex_digit, is_digit. zcases; f_equal; lia. Qed.

Lemma hex4_value_hex4 u : unit_ok u ->
  hex4_value (hex_digit (u / 4096 mod 16)) (hex_digit (u / 256 mod 16))
    (hex_digit (u / 16 mod 16)) (hex_digit (u mod 16)) = Some u.
Proof.
  intros Hu. unfold hex4_value.
  rewrite !hex_val_digit by (apply Z.mod_pos_bound; lia). cbn. f_equal. divlia.
Qed.

Lemma parse_str_unicode u r : unit_ok u ->
  parse_str (unicode_escape u ++ r) = cons_fst u (parse_str r).
Proof.
  intros Hu. unfold unicode_escape, hex4. cbn [app parse_str Z.eqb Pos.eqb].
  rewrite hex4_value_hex4 by done. done.
Qed.

Lemma parse_str_plain u r : u <> c_quote -> u <> c_bslash -> 32 <= u ->
  parse_str (u :: r) = cons_fst u (parse_str r).
Proof. intros. cbn. zcases. Qed.

Lemma parse_quote_unit p u n r : unit_ok u ->
  parse_str (quote_unit p u n ++ r) = cons_fst u (parse_str r).
Proof.
  intros Hu. unfold quote_unit.
  repeat (case_match; bool_prop; subst); cbn [app];
    first [reflexivity | by apply parse_str_unicode | apply parse_str_plain; lia].
Qed.

Lemma parse_quote_units p s r : units_ok s ->
  parse_str (quote_units p s ++ c_quote :: r) = Some (s, r).
Proof.
  intros Hs. revert p. induction Hs as [|u s Hu _ IH]; intros p; [done|].
  cbn [quote_units]. rewrite <- app_assoc, parse_quote_unit by done. by rewrite IH.
Qed.

Lemma parse_quote s r : units_ok s -> parse_str (quote_units None s ++ [c_quote] ++ r) = Some (s, r).
Proof. apply parse_quote_units. Qed.

(** ** Keys *)

Lemma obj_get_None k o : obj_get k o = None <-> k ∉ keys o.
Proof.
  induction o as [|[k' v] o IH]; cbn; [split; [intros _; apply not_elem_of_nil|done]|].
  unfold str_eqb. rewrite not_elem_of_cons, <- IH. case_bool_decide; split; intros; destruct_and?; split_and?; congruence.
Qed.

Lemma keys_ok_app ks k ks' : keys_ok (ks ++ (k :: ks')) = true ->
  (k ∉ ks) /\ Forall (fun k' => (key_rank k <? key_rank k') = false) ks.
Proof.
  induction ks as [|k0 ks IH]; cbn; [intros _; split; [apply not_elem_of_nil|constructor]|].
  intros H. bool_prop. destruct IH as [Hn Hf]; [done|].
  rewrite forallb_app in H. cbn in H. bool_prop. unfold str_eqb in *. bool_prop.
  split; [by apply not_elem_of_cons|]. constructor; [|done]. apply Z.ltb_ge. lia.
Qed.

Lemma obj_insert_last k v o :
  Forall (fun k' => (key_rank k <? key_rank k') = false) (keys o) ->
  obj_insert k v o = o ++ [(k, v)].
Proof.
  induction o as [|[k' w] o IH]; cbn; [done|]. rewrite Forall_cons. intros [-> Hf]. by rewrite IH.
Qed.

(** Adding the members of a well-formed object one by one rebuilds it. *)
Lemma obj_put_last k v acc rest :
  keys_ok (keys (acc ++ (k, v) :: rest)) = true -> obj_put k v acc = acc ++ [(k, v)].
Proof.
  unfold keys. rewrite fmap_app. cbn. intros H. apply keys_ok_app in H as [Hn Hf].
  unfold obj_put. rewrite (proj2 (obj_get_None _ _) Hn). by apply obj_insert_last.
Qed.

(** ** White space and the ends of tokens *)

Definition ws_only (s : jsstr) : Prop := Forall (fun u => is_json_ws u = true) s.

Lemma skip_ws_app w s : ws_only w -> skip_ws (w ++ s) = skip_ws s.
Proof. induction 1 as [|u w Hu _ IH]; cbn; [done|]. by rewrite Hu. Qed.

Lemma skip_ws_cons u s : is_json_ws u = false -> skip_ws (u :: s) = u :: s.
Proof. intros H. cbn. by rewrite H. Qed.

Lemma skip_ws_length s : (length (skip_ws s) <= length s)%nat.
Proof. induction s as [|u s IH]; cbn; [lia|]. destruct (is_json_ws u); cbn; lia. Qed.

(** ** Fuel *)

Lemma parse_str_length s t r : parse_str s = Some (t, r) -> (length r < length s)%nat.
Proof.
  revert t r. induction s as [s IH] using (induction_ltof1 _ (@length Z)); unfold ltof in IH.
  intros t r. destruct s as [|u s]; [done|]. cbn.
  destruct (u =? c_quote); [intros [= _ <-]; cbn; lia|].
  destruct (u =? c_bslash).
  - destruct s as [|e s]; [done|]. destruct (e =? 117).
    + destruct s as [|a [|b [|c [|d s]]]]; try done. destruct (hex4_value a b c d); [|done].
      cbn. destruct (parse_str s) as [[t' r']|] eqn:E; [|done]. intros [= _ <-].
      apply IH in E; cbn in *; lia.
    + destruct (simple_escape e); [|done]. cbn.
      destruct (parse_str s) as [[t' r']|] eqn:E; [|done]. intros [= _ <-].
      apply IH in E; cbn in *; lia.
  - destruct (u <? 32); [done|].
    destruct (parse_str s) as [[t' r']|] eqn:E; [|done]. intros [= _ <-].
    apply IH in E; cbn in *; lia.
Qed.

(** The characters a number token is made of. *)
Definition num_char (u : Z) : Prop :=
  is_digit u = true \/ u = c_dot \/ u = c_minus \/ u = c_plus \/ u = 101 \/ u = 69.

(** [r] is what remains of [s] after some number characters. *)
Definition consumes (s r : jsstr) : Prop := exists c, s = c ++ r /\ Forall num_char c.

Lemma consumes_refl s : consumes s s.
Proof. exists []. split; [done|constructor]. Qed.

Lemma consumes_cons u s r : num_char u -> consumes s r -> consumes (u :: s) r.
Proof. intros Hu (c & -> & Hc). exists (u :: c). split; [done|by constructor]. Qed.

Lemma consumes_trans s t r : consumes s t -> consumes t r -> consumes s r.
Proof.
  intros (c & -> & Hc) (d & -> & Hd). exists (c ++ d). rewrite app_assoc.
  split; [done|by apply Forall_app].
Qed.

Lemma span_digits_consumes s : consumes s (span_digits s).2.
Proof.
  destruct (span_digits s) as [ds r] eqn:E. apply span_digits_spec in E as [-> Hd].
  exists ds. split; [done|]. eapply Forall_impl; [exact Hd|]. by left.
Qed.

Lemma scan_sign_consumes s : consumes s (scan_sign s).2.
Proof.
  destruct s as [|u s]; [apply consumes_refl|]. cbn.
  destruct (Z.eqb_spec u c_minus) as [->|]; [|destruct (Z.eqb_spec u c_plus) as [->|]];
    first [apply consumes_refl | apply consumes_cons; [unfold num_char; tauto|apply consumes_refl]].
Qed.

Lemma scan_fraction_consumes need s fr r : scan_fraction need s = Some (fr, r) -> consumes s r.
Proof.
  destruct s as [|u s]; [intros [= <- <-]; apply consumes_refl|]. cbn.
  destruct (Z.eqb_spec u c_dot) as [->|]; [|intros [= <- <-]; apply consumes_refl].
  pose proof (span_digits_consumes s) as Hc. destruct (span_digits s) as [ds r'].
  intros E. apply consumes_cons; [unfold num_char; auto|].
  destruct ds; [destruct need; [done|]|]; by injection E as <- <-.
Qed.

Lemma scan_exponent_consumes s e r : scan_exponent s = Some (e, r) -> consumes s r.
Proof.
  destruct s as [|u s]; [intros [= <- <-]; apply consumes_refl|]. cbn.
  destruct ((u =? 101) || (u =? 69)) eqn:Eu; [|intros [= <- <-]; apply consumes_refl].
  apply orb_true_iff in Eu. rewrite !Z.eqb_eq in Eu.
  pose proof (scan_sign_consumes s) as Hs. destruct (scan_sign s) as [sg s1].
  pose proof (span_digits_consumes s1) as Hd. destruct (span_digits s1) as [ds r'].
  intros E. apply consumes_cons; [unfold num_char; tauto|]. eapply consumes_trans; [exact Hs|].
  destruct ds; [done|]. by injection E as <- <-.
Qed.

Lemma scan_tail_consumes need neg ip s n r : scan_tail need neg ip s = Some (n, r) -> consumes s r.
Proof.
  unfold scan_tail. destruct (scan_fraction need s) as [[fr s1]|] eqn:Ef; [|done]. cbn.
  destruct (scan_exponent s1) as [[e s2]|] eqn:Ee; [|done]. cbn. intros [= _ <-].
  eapply consumes_trans; [by eapply scan_fraction_consumes|by eapply scan_exponent_consumes].
Qed.

Lemma scan_json_number_consumes s n r :
  scan_json_number s = Some (n, r) -> consumes s r /\ (length r < length s)%nat.
Proof.
  unfold scan_json_number.
  set (p := match s with u :: r => if u =? c_minus then (true, r) else (false, s)
                       | [] => (false, []) end).
  assert (Hp : consumes s p.2).
  { subst p. destruct s as [|u s]; [apply consumes_refl|].
    destruct (Z.eqb_spec u c_minus) as [->|]; [|apply consumes_refl].
    apply consumes_cons; [unfold num_char; auto|apply consumes_refl]. }
  destruct p as [neg s1]. cbn in Hp. destruct s1 as [|u s1]; [done|].
  assert (Hlen : (length (u :: s1) <= length s)%nat)
    by (destruct Hp as (c & -> & _); rewrite length_app; lia).
  destruct (Z.eqb_spec u c_0) as [->|].
  - intros E%scan_tail_consumes. assert (consumes (48 :: s1) r) as Hc
      by (apply consumes_cons; [by left|done]).
    split; [by eapply consumes_trans|]. destruct E as (c & -> & _).
    cbn in Hlen. rewrite length_app in Hlen. lia.
  - destruct (span_digits (u :: s1)) as [ds s2] eqn:Ed. destruct ds as [|d ds]; [done|].
    intros E%scan_tail_consumes. pose proof (span_digits_consumes (u :: s1)) as Hd.
    rewrite Ed in Hd. split; [eapply consumes_trans; [exact Hp|by eapply consumes_trans]|].
    apply span_digits_spec in Ed as [Ed _]. destruct E as (c & -> & _).
    rewrite Ed in Hlen. cbn in Hlen. rewrite !length_app in Hlen. lia.
Qed.

Lemma parse_literal_length s v r : parse_literal s = POk v r -> (length r < length s)%nat.
Proof.
  unfold parse_literal.
  assert (Hl : forall p, starts_with p s = true -> p <> [] -> (length (drop (length p) s) < length s)%nat).
  { intros p [w ->]%starts_with_spec Hp. rewrite length_drop, length_app.
    destruct p; [done|]. cbn. lia. }
  destruct (starts_with (js "null") s) eqn:E1; [intros [= _ <-]; by apply (Hl (js "null"))|].
  destruct (starts_with (js "true") s) eqn:E2; [intros [= _ <-]; by apply (Hl (js "true"))|].
  destruct (starts_with (js "false") s) eqn:E3; [intros [= _ <-]; by apply (Hl (js "false"))|].
  destruct (scan_json_number s) as [[n r']|] eqn:En; [|intros [=]]. intros [= _ <-].
  by apply scan_json_number_consumes in En as [_ ?].
Qed.

(** Every successful step consumes text, whatever the fuel. *)
Lemma parse_length f :
  (forall s v r, parse_value f s = POk v r -> (length r < length s)%nat) /\
  (forall s acc v r, parse_elems f s acc = POk v r -> (length r < length s)%nat) /\
  (forall s acc v r, parse_members f s acc = POk v r -> (length r < length s)%nat).
Proof.
  induction f as [|f (IHv & IHe & IHm)]; [done|]. split_and!.
  - intros s v r. cbn. destruct s as [|u s]; [done|].
    pose proof (skip_ws_length s).
    destruct (u =? c_quote); [destruct (parse_str s) as [[t r']|] eqn:E;
      [intros [= _ <-]; apply parse_str_length in E; cbn; lia|done]|].
    destruct (u =? c_lbrack).
    { destruct (skip_ws s) as [|w s'] eqn:E; [done|]. cbn in *.
      destruct (w =? c_rbrack); [intros [= _ <-]; lia|intros H'%IHe; cbn in *; lia]. }
    destruct (u =? c_lbrace).
    { destruct (skip_ws s) as [|w s'] eqn:E; [done|]. cbn in *.
      destruct (w =? c_rbrace); [intros [= _ <-]; lia|intros H'%IHm; cbn in *; lia]. }
    apply parse_literal_length.
  - intros s acc v r. cbn. destruct (parse_value f s) as [w r'| |] eqn:E; try done.
    apply IHv in E. pose proof (skip_ws_length r').
    destruct (skip_ws r') as [|u r2]; [done|]. cbn in *. pose proof (skip_ws_length r2).
    destruct (u =? c_comma); [intros H'%IHe; lia|].
    destruct (u =? c_rbrack); [intros [= _ <-]; lia|done].
  - intros s acc v r. cbn. destruct s as [|q s1]; [done|]. destruct (q =? c_quote); [|done].
    destruct (parse_str s1) as [[k s2]|] eqn:Ek; [|done]. apply parse_str_length in Ek.
    pose proof (skip_ws_length s2). destruct (skip_ws s2) as [|c s3]; [done|].
    destruct (c =? c_colon); [|done]. pose proof (skip_ws_length s3).
    destruct (parse_value f (skip_ws s3)) as [w r'| |] eqn:E; try done.
    apply IHv in E. pose proof (skip_ws_length r').
    destruct (skip_ws r') as [|u r2]; [done|]. cbn in *. pose proof (skip_ws_length r2).
    destruct (u =? c_comma); [intros H'%IHm; lia|].
    destruct (u =? c_rbrace); [intros [= _ <-]; lia|done].
Qed.

(** Two units of fuel per character (plus one) are enough. *)
Lemma parse_fuel_enough f :
  (forall s, (2 * length s + 1 <= f)%nat -> parse_value f s <> POut) /\
  (forall s acc, (2 * length s + 2 <= f)%nat -> parse_elems f s acc <> POut) /\
  (forall s acc, (2 * length s + 2 <= f)%nat -> parse_members f s acc <> POut).
Proof.
  induction f as [|f (IHv & IHe & IHm)]; [split_and!; intros; lia|].
  destruct (parse_length f) as (Lv & _). split_and!.
  - intros s Hf. cbn. destruct s as [|u s]; [done|]. cbn in Hf. pose proof (skip_ws_length s).
    destruct (u =? c_quote); [by destruct (parse_str s) as [[? ?]|]|].
    destruct (u =? c_lbrack).
    { destruct (skip_ws s) as [|w s'] eqn:E; [done|]. destruct (w =? c_rbrack); [done|].
      apply IHe. cbn in *; lia. }
    destruct (u =? c_lbrace).
    { destruct (skip_ws s) as [|w s'] eqn:E; [done|]. destruct (w =? c_rbrace); [done|].
      apply IHm. cbn in *; lia. }
    unfold parse_literal. repeat (case_match; [done|]). by repeat case_match.
  - intros s acc Hf. cbn. specialize (IHv s ltac:(lia)).
    destruct (parse_value f s) as [w r'| |] eqn:E; try done. apply Lv in E.
    pose proof (skip_ws_length r'). destruct (skip_ws r') as [|u r2]; [done|]. cbn in *.
    pose proof (skip_ws_length r2). destruct (u =? c_comma); [apply IHe; lia|].
    by destruct (u =? c_rbrack).
  - intros s acc Hf. cbn. destruct s as [|q s1]; [done|]. destruct (q =? c_quote); [|done].
    destruct (parse_str s1) as [[k s2]|] eqn:Ek; [|done]. apply parse_str_length in Ek.
    pose proof (skip_ws_length s2). destruct (skip_ws s2) as [|c s3]; [done|].
    destruct (c =? c_colon); [|done]. pose proof (skip_ws_length s3). cbn in *.
    specialize (IHv (skip_ws s3) ltac:(lia)).
    destruct (parse_value f (skip_ws s3)) as [w r'| |] eqn:E; try done. apply Lv in E.
    pose proof (skip_ws_length r'). destruct (skip_ws r') as [|u r2]; [done|]. cbn in *.
    pose proof (skip_ws_length r2). destruct (u =? c_comma); [apply IHm; lia|].
    by destruct (u =? c_rbrace).
Qed.

(** More fuel never changes a verdict. *)
Lemma parse_fuel_step f :
  (forall s, parse_value f s <> POut -> parse_value (S f) s = parse_value f s) /\
  (forall s acc, parse_elems f s acc <> POut -> parse_elems (S f) s acc = parse_elems f s acc) /\
  (forall s acc, parse_members f s acc <> POut -> parse_members (S f) s acc = parse_members f s acc).
Proof.
  induction f as [|f (IHv & IHe & IHm)]; [done|]. split_and!.
  - intros s. remember (S f) as f' eqn:Ef. cbn. subst f'. cbn.
    destruct s as [|u s]; [done|]. destruct (u =? c_quote); [done|].
    destruct (u =? c_lbrack);
      [destruct (skip_ws s) as [|w s']; [done|]; destruct (w =? c_rbrack); [done|apply IHe]|].
    destruct (u =? c_lbrace); [|done].
    destruct (skip_ws s) as [|w s']; [done|]. destruct (w =? c_rbrace); [done|apply IHm].
  - intros s acc. remember (S f) as f' eqn:Ef. cbn. subst f'. cbn [parse_elems].
    destruct (parse_value f s) as [w r'| |] eqn:E; [..|done]; rewrite IHv, E by congruence; [|done].
    destruct (skip_ws r') as [|u r2]; [done|]. destruct (u =? c_comma); [apply IHe|done].
  - intros s acc. remember (S f) as f' eqn:Ef. cbn. subst f'. cbn [parse_members].
    destruct s as [|q s1]; [done|]. destruct (q =? c_quote); [|done].
    destruct (parse_str s1) as [[k s2]|]; [|done]. destruct (skip_ws s2) as [|c s3]; [done|].
    destruct (c =? c_colon); [|done].
    destruct (parse_value f (skip_ws s3)) as [w r'| |] eqn:E; [..|done];
      rewrite IHv, E by congruence; [|done].
    destruct (skip_ws r') as [|u r2]; [done|]. destruct (u =? c_comma); [apply IHm|done].
Qed.

Lemma parse_value_mono f f' s v r :
  (f <= f')%nat -> parse_value f s = POk v r -> parse_value f' s = POk v r.
Proof.
  induction 1 as [|f' _ IH]; [done|]. intros H. specialize (IH H).
  rewrite (proj1 (parse_fuel_step f')); congruence.
Qed.

Lemma parse_elems_mono f f' s acc v r :
  (f <= f')%nat -> parse_elems f s acc = POk v r -> parse_elems f' s acc = POk v r.
Proof.
  induction 1 as [|f' _ IH]; [done|]. intros H. specialize (IH H).
  rewrite (proj1 (proj2 (parse_fuel_step f'))); congruence.
Qed.

Lemma parse_members_mono f f' s acc v r :
  (f <= f')%nat -> parse_members f s acc = POk v r -> parse_members f' s acc = POk v r.
Proof.
  induction 1 as [|f' _ IH]; [done|]. intros H. specialize (IH H).
  rewrite (proj2 (proj2 (parse_fuel_step f'))); congruence.
Qed.

(** If any amount of fuel parses a text, the fuel of [json_parse] does. *)
Lemma json_parse_intro f s v r :
  skip_ws s = s -> parse_value f s = POk v r -> ws_only r -> json_parse s = Some v.
Proof.
  intros Hs Hp Hr. unfold json_parse. rewrite Hs.
  set (F := (2 * length s + 2)%nat).
  assert (parse_value F s = POk v r) as ->.
  { destruct (Nat.le_ge_cases f F) as [?|Hge]; [by eapply parse_value_mono|].
    pose proof (proj1 (parse_fuel_enough F) s ltac:(lia)) as Hne.
    destruct (parse_value F s) as [v' r'| |] eqn:E; [| |done].
    - apply (parse_value_mono _ f) in E; [|done]. congruence.
    - exfalso. assert (forall g, (F <= g)%nat -> parse_value g s = PErr) as Herr.
      { induction 1 as [|g Hg IH]; [done|]. rewrite (proj1 (parse_fuel_step g)); congruence. }
      rewrite Herr in Hp by done. done. }
  rewrite <- (app_nil_r r), skip_ws_app by done. done.
Qed.

(** ** Round trip *)

Lemma json_ws_stop u r : is_json_ws u = true -> stop_number (u :: r).
Proof.
  unfold is_json_ws. intros H. cbn.
  rewrite !orb_true_iff, !Z.eqb_eq in H. destruct H as [[[-> | ->] | ->] | ->]; done.
Qed.

(** The bracketed layout, as white space the parser skips. *)
Lemma layout_shape opn cls gap ind parts :
  ws_only gap -> ws_only ind -> parts <> [] ->
  exists w1 w2, ws_only w1 /\ ws_only w2 /\
    layout opn cls gap ind parts = opn :: w1 ++ join (c_comma :: w1) parts ++ w2 ++ [cls].
Proof.
  intros Hg Hi Hp. unfold layout. destruct parts as [|p parts]; [done|].
  destruct gap as [|g gap].
  - exists [], []. split_and!; [constructor|constructor|done].
  - exists (c_lf :: ind ++ g :: gap), (c_lf :: ind). split_and!; [..|done].
    + constructor; [done|]. by apply Forall_app.
    + by constructor.
Qed.

Definition first_unit_ok (s : jsstr) : Prop :=
  match s with [] => False | u :: _ => is_json_ws u = false /\ u <> c_rbrack end.

Lemma skip_ws_first s r : first_unit_ok s -> skip_ws (s ++ r) = s ++ r.
Proof. destruct s as [|u s]; [done|]. intros [H _]. by apply skip_ws_cons. Qed.

(** What the printer writes for a value is read back as that value, in any
    context that ends the token. *)
Definition reads_back (v : json) : Prop :=
  forall gap ind r, ws_only gap -> ws_only ind -> stop_number r ->
  exists f, parse_value f (stringify_at gap ind v ++ r) = POk v r.

Lemma digit_first u : is_digit u = true -> is_json_ws u = false /\ u <> c_rbrack.
Proof. unfold is_digit, is_json_ws. intros H. bool_prop. zcases. Qed.

Lemma num_to_string_first z : Z.abs z < 10 ^ 21 -> first_unit_ok (num_to_string (NInt z)).
Proof.
  intros Hz. cbn [num_to_string]. rewrite (proj2 (Z.ltb_lt _ _) Hz).
  destruct (dec_spec (Z.abs z) (Z.abs_nonneg z)) as (Hd & _ & Hc).
  unfold with_sign. destruct (z <? 0); [done|].
  assert (exists u ds, dec (Z.abs z) = u :: ds) as (u & ds & E)
    by (destruct Hc as [(u & ds & -> & _)| ->]; eauto).
  rewrite E in *. apply Forall_cons in Hd as [Hu _]. by apply digit_first.
Qed.

Lemma layout_first opn cls gap ind parts :
  first_unit_ok [opn] -> first_unit_ok (layout opn cls gap ind parts).
Proof. intros H. unfold layout. destruct parts; [done|]. by destruct gap. Qed.

Lemma stringify_first gap ind v : json_ok v -> first_unit_ok (stringify_at gap ind v).
Proof.
  destruct v as [|[]|n|s|l|o]; try done.
  - destruct n; try done. cbn [stringify_at json_ok num_ok]. apply num_to_string_first.
  - intros _. by apply layout_first.
  - intros _. by apply layout_first.
Qed.

Lemma scan_number_reads z r : Z.abs z < 10 ^ 21 -> stop_number r ->
  parse_value 1 (num_to_string (NInt z) ++ r) = POk (JNum (NInt z)) r.
Proof.
  intros Hz Hr. pose proof (scan_json_number_dec z r Hz Hr) as Hs.
  assert (exists u s, num_to_string (NInt z) = u :: s /\ (is_digit u = true \/ u = c_minus))
    as (u & s & E & Hu).
  { cbn [num_to_string]. rewrite (proj2 (Z.ltb_lt _ _) Hz).
    destruct (dec_spec (Z.abs z) (Z.abs_nonneg z)) as (Hd & _ & Hc).
    unfold with_sign. destruct (z <? 0); [eauto|].
    assert (exists u ds, dec (Z.abs z) = u :: ds) as (u & ds & E)
      by (destruct Hc as [(u & ds & -> & _)| ->]; eauto).
    rewrite E in *. apply Forall_cons in Hd as [Hu _]. eauto. }
  rewrite E in *. cbn [app] in *. unfold is_digit in Hu.
  assert (45 <= u <= 57) by (destruct Hu as [Hu|]; [bool_prop; lia|lia]).
  cbn [parse_value]. unfold parse_literal. cbn [starts_with js app]. cbn.
  zcases. by rewrite Hs.
Qed.

Lemma join_cons2 sep p q parts : join sep (p :: q :: parts) = p ++ sep ++ join sep (q :: parts).
Proof. done. Qed.

(** The loop over array elements. *)
Lemma elems_read_back gap ind w1 w2 l : ws_only w1 -> ws_only w2 -> ws_only gap -> ws_only ind ->
  Forall (fun v => json_ok v /\ reads_back v) l -> l <> [] -> forall acc r,
  exists f, parse_elems f
      (join (c_comma :: w1) (map (stringify_at gap ind) l) ++ w2 ++ [c_rbrack] ++ r) acc
    = POk (JArr (acc ++ l)) r.
Proof.
  intros Hw1 Hw2 Hg Hi. induction 1 as [|v l [Hok Hv] Hl IH]; [done|]. intros _ acc r.
  destruct l as [|v' l].
  - cbn [map join].
    destruct (Hv gap ind (w2 ++ [c_rbrack] ++ r)) as [f Hf]; [done..| |].
    { destruct Hw2; [done|]. by apply json_ws_stop. }
    exists (S f). cbn [parse_elems]. rewrite Hf, skip_ws_app by done. cbn. done.
  - destruct (IH ltac:(done) (acc ++ [v]) r) as [f1 Hf1]. clear IH.
    apply Forall_cons in Hl as [[Hok' _] _].
    cbn [map] in *. rewrite join_cons2. rewrite <- !app_assoc in *. cbn [app].
    set (tl := join (c_comma :: w1) _ ++ _) in *.
    destruct (Hv gap ind (c_comma :: w1 ++ tl)) as [f2 Hf2]; [done..|].
    exists (S (f1 + f2)). cbn [parse_elems].
    rewrite (parse_value_mono f2 (f1 + f2) _ _ _ ltac:(lia) Hf2).
    rewrite skip_ws_cons by done. cbn [Z.eqb Pos.eqb]. rewrite skip_ws_app by done.
    assert (skip_ws tl = tl) as ->.
    { unfold tl. pose proof (stringify_first gap ind v' Hok') as Hf.
      destruct (map (stringify_at gap ind) l); [by apply skip_ws_first|].
      rewrite join_cons2, <- app_assoc. by apply skip_ws_first. }
    eapply parse_elems_mono; [|exact Hf1]. lia.
Qed.

(** The loop over object members. *)
Definition member_text (gap ind : jsstr) (kv : jsstr * json) : jsstr :=
  let '(k, w) := kv in quote k ++ key_sep gap ++ stringify_at gap ind w.

Lemma parse_member gap ind k v rest : ws_only gap -> units_ok k -> json_ok v ->
  exists s3, skip_ws s3 = stringify_at gap ind v ++ rest /\
    parse_str (tail (member_text gap ind (k, v) ++ rest)) = Some (k, c_colon :: s3).
Proof.
  intros Hg Hk Hv. unfold member_text, quote. cbn [app tail]. rewrite <- !app_assoc.
  pose proof (skip_ws_first _ rest (stringify_first gap ind v Hv)) as Hf.
  destruct gap; cbn [key_sep].
  - eexists. split; [exact Hf|]. by apply parse_quote.
  - exists (c_space :: stringify_at (z :: gap) ind v ++ rest).
    split; [by cbn|]. by apply parse_quote.
Qed.

Lemma members_read_back gap ind w1 w2 o : ws_only w1 -> ws_only w2 -> ws_only gap -> ws_only ind ->
  Forall (fun kv => units_ok kv.1 /\ json_ok kv.2 /\ reads_back kv.2) o -> o <> [] ->
  forall acc r, keys_ok (keys (acc ++ o)) = true ->
  exists f, parse_members f
      (join (c_comma :: w1) (map (member_text gap ind) o) ++ w2 ++ [c_rbrace] ++ r) acc
    = POk (JObj (acc ++ o)) r.
Proof.
  intros Hw1 Hw2 Hg Hi. induction 1 as [|[k v] o (Hk & Hok & Hv) Ho IH]; [done|].
  intros _ acc r Hkeys. cbn [fst snd] in *.
  pose proof (obj_put_last k v acc o Hkeys) as Hput.
  destruct o as [|[k' v'] o].
  - cbn [map join].
    destruct (Hv gap ind (w2 ++ [c_rbrace] ++ r)) as [f Hf]; [done..| |].
    { destruct Hw2; [done|]. by apply json_ws_stop. }
    destruct (parse_member gap ind k v (w2 ++ [c_rbrace] ++ r)) as (s3 & Hs3 & Hp); [done..|].
    exists (S f). cbn [parse_members member_text quote app tail] in *.
    rewrite Z.eqb_refl, Hp, skip_ws_cons, Z.eqb_refl, Hs3, Hf, skip_ws_app by done.
    cbn. by rewrite Hput.
  - destruct (IH ltac:(done) (acc ++ [(k, v)]) r) as [f1 Hf1].
    { by rewrite <- app_assoc. }
    clear IH. apply Forall_cons in Ho as [(Hk' & Hok' & _) _].
    cbn [map] in *. rewrite join_cons2. rewrite <- !app_assoc in *. cbn [app] in *.
    set (tl := join (c_comma :: w1) _ ++ _) in *.
    destruct (Hv gap ind (c_comma :: w1 ++ tl)) as [f2 Hf2]; [done..|].
    destruct (parse_member gap ind k v (c_comma :: w1 ++ tl)) as (s3 & Hs3 & Hp); [done..|].
    exists (S (f1 + f2)). cbn [parse_members]. cbn [member_text quote app tail] in Hp |- *.
    rewrite Z.eqb_refl, Hp, skip_ws_cons, Z.eqb_refl, Hs3 by done.
    rewrite (parse_value_mono f2 (f1 + f2) _ _ _ ltac:(lia) Hf2).
    rewrite skip_ws_cons by done. cbn [Z.eqb Pos.eqb]. rewrite skip_ws_app by done.
    assert (skip_ws tl = tl) as ->.
    { unfold tl. destruct (map (member_text gap ind) o); cbn; done. }
    rewrite Hput. eapply parse_members_mono; [|exact Hf1]. lia.
Qed.

Lemma arr_reads_back l :
  Forall (fun v => json_ok v /\ reads_back v) l -> reads_back (JArr l).
Proof.
  intros Hl gap ind r Hg Hi Hr. cbn [stringify_at]. destruct l as [|v l]; [by exists 1%nat|].
  destruct (layout_shape c_lbrack c_rbrack gap ind
    (map (stringify_at gap (ind ++ gap)) (v :: l))) as (w1 & w2 & Hw1 & Hw2 & ->); [done..|].
  destruct (elems_read_back gap (ind ++ gap) w1 w2 (v :: l) Hw1 Hw2 Hg)
    with (acc := @nil json) (r := r) as [f Hf]; [by apply Forall_app|done|done|].
  exists (S f). cbn [app] in *. cbn [parse_value Z.eqb Pos.eqb]. rewrite <- !app_assoc.
  rewrite skip_ws_app by done. apply Forall_cons in Hl as [[Hok _] _].
  pose proof (stringify_first gap (ind ++ gap) v Hok) as Hfirst.
  set (body := join _ _ ++ _) in *.
  assert (exists u b, body = u :: b /\ is_json_ws u = false /\ u <> c_rbrack)
    as (u & b & Eb & Hu & Hu').
  { unfold body. cbn [map]. set (t := stringify_at gap (ind ++ gap) v) in *.
    destruct (map (stringify_at gap (ind ++ gap)) l); [|rewrite join_cons2];
      destruct t as [|u t]; try done; cbn; eauto. }
  rewrite Eb in *. rewrite skip_ws_cons by done. destruct (Z.eqb_spec u c_rbrack); done.
Qed.

Lemma obj_reads_back o : keys_ok (keys o) = true ->
  Forall (fun kv => units_ok kv.1 /\ json_ok kv.2 /\ reads_back kv.2) o -> reads_back (JObj o).
Proof.
  intros Hkeys Ho gap ind r Hg Hi Hr. cbn [stringify_at].
  destruct o as [|[k v] o]; [by exists 1%nat|].
  change (fun '(k0, w) => quote k0 ++ key_sep gap ++ stringify_at gap (ind ++ gap) w)
    with (member_text gap (ind ++ gap)).
  destruct (layout_shape c_lbrace c_rbrace gap ind
    (map (member_text gap (ind ++ gap)) ((k, v) :: o))) as (w1 & w2 & Hw1 & Hw2 & ->); [done..|].
  destruct (members_read_back gap (ind ++ gap) w1 w2 ((k, v) :: o) Hw1 Hw2 Hg)
    with (acc := @nil (jsstr * json)) (r := r) as [f Hf]; [by apply Forall_app|done..|].
  exists (S f). cbn [app] in *. cbn [parse_value Z.eqb Pos.eqb]. rewrite <- !app_assoc.
  rewrite skip_ws_app by done.
  set (body := join _ _ ++ _) in *.
  assert (exists b, body = c_quote :: b) as (b & Eb) by (unfold body; destruct o; cbn; eauto).
  rewrite Eb in *. rewrite skip_ws_cons by done. exact Hf.
Qed.

Lemma json_reads_back v : json_ok v -> reads_back v.
Proof.
  induction v as [|b|n|s|l IH|o IH] using json_ind; intros Hok.
  - intros gap ind r _ _ _. by exists 1%nat.
  - intros gap ind r _ _ _. exists 1%nat. by destruct b.
  - intros gap ind r _ _ Hr. exists 1%nat. destruct n as [z| | |]; try done.
    by apply scan_number_reads.
  - intros gap ind r _ _ _. exists 1%nat. cbn [stringify_at quote app parse_value].
    rewrite Z.eqb_refl, <- app_assoc, parse_quote by done. done.
  - apply arr_reads_back. apply json_ok_arr in Hok.
    induction IH; constructor; apply Forall_cons in Hok as [??]; auto.
  - apply json_ok_obj in Hok as [Hkeys Hok]. apply obj_reads_back; [done|].
    clear Hkeys. induction IH; constructor; apply Forall_cons in Hok as [[??]?]; auto.
Qed.

(** [JSON.parse] undoes [JSON.stringify], compact or indented, with blanks after it. *)
Lemma json_parse_stringify_ws gap v r : ws_only gap -> json_ok v -> ws_only r -> stop_number r ->
  json_parse (stringify_at gap [] v ++ r) = Some v.
Proof.
  intros Hg Hv Hw Hr. destruct (json_reads_back v Hv gap [] r) as [f Hf]; [done|constructor|done|].
  eapply json_parse_intro; [|exact Hf|exact Hw]. exact (skip_ws_first _ r (stringify_first gap [] v Hv)).
Qed.

Lemma json_parse_stringify_at gap v : ws_only gap -> json_ok v ->
  json_parse (stringify_at gap [] v) = Some v.
Proof.
  intros Hg Hv. pose proof (json_parse_stringify_ws gap v [] Hg Hv) as E. rewrite app_nil_r in E.
  apply E; [constructor|done].
Qed.

Lemma json_parse_stringify v : json_ok v -> json_parse (stringify v) = Some v.
Proof. by apply json_parse_stringify_at; constructor. Qed.

Lemma json_parse_stringify2 v : json_ok v -> json_parse (stringify2 v) = Some v.
Proof. apply json_parse_stringify_at. by repeat constructor. Qed.

(** A text that starts like a number and contains a character no number has is
    not JSON: the number token stops before that character. *)
Lemma json_parse_not_number u s v :
  is_digit u = true -> In v s -> is_json_ws v = false -> ~ num_char v ->
  json_parse (u :: s) = None.
Proof.
  intros Hu Hin Hv Hnc. unfold json_parse.
  destruct (digit_first u Hu) as [Hw _]. rewrite skip_ws_cons by done.
  replace (2 * length (u :: s) + 2)%nat with (S (2 * length (u :: s) + 1)) by lia.
  cbn [parse_value]. unfold is_digit in Hu. bool_prop.
  unfold parse_literal. cbn [starts_with js]. cbn. zcases.
  destruct (scan_json_number (u :: s)) as [[num r]|] eqn:E; [|done].
  apply scan_json_number_consumes in E as [(c & Ec & Hc) _].
  assert (Hr : In v r).
  { assert (In v (c ++ r)) as Hi by (rewrite <- Ec; by right).
    apply in_app_iff in Hi as [Hi|]; [|done]. exfalso. apply Hnc.
    rewrite Forall_forall in Hc. by apply Hc, list_elem_of_In. }
  clear -Hr Hv. induction r as [|w r IH]; [done|]. cbn.
  destruct (is_json_ws w) eqn:E; [|done]. apply IH. destruct Hr as [->|]; [congruence|done].
Qed.
