(* ===== verification/Encoding.v ===== *)
(** The text encodings of crypto/src/primitives.ts: [utf8]/[fromUtf8] over
    TextEncoder and TextDecoder, [toBase64]/[fromBase64] over btoa and atob. *)
From S2P Require Import Prelude Text Json.

(** ** UTF-8 *)

Abbreviation replacement := 65533.
Abbreviation bom := 65279.

(** Code points of a string; a lone surrogate counts as U+FFFD. *)
Fixpoint to_cps (s : jsstr) : list Z :=
  match s with
  | [] => []
  | u :: s' =>
      if is_high u then
        match s' with
        | v :: s'' =>
            if is_low v then (65536 + (u - 55296) * 1024 + (v - 56320)) :: to_cps s''
            else replacement :: to_cps s'
        | [] => [replacement]
        end
      else (if is_low u then replacement else u) :: to_cps s'
  end.

Definition of_cp (c : Z) : jsstr :=
  if c <? 65536 then [c] else [55296 + (c - 65536) / 1024; 56320 + (c - 65536) mod 1024].
Definition of_cps (cs : list Z) : jsstr := cs ≫= of_cp.

(** [s.toWellFormed()] *)
Definition to_well_formed (s : jsstr) : jsstr := of_cps (to_cps s).

(** No lone surrogate. *)
Fixpoint well_formed (s : jsstr) : bool :=
  match s with
  | [] => true
  | u :: s' =>
      if is_high u then match s' with v :: s'' => is_low v && well_formed s'' | [] => false end
      else negb (is_low u) && well_formed s'
  end.

Definition encode_cp (c : Z) : bytes :=
  if c <? 128 then [c]
  else if c <? 2048 then [192 + c / 64; 128 + c mod 64]
  else if c <? 65536 then [224 + c / 4096; 128 + c / 64 mod 64; 128 + c mod 64]
  else [240 + c / 262144; 128 + c / 4096 mod 64; 128 + c / 64 mod 64; 128 + c mod 64].

(** State of the UTF-8 decoder inside a sequence: bytes still needed, bounds of
    the next one, code point so far. *)
Record seq_state := { needed : nat; lower : Z; upper : Z; partial : Z }.

(** The decoder between sequences: emitted code points and the next state. *)
Definition start_seq (b : Z) : list Z * option seq_state :=
  if b <? 128 then ([b], None)
  else if (194 <=? b) && (b <=? 223) then ([], Some {| needed := 1; lower := 128; upper := 191; partial := b - 192 |})
  else if (224 <=? b) && (b <=? 239) then
    ([], Some {| needed := 2; lower := if b =? 224 then 160 else 128;
                 upper := if b =? 237 then 159 else 191; partial := b - 224 |})
  else if (240 <=? b) && (b <=? 244) then
    ([], Some {| needed := 3; lower := if b =? 240 then 144 else 128;
                 upper := if b =? 244 then 143 else 191; partial := b - 240 |})
  else ([replacement], None).

Definition continue_seq (st : seq_state) (b : Z) : list Z * option seq_state :=
  if (lower st <=? b) && (b <=? upper st) then
    let c := partial st * 64 + (b - 128) in
    match needed st with
    | S (S n) => ([], Some {| needed := S n; lower := 128; upper := 191; partial := c |})
    | _ => ([c], None)
    end
  else let '(out, st') := start_seq b in (replacement :: out, st').

Fixpoint decode (st : option seq_state) (bs : bytes) : list Z :=
  match bs with
  | [] => match st with None => [] | Some _ => [replacement] end
  | b :: bs' =>
      let '(out, st') := match st with None => start_seq b | Some st => continue_seq st b end in
      out ++ decode st' bs'
  end.

Definition strip_bom (s : list Z) : list Z :=
  match s with u :: s' => if u =? bom then s' else s | [] => [] end.

(** [utf8], [fromUtf8]: TextDecoder drops a leading byte order mark. *)
Definition utf8 (s : jsstr) : bytes := to_cps s ≫= encode_cp.
Definition fromUtf8 (b : bytes) : jsstr := of_cps (strip_bom (decode None b)).

(** ** Base64 *)

Definition b64_char (i : Z) : Z :=
  if i <? 26 then 65 + i else if i <? 52 then 71 + i else if i <? 62 then i - 4
  else if i =? 62 then 43 else 47.
Definition b64_val (u : Z) : option Z :=
  if is_upper u then Some (u - 65) else if is_lower u then Some (u - 71)
  else if is_digit u then Some (u + 4) else if u =? 43 then Some 62
  else if u =? 47 then Some 63 else None.

(** [btoa] of a string of bytes. *)
Fixpoint toBase64 (b : bytes) : jsstr :=
  match b with
  | [] => []
  | [x] => [b64_char (x / 4); b64_char (x mod 4 * 16); c_eq; c_eq]
  | [x; y] => [b64_char (x / 4); b64_char (x mod 4 * 16 + y / 16); b64_char (y mod 16 * 4); c_eq]
  | x :: y :: z :: b' =>
      b64_char (x / 4) :: b64_char (x mod 4 * 16 + y / 16)
      :: b64_char (y mod 16 * 4 + z / 64) :: b64_char (z mod 64) :: toBase64 b'
  end.

(** [atob]: the forgiving-base64 decode of the web platform. *)
Definition is_ascii_ws (u : Z) : bool :=
  (u =? 9) || (u =? 10) || (u =? 12) || (u =? 13) || (u =? 32).

Definition strip_padding (s : jsstr) : jsstr :=
  if Nat.eqb (length s mod 4) 0 then
    match reverse s with
    | p :: q :: r => if (p =? c_eq) && (q =? c_eq) then reverse r
                     else if p =? c_eq then reverse (q :: r) else s
    | _ => s
    end
  else s.

Fixpoint decode_sextets (l : list Z) : option bytes :=
  match l with
  | [] => Some []
  | [_] => None
  | [a; b] => Some [a * 4 + b / 16]
  | [a; b; c] => Some [a * 4 + b / 16; b mod 16 * 16 + c / 4]
  | a :: b :: c :: d :: l' =>
      r ← decode_sextets l';
      Some (a * 4 + b / 16 :: b mod 16 * 16 + c / 4 :: c mod 4 * 64 + d :: r)
  end.

(** [fromBase64]; [None] is the InvalidCharacterError of [atob]. *)
Definition fromBase64 (s : jsstr) : option bytes :=
  let s' := strip_padding (List.filter (fun u => negb (is_ascii_ws u)) s) in
  l ← mapM b64_val s'; decode_sextets l.

(** ** Laws of UTF-8 *)

Definition scalar (c : Z) : Prop := 0 <= c < 55296 \/ 57344 <= c < 1114112.

Lemma to_cps_scalar s : units_ok s -> Forall scalar (to_cps s).
Proof.
  induction s as [s IH] using (induction_ltof1 _ (@length Z)); unfold ltof in IH.
  intros Hs. destruct s as [|u s]; [constructor|]. apply Forall_cons in Hs as [Hu Hs].
  cbn. unfold scalar, is_high, is_low in *. unfold_ok.
  destruct ((55296 <=? u) && (u <=? 56319)) eqn:Eh; bool_prop.
  - destruct s as [|v s]; [constructor; [lia|constructor]|].
    destruct ((56320 <=? v) && (v <=? 57343)) eqn:El; bool_prop.
    + apply Forall_cons in Hs as [Hv Hs]. constructor; [lia|]. apply IH; [cbn; lia|done].
    + constructor; [lia|]. apply IH; [cbn; lia|done].
  - constructor; [|apply IH; [cbn; lia|done]].
    apply andb_false_iff in Eh. rewrite !Z.leb_gt in Eh. zcases.
Qed.

(** A continuation byte within bounds advances the sequence. *)
Lemma decode_continue n lo hi p b bs : lo <= b <= hi ->
  decode (Some {| needed := n; lower := lo; upper := hi; partial := p |}) (b :: bs)
  = match n with
    | S (S m) => decode (Some {| needed := S m; lower := 128; upper := 191; partial := p * 64 + (b - 128) |}) bs
    | _ => (p * 64 + (b - 128)) :: decode None bs
    end.
Proof.
  intros Hb. cbn [decode]. unfold continue_seq. cbn [needed lower upper partial].
  rewrite (proj2 (Z.leb_le lo b)), (proj2 (Z.leb_le b hi)) by lia. by destruct n as [|[|n]].
Qed.

Lemma decode_start b bs : decode None (b :: bs) = (start_seq b).1 ++ decode (start_seq b).2 bs.
Proof. cbn [decode]. by destruct (start_seq b). Qed.

Lemma start_seq_2 b : 194 <= b <= 223 -> start_seq b
  = ([], Some {| needed := 1; lower := 128; upper := 191; partial := b - 192 |}).
Proof. intros Hb. unfold start_seq. by zcases. Qed.

Lemma start_seq_3 b : 224 <= b <= 239 -> start_seq b
  = ([], Some {| needed := 2; lower := if b =? 224 then 160 else 128;
                 upper := if b =? 237 then 159 else 191; partial := b - 224 |}).
Proof. intros Hb. unfold start_seq. repeat zcase; done. Qed.

Lemma start_seq_4 b : 240 <= b <= 244 -> start_seq b
  = ([], Some {| needed := 3; lower := if b =? 240 then 144 else 128;
                 upper := if b =? 244 then 143 else 191; partial := b - 240 |}).
Proof. intros Hb. unfold start_seq. repeat zcase; done. Qed.

Lemma decode_encode_cp c bs : scalar c -> decode None (encode_cp c ++ bs) = c :: decode None bs.
Proof.
  unfold scalar, encode_cp. intros Hc.
  destruct (Z.ltb_spec c 128); [cbn; unfold start_seq; by zcases|].
  destruct (Z.ltb_spec c 2048); [|destruct (Z.ltb_spec c 65536)];
    cbn [app]; rewrite decode_start.
  - rewrite start_seq_2 by divlia. cbn [fst snd app].
    rewrite decode_continue by divlia. f_equal. divlia.
  - rewrite start_seq_3 by divlia. cbn [fst snd app].
    rewrite decode_continue by (repeat zcase; divlia).
    rewrite decode_continue by divlia. f_equal. divlia.
  - rewrite start_seq_4 by divlia. cbn [fst snd app].
    rewrite decode_continue by (repeat zcase; divlia).
    rewrite !decode_continue by divlia. f_equal. divlia.
Qed.

Lemma decode_utf8 s : units_ok s -> decode None (utf8 s) = to_cps s.
Proof.
  intros Hs. unfold utf8. induction (to_cps_scalar s Hs) as [|c cs Hc _ IH]; [done|].
  rewrite bind_cons, decode_encode_cp by done. by rewrite IH.
Qed.

Lemma of_cps_cons c cs : of_cps (c :: cs) = of_cp c ++ of_cps cs.
Proof. done. Qed.

(** Decoding what was encoded: lone surrogates become U+FFFD, a leading byte
    order mark is lost, everything else comes back. *)
Lemma fromUtf8_utf8 s : units_ok s -> fromUtf8 (utf8 s) = strip_bom (to_well_formed s).
Proof.
  intros Hs. unfold fromUtf8, to_well_formed. rewrite decode_utf8 by done.
  pose proof (to_cps_scalar s Hs) as Hsc. destruct (to_cps s) as [|c cs]; [done|].
  apply Forall_cons in Hsc as [Hc _]. unfold scalar in Hc. rewrite of_cps_cons. cbn [strip_bom].
  destruct (Z.eqb_spec c bom) as [->|]; [done|]. rewrite of_cps_cons. unfold of_cp.
  destruct (Z.ltb_spec c 65536); cbn.
  - by destruct (Z.eqb_spec c bom).
  - destruct (Z.eqb_spec (55296 + (c - 65536) / 1024) 65279); [|done]. divlia.
Qed.

Lemma well_formed_id s : units_ok s -> well_formed s = true -> to_well_formed s = s.
Proof.
  unfold to_well_formed.
  induction s as [s IH] using (induction_ltof1 _ (@length Z)); unfold ltof in IH.
  intros Hs. destruct s as [|u s]; [done|]. apply Forall_cons in Hs as [Hu Hs]. cbn [well_formed to_cps].
  destruct (is_high u) eqn:Eh.
  - destruct s as [|v s]; [done|]. intros H. bool_prop. rewrite H. apply Forall_cons in Hs as [Hv Hs].
    rewrite of_cps_cons, IH by (cbn; done || lia). unfold is_high, is_low in *. bool_prop.
    unfold of_cp. zcase. cbn. f_equal; [|f_equal]; divlia.
  - intros H. bool_prop. rewrite H, of_cps_cons, IH by (cbn; done || lia).
    unfold of_cp. unfold_ok. by zcase.
Qed.

(** The strings the round trip preserves. *)
Definition text_ok (s : jsstr) : Prop :=
  units_ok s /\ well_formed s = true /\ head s <> Some bom.

Lemma fromUtf8_utf8_id s : text_ok s -> fromUtf8 (utf8 s) = s.
Proof.
  intros (Hs & Hw & Hb). rewrite fromUtf8_utf8, well_formed_id by done.
  destruct s as [|u s]; [done|]. cbn in *. destruct (Z.eqb_spec u bom); [congruence|done].
Qed.

Lemma ascii_well_formed s : ascii s -> well_formed s = true.
Proof.
  induction 1 as [|u s Hu _ IH]; [done|]. cbn. unfold_ok. unfold is_high, is_low.
  zcases; cbn; rewrite IH; done.
Qed.

Lemma ascii_text_ok s : ascii s -> text_ok s.
Proof.
  intros H. split_and!; [by auto with passwd|by apply ascii_well_formed|].
  destruct H as [|u s Hu]; [done|]. cbn. intros [= ->]. unfold_ok. lia.
Qed.

Lemma to_cps_ascii s : ascii s -> to_cps s = s.
Proof.
  induction 1 as [|u s Hu _ IH]; [done|]. cbn. rewrite IH. unfold_ok. unfold is_high, is_low. zcases.
Qed.

Lemma utf8_ascii s : ascii s -> utf8 s = s.
Proof.
  intros H. unfold utf8. rewrite to_cps_ascii by done.
  induction H as [|u s Hu _ IH]; [done|]. rewrite bind_cons, IH. unfold encode_cp. unfold_ok. by zcase.
Qed.

Lemma encode_cp_bytes c : 0 <= c < 1114112 -> bytes_ok (encode_cp c).
Proof. intros Hc. unfold encode_cp. repeat zcase; repeat constructor; divlia. Qed.

Lemma utf8_bytes s : units_ok s -> bytes_ok (utf8 s).
Proof.
  intros Hs. unfold utf8. induction (to_cps_scalar s Hs) as [|c cs Hc _ IH]; [constructor|].
  rewrite bind_cons. apply Forall_app. split; [|done]. apply encode_cp_bytes. unfold scalar in Hc. lia.
Qed.

(** ** Laws of base64 *)

Lemma list_ind3 {A} (P : list A -> Prop) :
  P [] -> (forall x, P [x]) -> (forall x y, P [x; y]) ->
  (forall x y z l, P l -> P (x :: y :: z :: l)) -> forall l, P l.
Proof.
  intros H0 H1 H2 H3 l. induction l as [l IH] using (induction_ltof1 _ (@length A)); unfold ltof in IH.
  destruct l as [|x [|y [|z l]]]; auto. apply H3, IH. cbn. lia.
Qed.

Lemma b64_val_char i : 0 <= i < 64 -> b64_val (b64_char i) = Some i.
Proof.
  intros Hi. unfold b64_char, b64_val, is_upper, is_lower, is_digit.
  repeat zcase; cbn [andb]; f_equal; lia.
Qed.

Definition b64_alphabet (u : Z) : Prop :=
  is_alnum u = true \/ u = c_plus \/ u = c_slash \/ u = c_eq.

Lemma b64_char_alphabet i : 0 <= i < 64 -> b64_alphabet (b64_char i).
Proof.
  intros Hi. unfold b64_alphabet, b64_char, is_alnum, is_upper, is_lower, is_digit.
  repeat zcase; first [left; zcases; done | right; lia].
Qed.

Lemma toBase64_alphabet b : bytes_ok b -> Forall b64_alphabet (toBase64 b).
Proof.
  assert (b64_alphabet c_eq) by (unfold b64_alphabet; auto).
  induction b as [|x|x y|x y z b IH] using list_ind3; intros Hb; cbn [toBase64];
    repeat (apply Forall_cons in Hb as [? Hb]);
    repeat (constructor; [first [done | apply b64_char_alphabet; divlia]|]);
    first [constructor | by apply IH].
Qed.

Lemma toBase64_length b : (length (toBase64 b) mod 4 = 0)%nat.
Proof.
  induction b as [|x|x y|x y z b IH] using list_ind3; try done.
  change (length (toBase64 (x :: y :: z :: b))) with (4 + length (toBase64 b))%nat.
  rewrite <- Nat.Div0.add_mod_idemp_r, IH. done.
Qed.

(** The digits without their padding. *)
Fixpoint b64_digits (b : bytes) : list Z :=
  match b with
  | [] => []
  | [x] => [x / 4; x mod 4 * 16]
  | [x; y] => [x / 4; x mod 4 * 16 + y / 16; y mod 16 * 4]
  | x :: y :: z :: b' =>
      x / 4 :: x mod 4 * 16 + y / 16 :: y mod 16 * 4 + z / 64 :: z mod 64 :: b64_digits b'
  end.

Lemma toBase64_digits b : exists n, (n <= 2)%nat /\
  toBase64 b = map b64_char (b64_digits b) ++ replicate n c_eq.
Proof.
  induction b as [|x|x y|x y z b (n & Hn & IH)] using list_ind3.
  - exists 0%nat. split; [lia|done].
  - exists 2%nat. split; [lia|done].
  - exists 1%nat. split; [lia|done].
  - exists n. split; [done|]. cbn. by rewrite IH.
Qed.

Lemma b64_digits_range b : bytes_ok b -> Forall (fun i => 0 <= i < 64) (b64_digits b).
Proof.
  induction b as [|x|x y|x y z b IH] using list_ind3; intros Hb; cbn [b64_digits];
    repeat (apply Forall_cons in Hb as [? Hb]);
    repeat (constructor; [divlia|]); first [constructor | by apply IH].
Qed.

Lemma decode_digits b : bytes_ok b -> decode_sextets (b64_digits b) = Some b.
Proof.
  induction b as [|x|x y|x y z b IH] using list_ind3; intros Hb;
    repeat (apply Forall_cons in Hb as [? Hb]); cbn [b64_digits decode_sextets]; [done|..|].
  - do 2 f_equal. divlia.
  - do 2 f_equal; [divlia|]. f_equal. divlia.
  - rewrite IH by done. cbn. do 2 f_equal; [divlia|]. f_equal; [divlia|]. f_equal. divlia.
Qed.

Lemma b64_char_not_eq i : 0 <= i < 64 -> b64_char i <> c_eq.
Proof. intros Hi. unfold b64_char. repeat zcase. Qed.

Lemma strip_padding_digits l n :
  Forall (fun i => 0 <= i < 64) l -> (n <= 2)%nat ->
  (length (map b64_char l ++ replicate n c_eq) mod 4 = 0)%nat ->
  strip_padding (map b64_char l ++ replicate n c_eq) = map b64_char l.
Proof.
  intros Hl Hn Hlen. unfold strip_padding. rewrite Hlen. cbn [Nat.eqb].
  assert (Hlast : match reverse (map b64_char l) with u :: _ => u <> c_eq | [] => True end).
  { destruct l as [|i l' _] using rev_ind; [done|]. rewrite map_app, reverse_app. cbn.
    apply Forall_app in Hl as [_ Hl]. apply Forall_cons in Hl as [Hi _]. by apply b64_char_not_eq. }
  rewrite reverse_app.
  destruct n as [|[|[|n]]]; [..|lia]; cbn [replicate app reverse rev_append rev'].
  - rewrite app_nil_r. destruct (reverse (map b64_char l)) as [|p [|q r]] eqn:E; [done..|].
    destruct (Z.eqb_spec p c_eq); done.
  - change (reverse [c_eq]) with [c_eq]. cbn [app].
    destruct (reverse (map b64_char l)) as [|q r] eqn:E.
    + apply (f_equal length) in E. rewrite length_reverse in E.
      rewrite length_app, E in Hlen. done.
    + rewrite Z.eqb_refl. destruct (Z.eqb_spec q c_eq); [done|]. cbn [andb].
      change (reverse (q :: r) = map b64_char l). by rewrite <- E, reverse_involutive.
  - change (reverse [c_eq; c_eq]) with [c_eq; c_eq]. cbn [app].
    rewrite Z.eqb_refl. cbn [andb]. apply reverse_involutive.
Qed.

Lemma filter_all {A} (p : A -> bool) l : Forall (fun x => p x = true) l -> List.filter p l = l.
Proof. induction 1 as [|x l Hx _ IH]; [done|]. cbn. by rewrite Hx, IH. Qed.

Lemma b64_alphabet_not_ws u : b64_alphabet u -> negb (is_ascii_ws u) = true.
Proof.
  unfold b64_alphabet, is_alnum, is_lower, is_upper, is_digit, is_ascii_ws. intros H.
  assert (43 <= u) by (destruct H as [H|]; [|lia]; rewrite !orb_true_iff in H;
    destruct H as [[H|H]|H]; bool_prop; lia).
  zcases.
Qed.

Lemma mapM_b64_val l : Forall (fun i => 0 <= i < 64) l -> mapM b64_val (map b64_char l) = Some l.
Proof.
  induction 1 as [|i l Hi _ IH]; [done|]. cbn. rewrite b64_val_char by done. cbn. by rewrite IH.
Qed.

Lemma fromBase64_toBase64 b : bytes_ok b -> fromBase64 (toBase64 b) = Some b.
Proof.
  intros Hb. unfold fromBase64.
  rewrite filter_all; [|eapply Forall_impl; [by apply toBase64_alphabet|apply b64_alphabet_not_ws]].
  pose proof (toBase64_length b) as Hlen. destruct (toBase64_digits b) as (n & Hn & E).
  rewrite E in *. pose proof (b64_digits_range b Hb) as Hr.
  rewrite strip_padding_digits, mapM_b64_val by done. cbn. by apply decode_digits.
Qed.

Lemma toBase64_nonempty b : b <> [] -> toBase64 b <> [].
Proof. by destruct b as [|x [|y [|z b]]]. Qed.

Lemma toBase64_ascii b : bytes_ok b -> ascii (toBase64 b).
Proof.
  intros Hb. eapply Forall_impl; [by apply toBase64_alphabet|]. intros u. cbn.
  unfold b64_alphabet, is_alnum, is_lower, is_upper, is_digit. unfold_ok. intros H.
  destruct H as [H|]; [|lia]. rewrite !orb_true_iff in H. destruct H as [[H|H]|H]; bool_prop; lia.
Qed.

Lemma toBase64_free c b : ~ b64_alphabet c -> bytes_ok b -> Forall (fun u => u <> c) (toBase64 b).
Proof.
  intros Hc Hb. eapply Forall_impl; [by apply toBase64_alphabet|]. cbn. by intros u Hu ->.
Qed.
