(* ===== verification/JsonText.v ===== *)
(** What the JSON printer writes is text that UTF-8 carries without loss. *)
From S2P Require Import Prelude Text Numeral Json JsonFacts Encoding.

Lemma well_formed_app s t : well_formed s = true -> well_formed t = true -> well_formed (s ++ t) = true.
Proof.
  intros Hs Ht. induction s as [s IH] using (induction_ltof1 _ (@length Z)); unfold ltof in IH.
  destruct s as [|u s]; [done|]. cbn [app well_formed] in *. destruct (is_high u).
  - destruct s as [|v s]; [done|]. apply andb_true_iff in Hs as [Hv Hs]. cbn [app]. rewrite Hv. cbn.
    apply IH; [cbn; lia|done].
  - apply andb_true_iff in Hs as [Hv Hs]. rewrite Hv. cbn. apply IH; [cbn; lia|done].
Qed.

Lemma well_formed_join sep l : well_formed sep = true -> Forall (fun s => well_formed s = true) l ->
  well_formed (join sep l) = true.
Proof.
  intros Hs. induction 1 as [|s l Hx Hl IH]; [done|]. destruct l as [|t l]; [done|].
  rewrite join_cons by done. by repeat apply well_formed_app.
Qed.

Lemma hex_digit_ascii d : 0 <= d < 16 -> ascii_ok (hex_digit d).
Proof. intros Hd. unfold hex_digit, ascii_ok. zcases. Qed.

Lemma unicode_escape_ascii u : ascii (unicode_escape u).
Proof.
  unfold unicode_escape, hex4.
  repeat (constructor; [first [unfold_ok; lia | apply hex_digit_ascii, Z.mod_pos_bound; lia]|]). constructor.
Qed.

(** A unit is printed as ASCII, or as itself: a plain unit or half of a pair. *)
Lemma quote_unit_cases p u n : ascii (quote_unit p u n) \/
  (quote_unit p u n = [u] /\
   (is_high u = false /\ is_low u = false \/
    is_high u = true /\ (exists v, n = Some v /\ is_low v = true) \/
    is_low u = true /\ exists v, p = Some v /\ is_high v = true)).
Proof.
  unfold quote_unit.
  repeat match goal with |- context [if ?x =? ?c then _ else _] =>
    destruct (x =? c); [left; decide_forall|] end.
  destruct (u <? 32); [left; apply unicode_escape_ascii|].
  destruct (is_high u) eqn:Eh; [|destruct (is_low u) eqn:El].
  - destruct n as [v|]; [|left; apply unicode_escape_ascii].
    destruct (is_low v) eqn:E; [|left; apply unicode_escape_ascii]. right. eauto 10.
  - destruct p as [v|]; [|left; apply unicode_escape_ascii].
    destruct (is_high v) eqn:E; [|left; apply unicode_escape_ascii]. right. eauto 10.
  - right. auto.
Qed.

Lemma low_not_high u : is_low u = true -> is_high u = false.
Proof. unfold is_low, is_high. intros H. bool_prop. zcases. Qed.

Lemma low_after_high u v n : is_high u = true -> is_low v = true -> quote_unit (Some u) v n = [v].
Proof.
  intros Hu Hv. unfold quote_unit. rewrite (low_not_high v Hv), Hv, Hu.
  unfold is_low in Hv. bool_prop. zcases.
Qed.

Lemma quote_units_well_formed s : forall p,
  ~ (exists u v, p = Some u /\ is_high u = true /\ head s = Some v /\ is_low v = true) ->
  well_formed (quote_units p s) = true.
Proof.
  induction s as [s IH] using (induction_ltof1 _ (@length Z)); unfold ltof in IH.
  intros p Hp. destruct s as [|u s]; [done|]. cbn [quote_units].
  destruct (is_high u && match head s with Some v => is_low v | None => false end) eqn:Hn.
  - apply andb_true_iff in Hn as [Hu Hv]. destruct s as [|v s]; [done|]. cbn [head] in Hv. cbn [quote_units head]. rewrite (low_after_high u v) by done.
    destruct (quote_unit_cases p u (Some v)) as [Ha|[-> _]].
    + apply well_formed_app; [by apply ascii_well_formed|].
      exfalso. revert Ha. unfold quote_unit. rewrite Hu, Hv. unfold is_high in Hu. bool_prop.
      zcases. intros Ha. apply Forall_cons in Ha as [Ha _]. unfold_ok. lia.
    + cbn [app well_formed]. rewrite Hu, Hv. cbn. apply IH; [cbn; lia|].
      intros (u' & w & [= <-] & Hh & _). by rewrite (low_not_high v Hv) in Hh.
  - assert (Hn' : forall v, is_high u = true -> head s = Some v -> is_low v = true -> False)
      by (intros v Hh Hv Hl; by rewrite Hh, Hv, Hl in Hn).
    apply well_formed_app.
    + destruct (quote_unit_cases p u (head s)) as [Ha|[-> [[Hh Hl]|[[Hh (v & Hv & Hl)]|[Hl (v & -> & Hv)]]]]].
      * by apply ascii_well_formed.
      * cbn. by rewrite Hh, Hl.
      * exfalso. eauto.
      * exfalso. apply Hp. exists v, u. done.
    + apply IH; [cbn; lia|]. intros (u' & v & [= <-] & Hh & Hv & Hl). eauto.
Qed.

Lemma quote_units_units s : forall p, units_ok s -> units_ok (quote_units p s).
Proof.
  induction s as [|u s IH]; intros p Hs; [constructor|]. apply Forall_cons in Hs as [Hu Hs].
  cbn [quote_units]. apply Forall_app. split; [|by apply IH].
  destruct (quote_unit_cases p u (head s)) as [Ha|[-> _]]; [by apply ascii_units|by constructor].
Qed.

(** Text that is fit for UTF-8, at any place of a document. *)
Definition fit (s : jsstr) : Prop := units_ok s /\ well_formed s = true.

Lemma fit_ascii s : ascii s -> fit s.
Proof. intros H. split; [by apply ascii_units|by apply ascii_well_formed]. Qed.

Lemma fit_app s t : fit s -> fit t -> fit (s ++ t).
Proof. intros [H1 H2] [H3 H4]. split; [by apply Forall_app|by apply well_formed_app]. Qed.

Lemma fit_join sep l : fit sep -> Forall fit l -> fit (join sep l).
Proof.
  intros Hs. induction 1 as [|s l Hx Hl IH]; [by apply fit_ascii|]. destruct l as [|t l]; [done|].
  rewrite join_cons by done. by repeat apply fit_app.
Qed.

Lemma fit_quote s : units_ok s -> fit (quote s).
Proof.
  intros Hs. unfold quote. change (c_quote :: quote_units None s ++ [c_quote])
    with ([c_quote] ++ quote_units None s ++ [c_quote]).
  apply fit_app; [apply fit_ascii; decide_forall|]. apply fit_app; [|apply fit_ascii; decide_forall].
  split; [by apply quote_units_units|]. apply quote_units_well_formed. by intros (? & ? & ? & _).
Qed.

Lemma fit_layout opn cls gap ind parts : ascii [opn; cls] -> ascii gap -> ascii ind -> Forall fit parts ->
  fit (layout opn cls gap ind parts).
Proof.
  intros Hb Hg Hi Hp. apply Forall_cons in Hb as [Ho Hc]. apply Forall_cons in Hc as [Hc _].
  assert (Hs : forall w, ascii w -> fit (join (c_comma :: w) parts)).
  { intros w Hw. apply fit_join; [|done]. apply fit_ascii. constructor; [unfold_ok; lia|done]. }
  assert (Hn : ascii [c_lf]) by decide_forall.
  unfold layout. assert (H1 : forall c, ascii_ok c -> ascii [c]) by (intros; constructor; [done|constructor]).
  destruct parts as [|p parts]; [apply fit_ascii; constructor; [done|by apply H1]|].
  destruct gap as [|g gap].
  - change (opn :: join [c_comma] (p :: parts) ++ [cls]) with ([opn] ++ join [c_comma] (p :: parts) ++ [cls]).
    apply fit_app; [by apply fit_ascii, H1|]. apply fit_app; [apply (Hs []); constructor|].
    by apply fit_ascii, H1.
  - set (ind' := ind ++ g :: gap). set (parts' := p :: parts) in *.
    replace (opn :: c_lf :: ind' ++ join (c_comma :: c_lf :: ind') parts' ++ c_lf :: ind ++ [cls])
      with ((opn :: c_lf :: ind') ++ join (c_comma :: c_lf :: ind') parts' ++ (c_lf :: ind ++ [cls])) by done.
    assert (Hi' : ascii ind') by (by apply Forall_app).
    apply fit_app; [apply fit_ascii; constructor; [done|]; constructor; [unfold_ok; lia|done]|].
    apply fit_app; [apply Hs; constructor; [unfold_ok; lia|done]|]. apply fit_ascii.
    constructor; [unfold_ok; lia|]. apply Forall_app. split; [done|by apply H1].
Qed.

Lemma num_to_string_ascii n : num_ok n -> ascii (num_to_string n).
Proof.
  destruct n as [z| | |]; try done. cbn [num_ok]. intros Hz. cbn [num_to_string].
  rewrite (proj2 (Z.ltb_lt _ _) Hz). unfold with_sign.
  pose proof (dec_ascii (Z.abs z) (Z.abs_nonneg z)). destruct (z <? 0); [|done].
  constructor; [unfold_ok; lia|done].
Qed.

Lemma fit_stringify gap v : ascii gap -> forall ind, ascii ind -> json_ok v -> fit (stringify_at gap ind v).
Proof.
  intros Hg. induction v as [|b|n|s|l IH|o IH] using json_ind; intros ind Hi Hv.
  - apply fit_ascii. decide_forall.
  - destruct b; apply fit_ascii; decide_forall.
  - apply fit_ascii. pose proof (num_to_string_ascii n Hv). by destruct n.
  - by apply fit_quote.
  - apply json_ok_arr in Hv. cbn [stringify_at]. apply fit_layout; [decide_forall|done|done|].
    apply Forall_map. rewrite Forall_forall in *. intros w Hw.
    apply IH; [done|by apply Forall_app|by apply Hv].
  - apply json_ok_obj in Hv as [_ Hv]. cbn [stringify_at]. apply fit_layout; [decide_forall|done|done|].
    apply Forall_map. rewrite Forall_forall in *. intros [k w] Hw. destruct (Hv _ Hw) as [Hk Hok].
    apply fit_app; [by apply fit_quote|]. apply fit_app; [|apply (IH _ Hw); [by apply Forall_app|done]].
    apply fit_ascii. destruct gap; decide_forall.
Qed.

(** A printed value passes through UTF-8 unchanged. *)
Lemma stringify_at_text_ok gap v : ascii gap -> json_ok v -> text_ok (stringify_at gap [] v).
Proof.
  intros Hg Hv. destruct (fit_stringify gap v Hg [] (Forall_nil_2 _) Hv) as [Hu Hw].
  split_and!; [done|done|].
  destruct v as [|[]|n|s|l|o]; try done.
  - cbn [stringify_at]. pose proof (num_to_string_ascii n Hv) as Ha. destruct n; try done.
    destruct Ha as [|u t Hd _]; [done|]. intros [= ->]. unfold_ok. lia.
  - cbn [stringify_at]. unfold layout. destruct (map _ l); [done|]. by destruct gap.
  - cbn [stringify_at]. unfold layout. destruct (map _ o); [done|]. by destruct gap.
Qed.

Lemma stringify_text_ok v : json_ok v -> text_ok (stringify v).
Proof. apply stringify_at_text_ok. constructor. Qed.

Lemma stringify2_text_ok v : json_ok v -> text_ok (stringify2 v).
Proof. apply stringify_at_text_ok. decide_forall. Qed.
