(* ===== verification/Effects.v ===== *)
(** The effects of the source's functions: exceptions, a state threaded through
    the awaits, and the entropy of [crypto.getRandomValues]. *)
From S2P Require Import Prelude Text Json.

(** What the code can throw. *)
Inductive exn :=
| JsError (msg : jsstr)                   (* throw new Error(msg) *)
| JsTypeError                             (* raised by the engine *)
| JsSyntaxError                           (* JSON.parse *)
| DomException (name : jsstr)             (* WebCrypto, atob *)
| LibraryError                            (* a third-party package *)
| TwoFactorRequiredError (methods : jsv)  (* api-client/src/session.ts *)
| OutOfFuel.                              (* a modelled loop cut short; never reached *)

#[global] Instance exn_eq_dec : EqDecision exn.
Proof. solve_decision. Defined.

(** A computation from a state to a value or an exception, and a state: an
    exception keeps the effects made before it. *)
Definition M (S A : Type) : Type := S -> (A + exn) * S.

Section Monad.
Context {S : Type}.

#[global] Instance M_ret : MRet (M S) := fun A a s => (inl a, s).
#[global] Instance M_bind : MBind (M S) := fun A B f m s =>
  match m s with
  | (inl a, s') => f a s'
  | (inr e, s') => (inr e, s')
  end.

Definition raise {A} (e : exn) : M S A := fun s => (inr e, s).

(** [try { m } catch (e) { h(e) }] *)
Definition catch {A} (m : M S A) (h : exn -> M S A) : M S A := fun s =>
  match m s with
  | (inl a, s') => (inl a, s')
  | (inr e, s') => h e s'
  end.

Definition gets {A} (f : S -> A) : M S A := fun s => (inl (f s), s).
Definition modify (f : S -> S) : M S unit := fun s => (inl tt, f s).

(** An operation of the platform that returns or raises. *)
Definition of_option {A} (e : exn) (o : option A) : M S A :=
  match o with Some a => mret a | None => raise e end.

Definition throw_if (b : bool) (e : exn) : M S unit := if b then raise e else mret tt.
End Monad.

Arguments M_ret _ _ _ _ /.
Arguments M_bind _ _ _ _ _ _ /.

(** [m] run from [s] returns [a] in state [s'], or throws [e]. *)
Definition returns {S A} (m : M S A) (s : S) (a : A) (s' : S) : Prop := m s = (inl a, s').
Definition throws {S A} (m : M S A) (s : S) (e : exn) (s' : S) : Prop := m s = (inr e, s').

Section Laws.
Context {S A B : Type}.

Lemma bind_returns (m : M S A) (f : A -> M S B) s a s' r :
  returns m s a s' -> f a s' = r -> (m ≫= f) s = r.
Proof. unfold returns, mbind, M_bind. by intros ->. Qed.

Lemma bind_throws (m : M S A) (f : A -> M S B) s e s' :
  throws m s e s' -> (m ≫= f) s = (inr e, s').
Proof. unfold throws, mbind, M_bind. by intros ->. Qed.

Lemma catch_returns (m : M S A) h s a s' : returns m s a s' -> returns (catch m h) s a s'.
Proof. unfold returns, catch. by intros ->. Qed.

Lemma catch_throws (m : M S A) h s e s' r : throws m s e s' -> h e s' = r -> catch m h s = r.
Proof. unfold throws, catch. by intros ->. Qed.

Lemma bind_ret (a : A) (f : A -> M S B) s : (mret a ≫= f) s = f a s.
Proof. done. Qed.

Lemma bind_raise e (f : A -> M S B) s : (raise e ≫= f) s = (inr e, s).
Proof. done. Qed.

Lemma bind_some e (a : A) (f : A -> M S B) s : (of_option e (Some a) ≫= f) s = f a s.
Proof. done. Qed.

Lemma bind_none e (f : A -> M S B) s : (of_option e None ≫= f) s = (inr e, s).
Proof. done. Qed.

Lemma bind_throw_if b e (f : unit -> M S B) s :
  (throw_if b e ≫= f) s = if b then (inr e, s) else f tt s.
Proof. by destruct b. Qed.

Lemma bind_inv (m : M S A) (f : A -> M S B) s b s' :
  returns (m ≫= f) s b s' -> exists a s1, returns m s a s1 /\ returns (f a) s1 b s'.
Proof. unfold returns, mbind, M_bind. destruct (m s) as [[a|e] s1]; [by exists a, s1|done]. Qed.

Lemma ret_inv (a b : A) (s s' : S) : returns (mret a : M S A) s b s' -> b = a /\ s' = s.
Proof. by intros [= <- <-]. Qed.

Lemma ret_returns (a : A) (s : S) : returns (mret a : M S A) s a s.
Proof. done. Qed.
End Laws.

Create Rewrite HintDb monad.
#[export] Hint Rewrite @bind_ret @bind_raise @bind_some @bind_none @bind_throw_if : monad.

(** Run the next step of a bind by the lemma [H] that says what it returns. *)
Ltac step H := eapply bind_returns; [apply H|cbv beta].
Tactic Notation "run" uconstr(H) := eapply bind_returns; [eapply H|cbv beta].

(** ** Computations that neither read nor change the state

    Parsing, key derivation and decryption: the outcome, a value or an exception,
    is the same from every state, and the state is kept. *)
Class Constant {S A} (m : M S A) : Prop := constant : exists r, forall s, m s = (r, s).

Section Constant.
Context {S A B : Type}.

#[global] Instance ret_constant (a : A) : Constant (mret a : M S A).
Proof. by exists (inl a). Qed.

#[global] Instance raise_constant e : Constant (raise e : M S A).
Proof. by exists (inr e). Qed.

#[global] Instance of_option_constant e (o : option A) : Constant (of_option e o : M S A).
Proof. destruct o; [apply ret_constant|apply raise_constant]. Qed.

#[global] Instance throw_if_constant b e : Constant (throw_if b e : M S unit).
Proof. destruct b; [by exists (inr e)|by exists (inl tt)]. Qed.

#[global] Instance bind_constant (m : M S A) (f : A -> M S B) :
  Constant m -> (forall a, Constant (f a)) -> Constant (m ≫= f).
Proof.
  intros [[a|e] Hm] Hf; [destruct (Hf a) as [r Hr]; exists r|exists (inr e)];
    intros s; unfold mbind, M_bind; by rewrite Hm.
Qed.

#[global] Instance catch_constant (m : M S A) h :
  Constant m -> (forall e, Constant (h e)) -> Constant (catch m h).
Proof.
  intros [[a|e] Hm] Hh; [exists (inl a)|destruct (Hh e) as [r Hr]; exists r];
    intros s; unfold catch; by rewrite Hm.
Qed.

(** A constant computation that returned once returns the same from everywhere. *)
Lemma constant_returns (m : M S A) `{!Constant m} s a s' :
  returns m s a s' -> s' = s /\ forall s2, returns m s2 a s2.
Proof.
  unfold returns. destruct (constant (m := m)) as [r Hm]. rewrite Hm. intros [= -> <-].
  split; [done|]. intros s2. by rewrite Hm.
Qed.
End Constant.

(** Reveal a definition's body, case by case, to the instances above. *)
Ltac constant :=
  repeat first
    [ typeclasses eauto
    | match goal with |- Constant (_ ≫= _) => apply bind_constant; [|intros ?] end
    | match goal with |- Constant (catch _ _) => apply catch_constant; [|intros ?] end
    | case_match ].

(** ** Computations that keep an invariant of the state, on every outcome *)
Class Keeps {S A} (P : S -> Prop) (m : M S A) : Prop := keeps : forall s, P s -> P (m s).2.

Section Keeps.
Context {S A B : Type} (P : S -> Prop).

#[global] Instance ret_keeps (a : A) : Keeps P (mret a : M S A).
Proof. by intros s. Qed.

#[global] Instance raise_keeps e : Keeps P (raise e : M S A).
Proof. by intros s. Qed.

#[global] Instance of_option_keeps e (o : option A) : Keeps P (of_option e o : M S A).
Proof. intros s. by destruct o. Qed.

#[global] Instance throw_if_keeps b e : Keeps P (throw_if b e : M S unit).
Proof. intros s. by destruct b. Qed.

#[global] Instance bind_keeps (m : M S A) (f : A -> M S B) :
  Keeps P m -> (forall a, Keeps P (f a)) -> Keeps P (m ≫= f).
Proof.
  intros Hm Hf s Hs. specialize (Hm s Hs). unfold mbind, M_bind.
  destruct (m s) as [[a|e] s']; [by apply Hf|done].
Qed.

#[global] Instance catch_keeps (m : M S A) h :
  Keeps P m -> (forall e, Keeps P (h e)) -> Keeps P (catch m h).
Proof.
  intros Hm Hh s Hs. specialize (Hm s Hs). unfold catch.
  destruct (m s) as [[a|e] s']; [done|by apply Hh].
Qed.

Lemma constant_keeps (m : M S A) : Constant m -> Keeps P m.
Proof. intros [r Hr] s Hs. by rewrite Hr. Qed.
End Keeps.

Lemma keeps_returns {S A} (P : S -> Prop) (m : M S A) s a s' :
  Keeps P m -> returns m s a s' -> P s -> P s'.
Proof. intros Hm Hr Hs. specialize (Hm s Hs). unfold returns in Hr. by rewrite Hr in Hm. Qed.

#[export] Hint Extern 10 (Keeps _ _) => (eapply constant_keeps; typeclasses eauto) : typeclass_instances.

(** ** Entropy *)

(** A state that carries the random source: [draw n] is what the next
    [getRandomValues] over [n] bytes writes. *)
Class Entropy (S : Type) := {
  draw : nat -> S -> bytes * S;
  draw_length : forall n s, length (draw n s).1 = n;
  draw_bytes : forall n s, bytes_ok (draw n s).1;
}.

(** What drawing randomness does not touch. *)
Class Undrawn {S} `{Entropy S} (P : S -> Prop) : Prop := undrawn : forall n s, P s -> P (draw n s).2.

(** A pseudo-random source for the examples: a linear congruential generator. *)
Fixpoint lcg_bytes (n : nat) (x : Z) : bytes * Z :=
  match n with
  | O => ([], x)
  | S n' =>
      let x' := (x * 1103515245 + 12345) mod 2 ^ 31 in
      let '(bs, y) := lcg_bytes n' x' in (x' / 65536 mod 256 :: bs, y)
  end.

Lemma lcg_length n x : length (lcg_bytes n x).1 = n.
Proof.
  revert x. induction n as [|n IH]; intros x; [done|]. cbn.
  specialize (IH ((x * 1103515245 + 12345) mod 2 ^ 31)).
  destruct (lcg_bytes n _) as [bs y]. cbn in *. by rewrite IH.
Qed.

Lemma lcg_ok n x : bytes_ok (lcg_bytes n x).1.
Proof.
  revert x. induction n as [|n IH]; intros x; [constructor|]. cbn [lcg_bytes].
  specialize (IH ((x * 1103515245 + 12345) mod 2 ^ 31)).
  destruct (lcg_bytes n _) as [bs y]. constructor; [|exact IH].
  unfold byte_ok. apply Z.mod_pos_bound. lia.
Qed.

Definition lcg_entropy : Entropy Z := {|
  draw := lcg_bytes;
  draw_length := lcg_length;
  draw_bytes := lcg_ok;
|}.

(** Reveal a definition's body, case by case, to the [Keeps] instances. *)
Ltac keeps :=
  repeat first
    [ typeclasses eauto
    | match goal with |- Keeps _ (_ ≫= _) => apply bind_keeps; [|intros ?] end
    | match goal with |- Keeps _ (catch _ _) => apply catch_keeps; [|intros ?] end
    | case_match ].
