(* ===== verification/Platform.v ===== *)
(** The cryptography the program calls but does not contain: WebCrypto
    ([crypto.subtle]) and the hash-wasm package.  Its functions are the fields of
    a class together with their documented laws; [model_crypto] is a concrete
    (insecure) instance on which every law holds. *)
From S2P Require Import Prelude Text Numeral Json.

(** The WHATWG URL parser, a service of the platform: the host name and the
    query parameters, in order, or a TypeError. *)
Record url := { hostname : jsstr; search_params : list (jsstr * jsstr) }.
Class UrlParser := { parse_url : jsstr -> option url }.

(** The wall clock as part of what is outside, in milliseconds. *)
Class Clock (N : Type) := { clock : N -> Z }.

Inductive hash_alg := SHA1 | SHA256 | SHA512.
#[global] Instance hash_alg_eq_dec : EqDecision hash_alg.
Proof. solve_decision. Defined.

(** Digest length in bytes. *)
Definition hash_len (h : hash_alg) : nat :=
  match h with SHA1 => 20 | SHA256 => 32 | SHA512 => 64 end.

(** The option bag of hash-wasm's [argon2id]. *)
Record argon2_options := {
  password : bytes;
  salt : bytes;
  iterations : jsv;
  memorySize : jsnum;
  parallelism : json;
  hashLength : nat;
}.

(** Options hash-wasm accepts: a password, at least 8 bytes of salt, at least
    one pass and one lane, and 8 KiB of memory per lane. *)
Definition argon2_accepts (o : argon2_options) : Prop :=
  password o <> [] /\ (8 <= length (salt o))%nat /\
  exists i m p, iterations o = Some (JNum (NInt i)) /\ memorySize o = NInt m /\
    parallelism o = JNum (NInt p) /\ 1 <= i /\ 1 <= p /\ 8 * p <= m.

Class WebCrypto := {
  (* AES-GCM with a 128-bit tag appended to the ciphertext: key, nonce, text *)
  gcm_seal : bytes -> bytes -> bytes -> bytes;
  gcm_open : bytes -> bytes -> bytes -> option bytes;
  hmac : hash_alg -> bytes -> bytes -> bytes;
  (* PBKDF2-HMAC-SHA-256: password, salt, rounds, output bytes *)
  pbkdf2_bits : bytes -> bytes -> Z -> nat -> bytes;
  argon2id : argon2_options -> option bytes;
  (* RSA-OAEP with SHA-256, 2048 bits: SPKI and PKCS#8 forms of a fresh pair *)
  rsa_keygen : bytes -> bytes * bytes;
  (* what [importKey] accepts as a public (SPKI) and a private (PKCS#8) key *)
  rsa_public : bytes -> bool;
  rsa_private : bytes -> bool;
  (* key, padding seed, message: [None] is an OperationError *)
  rsa_seal : bytes -> bytes -> bytes -> option bytes;
  rsa_open : bytes -> bytes -> option bytes;

  gcm_open_seal : forall k n p, gcm_open k n (gcm_seal k n p) = Some p;
  gcm_seal_open : forall k n c p, gcm_open k n c = Some p -> c = gcm_seal k n p;
  gcm_seal_length : forall k n p, length (gcm_seal k n p) = (length p + 16)%nat;
  gcm_seal_bytes : forall k n p, bytes_ok p -> bytes_ok (gcm_seal k n p);
  gcm_open_bytes : forall k n c p, bytes_ok c -> gcm_open k n c = Some p -> bytes_ok p;
  hmac_length : forall h k m, length (hmac h k m) = hash_len h;
  hmac_bytes : forall h k m, bytes_ok (hmac h k m);
  pbkdf2_length : forall p s r n, length (pbkdf2_bits p s r n) = n;
  pbkdf2_bytes : forall p s r n, bytes_ok (pbkdf2_bits p s r n);
  argon2_total : forall o, argon2_accepts o -> exists k, argon2id o = Some k;
  argon2_length : forall o k, argon2id o = Some k -> length k = hashLength o /\ bytes_ok k;
  rsa_keygen_bytes : forall r, bytes_ok r -> bytes_ok (rsa_keygen r).1 /\ bytes_ok (rsa_keygen r).2;
  rsa_keygen_keys : forall r,
    rsa_public (rsa_keygen r).1 = true /\ rsa_private (rsa_keygen r).2 = true;
  rsa_open_seal : forall r o m, bytes_ok m -> (length m <= 190)%nat ->
    exists c, rsa_seal (rsa_keygen r).1 o m = Some c /\ bytes_ok c /\
      rsa_open (rsa_keygen r).2 c = Some m;
}.

(** ** A concrete instance *)

Definition mix (n : nat) (x : bytes) : bytes :=
  map (fun i => foldl (fun a b => (a * 33 + b + Z.of_nat i + 1) mod 256) 7 x) (seq 0 n).

Lemma mix_length n x : length (mix n x) = n.
Proof. unfold mix. by rewrite length_map, length_seq. Qed.

Lemma mix_bytes n x : bytes_ok (mix n x).
Proof.
  unfold mix. apply Forall_map, Forall_forall. intros i _. cbn.
  induction x as [|b x _] using rev_ind; [unfold byte_ok; cbn; lia|].
  rewrite foldl_app. cbn [foldl]. unfold byte_ok. apply Z.mod_pos_bound. lia.
Qed.

Definition model_tag (k n p : bytes) : bytes := mix 16 (k ++ n ++ p).
Definition model_seal (k n p : bytes) : bytes := p ++ model_tag k n p.
Definition model_open (k n c : bytes) : option bytes :=
  let p := take (length c - 16) c in
  if decide (c = model_seal k n p) then Some p else None.

Lemma model_seal_take k n p : take (length (model_seal k n p) - 16) (model_seal k n p) = p.
Proof.
  unfold model_seal, model_tag. apply take_app_exact. rewrite length_app, mix_length. lia.
Qed.

Lemma model_open_seal k n p : model_open k n (model_seal k n p) = Some p.
Proof. unfold model_open. rewrite model_seal_take. by rewrite decide_True. Qed.

Lemma model_seal_open k n c p : model_open k n c = Some p -> c = model_seal k n p.
Proof. unfold model_open. case_decide; [|done]. by intros [= <-]. Qed.

Lemma model_seal_length k n p : length (model_seal k n p) = (length p + 16)%nat.
Proof. unfold model_seal, model_tag. by rewrite length_app, mix_length. Qed.

Lemma model_seal_bytes k n p : bytes_ok p -> bytes_ok (model_seal k n p).
Proof. intros H. apply Forall_app. split; [done|apply mix_bytes]. Qed.

Lemma model_open_bytes k n c p : bytes_ok c -> model_open k n c = Some p -> bytes_ok p.
Proof. unfold model_open. case_decide; [|done]. intros Hc [= <-]. by apply Forall_take. Qed.

Definition model_argon2 (o : argon2_options) : option bytes :=
  match iterations o, memorySize o, parallelism o with
  | Some (JNum (NInt i)), NInt m, JNum (NInt p) =>
      if bool_decide (password o <> [] /\ (8 <= length (salt o))%nat /\ 1 <= i /\ 1 <= p /\ 8 * p <= m)
      then Some (mix (hashLength o) (password o ++ salt o ++ [i mod 256])) else None
  | _, _, _ => None
  end.

Lemma model_argon2_total o : argon2_accepts o -> exists k, model_argon2 o = Some k.
Proof.
  unfold model_argon2. intros (Hp & Hs & i & m & p & -> & -> & -> & Hr).
  rewrite bool_decide_eq_true_2 by done. eauto.
Qed.

Lemma model_argon2_length o k : model_argon2 o = Some k -> length k = hashLength o /\ bytes_ok k.
Proof.
  unfold model_argon2. repeat case_match; try done; intros [= <-];
    (split; [apply mix_length|apply mix_bytes]).
Qed.

Definition model_rsa_seal (pub _ m : bytes) : option bytes :=
  if Nat.leb (length m) 190 then Some (m ++ mix 32 pub) else None.
Definition model_rsa_open (priv c : bytes) : option bytes :=
  let m := take (length c - 32) c in
  if decide (c = m ++ mix 32 priv) then Some m else None.

Lemma model_rsa_open_seal (r o m : bytes) : bytes_ok m -> (length m <= 190)%nat ->
  exists c, model_rsa_seal r o m = Some c /\ bytes_ok c /\ model_rsa_open r c = Some m.
Proof.
  intros Hm Hl. unfold model_rsa_seal. rewrite (proj2 (Nat.leb_le _ _) Hl).
  eexists; split; [done|]. split; [apply Forall_app; split; [done|apply mix_bytes]|].
  unfold model_rsa_open. rewrite take_app_exact by (rewrite length_app, mix_length; lia).
  by rewrite decide_True.
Qed.

Definition model_crypto : WebCrypto := {|
  gcm_seal := model_seal;
  gcm_open := model_open;
  hmac h k m := mix (hash_len h) (k ++ m);
  pbkdf2_bits p s r n := mix n (p ++ s ++ [r mod 256]);
  argon2id := model_argon2;
  rsa_keygen r := (r, r);
  rsa_public _ := true;
  rsa_private _ := true;
  rsa_seal := model_rsa_seal;
  rsa_open := model_rsa_open;
  gcm_open_seal := model_open_seal;
  gcm_seal_open := model_seal_open;
  gcm_seal_length := model_seal_length;
  gcm_seal_bytes := model_seal_bytes;
  gcm_open_bytes := model_open_bytes;
  hmac_length _ _ _ := mix_length _ _;
  hmac_bytes _ _ _ := mix_bytes _ _;
  pbkdf2_length _ _ _ _ := mix_length _ _;
  pbkdf2_bytes _ _ _ _ := mix_bytes _ _;
  argon2_total := model_argon2_total;
  argon2_length := model_argon2_length;
  rsa_keygen_bytes _ H := conj H H;
  rsa_keygen_keys _ := conj eq_refl eq_refl;
  rsa_open_seal := model_rsa_open_seal;
|}.
