(* ===== verification/Primitives.v ===== *)
(** crypto/src/primitives.ts: the wrappers over WebCrypto. *)
From S2P Require Import Prelude Text Numeral Json Encoding Effects Platform.

(** Failures of WebCrypto calls. *)
Definition DataError := DomException (js "DataError").
Definition OperationError := DomException (js "OperationError").
Definition InvalidCharacterError := DomException (js "InvalidCharacterError").

Record AesGcmResult := { nonce : bytes; ciphertext : bytes }.

(** [importKey("raw", ...)] for AES-GCM refuses other key sizes. *)
Definition aes_key_ok (k : bytes) : bool :=
  let n := length k in Nat.eqb n 16 || Nat.eqb n 24 || Nat.eqb n 32.

(** [buf.set(l, off)] *)
Definition set_at (off : nat) (l buf : bytes) : bytes :=
  take off buf ++ l ++ drop (off + length l) buf.

(** The integer WebIDL's [EnforceRange] unsigned long makes of a number. *)
Definition enforce_u32 (n : jsnum) : option Z :=
  let z := match n with
           | NInt z => Some z
           | NDec m d => Some (Z.quot m (10 ^ Z.of_nat d))
           | _ => None
           end in
  z ← z; if (0 <=? z) && (z <? 2 ^ 32) then Some z else None.

Lemma enforce_u32_int z : 0 <= z < 2 ^ 32 -> enforce_u32 (NInt z) = Some z.
Proof.
  intros Hz. unfold enforce_u32. cbn [mbind option_bind].
  by rewrite (proj2 (Z.leb_le 0 z)), (proj2 (Z.ltb_lt z (2 ^ 32))) by lia.
Qed.

Section Primitives.
Context {St : Type} `{Entropy St} `{WebCrypto}.

Definition getRandomValues (n : nat) : M St bytes := fun s =>
  if 65536 <? Z.of_nat n then (inr (DomException (js "QuotaExceededError")), s)
  else let '(b, s') := draw n s in (inl b, s').

Definition randomBytes (n : nat) : M St bytes := getRandomValues n.

(** [new Uint32Array(n)] filled by [getRandomValues], little-endian. *)
Fixpoint u32_list (b : bytes) : list Z :=
  match b with
  | w :: x :: y :: z :: b' => w + 256 * x + 65536 * y + 16777216 * z :: u32_list b'
  | _ => []
  end.
Definition randomU32 (n : nat) : M St (list Z) :=
  b ← getRandomValues (4 * n); mret (u32_list b).

Definition aesGcmEncrypt (key plaintext : bytes) (nonce : option bytes) : M St AesGcmResult :=
  n ← match nonce with Some n => mret n | None => randomBytes 12 end;
  _ ← throw_if (negb (aes_key_ok key)) DataError;
  mret {| nonce := n; ciphertext := gcm_seal key n plaintext |}.

Definition aesGcmDecrypt (key nonce ciphertext : bytes) : M St bytes :=
  _ ← throw_if (negb (aes_key_ok key)) DataError;
  of_option OperationError (gcm_open key nonce ciphertext).

(** One round of the HKDF loop: [i] counts up, [n] down to the end. *)
Fixpoint hkdf_rounds (n i : nat) (prk infoBytes prev okm : bytes) : bytes :=
  match n with
  | O => okm
  | S n' =>
      let input := prev ++ infoBytes ++ [(Z.of_nat i + 1) mod 256] in
      let prev' := hmac SHA256 prk input in
      hkdf_rounds n' (S i) prk infoBytes prev' (set_at (i * 32) prev' okm)
  end.

Definition hkdfExpand (prk : bytes) (info : jsstr) (length : nat) : M St bytes :=
  _ ← throw_if (bool_decide (prk = [])) DataError;
  let infoBytes := utf8 info in
  let blocks := ((length + 31) / 32)%nat in
  let okm := hkdf_rounds blocks 0 prk infoBytes [] (replicate (blocks * 32) 0) in
  mret (take length okm).

(** [iterations] is converted by WebIDL before any work is done. *)
Definition pbkdf2 (password salt : bytes) (iterations : jsv) (length : nat) : M St bytes :=
  n ← match iterations with
      | None => raise JsTypeError
      | Some v => of_option JsTypeError (json_to_number v)
      end;
  rounds ← of_option JsTypeError (enforce_u32 n);
  _ ← throw_if (rounds =? 0) OperationError;
  mret (pbkdf2_bits password salt rounds length).

(** ** HKDF against RFC 5869 *)

(** T(i) of section 2.3. *)
Fixpoint hkdf_T (prk info : bytes) (i : nat) : bytes :=
  match i with
  | O => []
  | S j => hmac SHA256 prk (hkdf_T prk info j ++ info ++ [Z.of_nat i])
  end.
Definition hkdf_okm (prk info : bytes) (n : nat) : bytes :=
  mjoin (map (hkdf_T prk info) (seq 1 n)).

Lemma hkdf_T_length prk info i : (0 < i)%nat -> length (hkdf_T prk info i) = 32%nat.
Proof. destruct i; [lia|]. intros _. apply (hmac_length SHA256). Qed.

Lemma hkdf_okm_S prk info n :
  hkdf_okm prk info (S n) = hkdf_okm prk info n ++ hkdf_T prk info (S n).
Proof.
  unfold hkdf_okm. rewrite seq_S, map_app, join_app. cbn. by rewrite app_nil_r.
Qed.

Lemma hkdf_okm_length prk info n : length (hkdf_okm prk info n) = (n * 32)%nat.
Proof.
  induction n as [|n IH]; [done|].
  rewrite hkdf_okm_S, length_app, IH, hkdf_T_length by lia. lia.
Qed.

(** The loop fills the buffer with T(1), T(2), ... *)
Lemma hkdf_rounds_spec prk info n i :
  (i + n <= 255)%nat ->
  hkdf_rounds n i prk info (hkdf_T prk info i) (hkdf_okm prk info i ++ replicate (n * 32) 0)
  = hkdf_okm prk info (i + n).
Proof.
  revert i. induction n as [|n IH]; intros i Hi.
  { rewrite Nat.add_0_r. by rewrite app_nil_r. }
  cbn [hkdf_rounds]. rewrite Z.mod_small by lia.
  replace (Z.of_nat i + 1) with (Z.of_nat (S i)) by lia.
  change (hmac SHA256 prk (hkdf_T prk info i ++ info ++ [Z.of_nat (S i)]))
    with (hkdf_T prk info (S i)).
  replace (i + S n)%nat with (S i + n)%nat by lia.
  rewrite <- IH by lia. f_equal. unfold set_at.
  rewrite hkdf_T_length by lia.
  rewrite take_app_exact by (rewrite hkdf_okm_length; lia).
  rewrite hkdf_okm_S, <- app_assoc. do 2 f_equal.
  rewrite drop_app_ge by (rewrite hkdf_okm_length; lia). rewrite hkdf_okm_length.
  replace (i * 32 + 32 - i * 32)%nat with 32%nat by lia.
  rewrite drop_replicate. f_equal. lia.
Qed.

(** ** Laws used by the callers *)

#[global] Instance randomBytes_keeps P n : Undrawn P -> Keeps P (randomBytes n).
Proof.
  intros HP s Hs. unfold randomBytes, getRandomValues. case_match; [done|].
  specialize (HP n s Hs). by destruct (draw n s).
Qed.
#[global] Instance aesGcmEncrypt_keeps P k p n : Undrawn P -> Keeps P (aesGcmEncrypt k p n).
Proof. intros HP. unfold aesGcmEncrypt. destruct n; apply _. Qed.

#[global] Instance aesGcmDecrypt_constant k n c : Constant (S := St) (aesGcmDecrypt k n c).
Proof. apply _. Qed.
#[global] Instance hkdfExpand_constant k i n : Constant (S := St) (hkdfExpand k i n).
Proof. apply _. Qed.
#[global] Instance pbkdf2_constant p s i n : Constant (S := St) (pbkdf2 p s i n).
Proof. unfold pbkdf2. constant. Qed.

Lemma randomBytes_returns n s : Z.of_nat n <= 65536 ->
  exists b s', returns (randomBytes n) s b s' /\ length b = n /\ bytes_ok b.
Proof.
  intros Hn. unfold returns, randomBytes, getRandomValues.
  rewrite (proj2 (Z.ltb_ge _ _) Hn).
  pose proof (draw_length n s) as Hl. pose proof (draw_bytes n s) as Hb.
  destruct (draw n s) as [b s']. exists b, s'. done.
Qed.

Lemma aesGcmEncrypt_returns key p s : aes_key_ok key = true -> bytes_ok p ->
  exists n s', returns (aesGcmEncrypt key p None) s {| nonce := n; ciphertext := gcm_seal key n p |} s'
    /\ length n = 12%nat /\ bytes_ok n /\ bytes_ok (gcm_seal key n p) /\ gcm_seal key n p <> [].
Proof.
  intros Hk Hp. destruct (randomBytes_returns 12 s ltac:(lia)) as (n & s' & Hr & Hl & Hb).
  exists n, s'. split_and!; [|done|done|by apply gcm_seal_bytes|].
  - unfold aesGcmEncrypt. run Hr. by rewrite Hk.
  - intros E. pose proof (gcm_seal_length key n p) as Hs. rewrite E in Hs. cbn in Hs. lia.
Qed.

Lemma aesGcmDecrypt_seal key n p s : aes_key_ok key = true ->
  returns (aesGcmDecrypt key n (gcm_seal key n p)) s p s.
Proof. intros Hk. unfold returns, aesGcmDecrypt. rewrite Hk. cbn. by rewrite gcm_open_seal. Qed.

(** The only two ways decryption ends: the plaintext sealed under this key and
    nonce, or an exception; the state is untouched. *)
Lemma aesGcmDecrypt_cases key n c s :
  (exists p, returns (aesGcmDecrypt key n c) s p s /\ c = gcm_seal key n p) \/
  (exists e, throws (aesGcmDecrypt key n c) s e s /\ (e = DataError \/ e = OperationError)).
Proof.
  unfold returns, throws, aesGcmDecrypt. destruct (aes_key_ok key); cbn; [|by eauto].
  destruct (gcm_open key n c) as [p|] eqn:E; cbn; [left|right; eauto].
  exists p. split; [done|]. by apply gcm_seal_open.
Qed.

Lemma hkdf_okm_bytes prk info n : bytes_ok (hkdf_okm prk info n).
Proof.
  induction n as [|n IH]; [constructor|]. rewrite hkdf_okm_S. apply Forall_app. split; [done|].
  apply hmac_bytes.
Qed.

(** The buffer-filling loop computes the first [n] bytes of T(1) | T(2) | ... *)
Lemma hkdfExpand_rfc5869 prk info n s : prk <> [] -> (n <= 255 * 32)%nat ->
  returns (hkdfExpand prk info n) s (take n (hkdf_okm prk (utf8 info) ((n + 31) / 32))) s.
Proof.
  intros Hp Hn. unfold returns, hkdfExpand. rewrite bool_decide_eq_false_2 by done.
  assert ((n + 31) / 32 <= 255)%nat.
  { enough ((n + 31) / 32 < 256)%nat by lia. apply Nat.Div0.div_lt_upper_bound. lia. }
  set (N := ((n + 31) / 32)%nat) in *. clearbody N.
  assert (hkdf_rounds N 0 prk (utf8 info) [] (replicate (N * 32) 0) = hkdf_okm prk (utf8 info) N)
    as E by (apply (hkdf_rounds_spec prk (utf8 info) N 0); lia).
  cbn. by rewrite E.
Qed.

Lemma hkdfExpand_returns prk info : prk <> [] ->
  exists k, (forall s : St, returns (hkdfExpand prk info 32) s k s) /\ length k = 32%nat /\ bytes_ok k.
Proof.
  intros Hp. exists (take 32 (hkdf_okm prk (utf8 info) 1)). split_and!.
  - intros s. apply (hkdfExpand_rfc5869 prk info 32 s Hp). lia.
  - rewrite length_take, hkdf_okm_length. done.
  - apply Forall_take, hkdf_okm_bytes.
Qed.

Lemma pbkdf2_returns p salt z n s : 1 <= z < 2 ^ 32 ->
  returns (pbkdf2 p salt (Some (JNum (NInt z))) n) s (pbkdf2_bits p salt z n) s.
Proof.
  intros Hz. unfold returns, pbkdf2. cbn [json_to_number]. autorewrite with monad.
  rewrite enforce_u32_int by lia. autorewrite with monad. by destruct (Z.eqb_spec z 0); [lia|].
Qed.
End Primitives.

#[export] Hint Resolve gcm_seal_bytes toBase64_ascii : passwd.
