(* ===== verification/EncString.v ===== *)
(** crypto/src/encstring.ts: the ciphertext envelope
    "<type>.<base64(nonce)>|<base64(data)>". *)
From S2P Require Import Prelude Text Numeral Json JsonFacts Encoding Effects Primitives.

(** [EncType.AesGcm]; the other member, 2, is reserved and never accepted. *)
Definition AesGcm : Z := 1.
Definition AesCbcHmac : Z := 2.

Record EncString := { e_type : Z; e_nonce : bytes; e_data : bytes }.

Definition serializeEncString (e : EncString) : jsstr :=
  num_to_string (NInt (e_type e)) ++ [c_dot] ++ toBase64 (e_nonce e) ++ [c_pipe] ++ toBase64 (e_data e).

Definition missing_prefix := JsError (js "invalid EncString: missing type prefix").
Definition expected_nonce_data := JsError (js "invalid EncString: expected nonce|data").
Definition unsupported_type (t : jsnum) := JsError (js "unsupported EncString type: " ++ num_to_string t).

(** The parser as a result; [parseEncString] raises it. *)
Definition parse_enc (s : jsstr) : EncString + exn :=
  match index_of c_dot s with
  | None => inr missing_prefix
  | Some dot =>
      let type := js_number (take dot s) in
      if negb (bool_decide (type = NInt AesGcm)) then inr (unsupported_type type)
      else
        match split_on c_pipe (drop (S dot) s) with
        | [p0; p1] =>
            if bool_decide (p0 = []) || bool_decide (p1 = []) then inr expected_nonce_data
            else
              match fromBase64 p0, fromBase64 p1 with
              | Some n, Some d => inl {| e_type := AesGcm; e_nonce := n; e_data := d |}
              | _, _ => inr InvalidCharacterError
              end
        | _ => inr expected_nonce_data
        end
  end.

Definition parseEncString {St} (s : jsstr) : M St EncString := fun st => (parse_enc s, st).

(** The call on a value that came out of JSON: anything but a string makes the
    string methods it uses raise. *)
Definition parseEncString_jsv {St} (v : jsv) : M St EncString :=
  match v with Some (JStr s) => parseEncString s | _ => raise JsTypeError end.

#[global] Instance parseEncString_constant {St} s : Constant (S := St) (parseEncString s).
Proof. by exists (parse_enc s). Qed.
#[global] Instance parseEncString_jsv_constant {St} v : Constant (S := St) (parseEncString_jsv v).
Proof. unfold parseEncString_jsv. constant. Qed.

(** An envelope the program produces: AES-GCM, bytes, neither part empty. *)
Definition enc_ok (e : EncString) : Prop :=
  e_type e = AesGcm /\ bytes_ok (e_nonce e) /\ bytes_ok (e_data e) /\ e_nonce e <> [] /\ e_data e <> [].

Lemma pipe_not_b64 : ~ b64_alphabet c_pipe.
Proof. intros [H|H]; [discriminate H|lia]. Qed.

Lemma split_envelope n d : bytes_ok n -> bytes_ok d ->
  split_on c_pipe (toBase64 n ++ c_pipe :: toBase64 d) = [toBase64 n; toBase64 d].
Proof.
  intros Hn Hd. rewrite split_on_app, split_on_nosep; [done|..];
    (apply toBase64_free; [apply pipe_not_b64|done]).
Qed.

Lemma serialize_shape n d :
  serializeEncString {| e_type := AesGcm; e_nonce := n; e_data := d |}
  = 49 :: c_dot :: toBase64 n ++ c_pipe :: toBase64 d.
Proof.
  unfold serializeEncString. cbn [e_type e_nonce e_data].
  assert (num_to_string (NInt AesGcm) = [49]) as -> by (vm_compute; reflexivity). done.
Qed.

Lemma parse_serialize e : enc_ok e -> parse_enc (serializeEncString e) = inl e.
Proof.
  destruct e as [t n d]. intros (Ht & Hn & Hd & Hn' & Hd'). cbn [e_type e_nonce e_data] in *. subst t.
  rewrite serialize_shape. unfold parse_enc.
  set (r := toBase64 n ++ _).
  change (index_of c_dot (49 :: c_dot :: r)) with (Some 1%nat).
  change (take 1 (49 :: c_dot :: r)) with (js "1").
  cbv zeta beta iota. rewrite bool_decide_eq_true_2 by (vm_compute; reflexivity). cbn [negb].
  change (drop 2 (49 :: c_dot :: r)) with r. unfold r. rewrite split_envelope by done.
  rewrite !bool_decide_eq_false_2 by (by apply toBase64_nonempty). cbn [orb].
  by rewrite !fromBase64_toBase64 by done.
Qed.

Lemma parseEncString_serialize {St} e (s : St) : enc_ok e ->
  returns (parseEncString (serializeEncString e)) s e s.
Proof. intros He. unfold returns, parseEncString. by rewrite parse_serialize. Qed.

(** Whatever is accepted carries the one supported type. *)
Lemma parse_enc_type s e : parse_enc s = inl e -> e_type e = AesGcm.
Proof. unfold parse_enc. repeat case_match; try done. by intros [= <-]. Qed.

Lemma enc_units e : enc_ok e -> ascii (serializeEncString e).
Proof.
  destruct e as [t n d]. intros (Ht & Hn & Hd & _). cbn [e_type e_nonce e_data] in *. subst t. rewrite serialize_shape.
  do 2 (constructor; [unfold_ok; lia|]). apply Forall_app. split; [by apply toBase64_ascii|].
  constructor; [unfold_ok; lia|by apply toBase64_ascii].
Qed.

(** An envelope is never JSON, so the readers that try JSON first fall through. *)
Lemma json_parse_envelope e : enc_ok e -> json_parse (serializeEncString e) = None.
Proof.
  destruct e as [t n d]. intros (Ht & _). cbn [e_type] in Ht. subst t. rewrite serialize_shape.
  apply (json_parse_not_number _ _ c_pipe); try done.
  - right. apply in_app_iff. right. by left.
  - unfold num_char. intros H. repeat (destruct H as [H|H]; try discriminate H).
Qed.

(** The envelope format is unambiguous: what the program serializes parses back
    to the same type, nonce and data, is never mistaken for the JSON container of a
    per-item key, and whatever else parses also carries the one supported type. *)
Theorem encstring_roundtrip e (He : enc_ok e) :
  parse_enc (serializeEncString e) = inl e /\ json_parse (serializeEncString e) = None /\
  forall s e', parse_enc s = inl e' -> e_type e' = AesGcm.
Proof.
  split_and!; [by apply parse_serialize|by apply json_parse_envelope|]. intros s e'. apply parse_enc_type.
Qed.

Lemma encstring_roundtrip_witness :
  parse_enc (js "1.AQID|/w==") = inl {| e_type := AesGcm; e_nonce := [1; 2; 3]; e_data := [255] |}.
Proof.
  refine (proj1 (encstring_roundtrip {| e_type := AesGcm; e_nonce := [1; 2; 3]; e_data := [255] |} _)).
  split_and!; [done|decide_forall|decide_forall|done|done].
Defined.
