(* ===== verification/Kdf.v ===== *)
(** crypto/src/kdf.ts: key derivation under the account's KDF parameters. *)
From S2P Require Import Prelude Text Numeral Json Encoding Effects Platform Primitives.

(** [KdfParams] is a plain object that travels through JSON, so it is the JSON
    value itself, read property by property. *)
Definition kdf_params (type : jsstr) (iterations memoryMiB parallelism : jsv) : json :=
  obj_of [(js "type", Some (JStr type)); (js "iterations", iterations);
          (js "memoryMiB", memoryMiB); (js "parallelism", parallelism)].
Definition jint (z : Z) : jsv := Some (JNum (NInt z)).

Definition DEFAULT_KDF : json := kdf_params (js "argon2id") (jint 3) (jint 64) (jint 4).

(** [n * k] for a positive integer [k]. *)
Definition num_scale (n : jsnum) (k : Z) : jsnum :=
  match n with
  | NInt z => NInt (z * k)
  | NDec m d => mk_frac d (m * k)
  | NInf b => NInf b
  | NNaN => NNaN
  end.

(** The encoder's argument: [undefined] is the empty string, anything else is
    converted to a string. *)
Definition text_of (v : jsv) : option jsstr :=
  match v with None => Some [] | Some w => json_to_string w end.

Section Kdf.
Context {St : Type} `{Unicode} `{Entropy St} `{WebCrypto}.

Definition deriveKey (pwd : jsstr) (slt params : jsv) : M St bytes :=
  let pw := utf8 (nfkc pwd) in
  saltStr ← of_option JsTypeError (text_of slt);
  let saltBytes := utf8 saltStr in
  p ← match params with
      | None | Some JNull => raise JsTypeError
      | Some p => mret p
      end;
  if bool_decide (get_prop (js "type") p = Some (JStr (js "pbkdf2"))) then
    pbkdf2 pw saltBytes (get_prop (js "iterations") p) 32
  else
    mem ← of_option JsTypeError
            (json_to_number (coalesce (get_prop (js "memoryMiB") p) (JNum (NInt 64))));
    of_option LibraryError
      (argon2id {| password := pw; salt := saltBytes;
                   iterations := get_prop (js "iterations") p;
                   memorySize := num_scale mem 1024;
                   parallelism := coalesce (get_prop (js "parallelism") p) (JNum (NInt 4));
                   hashLength := 32 |}).

#[global] Instance deriveKey_constant pwd slt params : Constant (S := St) (deriveKey pwd slt params).
Proof. unfold deriveKey. constant. Qed.

(** Parameters that name a runnable KDF. *)
Definition params_ok (p : json) : Prop :=
  (get_prop (js "type") p = Some (JStr (js "pbkdf2")) /\
   exists z, get_prop (js "iterations") p = jint z /\ 1 <= z < 2 ^ 32) \/
  (get_prop (js "type") p <> Some (JStr (js "pbkdf2")) /\
   exists i m l, get_prop (js "iterations") p = jint i /\ 1 <= i /\
     coalesce (get_prop (js "memoryMiB") p) (JNum (NInt 64)) = JNum (NInt m) /\
     coalesce (get_prop (js "parallelism") p) (JNum (NInt 4)) = JNum (NInt l) /\
     1 <= l /\ l <= 128 * m).

Lemma utf8_nonempty s : s <> [] -> utf8 s <> [].
Proof.
  intros Hs. unfold utf8.
  assert (to_cps s <> []) as Hc
    by (destruct s as [|u [|v s]]; [done|..]; cbn; repeat case_match; done).
  destruct (to_cps s) as [|c cs]; [done|]. rewrite bind_cons.
  unfold encode_cp. by repeat case_match.
Qed.

Lemma length_le_utf8 s : ascii s -> length (utf8 s) = length s.
Proof. intros Hs. by rewrite utf8_ascii. Qed.

(** With a password, an ASCII salt of at least eight characters and runnable
    parameters, derivation yields 32 bytes, without touching the state, and the
    same ones each time. *)
Lemma deriveKey_returns pwd slt p :
  pwd <> [] -> ascii slt -> (8 <= length slt)%nat -> params_ok p ->
  exists k, (forall s : St, returns (deriveKey pwd (Some (JStr slt)) (Some p)) s k s)
    /\ length k = 32%nat /\ bytes_ok k.
Proof.
  intros Hp Hs Hl Hok. unfold deriveKey. cbn [text_of json_to_string]. cbv zeta.
  assert (Hpn : p <> JNull).
  { intros ->. destruct Hok as [(E & _)|(_ & i & m & l & E & _)]; discriminate E. }
  destruct Hok as [(Ht & z & Hi & Hz)|(Ht & i & m & l & Hi & Hi' & Hm & Hl' & Hp1 & Hp2)].
  - exists (pbkdf2_bits (utf8 (nfkc pwd)) (utf8 slt) z 32).
    split; [|split; [apply pbkdf2_length|apply pbkdf2_bytes]].
    intros s. unfold returns. autorewrite with monad.
    destruct p; try done; autorewrite with monad; rewrite bool_decide_eq_true_2, Hi by done;
      by apply pbkdf2_returns.
  - set (o := {| password := utf8 (nfkc pwd); salt := utf8 slt; iterations := jint i;
                 memorySize := NInt (m * 1024); parallelism := JNum (NInt l); hashLength := 32 |}).
    destruct (argon2_total o) as [k Hk].
    { split_and!; [by apply utf8_nonempty, nfkc_nonempty|cbn; by rewrite length_le_utf8|].
      exists i, (m * 1024), l. cbn. split_and!; (done || lia). }
    exists k. split; [|by apply argon2_length in Hk].
    intros s. unfold returns. autorewrite with monad.
    destruct p; try done; autorewrite with monad; rewrite bool_decide_eq_false_2, Hi, Hm, Hl' by done;
      cbn [json_to_number]; autorewrite with monad;
      change (num_scale (NInt m) 1024) with (NInt (m * 1024)); fold o; by rewrite Hk.
Qed.
End Kdf.

Lemma default_kdf_ok : params_ok DEFAULT_KDF.
Proof. right. split; [done|]. exists 3, 64, 4. repeat split; (done || lia). Qed.
#[export] Hint Resolve default_kdf_ok : passwd.

(** A fresh salt, [toBase64(randomBytes(16))], is long enough for the KDF. *)
Lemma fresh_salt_ok b : length b = 16%nat -> bytes_ok b ->
  ascii (toBase64 b) /\ (8 <= length (toBase64 b))%nat.
Proof.
  intros Hl Hb. split; [by apply toBase64_ascii|].
  do 16 (destruct b as [|? b]; [discriminate Hl|]). destruct b; [cbn; lia|discriminate Hl].
Qed.

Lemma deriveKey_length `{Unicode} `{WebCrypto} {St : Type} pwd slt p (s s' : St) k :
  returns (deriveKey pwd slt p) s k s' -> length k = 32%nat.
Proof.
  unfold deriveKey. intros (t & s1 & _ & Hr)%bind_inv. apply bind_inv in Hr as (q & s2 & _ & Hr).
  case_match.
  - unfold pbkdf2 in Hr. apply bind_inv in Hr as (n & s3 & _ & Hr). apply bind_inv in Hr as (r & s4 & _ & Hr).
    apply bind_inv in Hr as (u & s5 & _ & Hr). apply ret_inv in Hr as [-> _]. apply pbkdf2_length.
  - apply bind_inv in Hr as (m & s3 & _ & Hr). unfold returns, of_option in Hr.
    destruct (argon2id _) as [k'|] eqn:E; [|done]. injection Hr as <- <-.
    apply argon2_length in E as [E _]. exact E.
Qed.
