(* ===== verification/Policy.v ===== *)
(** crypto/src/password.ts: the master-password policy. *)
From S2P Require Import Prelude Text.

Definition MIN_MASTER_PASSWORD_LENGTH : nat := 12.

(** The four character classes of the policy, as tests on one unit. *)
Definition char_classes : list (Z -> bool) :=
  [is_lower; is_upper; is_digit; fun u => negb (is_alnum u)].

(** [classes.filter((re) => re.test(s)).length] *)
Definition count_classes (s : jsstr) : nat :=
  length (List.filter (fun p => existsb p s) char_classes).

Definition masterPasswordIssue (password : jsstr) : option jsstr :=
  if Nat.ltb (length password) MIN_MASTER_PASSWORD_LENGTH then
    Some (js "Use at least 12 characters (a short passphrase works well).")
  else if Nat.leb 16 (length password) then None
  else if Nat.ltb (count_classes password) 2 then
    Some (js "Mix in another character type, or use a longer passphrase.")
  else None.

(** Every unit is in exactly one class. *)
Lemma one_class u : length (List.filter (fun p => p u) char_classes) = 1%nat.
Proof.
  unfold char_classes, is_alnum. cbn. destruct (is_lower u) eqn:El, (is_upper u) eqn:Eu, (is_digit u) eqn:Ed;
    try done; exfalso; unfold is_lower, is_upper, is_digit in *; bool_prop; lia.
Qed.

(** The class a unit belongs to. *)
Definition class_of (u : Z) : nat :=
  if is_lower u then 0 else if is_upper u then 1 else if is_digit u then 2 else 3.

Lemma class_test i p u : char_classes !! i = Some p -> p u = true <-> class_of u = i.
Proof.
  unfold char_classes, class_of, is_alnum. intros Hp.
  destruct i as [|[|[|[|i]]]]; cbn in Hp; try done; injection Hp as <-;
    unfold is_lower, is_upper, is_digit; zcases; cbn; split; intros; (done || lia).
Qed.

Lemma class_present i p s : char_classes !! i = Some p ->
  existsb p s = true <-> exists u, In u s /\ class_of u = i.
Proof.
  intros Hp. rewrite existsb_exists. split; intros (u & Hu & Hc); exists u; split; auto;
    by apply (class_test i p).
Qed.

(** Two units of different classes. *)
Definition mixed (s : jsstr) : Prop :=
  exists u v, In u s /\ In v s /\ class_of u <> class_of v.

Lemma count_classes_mixed s : (2 <= count_classes s)%nat <-> mixed s.
Proof.
  pose proof (class_present 0 _ s eq_refl) as H0. pose proof (class_present 1 _ s eq_refl) as H1.
  pose proof (class_present 2 _ s eq_refl) as H2. pose proof (class_present 3 _ s eq_refl) as H3.
  unfold count_classes, mixed, char_classes. cbn [List.filter].
  set (b0 := existsb is_lower s) in *. set (b1 := existsb is_upper s) in *.
  set (b2 := existsb is_digit s) in *. set (b3 := existsb (fun u => negb (is_alnum u)) s) in *. split.
  - assert (Hpair : forall i j, i <> j -> (exists u, In u s /\ class_of u = i) ->
      (exists u, In u s /\ class_of u = j) -> exists u v, In u s /\ In v s /\ class_of u <> class_of v).
    { intros i j Hij (u & Hu & <-) (v & Hv & <-). eauto. }
    destruct b0, b1, b2, b3; cbn; intros Hlen; try lia;
      match goal with
      | A : true = true <-> _, B : true = true <-> _ |- _ =>
          apply (fun H => Hpair _ _ H (proj1 A eq_refl) (proj1 B eq_refl)); lia
      end.
  - intros (u & v & Hu & Hv & Hne).
    assert (Hin : forall w, In w s ->
      match class_of w with 0 => b0 | 1 => b1 | 2 => b2 | _ => b3 end%nat = true).
    { intros w Hw. destruct (class_of w) as [|[|[|n]]] eqn:E; [apply H0|apply H1|apply H2|apply H3];
        exists w; split; try done. rewrite E. unfold class_of in E. repeat case_match; lia. }
    apply Hin in Hu, Hv.
    assert (class_of u < 4)%nat by (unfold class_of; repeat case_match; lia).
    assert (class_of v < 4)%nat by (unfold class_of; repeat case_match; lia).
    destruct (class_of u) as [|[|[|[|]]]], (class_of v) as [|[|[|[|]]]]; try lia; try congruence;
      rewrite Hu, Hv; destruct b0, b1, b2, b3; cbn; lia.
Qed.

(** The policy accepts a password exactly when it is long, or of medium
    length and mixes two character classes. *)
Theorem masterPasswordIssue_accepts p :
  masterPasswordIssue p = None <->
  (16 <= length p)%nat \/ ((12 <= length p)%nat /\ mixed p).
Proof.
  unfold masterPasswordIssue, MIN_MASTER_PASSWORD_LENGTH. rewrite <- count_classes_mixed.
  destruct (Nat.ltb_spec (length p) 12), (Nat.leb_spec 16 (length p)),
    (Nat.ltb_spec (count_classes p) 2); split; intros; try done; try lia; auto.
Qed.
