(* ===== verification/Wordlist.v ===== *)
(** crypto/src/wordlist.ts: the BIP39 English wordlist, row by row, and the facts
    about it that the generator relies on. *)
From S2P Require Import Prelude Text.

(** The first half of the list, abandon to lend, eight words to a row as in the source. *)
Definition wordlist_rows_1 : list string := [
  "abandon ability able about above absent absorb abstract"%string;
  "absurd abuse access accident account accuse achieve acid"%string;
  "acoustic acquire across act action actor actress actual"%string;
  "adapt add addict address adjust admit adult advance"%string;
  "advice aerobic affair afford afraid again age agent"%string;
  "agree ahead aim air airport aisle alarm album"%string;
  "alcohol alert alien all alley allow almost alone"%string;
  "alpha already also alter always amateur amazing among"%string;
  "amount amused analyst anchor ancient anger angle angry"%string;
  "animal ankle announce annual another answer antenna antique"%string;
  "anxiety any apart apology appear apple approve april"%string;
  "arch arctic area arena argue arm armed armor"%string;
  "army around arrange arrest arrive arrow art artefact"%string;
  "artist artwork ask aspect assault asset assist assume"%string;
  "asthma athlete atom attack attend attitude attract auction"%string;
  "audit august aunt author auto autumn average avocado"%string;
  "avoid awake aware away awesome awful awkward axis"%string;
  "baby bachelor bacon badge bag balance balcony ball"%string;
  "bamboo banana banner bar barely bargain barrel base"%string;
  "basic basket battle beach bean beauty because become"%string;
  "beef before begin behave behind believe below belt"%string;
  "bench benefit best betray better between beyond bicycle"%string;
  "bid bike bind biology bird birth bitter black"%string;
  "blade blame blanket blast bleak bless blind blood"%string;
  "blossom blouse blue blur blush board boat body"%string;
  "boil bomb bone bonus book boost border boring"%string;
  "borrow boss bottom bounce box boy bracket brain"%string;
  "brand brass brave bread breeze brick bridge brief"%string;
  "bright bring brisk broccoli broken bronze broom brother"%string;
  "brown brush bubble buddy budget buffalo build bulb"%string;
  "bulk bullet bundle bunker burden burger burst bus"%string;
  "business busy butter buyer buzz cabbage cabin cable"%string;
  "cactus cage cake call calm camera camp can"%string;
  "canal cancel candy cannon canoe canvas canyon capable"%string;
  "capital captain car carbon card cargo carpet carry"%string;
  "cart case cash casino castle casual cat catalog"%string;
  "catch category cattle caught cause caution cave ceiling"%string;
  "celery cement census century cereal certain chair chalk"%string;
  "champion change chaos chapter charge chase chat cheap"%string;
  "check cheese chef cherry chest chicken chief child"%string;
  "chimney choice choose chronic chuckle chunk churn cigar"%string;
  "cinnamon circle citizen city civil claim clap clarify"%string;
  "claw clay clean clerk clever click client cliff"%string;
  "climb clinic clip clock clog close cloth cloud"%string;
  "clown club clump cluster clutch coach coast coconut"%string;
  "code coffee coil coin collect color column combine"%string;
  "come comfort comic common company concert conduct confirm"%string;
  "congress connect consider control convince cook cool copper"%string;
  "copy coral core corn correct cost cotton couch"%string;
  "country couple course cousin cover coyote crack cradle"%string;
  "craft cram crane crash crater crawl crazy cream"%string;
  "credit creek crew cricket crime crisp critic crop"%string;
  "cross crouch crowd crucial cruel cruise crumble crunch"%string;
  "crush cry crystal cube culture cup cupboard curious"%string;
  "current curtain curve cushion custom cute cycle dad"%string;
  "damage damp dance danger daring dash daughter dawn"%string;
  "day deal debate debris decade december decide decline"%string;
  "decorate decrease deer defense define defy degree delay"%string;
  "deliver demand demise denial dentist deny depart depend"%string;
  "deposit depth deputy derive describe desert design desk"%string;
  "despair destroy detail detect develop device devote diagram"%string;
  "dial diamond diary dice diesel diet differ digital"%string;
  "dignity dilemma dinner dinosaur direct dirt disagree discover"%string;
  "disease dish dismiss disorder display distance divert divide"%string;
  "divorce dizzy doctor document dog doll dolphin domain"%string;
  "donate donkey donor door dose double dove draft"%string;
  "dragon drama drastic draw dream dress drift drill"%string;
  "drink drip drive drop drum dry duck dumb"%string;
  "dune during dust dutch duty dwarf dynamic eager"%string;
  "eagle early earn earth easily east easy echo"%string;
  "ecology economy edge edit educate effort egg eight"%string;
  "either elbow elder electric elegant element elephant elevator"%string;
  "elite else embark embody embrace emerge emotion employ"%string;
  "empower empty enable enact end endless endorse enemy"%string;
  "energy enforce engage engine enhance enjoy enlist enough"%string;
  "enrich enroll ensure enter entire entry envelope episode"%string;
  "equal equip era erase erode erosion error erupt"%string;
  "escape essay essence estate eternal ethics evidence evil"%string;
  "evoke evolve exact example excess exchange excite exclude"%string;
  "excuse execute exercise exhaust exhibit exile exist exit"%string;
  "exotic expand expect expire explain expose express extend"%string;
  "extra eye eyebrow fabric face faculty fade faint"%string;
  "faith fall false fame family famous fan fancy"%string;
  "fantasy farm fashion fat fatal father fatigue fault"%string;
  "favorite feature february federal fee feed feel female"%string;
  "fence festival fetch fever few fiber fiction field"%string;
  "figure file film filter final find fine finger"%string;
  "finish fire firm first fiscal fish fit fitness"%string;
  "fix flag flame flash flat flavor flee flight"%string;
  "flip float flock floor flower fluid flush fly"%string;
  "foam focus fog foil fold follow food foot"%string;
  "force forest forget fork fortune forum forward fossil"%string;
  "foster found fox fragile frame frequent fresh friend"%string;
  "fringe frog front frost frown frozen fruit fuel"%string;
  "fun funny furnace fury future gadget gain galaxy"%string;
  "gallery game gap garage garbage garden garlic garment"%string;
  "gas gasp gate gather gauge gaze general genius"%string;
  "genre gentle genuine gesture ghost giant gift giggle"%string;
  "ginger giraffe girl give glad glance glare glass"%string;
  "glide glimpse globe gloom glory glove glow glue"%string;
  "goat goddess gold good goose gorilla gospel gossip"%string;
  "govern gown grab grace grain grant grape grass"%string;
  "gravity great green grid grief grit grocery group"%string;
  "grow grunt guard guess guide guilt guitar gun"%string;
  "gym habit hair half hammer hamster hand happy"%string;
  "harbor hard harsh harvest hat have hawk hazard"%string;
  "head health heart heavy hedgehog height hello helmet"%string;
  "help hen hero hidden high hill hint hip"%string;
  "hire history hobby hockey hold hole holiday hollow"%string;
  "home honey hood hope horn horror horse hospital"%string;
  "host hotel hour hover hub huge human humble"%string;
  "humor hundred hungry hunt hurdle hurry hurt husband"%string;
  "hybrid ice icon idea identify idle ignore ill"%string;
  "illegal illness image imitate immense immune impact impose"%string;
  "improve impulse inch include income increase index indicate"%string;
  "indoor industry infant inflict inform inhale inherit initial"%string;
  "inject injury inmate inner innocent input inquiry insane"%string;
  "insect inside inspire install intact interest into invest"%string;
  "invite involve iron island isolate issue item ivory"%string;
  "jacket jaguar jar jazz jealous jeans jelly jewel"%string;
  "job join joke journey joy judge juice jump"%string;
  "jungle junior junk just kangaroo keen keep ketchup"%string;
  "key kick kid kidney kind kingdom kiss kit"%string;
  "kitchen kite kitten kiwi knee knife knock know"%string;
  "lab label labor ladder lady lake lamp language"%string;
  "laptop large later latin laugh laundry lava law"%string;
  "lawn lawsuit layer lazy leader leaf learn leave"%string;
  "lecture left leg legal legend leisure lemon lend"%string
].

Definition wordlist_rows_2 : list string := [
  "length lens leopard lesson letter level liar liberty"%string;
  "library license life lift light like limb limit"%string;
  "link lion liquid list little live lizard load"%string;
  "loan lobster local lock logic lonely long loop"%string;
  "lottery loud lounge love loyal lucky luggage lumber"%string;
  "lunar lunch luxury lyrics machine mad magic magnet"%string;
  "maid mail main major make mammal man manage"%string;
  "mandate mango mansion manual maple marble march margin"%string;
  "marine market marriage mask mass master match material"%string;
  "math matrix matter maximum maze meadow mean measure"%string;
  "meat mechanic medal media melody melt member memory"%string;
  "mention menu mercy merge merit merry mesh message"%string;
  "metal method middle midnight milk million mimic mind"%string;
  "minimum minor minute miracle mirror misery miss mistake"%string;
  "mix mixed mixture mobile model modify mom moment"%string;
  "monitor monkey monster month moon moral more morning"%string;
  "mosquito mother motion motor mountain mouse move movie"%string;
  "much muffin mule multiply muscle museum mushroom music"%string;
  "must mutual myself mystery myth naive name napkin"%string;
  "narrow nasty nation nature near neck need negative"%string;
  "neglect neither nephew nerve nest net network neutral"%string;
  "never news next nice night noble noise nominee"%string;
  "noodle normal north nose notable note nothing notice"%string;
  "novel now nuclear number nurse nut oak obey"%string;
  "object oblige obscure observe obtain obvious occur ocean"%string;
  "october odor off offer office often oil okay"%string;
  "old olive olympic omit once one onion online"%string;
  "only open opera opinion oppose option orange orbit"%string;
  "orchard order ordinary organ orient original orphan ostrich"%string;
  "other outdoor outer output outside oval oven over"%string;
  "own owner oxygen oyster ozone pact paddle page"%string;
  "pair palace palm panda panel panic panther paper"%string;
  "parade parent park parrot party pass patch path"%string;
  "patient patrol pattern pause pave payment peace peanut"%string;
  "pear peasant pelican pen penalty pencil people pepper"%string;
  "perfect permit person pet phone photo phrase physical"%string;
  "piano picnic picture piece pig pigeon pill pilot"%string;
  "pink pioneer pipe pistol pitch pizza place planet"%string;
  "plastic plate play please pledge pluck plug plunge"%string;
  "poem poet point polar pole police pond pony"%string;
  "pool popular portion position possible post potato pottery"%string;
  "poverty powder power practice praise predict prefer prepare"%string;
  "present pretty prevent price pride primary print priority"%string;
  "prison private prize problem process produce profit program"%string;
  "project promote proof property prosper protect proud provide"%string;
  "public pudding pull pulp pulse pumpkin punch pupil"%string;
  "puppy purchase purity purpose purse push put puzzle"%string;
  "pyramid quality quantum quarter question quick quit quiz"%string;
  "quote rabbit raccoon race rack radar radio rail"%string;
  "rain raise rally ramp ranch random range rapid"%string;
  "rare rate rather raven raw razor ready real"%string;
  "reason rebel rebuild recall receive recipe record recycle"%string;
  "reduce reflect reform refuse region regret regular reject"%string;
  "relax release relief rely remain remember remind remove"%string;
  "render renew rent reopen repair repeat replace report"%string;
  "require rescue resemble resist resource response result retire"%string;
  "retreat return reunion reveal review reward rhythm rib"%string;
  "ribbon rice rich ride ridge rifle right rigid"%string;
  "ring riot ripple risk ritual rival river road"%string;
  "roast robot robust rocket romance roof rookie room"%string;
  "rose rotate rough round route royal rubber rude"%string;
  "rug rule run runway rural sad saddle sadness"%string;
  "safe sail salad salmon salon salt salute same"%string;
  "sample sand satisfy satoshi sauce sausage save say"%string;
  "scale scan scare scatter scene scheme school science"%string;
  "scissors scorpion scout scrap screen script scrub sea"%string;
  "search season seat second secret section security seed"%string;
  "seek segment select sell seminar senior sense sentence"%string;
  "series service session settle setup seven shadow shaft"%string;
  "shallow share shed shell sheriff shield shift shine"%string;
  "ship shiver shock shoe shoot shop short shoulder"%string;
  "shove shrimp shrug shuffle shy sibling sick side"%string;
  "siege sight sign silent silk silly silver similar"%string;
  "simple since sing siren sister situate six size"%string;
  "skate sketch ski skill skin skirt skull slab"%string;
  "slam sleep slender slice slide slight slim slogan"%string;
  "slot slow slush small smart smile smoke smooth"%string;
  "snack snake snap sniff snow soap soccer social"%string;
  "sock soda soft solar soldier solid solution solve"%string;
  "someone song soon sorry sort soul sound soup"%string;
  "source south space spare spatial spawn speak special"%string;
  "speed spell spend sphere spice spider spike spin"%string;
  "spirit split spoil sponsor spoon sport spot spray"%string;
  "spread spring spy square squeeze squirrel stable stadium"%string;
  "staff stage stairs stamp stand start state stay"%string;
  "steak steel stem step stereo stick still sting"%string;
  "stock stomach stone stool story stove strategy street"%string;
  "strike strong struggle student stuff stumble style subject"%string;
  "submit subway success such sudden suffer sugar suggest"%string;
  "suit summer sun sunny sunset super supply supreme"%string;
  "sure surface surge surprise surround survey suspect sustain"%string;
  "swallow swamp swap swarm swear sweet swift swim"%string;
  "swing switch sword symbol symptom syrup system table"%string;
  "tackle tag tail talent talk tank tape target"%string;
  "task taste tattoo taxi teach team tell ten"%string;
  "tenant tennis tent term test text thank that"%string;
  "theme then theory there they thing this thought"%string;
  "three thrive throw thumb thunder ticket tide tiger"%string;
  "tilt timber time tiny tip tired tissue title"%string;
  "toast tobacco today toddler toe together toilet token"%string;
  "tomato tomorrow tone tongue tonight tool tooth top"%string;
  "topic topple torch tornado tortoise toss total tourist"%string;
  "toward tower town toy track trade traffic tragic"%string;
  "train transfer trap trash travel tray treat tree"%string;
  "trend trial tribe trick trigger trim trip trophy"%string;
  "trouble truck true truly trumpet trust truth try"%string;
  "tube tuition tumble tuna tunnel turkey turn turtle"%string;
  "twelve twenty twice twin twist two type typical"%string;
  "ugly umbrella unable unaware uncle uncover under undo"%string;
  "unfair unfold unhappy uniform unique unit universe unknown"%string;
  "unlock until unusual unveil update upgrade uphold upon"%string;
  "upper upset urban urge usage use used useful"%string;
  "useless usual utility vacant vacuum vague valid valley"%string;
  "valve van vanish vapor various vast vault vehicle"%string;
  "velvet vendor venture venue verb verify version very"%string;
  "vessel veteran viable vibrant vicious victory video view"%string;
  "village vintage violin virtual virus visa visit visual"%string;
  "vital vivid vocal voice void volcano volume vote"%string;
  "voyage wage wagon wait walk wall walnut want"%string;
  "warfare warm warrior wash wasp waste water wave"%string;
  "way wealth weapon wear weasel weather web wedding"%string;
  "weekend weird welcome west wet whale what wheat"%string;
  "wheel when where whip whisper wide width wife"%string;
  "wild will win window wine wing wink winner"%string;
  "winter wire wisdom wise wish witness wolf woman"%string;
  "wonder wood wool word work world worry worth"%string;
  "wrap wreck wrestle wrist write wrong yard year"%string;
  "yellow you young youth zebra zero zone zoo"%string
].

Definition BIP39_WORDLIST : list jsstr :=
  Eval vm_compute in mjoin (map (fun r => split_on c_space (js r)) (wordlist_rows_1 ++ wordlist_rows_2)).

(** A word of the list: lower-case letters only, at least one. *)
Definition word_ok (w : jsstr) : bool := forallb is_lower w && negb (bool_decide (w = [])).

(** Strict lexicographic order, which the list is in. *)
Fixpoint str_ltb (s t : jsstr) : bool :=
  match s, t with
  | _, [] => false
  | [], _ :: _ => true
  | a :: s', b :: t' => (a <? b) || ((a =? b) && str_ltb s' t')
  end.
Fixpoint str_sorted (l : list jsstr) : bool :=
  match l with
  | s :: (t :: _) as l' => str_ltb s t && str_sorted l'
  | _ => true
  end.

Lemma wordlist_length : length BIP39_WORDLIST = 2048%nat.
Proof. vm_compute. reflexivity. Qed.

Lemma wordlist_words : forallb word_ok BIP39_WORDLIST = true.
Proof. vm_compute. reflexivity. Qed.

Lemma wordlist_sorted : str_sorted BIP39_WORDLIST = true.
Proof. vm_compute. reflexivity. Qed.

Lemma str_ltb_irrefl s : str_ltb s s = false.
Proof. induction s as [|a s IH]; cbn; [done|]. by rewrite Z.ltb_irrefl, Z.eqb_refl, IH. Qed.

Lemma str_ltb_trans s t r : str_ltb s t = true -> str_ltb t r = true -> str_ltb s r = true.
Proof.
  revert t r. induction s as [|a s IH]; intros [|b t] [|c r]; cbn; try done.
  rewrite !orb_true_iff, !andb_true_iff, !Z.ltb_lt, !Z.eqb_eq. intros [H1|[-> H1]] [H2|[-> H2]]; eauto with lia.
Qed.

Lemma str_sorted_NoDup l : str_sorted l = true -> NoDup l.
Proof.
  assert (Hall : forall l s, str_sorted (s :: l) = true -> Forall (fun t => str_ltb s t = true) l).
  { clear. intros l. induction l as [|t l IH]; intros s H; [constructor|]. cbn [str_sorted] in H.
    apply andb_true_iff in H as [H1 H2]. constructor; [done|].
    eapply Forall_impl; [by apply IH|]. intros r Hr. by eapply str_ltb_trans. }
  induction l as [|s l IH]; intros H; [constructor|]. constructor.
  - intros Hin. apply Hall in H. rewrite Forall_forall in H. apply H in Hin.
    by rewrite str_ltb_irrefl in Hin.
  - apply IH. destruct l; [done|]. cbn [str_sorted] in H. by apply andb_true_iff in H as [_ ?].
Qed.

Lemma wordlist_NoDup : NoDup BIP39_WORDLIST.
Proof. apply str_sorted_NoDup, wordlist_sorted. Qed.

#[global] Opaque BIP39_WORDLIST.
