(* ===== verification/Identifier.v ===== *)
(** crypto/src/identifier.ts: the canonical form of identifiers and recovery
    codes, and the passphrase generator. *)
From S2P Require Import Prelude Text Effects Primitives Platform Wordlist.

Section Normalize.
Context `{Unicode}.

Definition normalizeIdentifier (identifier : jsstr) : jsstr :=
  collapse_ws (to_lower (trim identifier)).
End Normalize.

(** The largest multiple of [n] that is at most 2^32: samples from it on are rejected. *)
Definition reject_limit (n : Z) : Z := 2 ^ 32 / n * n.

Section Generate.
Context {St : Type} `{Entropy St}.

(** The rejection-sampling loop: [out] is the list being filled. *)
Fixpoint gen_words (fuel : nat) (words limit n : Z) (out : list jsstr) : M St (list jsstr) :=
  if Z.of_nat (length out) <? words then
    match fuel with
    | O => raise OutOfFuel
    | S fuel' =>
        buf ← randomU32 1;
        let x := default 0 (head buf) in
        if limit <=? x then gen_words fuel' words limit n out
        else gen_words fuel' words limit n
               (out ++ [default [] (BIP39_WORDLIST !! Z.to_nat (x mod n))])
    end
  else mret out.

(** With 2048 words the limit is 2^32, no sample is rejected, and one round per
    word is enough fuel. *)
Definition generateAccountId (words : Z) : M St jsstr :=
  _ ← throw_if (words <? 1) (JsError (js "words must be >= 1"));
  let n := Z.of_nat (length BIP39_WORDLIST) in
  let limit := reject_limit n in
  out ← gen_words (Z.to_nat words) words limit n [];
  mret (join [c_space] out).
End Generate.

(** ** The canonical form *)

(** The maximal runs of non-white-space. *)
Fixpoint fields (s : jsstr) : list jsstr :=
  match s with
  | [] => []
  | u :: s' =>
      if is_ws u then fields s'
      else match s' with
           | [] => [[u]]
           | v :: _ =>
               if is_ws v then [u] :: fields s'
               else match fields s' with w :: ws => (u :: w) :: ws | [] => [[u]] end
           end
  end.

Lemma fields_nonnil u s : is_ws u = false -> fields (u :: s) <> [].
Proof.
  intros Hu. cbn [fields]. rewrite Hu. destruct s as [|v s]; [done|].
  destruct (is_ws v) eqn:Ev; [done|]. by case_match.
Qed.

Lemma fields_cons2 u v s : is_ws u = false -> is_ws v = false ->
  exists w ws, fields (v :: s) = w :: ws /\ fields (u :: v :: s) = (u :: w) :: ws.
Proof.
  intros Hu Hv. pose proof (fields_nonnil v s Hv) as Hn.
  destruct (fields (v :: s)) as [|w ws] eqn:E; [done|]. exists w, ws. split; [done|].
  change (fields (u :: v :: s)) with (if is_ws u then fields (v :: s) else
    if is_ws v then [u] :: fields (v :: s)
    else match fields (v :: s) with w :: ws => (u :: w) :: ws | [] => [[u]] end).
  by rewrite Hu, Hv, E.
Qed.

Lemma fields_trim_start s : fields (trim_start s) = fields s.
Proof. induction s as [|u s IH]; [done|]. cbn [trim_start]. destruct (is_ws u) eqn:E; [|done]. cbn. by rewrite E. Qed.

Lemma fields_snoc_ws s w : is_ws w = true -> fields (s ++ [w]) = fields s.
Proof.
  intros Hw. induction s as [|u s IH]; [cbn; by rewrite Hw|].
  destruct s as [|v s].
  - cbn. rewrite Hw. done.
  - cbn [app fields] in *. destruct (is_ws u); [exact IH|]. destruct (is_ws v); [by f_equal|].
    by rewrite IH.
Qed.

Lemma trim_end_suffix s : exists w, s = trim_end s ++ w /\ Forall (fun u => is_ws u = true) w.
Proof.
  unfold trim_end. assert (Hpre : forall t, exists w, t = w ++ trim_start t /\ Forall (fun u => is_ws u = true) w).
  { induction t as [|u t (w & IH & Hw)]; [by exists []|]. cbn. destruct (is_ws u) eqn:E.
    - exists (u :: w). split; [by f_equal/=|by constructor].
    - exists []. split; [done|constructor]. }
  destruct (Hpre (reverse s)) as (w & E & Hw). exists (reverse w). split; [|by apply Forall_reverse].
  apply (f_equal reverse) in E. by rewrite reverse_app, reverse_involutive in E.
Qed.

Lemma fields_trim s : fields (trim s) = fields s.
Proof.
  rewrite <- (fields_trim_start s). unfold trim.
  destruct (trim_end_suffix (trim_start s)) as (w & E & Hw). rewrite E at 2. clear E.
  induction w as [|u w IH] using rev_ind; [by rewrite app_nil_r|].
  apply Forall_app in Hw as [Hw Hu]. apply Forall_cons in Hu as [Hu _].
  rewrite app_assoc, fields_snoc_ws by done. by apply IH.
Qed.

(** On a text that does not end in white space, collapsing leaves the fields
    separated by one space (and one in front when it starts with white space). *)
Lemma collapse_fields s : match last s with Some u => is_ws u = false | None => True end ->
  collapse_ws s = (match s with u :: _ => if is_ws u then [c_space] else [] | [] => [] end)
                  ++ join [c_space] (fields s).
Proof.
  induction s as [|u s IH]; [done|]. destruct s as [|v s].
  { cbn. intros Hu. by rewrite Hu. }
  intros Hl. change (last (u :: v :: s)) with (last (v :: s)) in Hl. specialize (IH Hl).
  change (collapse_ws (u :: v :: s)) with (if is_ws u then if is_ws v then collapse_ws (v :: s)
    else c_space :: collapse_ws (v :: s) else u :: collapse_ws (v :: s)).
  rewrite IH. destruct (is_ws u) eqn:Eu.
  - cbn [fields]. rewrite Eu. destruct (is_ws v) eqn:Ev; done.
  - destruct (is_ws v) eqn:Ev.
    + cbn [fields]. rewrite Eu, Ev. cbn [app].
      assert (fields (v :: s) <> []) as Hn.
      { clear -Hl. revert v Hl. induction s as [|w s IHs]; intros v Hl.
        - cbn in Hl. apply fields_nonnil. done.
        - destruct (is_ws v) eqn:E; [cbn [fields]; rewrite E; apply (IHs w Hl)|by apply fields_nonnil]. }
      cbn [fields] in Hn. rewrite Ev in Hn. by destruct (fields s).
    + destruct (fields_cons2 u v s Eu Ev) as (w & ws & -> & ->). cbn. by destruct ws.
Qed.

Lemma collapse_trim_fields s : collapse_ws (trim s) = join [c_space] (fields s).
Proof.
  destruct (trim_trimmed s) as [Hh Hl]. rewrite collapse_fields by done. rewrite fields_trim.
  destruct (trim s) as [|u t]; [done|]. by rewrite Hh.
Qed.

Lemma collapse_map_lower s : collapse_ws (map ascii_lower s) = map ascii_lower (collapse_ws s).
Proof.
  induction s as [|u s IH]; [done|]. cbn. rewrite ascii_lower_ws. destruct (is_ws u); [|by f_equal/=].
  destruct s as [|v s]; [done|]. cbn [map] in *. rewrite ascii_lower_ws.
  destruct (is_ws v); [done|]. by rewrite IH.
Qed.

Lemma map_lower_join l :
  map ascii_lower (join [c_space] l) = join [c_space] (map (map ascii_lower) l).
Proof.
  induction l as [|w l IH]; [done|]. destruct l as [|w' l]; [done|].
  change (join [c_space] (w :: w' :: l)) with (w ++ c_space :: join [c_space] (w' :: l)).
  rewrite map_app, map_cons, IH. done.
Qed.

Lemma map_lower_fields s : fields (map ascii_lower s) = map (map ascii_lower) (fields s).
Proof.
  induction s as [|u s IH]; [done|]. cbn [map fields]. rewrite ascii_lower_ws.
  destruct (is_ws u); [done|]. destruct s as [|v s]; [done|]. cbn [map] in *. rewrite ascii_lower_ws.
  destruct (is_ws v); [by rewrite IH|]. rewrite IH. by destruct (fields (v :: s)).
Qed.

(** Words: non-empty runs free of white space. *)
Definition is_word (w : jsstr) : Prop := w <> [] /\ no_ws w.

Lemma fields_word w : is_word w -> fields w = [w].
Proof.
  intros [Hn Hw]. unfold no_ws in Hw. induction Hw as [|u w Hu Hw IH]; [done|].
  destruct w as [|v w]; [cbn; by rewrite Hu|].
  apply Forall_cons in Hw as [Hv Hw]. cbn [fields] in *. rewrite Hu, Hv in *. by rewrite IH.
Qed.

Lemma fields_word_app w s : is_word w -> fields (w ++ c_space :: s) = w :: fields s.
Proof.
  intros [Hn Hw]. unfold no_ws in Hw. induction Hw as [|u w Hu Hw IH]; [done|].
  destruct w as [|v w]; [cbn; by rewrite Hu|].
  apply Forall_cons in Hw as [Hv Hw].
  change (fields ((u :: v :: w) ++ c_space :: s)) with (if is_ws u then fields ((v :: w) ++ c_space :: s) else
    if is_ws v then [u] :: fields ((v :: w) ++ c_space :: s)
    else match fields ((v :: w) ++ c_space :: s) with w :: ws => (u :: w) :: ws | [] => [[u]] end).
  rewrite Hu, Hv, IH by done. done.
Qed.

Lemma fields_join l : Forall is_word l -> fields (join [c_space] l) = l.
Proof.
  induction 1 as [|w l Hw Hl IH]; [done|]. destruct l as [|w' l]; [by apply fields_word|].
  change (join [c_space] (w :: w' :: l)) with (w ++ c_space :: join [c_space] (w' :: l)).
  by rewrite fields_word_app, IH.
Qed.

Section Canonical.
Context `{Unicode}.

Lemma normalize_fields s : ascii s ->
  normalizeIdentifier s = join [c_space] (map (map ascii_lower) (fields s)).
Proof.
  intros Hs. unfold normalizeIdentifier. rewrite to_lower_ascii by (by apply trim_Forall).
  by rewrite collapse_map_lower, collapse_trim_fields, map_lower_join.
Qed.

Lemma fields_words s : Forall is_word (fields s).
Proof.
  induction s as [|u s IH]; [constructor|]. cbn. destruct (is_ws u) eqn:Eu; [done|].
  assert (is_word [u]) by (split; [done|by repeat constructor]).
  destruct s as [|v s]; [by constructor|]. destruct (is_ws v); [by constructor|].
  destruct (fields (v :: s)) as [|w ws]; [by constructor|].
  apply Forall_cons in IH as [[Hn Hw] Hws]. constructor; [|done]. split; [done|by constructor].
Qed.

Lemma is_word_lower w : is_word w -> is_word (map ascii_lower w).
Proof.
  intros [Hn Hw]. split; [by destruct w|]. unfold no_ws in *. apply Forall_map.
  eapply Forall_impl; [exact Hw|]. intros u Hu. cbn. by rewrite ascii_lower_ws.
Qed.

(** Normalizing the words of an account's phrase, typed with any case and any
    white space, gives the words joined by single spaces. *)
Lemma normalize_words s l : ascii s -> Forall is_word l ->
  map (map ascii_lower) (fields s) = l -> normalizeIdentifier s = join [c_space] l.
Proof. intros Hs Hl E. by rewrite normalize_fields, E. Qed.

Lemma normalize_ascii s : ascii s -> ascii (normalizeIdentifier s).
Proof.
  intros Hs. unfold normalizeIdentifier. rewrite to_lower_ascii by (by apply trim_Forall).
  rewrite collapse_map_lower. apply ascii_lower_ascii.
  assert (Hc : forall t, ascii t -> ascii (collapse_ws t)).
  { induction 1 as [|u t Hu Ht IH]; [constructor|]. cbn.
    destruct (is_ws u); [|by constructor].
    destruct t as [|v t]; [repeat constructor; done|].
    destruct (is_ws v); [done|]. constructor; [done|exact IH]. }
  by apply Hc, trim_Forall.
Qed.

(** On ASCII identifiers the canonical form is idempotent. *)
Lemma normalize_idem s : ascii s ->
  normalizeIdentifier (normalizeIdentifier s) = normalizeIdentifier s.
Proof.
  intros Hs. rewrite (normalize_fields (normalizeIdentifier s)) by (by apply normalize_ascii).
  rewrite (normalize_fields s) by done.
  rewrite fields_join.
  - f_equal. rewrite map_map. apply map_ext. intros w. rewrite map_map. apply map_ext, ascii_lower_idem.
  - apply Forall_map. eapply Forall_impl; [apply fields_words|]. intros w. apply is_word_lower.
Qed.
End Canonical.

(** ** The generator *)

Lemma reject_limit_2048 : reject_limit 2048 = 2 ^ 32.
Proof. reflexivity. Qed.

(** Every residue has the same number of accepted samples, [2^32 / n]. *)
Lemma reject_limit_uniform n i : 0 < n -> 0 <= i < n ->
  forall x, (0 <= x < reject_limit n /\ x mod n = i) <->
            exists q, 0 <= q < 2 ^ 32 / n /\ x = q * n + i.
Proof.
  intros Hn Hi x. unfold reject_limit. split.
  - intros [Hx Hm]. exists (x / n). split; [|pose proof (Z.div_mod x n); lia].
    split; [apply Z.div_pos; lia|]. apply Z.div_lt_upper_bound; lia.
  - intros (q & Hq & ->). split; [nia|].
    rewrite Z.add_comm, Z.mod_add by lia. by apply Z.mod_small.
Qed.

Definition word_at (i : nat) : jsstr := default [] (BIP39_WORDLIST !! i).

Lemma word_at_ok i : (i < 2048)%nat -> is_word (word_at i) /\ Forall (fun u => is_lower u = true) (word_at i).
Proof.
  intros Hi. unfold word_at.
  destruct (lookup_lt_is_Some_2 BIP39_WORDLIST i) as [w Hw]; [by rewrite wordlist_length|].
  rewrite Hw. cbn. pose proof wordlist_words as Hall. rewrite forallb_forall in Hall.
  assert (word_ok w = true) as Hok by (apply Hall, list_elem_of_In; by eapply list_elem_of_lookup_2).
  unfold word_ok in Hok. bool_prop. rewrite forallb_forall in H.
  assert (Forall (fun u => is_lower u = true) w) as Hl
    by (apply Forall_forall; intros u Hu; by apply H, list_elem_of_In).
  split; [|done]. split; [done|]. eapply Forall_impl; [exact Hl|]. intros u Hu. cbn in *.
  unfold is_lower in Hu. bool_prop. unfold is_ws. zcases.
Qed.

Lemma lower_word w : Forall (fun u => is_lower u = true) w -> map ascii_lower w = w /\ ascii w.
Proof.
  intros Hw. split.
  - induction Hw as [|u w Hu _ IH]; [done|]. cbn. rewrite IH. f_equal.
    unfold ascii_lower, is_upper, is_lower in *. bool_prop. zcases.
  - eapply Forall_impl; [exact Hw|]. intros u Hu. unfold is_lower in Hu. bool_prop. unfold_ok. lia.
Qed.

(** The phrase for a list of indexes. *)
Definition phrase (ids : list nat) : jsstr := join [c_space] (map word_at ids).
Definition ids_ok (ids : list nat) : Prop := Forall (fun i => (i < 2048)%nat) ids.

Lemma phrase_words ids : ids_ok ids -> Forall is_word (map word_at ids).
Proof. intros H. apply Forall_map. eapply Forall_impl; [exact H|]. intros i Hi. by apply word_at_ok. Qed.

Lemma phrase_lower ids : ids_ok ids -> map (map ascii_lower) (map word_at ids) = map word_at ids.
Proof.
  intros H. rewrite map_map. apply map_ext_in. intros i Hi%list_elem_of_In.
  unfold ids_ok in H. rewrite Forall_forall in H. apply lower_word, word_at_ok, H, Hi.
Qed.

Lemma join_ascii l : Forall (fun w => ascii w) l -> ascii (join [c_space] l).
Proof.
  induction 1 as [|w l Hw Hl IH]; [constructor|]. destruct l as [|w' l]; [done|].
  change (join [c_space] (w :: w' :: l)) with (w ++ c_space :: join [c_space] (w' :: l)).
  apply Forall_app. split; [done|]. constructor; [unfold_ok; lia|done].
Qed.

Lemma phrase_ascii ids : ids_ok ids -> ascii (phrase ids).
Proof.
  intros H. apply join_ascii, Forall_map. eapply Forall_impl; [exact H|].
  intros i Hi. by apply lower_word, word_at_ok.
Qed.

Lemma phrase_fields ids : ids_ok ids -> fields (phrase ids) = map word_at ids.
Proof. intros H. by apply fields_join, phrase_words. Qed.

Lemma word_at_inj i j : (i < 2048)%nat -> (j < 2048)%nat -> word_at i = word_at j -> i = j.
Proof.
  unfold word_at. intros Hi Hj E.
  destruct (lookup_lt_is_Some_2 BIP39_WORDLIST i) as [w Hw]; [by rewrite wordlist_length|].
  destruct (lookup_lt_is_Some_2 BIP39_WORDLIST j) as [w' Hw']; [by rewrite wordlist_length|].
  rewrite Hw, Hw' in E. cbn in E. subst w'. by eapply NoDup_lookup; [apply wordlist_NoDup|..].
Qed.

Lemma phrase_inj ids ids' : ids_ok ids -> ids_ok ids' -> phrase ids = phrase ids' -> ids = ids'.
Proof.
  intros H H' E. apply (f_equal fields) in E. rewrite !phrase_fields in E by done. clear -H H' E.
  revert ids' H' E. induction H as [|i ids Hi _ IH]; intros [|j ids'] H' E; try done.
  apply Forall_cons in H' as [Hj H']. cbn in E. injection E as E1 E2.
  f_equal; [by apply word_at_inj|by apply IH].
Qed.

Section Generated.
Context {St : Type} `{Entropy St}.

Lemma randomU32_returns s : exists x s', returns (randomU32 1) s [x] s' /\ 0 <= x < 2 ^ 32.
Proof.
  destruct (randomBytes_returns 4 s ltac:(lia)) as (b & s' & Hr & Hl & Hb).
  destruct b as [|w [|x [|y [|z [|]]]]]; try discriminate Hl.
  repeat (apply Forall_cons in Hb as [? Hb]).
  exists (w + 256 * x + 65536 * y + 16777216 * z), s'. split; [|unfold_ok; lia].
  unfold returns, randomU32. run Hr. done.
Qed.

(** One round per missing word, none rejected. *)
Lemma gen_words_returns fuel : forall words out s,
  Z.of_nat (length out) + Z.of_nat fuel = words ->
  exists ids s', returns (gen_words fuel words (2 ^ 32) 2048 out) s (out ++ map word_at ids) s'
    /\ length ids = fuel /\ ids_ok ids.
Proof.
  induction fuel as [|fuel IH]; intros words out s Hw; cbn [gen_words].
  - exists [], s. rewrite (proj2 (Z.ltb_ge _ _)) by lia. cbn. rewrite app_nil_r.
    split_and!; [done|done|constructor].
  - rewrite (proj2 (Z.ltb_lt _ _)) by lia.
    destruct (randomU32_returns s) as (x & s1 & Hx & Hr).
    set (i := Z.to_nat (x mod 2048)).
    assert (Hi : (i < 2048)%nat) by (pose proof (Z.mod_pos_bound x 2048 eq_refl); unfold i; lia).
    destruct (IH words (out ++ [word_at i]) s1) as (ids & s2 & Hg & Hl & Hok).
    { rewrite length_app. cbn. lia. }
    exists (i :: ids), s2. split_and!; [|cbn; lia|by constructor].
    unfold returns. run Hx. change (default 0 (head [x])) with x. zcase.
    rewrite <- app_assoc in Hg. exact Hg.
Qed.

#[global] Instance gen_words_keeps P fuel words limit n out : Undrawn P -> Keeps (S := St) P (gen_words fuel words limit n out).
Proof.
  intros HP. revert out. induction fuel as [|fuel IH]; intros out; cbn [gen_words]; (case_match; [|apply _]); [apply _|].
  unfold randomU32. apply bind_keeps; [apply _|]. intros buf. case_match; apply IH.
Qed.

#[global] Instance generateAccountId_keeps P words : Undrawn P -> Keeps (S := St) P (generateAccountId words).
Proof.
  intros HP. unfold generateAccountId. apply bind_keeps; [apply _|]. intros _. apply bind_keeps; [by apply gen_words_keeps|apply _].
Qed.

Lemma generateAccountId_returns words s : 1 <= words ->
  exists ids s', returns (generateAccountId words) s (phrase ids) s'
    /\ Z.of_nat (length ids) = words /\ ids_ok ids.
Proof.
  intros Hw. destruct (gen_words_returns (Z.to_nat words) words [] s) as (ids & s' & Hg & Hl & Hok).
  { cbn. lia. }
  exists ids, s'. split_and!; [|lia|done].
  unfold returns, generateAccountId. rewrite bind_throw_if, (proj2 (Z.ltb_ge _ _)) by lia.
  rewrite wordlist_length. change (reject_limit (Z.of_nat 2048)) with (2 ^ 32).
  run Hg. done.
Qed.
End Generated.

(** ** Theorems *)
Section Theorems.
Context {St : Type} `{Unicode} `{Entropy St}.

(** C40: a generated phrase is exactly as many words of the list as asked, generation
    always succeeds (a count below one is an error), different choices of words
    give different phrases, and a phrase typed back in any letter case and with any
    white space normalizes to the phrase itself. *)
Theorem generateAccountId_spec words (s : St) :
  (words < 1 -> throws (generateAccountId words) s (JsError (js "words must be >= 1")) s) /\
  (1 <= words -> exists ids s', returns (generateAccountId words) s (phrase ids) s' /\
    Z.of_nat (length ids) = words /\ Forall (fun i => (i < 2048)%nat) ids /\
    (forall ids', Forall (fun i => (i < 2048)%nat) ids' -> phrase ids' = phrase ids -> ids' = ids) /\
    forall typed, ascii typed -> map (map ascii_lower) (fields typed) = map word_at ids ->
      normalizeIdentifier typed = phrase ids).
Proof.
  split.
  - intros Hw. unfold throws, generateAccountId. by rewrite bind_throw_if, (proj2 (Z.ltb_lt _ _) Hw).
  - intros Hw. destruct (generateAccountId_returns words s Hw) as (ids & s' & Hr & Hl & Hok).
    exists ids, s'. split_and!; [exact Hr|done|exact Hok| |].
    + intros ids' Hok' E. by apply phrase_inj.
    + intros typed Ht E. apply normalize_words; [done|by apply phrase_words|done].
Qed.

(** Identifiers are compared by their words: two ASCII spellings normalize to
    the same text exactly when they have the same words up to letter case, however
    they are spaced, and the canonical form is its own. *)
Theorem normalizeIdentifier_canonical s t (Hs : ascii s) (Ht : ascii t) :
  (normalizeIdentifier s = normalizeIdentifier t <->
   map (map ascii_lower) (fields s) = map (map ascii_lower) (fields t)) /\
  normalizeIdentifier (normalizeIdentifier s) = normalizeIdentifier s.
Proof.
  split; [|by apply normalize_idem]. rewrite !normalize_fields by done. split; [|by intros ->].
  assert (Hw : forall u, Forall is_word (map (map ascii_lower) (fields u))).
  { intros u. apply Forall_map. eapply Forall_impl; [apply fields_words|]. apply is_word_lower. }
  intros E. apply (f_equal fields) in E. by rewrite !fields_join in E.
Qed.
End Theorems.

#[local] Existing Instances latin1_unicode lcg_entropy.

Lemma generateAccountId_spec_witness :
  (exists ids s', returns (generateAccountId 12) 7 (phrase ids) s' /\ length ids = 12%nat) /\
  throws (generateAccountId 0) 7 (JsError (js "words must be >= 1")) 7.
Proof.
  split.
  - destruct (proj2 (generateAccountId_spec 12 7) ltac:(lia)) as (ids & s' & Hr & Hl & _).
    exists ids, s'. split; [exact Hr|lia].
  - apply (proj1 (generateAccountId_spec 0 7)). lia.
Defined.

Lemma normalizeIdentifier_canonical_witness :
  (normalizeIdentifier (js "  Alice@Example.ORG ") = normalizeIdentifier (js "alice@example.org") <->
   map (map ascii_lower) (fields (js "  Alice@Example.ORG ")) = map (map ascii_lower) (fields (js "alice@example.org"))) /\
  normalizeIdentifier (normalizeIdentifier (js "  Alice@Example.ORG ")) = normalizeIdentifier (js "  Alice@Example.ORG ").
Proof. apply normalizeIdentifier_canonical; decide_forall. Defined.
