(* ===== verification/Totp.v ===== *)
(** crypto/src/totp.ts: TOTP codes for vault items. *)
From S2P Require Import Prelude Text Numeral Json Effects Platform Primitives.

(** ** 32-bit operators *)
Definition to_int32 (z : Z) : Z := (z + 2 ^ 31) mod 2 ^ 32 - 2 ^ 31.
Definition to_uint32 (z : Z) : Z := z mod 2 ^ 32.
Definition js_shl (a n : Z) : Z := to_int32 (Z.shiftl (to_int32 a) n).
Definition js_shr_u (a n : Z) : Z := Z.shiftr (to_uint32 a) n.
Definition js_or (a b : Z) : Z := Z.lor (to_int32 a) (to_int32 b).
Definition js_and (a b : Z) : Z := Z.land (to_int32 a) (to_int32 b).

Fixpoint params_get (k : jsstr) (ps : list (jsstr * jsstr)) : option jsstr :=
  match ps with
  | [] => None
  | (k', v) :: ps' => if str_eqb k k' then Some v else params_get k ps'
  end.

Record TotpConfig := {
  secret : bytes;
  algorithm : hash_alg;
  digits : Z;
  period : Z;
}.

(** ** Base 32 *)

Definition b32_index (u : Z) : option Z :=
  if is_upper u then Some (u - 65)
  else if (50 <=? u) && (u <=? 55) then Some (u - 24)
  else None.

(** [.replace(/=+$/, "")] *)
Fixpoint drop_eq (s : jsstr) : jsstr :=
  match s with u :: s' => if u =? c_eq then drop_eq s' else s | [] => [] end.
Definition strip_eq (s : jsstr) : jsstr := reverse (drop_eq (reverse s)).

Fixpoint b32_loop (s : jsstr) (bits value : Z) (out : bytes) : option bytes :=
  match s with
  | [] => Some out
  | ch :: s' =>
      match b32_index ch with
      | None => None
      | Some idx =>
          let value := js_or (js_shl value 5) idx in
          let bits := bits + 5 in
          if 8 <=? bits
          then b32_loop s' (bits - 8) value (out ++ [js_and (js_shr_u value (bits - 8)) 255])
          else b32_loop s' bits value out
      end
  end.

Section Totp.
Context `{Unicode} `{WebCrypto} `{UrlParser} {St : Type}.

Definition base32Decode (s : jsstr) : option bytes :=
  let clean := strip_eq (List.filter (fun u => negb (is_ws u || (u =? c_minus))) (to_upper s)) in
  match clean with
  | [] => None
  | _ => b32_loop clean 0 0 []
  end.

(** [s.replace("SHA", "SHA-")] *)
Fixpoint replace_sha (s : jsstr) : jsstr :=
  match s with
  | [] => []
  | u :: s' => if starts_with (js "SHA") s then js "SHA-" ++ drop 3 s else u :: replace_sha s'
  end.

Definition parse_alg (a : jsstr) : hash_alg :=
  let alg := replace_sha (to_upper a) in
  if str_eqb alg (js "SHA-256") then SHA256
  else if str_eqb alg (js "SHA-512") then SHA512
  else SHA1.

Definition in_range (lo hi d : Z) (v : option Z) : Z :=
  match v with Some z => if (lo <=? z) && (z <=? hi) then z else d | None => d end.

Definition parseTotpSecret (input : jsstr) : option TotpConfig :=
  let raw := trim input in
  match raw with
  | [] => None
  | _ =>
      if str_eqb (map ascii_lower (take 10 raw)) (js "otpauth://") then
        url ← parse_url raw;
        let get k := params_get (js k) (search_params url) in
        secret ← base32Decode (default [] (get "secret"%string));
        Some {| secret := secret;
                algorithm := parse_alg (default (js "SHA1") (get "algorithm"%string));
                digits := in_range 6 10 6 (parse_int (default (js "6") (get "digits"%string)));
                period := in_range 1 300 30 (parse_int (default (js "30") (get "period"%string))) |}
      else
        secret ← base32Decode raw;
        Some {| secret := secret; algorithm := SHA1; digits := 6; period := 30 |}
  end.

(** ** HOTP *)

(** [view.setUint32(off, n)] on a fresh 8-byte buffer, big-endian. *)
Definition be32 (n : Z) : bytes :=
  let u := to_uint32 n in
  [u / 16777216; u / 65536 mod 256; u / 256 mod 256; u mod 256].
Definition counter_message (counter : Z) : bytes :=
  be32 (counter / 2 ^ 32) ++ be32 (js_shr_u counter 0).

Definition byte_at (i : nat) (b : bytes) : Z := default 0 (b !! i).

(** Dynamic truncation of a MAC to a 31-bit integer. *)
Definition truncate_mac (mac : bytes) : Z :=
  let offset := Z.to_nat (js_and (byte_at (length mac - 1) mac) 15) in
  js_or (js_or (js_or (js_shl (js_and (byte_at offset mac) 127) 24)
                      (js_shl (byte_at (offset + 1) mac) 16))
               (js_shl (byte_at (offset + 2) mac) 8))
        (byte_at (offset + 3) mac).

Definition hotp (cfg : TotpConfig) (counter : Z) : M St jsstr :=
  _ ← throw_if (bool_decide (secret cfg = [])) DataError;
  let mac := hmac (algorithm cfg) (secret cfg) (counter_message counter) in
  let bin := truncate_mac mac in
  mret (pad_start (Z.to_nat (digits cfg)) c_0 (dec (Z.rem bin (10 ^ digits cfg)))).

(** [Math.floor(nowMs / 1000 / period)]: one division of the exact quotient. *)
Definition totp_step (cfg : TotpConfig) (nowMs : Z) : Z := nowMs / (1000 * period cfg).

Definition totpCode (cfg : TotpConfig) (nowMs : Z) : M St (jsstr * Z) :=
  code ← hotp cfg (totp_step cfg nowMs);
  let secondsLeft := period cfg - Z.rem (nowMs / 1000) (period cfg) in
  mret (code, secondsLeft).

Definition totpFromString (stored : jsstr) (nowMs : Z) : M St (option (jsstr * Z * Z)) :=
  match parseTotpSecret stored with
  | None => mret None
  | Some cfg =>
      r ← totpCode cfg nowMs;
      mret (Some (r.1, r.2, period cfg))
  end.
End Totp.

(** ** The base-32 decoder against RFC 4648 *)

(** Bits of an [n]-bit integer, most significant first, and back. *)
Fixpoint to_bits (n : nat) (z : Z) : list bool :=
  match n with O => [] | S n' => Z.odd (z / 2 ^ Z.of_nat n') :: to_bits n' z end.
Definition of_bits (bs : list bool) : Z := foldl (fun a b => 2 * a + Z.b2z b) 0 bs.

(** Whole octets of a bit string; a partial last one is dropped. *)
Fixpoint octets (fuel : nat) (bs : list bool) : bytes :=
  match fuel with
  | O => []
  | S f => if Nat.ltb (length bs) 8 then [] else of_bits (take 8 bs) :: octets f (drop 8 bs)
  end.
Definition b32_reference (idxs : list Z) : bytes :=
  let bs := idxs ≫= to_bits 5 in octets (length bs) bs.

Lemma foldl_bits a bs : foldl (fun a b => 2 * a + Z.b2z b) a bs = a * 2 ^ Z.of_nat (length bs) + of_bits bs.
Proof.
  revert a. induction bs as [|b bs IH] using rev_ind; intros a; [cbn; lia|].
  rewrite foldl_app, length_app, IH. unfold of_bits in *. rewrite foldl_app. cbn [foldl length].
  rewrite Nat2Z.inj_add, Z.pow_add_r by lia. cbn. lia.
Qed.

Lemma of_bits_app a b : of_bits (a ++ b) = of_bits a * 2 ^ Z.of_nat (length b) + of_bits b.
Proof. unfold of_bits at 1. rewrite foldl_app. apply foldl_bits. Qed.

Lemma of_bits_range bs : 0 <= of_bits bs < 2 ^ Z.of_nat (length bs).
Proof.
  induction bs as [|b bs IH] using rev_ind; [cbn; lia|].
  rewrite of_bits_app, length_app, Nat2Z.inj_add, Z.pow_add_r by lia.
  change (2 ^ Z.of_nat (length [b])) with 2.
  assert (of_bits [b] = Z.b2z b) as -> by (by destruct b). destruct b; cbn; lia.
Qed.

Lemma to_bits_length n z : length (to_bits n z) = n.
Proof. induction n as [|n IH]; [done|]. cbn. by rewrite IH. Qed.

Lemma of_bits_to_bits n z : 0 <= z -> of_bits (to_bits n z) = z mod 2 ^ Z.of_nat n.
Proof.
  intros Hz. induction n as [|n IH]; [by rewrite Z.mod_1_r|].
  change (to_bits (S n) z) with ([Z.odd (z / 2 ^ Z.of_nat n)] ++ to_bits n z).
  rewrite of_bits_app, IH, to_bits_length.
  assert (of_bits [Z.odd (z / 2 ^ Z.of_nat n)] = (z / 2 ^ Z.of_nat n) mod 2) as ->
    by (rewrite Zmod_odd; unfold of_bits; cbn; by destruct (Z.odd _)).
  rewrite Nat2Z.inj_succ, Z.pow_succ_r, (Z.mul_comm 2), Z.rem_mul_r by lia. lia.
Qed.

Lemma to_bits_of_bits bs : to_bits (length bs) (of_bits bs) = bs.
Proof.
  assert (Haux : forall bs a, 0 <= a -> to_bits (length bs) (a * 2 ^ Z.of_nat (length bs) + of_bits bs) = bs).
  { clear. induction bs as [|b bs IH]; intros a Ha; [done|].
    change (of_bits (b :: bs)) with (of_bits ([b] ++ bs)). rewrite of_bits_app.
    assert (of_bits [b] = Z.b2z b) as -> by (by destruct b).
    cbn [length to_bits]. rewrite Nat2Z.inj_succ, Z.pow_succ_r by lia.
    pose proof (of_bits_range bs) as Hr. set (P := 2 ^ Z.of_nat (length bs)) in *.
    replace (a * (2 * P) + (Z.b2z b * P + of_bits bs)) with ((2 * a + Z.b2z b) * P + of_bits bs) by lia.
    rewrite Z.div_add_l, (Z.div_small (of_bits bs)) by lia. f_equal.
    - rewrite Z.add_0_r, Z.odd_add, Z.odd_mul. by destruct b.
    - apply IH. destruct b; cbn; lia. }
  specialize (Haux bs 0). rewrite Z.mul_0_l, Z.add_0_l in Haux. by apply Haux.
Qed.

(** 32-bit operators modulo powers of two. *)
Lemma to_int32_mod z k : 0 <= k <= 32 -> to_int32 z mod 2 ^ k = z mod 2 ^ k.
Proof.
  intros Hk. unfold to_int32.
  assert (2 ^ 32 = 2 ^ (32 - k) * 2 ^ k) as E32 by (rewrite <- Z.pow_add_r by lia; f_equal; lia).
  rewrite (Z.mod_eq (z + 2 ^ 31)) by done. set (q := (z + 2 ^ 31) / 2 ^ 32).
  replace (z + 2 ^ 31 - 2 ^ 32 * q - 2 ^ 31) with (z + (- q * 2 ^ (32 - k)) * 2 ^ k)
    by (rewrite <- Z.mul_assoc, <- E32; lia).
  apply Z.mod_add. lia.
Qed.

Lemma to_int32_small z : - 2 ^ 31 <= z < 2 ^ 31 -> to_int32 z = z.
Proof. intros Hz. unfold to_int32. rewrite Z.mod_small by lia. lia. Qed.

Lemma to_int32_range z : - 2 ^ 31 <= to_int32 z < 2 ^ 31.
Proof. unfold to_int32. pose proof (Z.mod_pos_bound (z + 2 ^ 31) (2 ^ 32)). lia. Qed.

Lemma lor_low a b k : 0 <= k -> a mod 2 ^ k = 0 -> 0 <= b < 2 ^ k -> Z.lor a b = a + b.
Proof.
  intros Hk Ha Hb. assert (Z.land a b = 0) as Hl.
  { apply Z.bits_inj'. intros i Hi. rewrite Z.land_spec, Z.bits_0.
    destruct (Z.lt_ge_cases i k).
    - rewrite <- (Z.mod_pow2_bits_low a k i), Ha, Z.bits_0 by lia. done.
    - rewrite <- (Z.mod_small b (2 ^ k)), Z.mod_pow2_bits_high, andb_false_r by lia. done. }
  rewrite Z.add_nocarry_lxor by done. symmetry. by apply Z.lxor_lor.
Qed.

Lemma js_shift_in v i : 0 <= i < 32 -> js_or (js_shl v 5) i mod 2 ^ 32 = (v * 32 + i) mod 2 ^ 32.
Proof.
  intros Hi. unfold js_or, js_shl. rewrite (to_int32_small i) by lia.
  rewrite (to_int32_small (to_int32 _)) by apply to_int32_range.
  rewrite Z.shiftl_mul_pow2 by lia. change (2 ^ 5) with 32.
  rewrite (lor_low _ _ 5); [|lia| |lia].
  - rewrite Z.add_mod, (to_int32_mod (_ * 32) 32), <- Z.add_mod by lia.
    rewrite Z.add_mod, Z.mul_mod, (to_int32_mod v 32), <- Z.mul_mod, <- Z.add_mod by lia. done.
  - rewrite to_int32_mod by lia. change (2 ^ 5) with 32. apply Z.mod_mul. lia.
Qed.

Lemma js_low_byte v k : 0 <= k -> js_and (js_shr_u v k) 255 = (v mod 2 ^ 32) / 2 ^ k mod 256.
Proof.
  intros Hk. unfold js_and, js_shr_u, to_uint32. rewrite (to_int32_small 255) by lia.
  change 255 with (Z.ones 8). rewrite Z.land_ones, to_int32_mod, Z.shiftr_div_pow2 by lia. done.
Qed.

Lemma b32_index_range u i : b32_index u = Some i -> 0 <= i < 32.
Proof.
  unfold b32_index, is_upper. repeat case_match; bool_prop; intros [= <-]; lia.
Qed.

Lemma octets_fuel f f' bs : (length bs <= f)%nat -> (length bs <= f')%nat -> octets f bs = octets f' bs.
Proof.
  revert f' bs. induction f as [|f IH]; intros [|f'] bs Hf Hf'; cbn [octets]; try done;
    destruct (Nat.ltb_spec (length bs) 8); try done; try lia.
  f_equal. apply IH; rewrite length_drop; lia.
Qed.

Lemma octets_step f bs : (8 <= length bs)%nat -> (length bs <= f)%nat ->
  octets f bs = of_bits (take 8 bs) :: octets f (drop 8 bs).
Proof.
  intros H8 Hf. destruct f as [|f]; [lia|].
  transitivity (of_bits (take 8 bs) :: octets f (drop 8 bs)).
  - cbn [octets]. by destruct (Nat.ltb_spec (length bs) 8); [lia|].
  - f_equal. apply octets_fuel; rewrite length_drop; lia.
Qed.

Lemma octets_short f bs : (length bs < 8)%nat -> octets f bs = [].
Proof. intros H8. destruct f; [done|]. cbn [octets]. by destruct (Nat.ltb_spec (length bs) 8); [|lia]. Qed.

Lemma mod_pow2_mod z j k : 0 <= k <= j -> z mod 2 ^ j mod 2 ^ k = z mod 2 ^ k.
Proof.
  intros Hk. replace j with ((j - k) + k) by lia. rewrite Z.pow_add_r by lia.
  apply Z.mod_mod_divide. by exists (2 ^ (j - k)).
Qed.

(** Emitting a byte: the top eight of the pending bits leave, the rest stay. *)
Lemma byte_split v pre post : length pre = 8%nat -> (length post <= 24)%nat ->
  v mod 2 ^ (8 + Z.of_nat (length post)) = of_bits (pre ++ post) ->
  (v mod 2 ^ 32) / 2 ^ Z.of_nat (length post) mod 256 = of_bits pre /\
  v mod 2 ^ Z.of_nat (length post) = of_bits post.
Proof.
  intros Hpre Hpost Hv. rewrite of_bits_app in Hv.
  set (k := Z.of_nat (length post)) in *. pose proof (of_bits_range post) as Hr. fold k in Hr.
  assert (0 <= k <= 24) by lia. split.
  - rewrite <- (mod_pow2_mod v 32 (8 + k)) in Hv by lia. set (w := v mod 2 ^ 32) in *.
    rewrite Z.add_comm, Z.pow_add_r in Hv by lia. change (2 ^ 8) with 256 in Hv.
    rewrite Z.rem_mul_r in Hv by lia. pose proof (Z.mod_pos_bound w (2 ^ k)).
    apply (f_equal (fun z => z / 2 ^ k)) in Hv.
    rewrite Z.div_add_l, (Z.div_small (of_bits post)), Z.add_0_r in Hv by lia. rewrite <- Hv.
    rewrite (Z.mul_comm (2 ^ k)), Z.div_add by lia.
    rewrite (Z.div_small (w mod 2 ^ k)) by lia. done.
  - rewrite <- (mod_pow2_mod v (8 + k) k), Hv, Z.add_comm, Z.mod_add by lia. by apply Z.mod_small.
Qed.

(** One character of the loop: the pending bits are the low [bits] bits of
    [value], and the 32-bit wrap-around of [value] never reaches them. *)
Lemma b32_loop_bits s : forall idxs bits value out pb,
  mapM b32_index s = Some idxs ->
  bits = Z.of_nat (length pb) -> (length pb < 8)%nat -> value mod 2 ^ bits = of_bits pb ->
  let bs := pb ++ (idxs ≫= to_bits 5) in
  b32_loop s bits value out = Some (out ++ octets (length bs) bs).
Proof.
  induction s as [|u s IH]; intros idxs bits value out pb Hm Hbits Hlen Hv bs.
  { injection Hm as <-. unfold bs. cbn [b32_loop].
    rewrite octets_short by (by rewrite app_nil_r). by rewrite app_nil_r. }
  cbn in Hm. destruct (b32_index u) as [i|] eqn:Ei; [|done]. cbn in Hm.
  destruct (mapM b32_index s) as [idxs'|] eqn:Es; [|done]. injection Hm as <-.
  cbn [b32_loop]. rewrite Ei. apply b32_index_range in Ei.
  set (v := js_or (js_shl value 5) i).
  assert (Hv' : v mod 2 ^ (bits + 5) = of_bits (pb ++ to_bits 5 i)).
  { assert (2 ^ 32 = 2 ^ (27 - bits) * 2 ^ (bits + 5)) as E32
      by (rewrite <- Z.pow_add_r by lia; f_equal; lia).
    assert (Hmod : forall z, z mod 2 ^ 32 mod 2 ^ (bits + 5) = z mod 2 ^ (bits + 5))
      by (intros z; rewrite E32; apply Z.mod_mod_divide; exists (2 ^ (27 - bits)); lia).
    rewrite <- Hmod. unfold v. rewrite js_shift_in, Hmod by lia.
    rewrite of_bits_app, of_bits_to_bits, to_bits_length by lia. change (2 ^ Z.of_nat 5) with 32.
    rewrite (Z.mod_small i), <- Hv, Z.pow_add_r by lia. change (2 ^ 5) with 32.
    symmetry. apply (Z.mod_unique _ _ (value / 2 ^ bits)).
    - left. pose proof (Z.mod_pos_bound value (2 ^ bits)). lia.
    - pose proof (Z.div_mod value (2 ^ bits)). lia. }
  assert (Hlen' : length (pb ++ to_bits 5 i) = (length pb + 5)%nat)
    by (by rewrite length_app, to_bits_length).
  assert (Hbs : bs = (pb ++ to_bits 5 i) ++ (idxs' ≫= to_bits 5))
    by (unfold bs; rewrite bind_cons, app_assoc; done).
  clearbody bs. subst bs. set (nb := pb ++ to_bits 5 i) in *.
  destruct (Z.leb_spec 8 (bits + 5)).
  - rewrite js_low_byte by lia.
    rewrite <- (take_drop 8 nb) in Hv'.
    assert (length (take 8 nb) = 8%nat) by (rewrite length_take; lia).
    assert (Hk : Z.of_nat (length (drop 8 nb)) = bits + 5 - 8) by (rewrite length_drop; lia).
    destruct (byte_split v (take 8 nb) (drop 8 nb)) as [Hb1 Hb2]; [done|lia| |].
    { rewrite Hk, <- Hv'. f_equal. f_equal. lia. }
    rewrite <- Hk, Hb1, (IH idxs' _ v _ (drop 8 nb)) by (done || lia).
    rewrite <- app_assoc, (octets_step _ (nb ++ _)), take_app_le, drop_app_le
      by (rewrite ?length_app; lia).
    cbn [app]. do 3 f_equal. apply octets_fuel; rewrite !length_app, ?length_drop; lia.
  - rewrite (IH idxs' (bits + 5) v out nb); try done; lia.
Qed.

Lemma b32_loop_none s bits value out : mapM b32_index s = None -> b32_loop s bits value out = None.
Proof.
  revert bits value out. induction s as [|u s IH]; intros bits value out; [done|]. cbn.
  destruct (b32_index u) as [i|]; [|done]. cbn. destruct (mapM b32_index s); [done|]. intros _.
  destruct (8 <=? bits + 5); by apply IH.
Qed.

(** The loop computes the RFC 4648 decoding, and refuses exactly what has a
    character outside the alphabet. *)
Lemma b32_loop_reference s : b32_loop s 0 0 [] = b32_reference <$> mapM b32_index s.
Proof.
  destruct (mapM b32_index s) as [idxs|] eqn:E; [|by apply b32_loop_none].
  apply (b32_loop_bits s idxs 0 0 [] [] E); (done || cbn; lia).
Qed.

(** The RFC 4648 encoder, without padding. *)
Definition b32_char (i : Z) : Z := if i <? 26 then i + 65 else i + 24.
Fixpoint quintets (fuel : nat) (bs : list bool) : list Z :=
  match fuel with
  | O => []
  | S f =>
      match bs with
      | [] => []
      | _ => of_bits (take 5 (bs ++ replicate 4 false)) :: quintets f (drop 5 bs)
      end
  end.
Definition b32_encode (b : bytes) : jsstr :=
  let bs := b ≫= to_bits 8 in map b32_char (quintets (length bs) bs).

Lemma quintets_bits f bs : (length bs <= f)%nat ->
  exists p, (p < 5)%nat /\ quintets f bs ≫= to_bits 5 = bs ++ replicate p false.
Proof.
  revert bs. induction f as [|f IH]; intros bs Hf.
  - destruct bs; [|cbn in Hf; lia]. exists 0%nat. split; [lia|done].
  - destruct bs as [|b bs]; [exists 0%nat; split; [lia|done]|]. cbn [quintets].
    set (l := b :: bs) in *. rewrite bind_cons.
    assert (length l = S (length bs)) by done.
    assert (Ht : length (take 5 (l ++ replicate 4 false)) = 5%nat)
      by (rewrite length_take, length_app, length_replicate; lia).
    pose proof (to_bits_of_bits (take 5 (l ++ replicate 4 false))) as E. rewrite Ht in E. rewrite E.
    destruct (Nat.le_gt_cases 5 (length l)).
    + destruct (IH (drop 5 l)) as (p & Hp & ->); [rewrite length_drop; lia|].
      exists p. split; [done|]. rewrite take_app_le by lia. by rewrite app_assoc, take_drop.
    + rewrite drop_ge by lia. destruct f; cbn [quintets]; rewrite app_nil_r;
        (exists (5 - length l)%nat; split; [lia|]);
        (rewrite take_app_ge by lia; f_equal; rewrite take_replicate; f_equal; lia).
Qed.

Lemma octets_bytes b p f : bytes_ok b -> (p < 8)%nat ->
  (length ((b ≫= to_bits 8) ++ replicate p false) <= f)%nat ->
  octets f ((b ≫= to_bits 8) ++ replicate p false) = b.
Proof.
  intros Hb Hp. revert f. induction Hb as [|x b Hx _ IH]; intros f Hf.
  - apply octets_short. cbn. by rewrite length_replicate.
  - rewrite bind_cons in *. rewrite <- app_assoc in *.
    rewrite octets_step by (rewrite ?length_app, ?to_bits_length in *; lia).
    rewrite take_app_exact, drop_app_exact by (by rewrite to_bits_length).
    rewrite of_bits_to_bits by (unfold_ok; lia).
    rewrite IH by (rewrite length_app in Hf; lia). f_equal. apply Z.mod_small. unfold_ok. lia.
Qed.

Lemma b32_index_char i : 0 <= i < 32 -> b32_index (b32_char i) = Some i.
Proof. intros Hi. unfold b32_char, b32_index, is_upper. zcases; f_equal; lia. Qed.

Lemma quintets_range f bs : Forall (fun i => 0 <= i < 32) (quintets f bs).
Proof.
  revert bs. induction f as [|f IH]; intros bs; [constructor|]. destruct bs as [|b bs]; [constructor|].
  cbn [quintets]. constructor; [|apply IH].
  pose proof (of_bits_range (take 5 ((b :: bs) ++ replicate 4 false))) as Hr.
  rewrite length_take, length_app, length_replicate in Hr.
  replace (5 `min` (length (b :: bs) + 4))%nat with 5%nat in Hr by (change (length (b :: bs)) with (S (length bs)); lia). exact Hr.
Qed.

Lemma mapM_b32 l : Forall (fun i => 0 <= i < 32) l -> mapM b32_index (map b32_char l) = Some l.
Proof.
  induction 1 as [|i l Hi _ IH]; [done|]. cbn. rewrite b32_index_char by done. cbn. by rewrite IH.
Qed.

Lemma b32_reference_encode b : bytes_ok b ->
  b32_reference <$> mapM b32_index (b32_encode b) = Some b.
Proof.
  intros Hb. unfold b32_encode. rewrite mapM_b32 by apply quintets_range.
  cbn [fmap option_fmap option_map]. f_equal. unfold b32_reference.
  destruct (quintets_bits (length (b ≫= to_bits 8)) (b ≫= to_bits 8)) as (p & Hp & E); [done|].
  rewrite E. apply octets_bytes; [done|lia|done].
Qed.

(** Characters of an encoding: upper-case letters and digits, which cleaning keeps. *)
Lemma b32_encode_chars b :
  Forall (fun u => is_upper u = true \/ is_digit u = true) (b32_encode b).
Proof.
  apply Forall_map. eapply Forall_impl; [apply quintets_range|]. intros i Hi. cbn in *.
  unfold b32_char, is_upper, is_digit. destruct (Z.ltb_spec i 26); [left|right]; zcases.
Qed.

Lemma b32_encode_nonempty b : b <> [] -> b32_encode b <> [].
Proof. destruct b as [|x b]; [done|]. intros _. done. Qed.

Section Reference.
Context `{Unicode}.

(** What is left of an ASCII input after case folding and cleaning. *)
Definition b32_clean (s : jsstr) : jsstr :=
  strip_eq (List.filter (fun u => negb (is_ws u || (u =? c_minus))) (map ascii_upper s)).

Lemma base32Decode_ascii s : ascii s ->
  base32Decode s = match b32_clean s with
                   | [] => None
                   | _ => b32_reference <$> mapM b32_index (b32_clean s)
                   end.
Proof.
  intros Hs. unfold base32Decode. rewrite to_upper_ascii by done. fold (b32_clean s).
  destruct (b32_clean s); [done|]. apply b32_loop_reference.
Qed.

Lemma b32_clean_encode b : b32_clean (b32_encode b) = b32_encode b.
Proof.
  pose proof (b32_encode_chars b) as Hc. unfold b32_clean.
  assert (map ascii_upper (b32_encode b) = b32_encode b) as ->.
  { induction Hc as [|u l Hu _ IH]; [done|]. cbn. rewrite IH. f_equal.
    unfold ascii_upper, is_upper, is_digit, is_lower in *. destruct Hu; bool_prop; zcases. }
  assert (Hf : List.filter (fun u => negb (is_ws u || (u =? c_minus))) (b32_encode b) = b32_encode b).
  { induction Hc as [|u l Hu _ IH]; [done|]. cbn [List.filter].
    assert (negb (is_ws u || (u =? c_minus)) = true) as ->; [|by rewrite IH].
    unfold is_upper, is_digit in Hu. unfold is_ws. destruct Hu; bool_prop; zcases. }
  rewrite Hf. unfold strip_eq. apply Forall_reverse in Hc.
  destruct (reverse (b32_encode b)) as [|u l] eqn:E.
  - apply (f_equal reverse) in E. rewrite reverse_involutive in E. by rewrite E.
  - apply Forall_cons in Hc as [Hu _]. cbn [drop_eq].
    destruct (Z.eqb_spec u c_eq) as [->|]; [destruct Hu as [Hu|Hu]; discriminate Hu|].
    rewrite <- E. apply reverse_involutive.
Qed.

Lemma b32_encode_ascii b : ascii (b32_encode b).
Proof.
  eapply Forall_impl; [apply b32_encode_chars|]. intros u Hu. cbn in Hu.
  unfold is_upper, is_digit in Hu. unfold_ok. destruct Hu; bool_prop; lia.
Qed.
End Reference.

(** ** HOTP and TOTP *)

Lemma js_and_ones a n : 0 <= n < 31 -> js_and a (2 ^ n - 1) = a mod 2 ^ n.
Proof.
  intros Hn. unfold js_and. assert (0 < 2 ^ n) by lia.
  assert (2 ^ n < 2 ^ 31) by (apply Z.pow_lt_mono_r; lia).
  rewrite (to_int32_small (2 ^ n - 1)) by lia.
  replace (2 ^ n - 1) with (Z.ones n) by (rewrite Z.ones_equiv; lia).
  rewrite Z.land_ones, to_int32_mod by lia. done.
Qed.

Lemma js_or_low a b k : 0 <= k <= 31 -> 0 <= a < 2 ^ 31 -> a mod 2 ^ k = 0 -> 0 <= b < 2 ^ k ->
  js_or a b = a + b.
Proof.
  intros Hk Ha Hm Hb. unfold js_or. assert (2 ^ k <= 2 ^ 31) by (apply Z.pow_le_mono_r; lia).
  rewrite !to_int32_small by lia. apply (lor_low a b k); [lia|done|done].
Qed.

Lemma js_shl_small a n : 0 <= n -> 0 <= a < 2 ^ 31 -> a * 2 ^ n < 2 ^ 31 -> js_shl a n = a * 2 ^ n.
Proof.
  intros Hn Ha Hr. unfold js_shl. rewrite (to_int32_small a), Z.shiftl_mul_pow2 by lia.
  apply to_int32_small. lia.
Qed.

(** Big-endian value of a byte string. *)
Definition be_value (b : bytes) : Z := foldl (fun a x => 256 * a + x) 0 b.

Lemma byte_at_ok i b : bytes_ok b -> byte_ok (byte_at i b).
Proof.
  intros Hb. unfold byte_at. destruct (b !! i) as [x|] eqn:E; cbn; [|unfold byte_ok; lia].
  by eapply Forall_lookup_1.
Qed.

(** RFC 4226, section 5.3: four bytes at the offset the last nibble names, as a
    31-bit big-endian integer. *)
Lemma truncate_mac_spec mac : bytes_ok mac ->
  let o := Z.to_nat (byte_at (length mac - 1) mac mod 16) in
  truncate_mac mac =
    be_value [byte_at o mac; byte_at (o + 1) mac; byte_at (o + 2) mac; byte_at (o + 3) mac] mod 2 ^ 31.
Proof.
  intros Hm. unfold truncate_mac. change 15 with (2 ^ 4 - 1). change 127 with (2 ^ 7 - 1).
  rewrite !js_and_ones by lia. change (2 ^ 4) with 16. cbv zeta.
  set (o := Z.to_nat _).
  pose proof (byte_at_ok o mac Hm) as H0. pose proof (byte_at_ok (o + 1) mac Hm) as H1.
  pose proof (byte_at_ok (o + 2) mac Hm) as H2. pose proof (byte_at_ok (o + 3) mac Hm) as H3.
  generalize dependent (byte_at o mac). intros b0 H0.
  generalize dependent (byte_at (o + 1) mac). intros b1 H1.
  generalize dependent (byte_at (o + 2) mac). intros b2 H2.
  generalize dependent (byte_at (o + 3) mac). intros b3 H3. unfold_ok.
  pose proof (Z.mod_pos_bound b0 (2 ^ 7) eq_refl).
  rewrite !js_shl_small by lia.
  rewrite (js_or_low _ (b1 * _) 24), (js_or_low _ (b2 * _) 16), (js_or_low _ b3 8)
    by (try lia; divlia).
  unfold be_value. cbn [foldl]. divlia.
Qed.

Lemma be32_value n : be_value (be32 n) = n mod 2 ^ 32.
Proof.
  unfold be32, to_uint32, be_value. cbn [foldl].
  pose proof (Z.mod_pos_bound n (2 ^ 32) eq_refl). set (u := n mod 2 ^ 32) in *. clearbody u. divlia.
Qed.

Lemma be_value_app a b : be_value (a ++ b) = be_value a * 256 ^ Z.of_nat (length b) + be_value b.
Proof.
  unfold be_value. rewrite foldl_app. generalize (foldl (fun a x => 256 * a + x) 0 a) as v.
  intros v. induction b as [|x b IH] using rev_ind; [cbn; lia|].
  rewrite !foldl_app, length_app, IH. cbn [foldl length].
  rewrite Nat2Z.inj_add, Z.pow_add_r by lia. change (256 ^ Z.of_nat 1) with 256. lia.
Qed.

Lemma be32_bytes n : bytes_ok (be32 n).
Proof.
  unfold be32, to_uint32. pose proof (Z.mod_pos_bound n (2 ^ 32) eq_refl).
  set (u := n mod 2 ^ 32) in *. clearbody u.
  repeat (constructor; [divlia|]). constructor.
Qed.

(** The message is the counter on eight big-endian bytes. *)
Lemma counter_message_value c : 0 <= c < 2 ^ 64 ->
  length (counter_message c) = 8%nat /\ bytes_ok (counter_message c) /\ be_value (counter_message c) = c.
Proof.
  intros Hc. unfold counter_message. split_and!; [done|apply Forall_app; split; apply be32_bytes|].
  rewrite be_value_app, !be32_value. unfold js_shr_u, to_uint32. rewrite Z.shiftr_0_r, Z.mod_mod by lia.
  change (256 ^ Z.of_nat (length (be32 (c mod 2 ^ 32)))) with (2 ^ 32).
  rewrite (Z.mod_small (c / 2 ^ 32)) by divlia. pose proof (Z.div_mod c (2 ^ 32)). lia.
Qed.

Lemma horner_zeros n s : horner 0 (replicate n c_0 ++ s) = horner 0 s.
Proof. induction n as [|n IH]; [done|]. exact IH. Qed.

(** A configuration the parser can produce. *)
Definition totp_ok (cfg : TotpConfig) : Prop :=
  bytes_ok (secret cfg) /\ secret cfg <> [] /\ 6 <= digits cfg <= 10 /\ 1 <= period cfg <= 300.

(** RFC 4226, with the counter as a big-endian message. *)
Definition hotp_value `{WebCrypto} (cfg : TotpConfig) (counter : Z) : Z :=
  let mac := hmac (algorithm cfg) (secret cfg) (counter_message counter) in
  let o := Z.to_nat (default 0 (last mac) mod 16) in
  (be_value (take 4 (drop o mac)) mod 2 ^ 31) mod 10 ^ digits cfg.

Lemma byte_at_last (m : bytes) : byte_at (length m - 1) m = default 0 (last m).
Proof. unfold byte_at. rewrite last_lookup. by replace (Nat.pred (length m)) with (length m - 1)%nat by lia. Qed.

Lemma take_four (m : bytes) o : (o + 4 <= length m)%nat ->
  take 4 (drop o m) = [byte_at o m; byte_at (o + 1) m; byte_at (o + 2) m; byte_at (o + 3) m].
Proof.
  intros Ho. unfold byte_at.
  assert (Hl : forall i, (m !! (o + i)%nat) = drop o m !! i) by (intros; by rewrite lookup_drop).
  rewrite <- (Nat.add_0_r o) at 2. rewrite !Hl.
  assert (4 <= length (drop o m))%nat as Hd by (rewrite length_drop; lia).
  destruct (drop o m) as [|a [|b [|c [|d r]]]]; cbn in Hd; try lia. done.
Qed.

Lemma hash_len_ge h : (20 <= hash_len h)%nat.
Proof. destruct h; cbn; lia. Qed.

Section Hotp.
Context `{WebCrypto} {St : Type}.

Lemma hotp_value_truncate cfg c :
  Z.rem (truncate_mac (hmac (algorithm cfg) (secret cfg) (counter_message c))) (10 ^ digits cfg)
    = hotp_value cfg c \/ digits cfg < 0.
Proof.
  destruct (Z.lt_ge_cases (digits cfg) 0) as [|Hd]; [by right|left].
  unfold hotp_value. set (mac := hmac _ _ _).
  assert (Hm : bytes_ok mac) by apply hmac_bytes.
  assert (Hl : (20 <= length mac)%nat) by (unfold mac; rewrite hmac_length; apply hash_len_ge).
  rewrite truncate_mac_spec by done. cbv zeta. rewrite byte_at_last.
  set (o := Z.to_nat _).
  assert ((o < 16)%nat) by (pose proof (Z.mod_pos_bound (default 0 (last mac)) 16 eq_refl); unfold o; lia).
  rewrite take_four by lia. rewrite Z.rem_mod_nonneg; [done| |].
  - apply Z.mod_pos_bound. lia.
  - apply Z.pow_pos_nonneg; lia.
Qed.

Lemma hotp_returns cfg c (s : St) : totp_ok cfg ->
  returns (hotp cfg c) s (pad_start (Z.to_nat (digits cfg)) c_0 (dec (hotp_value cfg c))) s.
Proof.
  intros (Hb & Hn & Hd & Hp). unfold returns, hotp. rewrite bool_decide_eq_false_2 by done. cbv zeta.
  autorewrite with monad. by destruct (hotp_value_truncate cfg c) as [->|]; [|lia].
Qed.

Lemma hotp_value_range cfg c : totp_ok cfg -> 0 <= hotp_value cfg c < 10 ^ digits cfg.
Proof. intros (_ & _ & Hd & _). apply Z.mod_pos_bound. apply Z.pow_pos_nonneg; lia. Qed.
End Hotp.

(** ** What the parser yields *)

Lemma js_and_byte v : byte_ok (js_and v 255).
Proof. change 255 with (2 ^ 8 - 1). rewrite js_and_ones by lia. apply Z.mod_pos_bound. lia. Qed.

Lemma b32_loop_bytes s bits value out b : bytes_ok out ->
  b32_loop s bits value out = Some b -> bytes_ok b.
Proof.
  revert bits value out. induction s as [|u s IH]; intros bits value out Ho; cbn; [by intros [= <-]|].
  destruct (b32_index u) as [i|]; [|done]. destruct (8 <=? bits + 5); [|by apply IH].
  apply IH. apply Forall_app. split; [done|]. constructor; [apply js_and_byte|constructor].
Qed.

Lemma in_range_bounds lo hi d v : lo <= d <= hi -> lo <= in_range lo hi d v <= hi.
Proof. intros Hd. unfold in_range. destruct v as [z|]; [|done]. case_match; bool_prop; lia. Qed.

Section Parse.
Context `{Unicode} `{WebCrypto} `{UrlParser} {St : Type}.

Lemma base32Decode_bytes s b : base32Decode s = Some b -> bytes_ok b.
Proof. unfold base32Decode. case_match; [done|]. by apply b32_loop_bytes. Qed.

Lemma parseTotpSecret_ranges s cfg : parseTotpSecret s = Some cfg ->
  bytes_ok (secret cfg) /\ 6 <= digits cfg <= 10 /\ 1 <= period cfg <= 300.
Proof.
  unfold parseTotpSecret. destruct (trim s) as [|u raw]; [done|].
  destruct (str_eqb _ _).
  - intros (r & _ & (b & Hb & [= <-])%bind_Some)%bind_Some. cbn.
    split; [by apply base32Decode_bytes in Hb|]. split; apply in_range_bounds; lia.
  - intros (b & Hb & [= <-])%bind_Some. cbn. split; [by apply base32Decode_bytes in Hb|]. lia.
Qed.

Lemma code_format cfg c : totp_ok cfg ->
  let code := pad_start (Z.to_nat (digits cfg)) c_0 (dec (hotp_value cfg c)) in
  Z.of_nat (length code) = digits cfg /\ digits_ok code /\ horner 0 code = hotp_value cfg c.
Proof.
  intros Hok. pose proof (hotp_value_range cfg c Hok) as Hr. destruct Hok as (_ & _ & Hd & _).
  destruct (dec_spec (hotp_value cfg c)) as (Hdig & Hh & _); [lia|]. cbv zeta. split_and!.
  - rewrite pad_start_length; [lia|]. apply dec_length; [lia|]. by rewrite Z2Nat.id by lia.
  - apply Forall_app. split; [|done]. by apply Forall_replicate.
  - unfold pad_start. by rewrite horner_zeros.
Qed.

Lemma totp_step_window cfg t t' : totp_ok cfg -> 0 <= t ->
  let left := period cfg - Z.rem (t / 1000) (period cfg) in
  1000 * (t / 1000 + left - period cfg) <= t' < 1000 * (t / 1000 + left) ->
  totp_step cfg t' = totp_step cfg t.
Proof.
  intros (_ & _ & _ & Hp) Ht. cbv zeta. unfold totp_step.
  rewrite Z.rem_mod_nonneg by (try apply Z.div_pos; lia).
  rewrite <- !Z.div_div by lia. set (P := period cfg) in *. clearbody P.
  set (q := t / 1000) in *. pose proof (Z.div_mod q P ltac:(lia)) as E.
  pose proof (Z.mod_pos_bound q P ltac:(lia)). intros Hr.
  assert (P * (q / P) <= t' / 1000 < P * (q / P) + P) as Hq
    by (split; [apply Z.div_le_lower_bound|apply Z.div_lt_upper_bound]; lia).
  symmetry. apply (Z.div_unique (t' / 1000) P (q / P) (t' / 1000 - P * (q / P))); lia.
Qed.

Lemma totpCode_returns cfg t (s : St) : totp_ok cfg ->
  returns (totpCode cfg t) s
    (pad_start (Z.to_nat (digits cfg)) c_0 (dec (hotp_value cfg (totp_step cfg t))),
     period cfg - Z.rem (t / 1000) (period cfg)) s.
Proof. intros Hok. unfold returns, totpCode. run (hotp_returns cfg (totp_step cfg t) s Hok). done. Qed.

Lemma seconds_left cfg t : totp_ok cfg -> 0 <= t ->
  1 <= period cfg - Z.rem (t / 1000) (period cfg) <= period cfg.
Proof.
  intros (_ & _ & _ & Hp) Ht. rewrite Z.rem_mod_nonneg by (try apply Z.div_pos; lia).
  pose proof (Z.mod_pos_bound (t / 1000) (period cfg) ltac:(lia)). lia.
Qed.
End Parse.

(** ** Theorems *)
Section Theorems.
Context `{Unicode} `{WebCrypto} `{UrlParser} {St : Type}.

(** C35: on ASCII input, once case, white space, dashes and padding are dropped,
    the decoder is RFC 4648 base 32: every character contributes its five bits,
    the bits are cut into octets and the incomplete octet is dropped; a character
    outside the alphabet and an empty input give null. *)
Theorem base32_rfc4648 s (Hs : ascii s) :
  base32Decode s = match b32_clean s with
                   | [] => None
                   | c => b32_reference <$> mapM b32_index c
                   end.
Proof. rewrite (base32Decode_ascii s Hs). by destruct (b32_clean s). Qed.

(** Decoding undoes RFC 4648 encoding, with any amount of padding. *)
Theorem base32_roundtrip b n (Hb : bytes_ok b) (Hne : b <> []) :
  base32Decode (b32_encode b ++ replicate n c_eq) = Some b.
Proof.
  rewrite base32Decode_ascii
    by (apply Forall_app; split; [apply b32_encode_ascii|apply Forall_replicate; unfold_ok; lia]).
  assert (b32_clean (b32_encode b ++ replicate n c_eq) = b32_encode b) as ->.
  { rewrite <- (b32_clean_encode b) at 2. unfold b32_clean.
    rewrite map_app, List.filter_app. unfold strip_eq. f_equal. rewrite reverse_app.
    induction n as [|n IH]; [done|]. replace (S n) with (n + 1)%nat by lia.
    rewrite replicate_add, map_app, List.filter_app, reverse_app. exact IH. }
  pose proof (b32_encode_nonempty b Hne). destruct (b32_encode b) eqn:E; [done|].
  rewrite <- E. by apply b32_reference_encode.
Qed.

(** C34: a code is HOTP (RFC 4226): over the counter as eight big-endian bytes,
    the four bytes of the MAC at the offset its last nibble names, as a 31-bit
    integer, modulo 10^digits, in exactly [digits] decimal digits. *)
Theorem hotp_rfc4226 cfg c (s : St) (Hok : totp_ok cfg) (Hc : 0 <= c < 2 ^ 64) :
  exists msg code, (length msg = 8%nat /\ bytes_ok msg /\ be_value msg = c) /\
    returns (hotp cfg c) s code s /\
    Z.of_nat (length code) = digits cfg /\ digits_ok code /\
    let mac := hmac (algorithm cfg) (secret cfg) msg in
    let o := Z.to_nat (default 0 (last mac) mod 16) in
    horner 0 code = (be_value (take 4 (drop o mac)) mod 2 ^ 31) mod 10 ^ digits cfg.
Proof.
  exists (counter_message c), (pad_start (Z.to_nat (digits cfg)) c_0 (dec (hotp_value cfg c))).
  split; [by apply counter_message_value|]. split; [by apply hotp_returns|]. by apply code_format.
Qed.

(** The countdown tells the truth: the code shown at [t] is the code at every
    instant from the start of its period until [secondsLeft] seconds after the
    current second, when the counter advances by one. *)
Theorem totp_window cfg t (s : St) (Hok : totp_ok cfg) (Ht : 0 <= t) :
  exists code left, returns (totpCode cfg t) s (code, left) s /\ 1 <= left <= period cfg /\
    (forall t', 1000 * (t / 1000 + left - period cfg) <= t' < 1000 * (t / 1000 + left) ->
       exists left', returns (totpCode cfg t') s (code, left') s) /\
    totp_step cfg (1000 * (t / 1000 + left)) = totp_step cfg t + 1.
Proof.
  eexists _, _. split; [by apply totpCode_returns|]. pose proof (seconds_left cfg t Hok Ht) as Hl.
  split; [exact Hl|]. split.
  - intros t' Hr. eexists. rewrite <- (totp_step_window cfg t t' Hok Ht Hr). by apply totpCode_returns.
  - destruct Hok as (_ & _ & _ & Hp). unfold totp_step.
    rewrite Z.rem_mod_nonneg by (try apply Z.div_pos; lia).
    rewrite Z.div_mul_cancel_l, <- Z.div_div by lia. set (q := t / 1000).
    pose proof (Z.div_mod q (period cfg) ltac:(lia)) as E.
    replace (q + (period cfg - q mod period cfg)) with ((q / period cfg + 1) * period cfg) by lia.
    by rewrite Z.div_mul by lia.
Qed.

(** What a stored secret displays: nothing when it does not parse; a WebCrypto
    exception when it parses to no bytes at all; otherwise a numeric code of 6 to
    10 digits with a countdown inside a period of at most 300 seconds. *)
Theorem totpFromString_total stored now (s : St) (Hnow : 0 <= now) :
  match parseTotpSecret stored with
  | None => returns (totpFromString stored now) s None s
  | Some cfg =>
      if bool_decide (secret cfg = []) then throws (totpFromString stored now) s DataError s
      else exists code left, returns (totpFromString stored now) s (Some (code, left, period cfg)) s /\
        Z.of_nat (length code) = digits cfg /\ 6 <= digits cfg <= 10 /\ digits_ok code /\
        1 <= left <= period cfg /\ period cfg <= 300
  end.
Proof.
  unfold returns, throws, totpFromString. destruct (parseTotpSecret stored) as [cfg|] eqn:E; [|done].
  apply parseTotpSecret_ranges in E as (Hb & Hd & Hp).
  case_bool_decide as Hn.
  - unfold totpCode, hotp, mbind, M_bind. by rewrite bool_decide_eq_true_2.
  - assert (Hok : totp_ok cfg) by done. eexists _, _. split.
    { run (totpCode_returns cfg now s Hok). reflexivity. }
    destruct (code_format cfg (totp_step cfg now) Hok) as (Hl & Hc & _). cbn [fst snd].
    split; [exact Hl|]. split; [done|]. split; [exact Hc|]. split; [by apply seconds_left|lia].
Qed.

(** A one-letter secret is five bits, no whole byte: the parser calls it a
    usable secret, and generating its code is refused by WebCrypto. *)
Theorem totp_one_letter now (s : St) :
  parseTotpSecret (js "A") = Some {| secret := []; algorithm := SHA1; digits := 6; period := 30 |}
  /\ throws (totpFromString (js "A") now) s DataError s.
Proof.
  assert (E : parseTotpSecret (js "A") =
    Some {| secret := []; algorithm := SHA1; digits := 6; period := 30 |}).
  { change (parseTotpSecret (js "A")) with
      (b ← base32Decode (js "A"); Some {| secret := b; algorithm := SHA1; digits := 6; period := 30 |}).
    rewrite base32Decode_ascii by decide_forall. vm_compute. reflexivity. }
  split; [exact E|]. unfold throws, totpFromString. by rewrite E.
Qed.
End Theorems.

(** ** Concrete inputs *)

Definition no_urls : UrlParser := {| parse_url _ := None |}.
#[local] Existing Instances latin1_unicode model_crypto no_urls.
Definition rfc_secret : TotpConfig :=
  {| secret := js "12345678901234567890"; algorithm := SHA1; digits := 6; period := 30 |}.

(** The example of RFC 4226, section 5.4. *)
Example truncate_rfc_example :
  truncate_mac [31; 134; 152; 105; 14; 2; 202; 22; 97; 133; 80; 239; 127; 25; 218; 142; 148; 91; 85; 90]
  mod 10 ^ 6 = 872921.
Proof. vm_compute. reflexivity. Qed.

Lemma rfc_secret_ok : totp_ok rfc_secret.
Proof. split_and!; [decide_forall|done|cbn; lia..]. Qed.

Lemma base32_rfc4648_witness :
  base32Decode (js "jbsw y3dp-EH==") = Some (js "Hello!").
Proof.
  rewrite base32_rfc4648 by decide_forall. vm_compute. reflexivity.
Defined.

Lemma base32_roundtrip_witness :
  base32Decode (js "JBSWY3DPEE======") = Some (js "Hello!").
Proof.
  refine (base32_roundtrip (js "Hello!") 6 _ _); [decide_forall|done].
Defined.

Lemma hotp_rfc4226_witness :
  exists msg code, (length msg = 8%nat /\ bytes_ok msg /\ be_value msg = 1) /\
    returns (hotp rfc_secret 1) tt code tt /\
    Z.of_nat (length code) = 6 /\ digits_ok code /\
    let mac := hmac SHA1 (js "12345678901234567890") msg in
    let o := Z.to_nat (default 0 (last mac) mod 16) in
    horner 0 code = (be_value (take 4 (drop o mac)) mod 2 ^ 31) mod 10 ^ 6.
Proof. apply (hotp_rfc4226 rfc_secret 1 tt rfc_secret_ok). lia. Defined.

Lemma totp_window_witness :
  exists code left, returns (totpCode rfc_secret 59000) tt (code, left) tt /\
    1 <= left <= 30 /\
    (forall t', 1000 * (59 + left - 30) <= t' < 1000 * (59 + left) ->
       exists left', returns (totpCode rfc_secret t') tt (code, left') tt) /\
    totp_step rfc_secret (1000 * (59 + left)) = 2.
Proof. apply (totp_window rfc_secret 59000 tt rfc_secret_ok). lia. Defined.

Lemma totpFromString_total_witness :
  exists code left, returns (totpFromString
                               (js "JBSWY3DPEE======") 59000) tt (Some (code, left, 30)) tt /\
    Z.of_nat (length code) = 6 /\ 6 <= 6 <= 10 /\ digits_ok code /\ 1 <= left <= 30 /\ 30 <= 300.
Proof.
  pose proof (totpFromString_total (js "JBSWY3DPEE======") 59000 tt ltac:(lia)) as H.
  assert (E : parseTotpSecret (js "JBSWY3DPEE======") =
    Some {| secret := js "Hello!"; algorithm := SHA1; digits := 6; period := 30 |})
    by (vm_compute; reflexivity).
  rewrite E in H. exact H.
Defined.
