(* ===== verification/Account.v ===== *)
(** crypto/src/account.ts: the account key hierarchy, the item ciphers and the
    recovery flow; and the keypair generation of crypto/src/sharing.ts, which
    registration calls. *)
From S2P Require Import Prelude Text Numeral Json JsonFacts Encoding Effects Platform Primitives.
From S2P Require Import EncString Kdf Identifier.

Definition USER_KEY_BYTES : nat := 64.
Definition ITEM_KEY_BYTES : nat := 32.
Definition MASTER_PASSWORD_HASH_DOMAIN : jsstr := js "passwd.master-password-hash.v1:".
Definition RECOVERY_KDF_SALT : jsstr := js "passwd.recovery.salt.v1".
Definition RECOVERY_KDF_ITERATIONS : Z := 100000.

Record StretchedKey := { encKey : bytes; macKey : bytes }.

Record UserKeypair := { kp_publicKey : jsstr; kp_protectedPrivateKey : jsstr }.

Record RegistrationBundle := {
  rb_identifier : jsstr;
  rb_kdf : json;
  rb_masterPasswordHash : jsstr;
  rb_protectedUserKey : jsstr;
  rb_publicKey : jsstr;
  rb_protectedPrivateKey : jsstr;
}.

Record RecoveryKeys := { recoveryEncKey : bytes; recoveryAuthHash : jsstr }.

Record RecoveryEnrollment := {
  re_recoveryCode : jsstr;
  re_recoveryProtectedUserKey : jsstr;
  re_recoveryAuthHash : jsstr;
}.

Record RecoveryReset := {
  rr_recoveryAuthHash : jsstr;
  rr_masterPasswordHash : jsstr;
  rr_protectedUserKey : jsstr;
  rr_kdf : jsv;
  rr_userKey : bytes;
}.

(** The first half of the user key encrypts. *)
Definition itemKey (userKey : bytes) : bytes := take 32 userKey.

(** [decryptItemKeyed]'s container: the wrapped key and the data of a stored
    value that is a JSON object with both; anything else is a legacy EncString. *)
Definition item_container (stored : jsv) : option (jsv * jsv) :=
  t ← js_to_string stored;
  parsed ← json_parse t;
  let key := get_prop (js "key") parsed in
  let data := get_prop (js "data") parsed in
  if truthy (Some parsed) && typeof_object (Some parsed) && truthy key && truthy data
  then Some (key, data) else None.

Section Account.
Context {St : Type} `{Unicode} `{Entropy St} `{WebCrypto}.

Definition deriveMasterKey (masterPassword identifier : jsstr) (params : jsv) : M St bytes :=
  deriveKey masterPassword (Some (JStr (normalizeIdentifier identifier))) params.

Definition deriveMasterPasswordHash (masterKey : bytes) (masterPassword : jsstr) : M St jsstr :=
  let salt := utf8 (MASTER_PASSWORD_HASH_DOMAIN ++ nfkc masterPassword) in
  hash ← pbkdf2 masterKey salt (jint 1) 32;
  mret (toBase64 hash).

Definition stretchMasterKey (masterKey : bytes) : M St StretchedKey :=
  e ← hkdfExpand masterKey (js "enc") 32;
  m ← hkdfExpand masterKey (js "mac") 32;
  mret {| encKey := e; macKey := m |}.

Definition generateUserKey : M St bytes := randomBytes USER_KEY_BYTES.

(** The shared body of the wrapping functions: AES-GCM under a fresh nonce. *)
Definition seal_under (key plaintext : bytes) : M St jsstr :=
  r ← aesGcmEncrypt key plaintext None;
  mret (serializeEncString {| e_type := AesGcm; e_nonce := nonce r; e_data := ciphertext r |}).
Definition open_under (key : bytes) (s : jsv) : M St bytes :=
  e ← parseEncString_jsv s;
  aesGcmDecrypt key (e_nonce e) (e_data e).

Definition wrapUserKey (stretched : StretchedKey) (userKey : bytes) : M St jsstr :=
  seal_under (encKey stretched) userKey.
Definition unwrapUserKey (stretched : StretchedKey) (protectedUserKey : jsv) : M St bytes :=
  open_under (encKey stretched) protectedUserKey.

Definition encryptItem (userKey : bytes) (plaintext : jsstr) : M St jsstr :=
  seal_under (itemKey userKey) (utf8 plaintext).
Definition decryptItem (userKey : bytes) (encString : jsv) : M St jsstr :=
  p ← open_under (itemKey userKey) encString;
  mret (fromUtf8 p).

Definition wrapItemKey (userKey key : bytes) : M St jsstr := seal_under (itemKey userKey) key.
Definition unwrapItemKey (userKey : bytes) (wrapped : jsv) : M St bytes :=
  open_under (itemKey userKey) wrapped.

Definition encryptItemKeyed (userKey : bytes) (plaintext : jsstr) : M St jsstr :=
  key ← randomBytes ITEM_KEY_BYTES;
  enc ← aesGcmEncrypt key (utf8 plaintext) None;
  wrapped ← wrapItemKey userKey key;
  let data := serializeEncString {| e_type := AesGcm; e_nonce := nonce enc; e_data := ciphertext enc |} in
  mret (stringify (JObj [(js "v", JNum (NInt 2)); (js "key", JStr wrapped); (js "data", JStr data)])).

Definition decryptItemKeyed (userKey : bytes) (stored : jsv) : M St jsstr :=
  match item_container stored with
  | None => decryptItem userKey stored
  | Some (wrapped, data) =>
      key ← unwrapItemKey userKey wrapped;
      p ← open_under key data;
      mret (fromUtf8 p)
  end.

(** [generateUserKeypair]: the seed stands for the entropy of [generateKey]. *)
Definition generateUserKeypair (userKey : bytes) : M St UserKeypair :=
  seed ← randomBytes 256;
  let '(spki, pkcs8) := rsa_keygen seed in
  wrapped ← seal_under (itemKey userKey) pkcs8;
  mret {| kp_publicKey := toBase64 spki; kp_protectedPrivateKey := wrapped |}.

Definition buildRegistration (identifier masterPassword : jsstr) (params : json) :
    M St (RegistrationBundle * bytes) :=
  masterKey ← deriveMasterKey masterPassword identifier (Some params);
  stretched ← stretchMasterKey masterKey;
  userKey ← generateUserKey;
  protectedUserKey ← wrapUserKey stretched userKey;
  masterPasswordHash ← deriveMasterPasswordHash masterKey masterPassword;
  keypair ← generateUserKeypair userKey;
  mret ({| rb_identifier := normalizeIdentifier identifier;
           rb_kdf := params;
           rb_masterPasswordHash := masterPasswordHash;
           rb_protectedUserKey := protectedUserKey;
           rb_publicKey := kp_publicKey keypair;
           rb_protectedPrivateKey := kp_protectedPrivateKey keypair |}, userKey).

Definition unlock (identifier masterPassword : jsstr) (params protectedUserKey : jsv) :
    M St (bytes * jsstr) :=
  masterKey ← deriveMasterKey masterPassword identifier params;
  stretched ← stretchMasterKey masterKey;
  userKey ← unwrapUserKey stretched protectedUserKey;
  masterPasswordHash ← deriveMasterPasswordHash masterKey masterPassword;
  mret (userKey, masterPasswordHash).

Definition deriveRecoveryKeys (recoveryCode : jsstr) : M St RecoveryKeys :=
  base ← pbkdf2 (utf8 (normalizeIdentifier recoveryCode)) (utf8 RECOVERY_KDF_SALT)
           (jint RECOVERY_KDF_ITERATIONS) 32;
  e ← hkdfExpand base (js "recovery-enc") 32;
  a ← hkdfExpand base (js "recovery-auth") 32;
  mret {| recoveryEncKey := e; recoveryAuthHash := toBase64 a |}.

Definition wrapUserKeyWithRecovery (recoveryEncKey userKey : bytes) : M St jsstr :=
  seal_under recoveryEncKey userKey.
Definition unwrapUserKeyWithRecovery (recoveryEncKey : bytes) (wrapped : jsv) : M St bytes :=
  open_under recoveryEncKey wrapped.

Definition enrollRecovery (userKey : bytes) : M St RecoveryEnrollment :=
  recoveryCode ← generateAccountId 24;
  keys ← deriveRecoveryKeys recoveryCode;
  wrapped ← wrapUserKeyWithRecovery (recoveryEncKey keys) userKey;
  mret {| re_recoveryCode := recoveryCode; re_recoveryProtectedUserKey := wrapped;
          re_recoveryAuthHash := recoveryAuthHash keys |}.

Definition completeRecovery (recoveryCode : jsstr) (recoveryProtectedUserKey : jsv)
    (identifier newMasterPassword : jsstr) (params : jsv) : M St RecoveryReset :=
  keys ← deriveRecoveryKeys recoveryCode;
  userKey ← unwrapUserKeyWithRecovery (recoveryEncKey keys) recoveryProtectedUserKey;
  masterKey ← deriveMasterKey newMasterPassword identifier params;
  stretched ← stretchMasterKey masterKey;
  protectedUserKey ← wrapUserKey stretched userKey;
  masterPasswordHash ← deriveMasterPasswordHash masterKey newMasterPassword;
  mret {| rr_recoveryAuthHash := recoveryAuthHash keys; rr_masterPasswordHash := masterPasswordHash;
          rr_protectedUserKey := protectedUserKey; rr_kdf := params; rr_userKey := userKey |}.
End Account.

(** ** Sealing and opening *)

(** [w] is an envelope of [p] under [k]. *)
Definition sealed `{WebCrypto} (k p : bytes) (w : jsstr) : Prop :=
  exists n, length n = 12%nat /\ bytes_ok n /\ bytes_ok (gcm_seal k n p) /\ gcm_seal k n p <> [] /\
    w = serializeEncString {| e_type := AesGcm; e_nonce := n; e_data := gcm_seal k n p |}.

(** A user key of the program: 64 bytes, or at least the 32 that encrypt. *)
Definition user_key_ok (uk : bytes) : Prop := (32 <= length uk)%nat /\ bytes_ok uk.

Lemma itemKey_ok uk : user_key_ok uk -> aes_key_ok (itemKey uk) = true.
Proof.
  intros [Hl _]. unfold aes_key_ok, itemKey. rewrite length_take.
  by replace (32 `min` length uk)%nat with 32%nat by lia.
Qed.

Lemma key32_ok k : length k = 32%nat -> aes_key_ok k = true.
Proof. intros Hl. unfold aes_key_ok. by rewrite Hl. Qed.
#[export] Hint Resolve itemKey_ok key32_ok : passwd.

Section Seal.
Context {St : Type} `{Entropy St} `{WebCrypto}.

#[global] Instance seal_under_keeps P k p : Undrawn P -> Keeps (S := St) P (seal_under k p).
Proof. intros HP. apply _. Qed.
#[global] Instance encryptItemKeyed_keeps P uk x : Undrawn P -> Keeps (S := St) P (encryptItemKeyed uk x).
Proof. intros HP. unfold encryptItemKeyed, wrapItemKey. apply _. Qed.

#[global] Instance open_under_constant k v : Constant (S := St) (open_under k v).
Proof. apply _. Qed.

Lemma sealed_enc_ok k p w : sealed k p w ->
  exists e, enc_ok e /\ w = serializeEncString e /\ e_data e = gcm_seal k (e_nonce e) p.
Proof.
  intros (n & Hl & Hn & Hs & Hne & ->). eexists. split; [|done]. split_and!; try done.
  intros E. cbn [e_nonce] in E. by subst n.
Qed.

Lemma seal_under_returns k p (s : St) : aes_key_ok k = true -> bytes_ok p ->
  exists w s', returns (seal_under k p) s w s' /\ sealed k p w.
Proof.
  intros Hk Hp. destruct (aesGcmEncrypt_returns k p s Hk Hp) as (n & s' & Hr & Hl & Hn & Hb & Hne).
  eexists _, s'. split; [|by exists n]. unfold returns, seal_under. by run Hr.
Qed.

Lemma open_under_sealed k p w (s : St) : aes_key_ok k = true -> sealed k p w ->
  returns (open_under k (Some (JStr w))) s p s.
Proof.
  intros Hk (e & He & -> & Hd)%sealed_enc_ok. unfold returns, open_under, parseEncString_jsv.
  run (parseEncString_serialize e s He). rewrite Hd. by apply aesGcmDecrypt_seal.
Qed.

Lemma sealed_ascii k p w : sealed k p w -> ascii w.
Proof. intros (e & He & -> & _)%sealed_enc_ok. by apply enc_units. Qed.

Lemma sealed_not_json k p w : sealed k p w -> json_parse w = None.
Proof. intros (e & He & -> & _)%sealed_enc_ok. by apply json_parse_envelope. Qed.

Lemma sealed_truthy k p w : sealed k p w -> truthy (Some (JStr w)) = true.
Proof. intros (n & _ & _ & _ & _ & ->). by rewrite serialize_shape. Qed.

(** What opens was sealed under that key: a value that is not the envelope of
    [p] never opens to [p]. *)
Lemma open_under_inv k v (s s' : St) p : returns (open_under k v) s p s' ->
  s' = s /\ exists t e, v = Some (JStr t) /\ parse_enc t = inl e /\ e_data e = gcm_seal k (e_nonce e) p.
Proof.
  unfold returns, open_under, parseEncString_jsv. destruct v as [[| | |t| |]|]; try done.
  unfold mbind, M_bind, parseEncString. destruct (parse_enc t) as [e|x] eqn:E; [|done].
  destruct (aesGcmDecrypt_cases k (e_nonce e) (e_data e) s) as [(q & Hq & Hc)|(x & Hx & _)].
  - rewrite Hq. intros [= <- <-]. split; [done|]. by exists t, e.
  - by rewrite Hx.
Qed.

End Seal.

(** ** Key derivation *)
Section Keys.
Context {St : Type} `{Unicode} `{Entropy St} `{WebCrypto}.

Lemma stretchMasterKey_returns mk : length mk = 32%nat ->
  exists st, (forall s : St, returns (stretchMasterKey mk) s st s) /\ aes_key_ok (encKey st) = true.
Proof.
  intros Hl. assert (mk <> []) as Hn by (by intros ->).
  destruct (hkdfExpand_returns (St := St) mk (js "enc") Hn) as (e & He & Hel & _).
  destruct (hkdfExpand_returns (St := St) mk (js "mac") Hn) as (m & Hm & _).
  exists {| encKey := e; macKey := m |}. split; [|by apply key32_ok].
  intros s. unfold returns, stretchMasterKey. run He. run Hm. done.
Qed.

Lemma deriveMasterPasswordHash_returns mk pw :
  exists h, forall s : St, returns (deriveMasterPasswordHash mk pw) s h s.
Proof.
  eexists. intros s. unfold returns, deriveMasterPasswordHash.
  run (pbkdf2_returns mk (utf8 (MASTER_PASSWORD_HASH_DOMAIN ++ nfkc pw)) 1 32 s ltac:(lia)). reflexivity.
Qed.

(** An identifier the KDF takes as a salt. *)
Definition identifier_ok (i : jsstr) : Prop := ascii i /\ (8 <= length (normalizeIdentifier i))%nat.

Lemma deriveMasterKey_returns pw i p : pw <> [] -> identifier_ok i -> params_ok p ->
  exists mk, (forall s : St, returns (deriveMasterKey pw i (Some p)) s mk s) /\ length mk = 32%nat.
Proof.
  intros Hp [Ha Hl] Hok.
  destruct (deriveKey_returns (St := St) pw (normalizeIdentifier i) p Hp (normalize_ascii i Ha) Hl Hok)
    as (k & Hk & Hkl & _). by exists k.
Qed.

Lemma generateUserKey_returns (s : St) :
  exists uk s', returns generateUserKey s uk s' /\ length uk = 64%nat /\ user_key_ok uk.
Proof.
  destruct (randomBytes_returns USER_KEY_BYTES s ltac:(unfold USER_KEY_BYTES; lia)) as (b & s' & Hr & Hl & Hb).
  exists b, s'. split_and!; [exact Hr|exact Hl|]. split; [rewrite Hl; unfold USER_KEY_BYTES; lia|done].
Qed.

Lemma deriveRecoveryKeys_returns code :
  exists rk, (forall s : St, returns (deriveRecoveryKeys code) s rk s)
    /\ aes_key_ok (recoveryEncKey rk) = true.
Proof.
  set (base := pbkdf2_bits (utf8 (normalizeIdentifier code)) (utf8 RECOVERY_KDF_SALT)
                 RECOVERY_KDF_ITERATIONS 32).
  assert (Hb : base <> []).
  { intros E. pose proof (pbkdf2_length (utf8 (normalizeIdentifier code)) (utf8 RECOVERY_KDF_SALT)
      RECOVERY_KDF_ITERATIONS 32) as Hl. fold base in Hl. by rewrite E in Hl. }
  destruct (hkdfExpand_returns (St := St) base (js "recovery-enc") Hb) as (e & He & Hel & _).
  destruct (hkdfExpand_returns (St := St) base (js "recovery-auth") Hb) as (a & Ha & _).
  exists {| recoveryEncKey := e; recoveryAuthHash := toBase64 a |}. split; [|by apply key32_ok].
  intros s. unfold returns, deriveRecoveryKeys.
  run (pbkdf2_returns (utf8 (normalizeIdentifier code)) (utf8 RECOVERY_KDF_SALT)
         RECOVERY_KDF_ITERATIONS 32 s ltac:(unfold RECOVERY_KDF_ITERATIONS; lia)).
  fold base. run He. run Ha. done.
Qed.

Lemma deriveRecoveryKeys_normal code code' :
  normalizeIdentifier code = normalizeIdentifier code' ->
  deriveRecoveryKeys (St := St) code = deriveRecoveryKeys code'.
Proof. intros E. unfold deriveRecoveryKeys. by rewrite E. Qed.

Lemma generateUserKeypair_returns uk (s : St) : user_key_ok uk ->
  exists seed w s', returns (generateUserKeypair uk) s
      {| kp_publicKey := toBase64 (rsa_keygen seed).1; kp_protectedPrivateKey := w |} s' /\
    bytes_ok seed /\ sealed (itemKey uk) (rsa_keygen seed).2 w.
Proof.
  intros Hk. destruct (randomBytes_returns 256 s ltac:(lia)) as (seed & s1 & Hr & _ & Hb).
  destruct (rsa_keygen_bytes seed Hb) as [_ Hp].
  destruct (seal_under_returns (itemKey uk) _ s1 (itemKey_ok uk Hk) Hp) as (w & s2 & Hw & Hs).
  exists seed, w, s2. split_and!; [|done|done]. unfold returns, generateUserKeypair. run Hr.
  destruct (rsa_keygen seed) as [pub priv]. run Hw. done.
Qed.
End Keys.

(** ** Items *)
Section Items.
Context {St : Type} `{Unicode} `{Entropy St} `{WebCrypto}.

(** The container as [encryptItemKeyed] writes it. *)
Definition item_json (wrapped data : jsstr) : json :=
  JObj [(js "v", JNum (NInt 2)); (js "key", JStr wrapped); (js "data", JStr data)].

Lemma item_container_json wrapped data : units_ok wrapped -> units_ok data ->
  wrapped <> [] -> data <> [] ->
  item_container (Some (JStr (stringify (item_json wrapped data))))
  = Some (Some (JStr wrapped), Some (JStr data)).
Proof.
  intros Hw Hd Hwn Hdn. unfold item_container. cbn [js_to_string json_to_string mbind option_bind].
  rewrite json_parse_stringify.
  - cbn. by destruct wrapped, data.
  - apply json_ok_obj. split; [vm_compute; reflexivity|].
    repeat (constructor; [split; [decide_forall|done]|]). constructor.
Qed.

Lemma encryptItem_returns uk x (s : St) : user_key_ok uk -> units_ok x ->
  exists w s', returns (encryptItem uk x) s w s' /\ sealed (itemKey uk) (utf8 x) w.
Proof. intros Hk Hx. apply seal_under_returns; [by apply itemKey_ok|by apply utf8_bytes]. Qed.

Lemma decryptItem_sealed uk x w (s : St) : user_key_ok uk -> sealed (itemKey uk) (utf8 x) w ->
  returns (decryptItem uk (Some (JStr w))) s (fromUtf8 (utf8 x)) s.
Proof.
  intros Hk Hs. unfold returns, decryptItem. by run (open_under_sealed _ _ _ s (itemKey_ok uk Hk) Hs).
Qed.

(** A stored item under [uk]: either generation of the format. *)
Definition item_of (uk : bytes) (x : jsstr) (stored : jsstr) : Prop :=
  sealed (itemKey uk) (utf8 x) stored \/
  exists k wrapped data, length k = 32%nat /\ sealed (itemKey uk) k wrapped /\
    sealed k (utf8 x) data /\ stored = stringify (item_json wrapped data).

Lemma sealed_parts k p w : sealed k p w -> units_ok w /\ w <> [].
Proof.
  intros Hs. split; [by eapply ascii_units, sealed_ascii|].
  pose proof (sealed_truthy _ _ _ Hs) as Ht. by intros ->.
Qed.

Lemma decryptItemKeyed_item uk x stored (s : St) : user_key_ok uk -> units_ok x ->
  item_of uk x stored ->
  returns (decryptItemKeyed uk (Some (JStr stored))) s (strip_bom (to_well_formed x)) s.
Proof.
  intros Hk Hx Hi. rewrite <- fromUtf8_utf8 by done. unfold returns, decryptItemKeyed.
  destruct Hi as [Hs|(k & w & d & Hkl & Hw & Hd & ->)].
  - assert (item_container (Some (JStr stored)) = None) as ->.
    { unfold item_container. cbn [js_to_string json_to_string mbind option_bind].
      by rewrite (sealed_not_json _ _ _ Hs). }
    by apply decryptItem_sealed.
  - destruct (sealed_parts _ _ _ Hw), (sealed_parts _ _ _ Hd).
    rewrite item_container_json by done. unfold unwrapItemKey.
    run (open_under_sealed _ _ _ s (itemKey_ok uk Hk) Hw).
    run (open_under_sealed _ _ _ s (key32_ok k Hkl) Hd). done.
Qed.

Lemma encryptItemKeyed_returns uk x (s : St) : user_key_ok uk -> units_ok x ->
  exists stored s', returns (encryptItemKeyed uk x) s stored s' /\ item_of uk x stored.
Proof.
  intros Hk Hx.
  destruct (randomBytes_returns ITEM_KEY_BYTES s ltac:(unfold ITEM_KEY_BYTES; lia))
    as (k & s1 & Hr & Hl & Hb).
  destruct (aesGcmEncrypt_returns k (utf8 x) s1 (key32_ok k Hl) (utf8_bytes x Hx))
    as (n & s2 & He & Hnl & Hn & Hc & Hcn).
  destruct (seal_under_returns (itemKey uk) k s2 (itemKey_ok uk Hk) Hb) as (w & s3 & Hw & Hs).
  eexists _, s3. split.
  - unfold returns, encryptItemKeyed. run Hr. run He. unfold wrapItemKey. run Hw. done.
  - right. exists k, w, (serializeEncString {| e_type := AesGcm; e_nonce := n; e_data := gcm_seal k n (utf8 x) |}).
    split_and!; [done|done|by exists n|done].
Qed.

(** What decryption accepts, and from where. *)
Definition item_opens (uk : bytes) (stored : jsv) (x : jsstr) : Prop :=
  exists p, x = fromUtf8 p /\
  ((exists t e, stored = Some (JStr t) /\ parse_enc t = inl e /\
      e_data e = gcm_seal (itemKey uk) (e_nonce e) p) \/
   (exists tk td k ek ed, item_container stored = Some (Some (JStr tk), Some (JStr td)) /\
      parse_enc tk = inl ek /\ e_data ek = gcm_seal (itemKey uk) (e_nonce ek) k /\
      parse_enc td = inl ed /\ e_data ed = gcm_seal k (e_nonce ed) p)).

Lemma decryptItemKeyed_inv uk stored x (s s' : St) :
  returns (decryptItemKeyed uk stored) s x s' -> s' = s /\ item_opens uk stored x.
Proof.
  unfold returns, decryptItemKeyed.
  destruct (item_container stored) as [[wk d]|] eqn:Ec.
  - unfold mbind, M_bind, unwrapItemKey. destruct (open_under _ wk s) as [[k|] s1] eqn:E1; [|done].
    destruct (open_under k d s1) as [[p|] s2] eqn:E2; [|done]. intros [= <- <-].
    apply open_under_inv in E1 as (-> & tk & ek & -> & Hk & Hkd).
    apply open_under_inv in E2 as (-> & td & ed & -> & Hd & Hdd).
    split; [done|]. exists p. split; [done|]. right. by exists tk, td, k, ek, ed.
  - unfold decryptItem, mbind, M_bind. destruct (open_under _ stored s) as [[p|] s1] eqn:E1; [|done].
    intros [= <- <-]. apply open_under_inv in E1 as (-> & t & e & -> & Ht & Hd).
    split; [done|]. exists p. split; [done|]. left. by exists t, e.
Qed.

#[global] Instance decryptItem_constant uk v : Constant (S := St) (decryptItem uk v).
Proof. apply _. Qed.
#[global] Instance decryptItemKeyed_constant uk v : Constant (S := St) (decryptItemKeyed uk v).
Proof. unfold decryptItemKeyed. destruct (item_container v) as [[wk d]|]; apply _. Qed.
End Items.

(** ** The hierarchy *)
Section Hierarchy.
Context {St : Type} `{Unicode} `{Entropy St} `{WebCrypto}.

#[global] Instance deriveMasterKey_constant pw i p : Constant (S := St) (deriveMasterKey pw i p).
Proof. apply _. Qed.
#[global] Instance stretchMasterKey_constant mk : Constant (S := St) (stretchMasterKey mk).
Proof. apply _. Qed.
#[global] Instance deriveMasterPasswordHash_constant mk pw :
  Constant (S := St) (deriveMasterPasswordHash mk pw).
Proof. apply _. Qed.
#[global] Instance unlock_constant i pw p w : Constant (S := St) (unlock i pw p w).
Proof. apply _. Qed.

(** The two credentials a password and an identifier derive: what unwraps the
    user key and what authenticates. *)
Lemma credentials pw i p : pw <> [] -> identifier_ok i -> params_ok p ->
  exists mk st h, (forall s : St, returns (deriveMasterKey pw i (Some p)) s mk s) /\
    (forall s : St, returns (stretchMasterKey mk) s st s) /\ aes_key_ok (encKey st) = true /\
    (forall s : St, returns (deriveMasterPasswordHash mk pw) s h s).
Proof.
  intros Hp Hi Hok. destruct (deriveMasterKey_returns (St := St) pw i p Hp Hi Hok) as (mk & Hmk & Hl).
  destruct (stretchMasterKey_returns (St := St) mk Hl) as (st & Hst & Hk).
  destruct (deriveMasterPasswordHash_returns (St := St) mk pw) as (h & Hh). by exists mk, st, h.
Qed.

Lemma unlock_with pw i j p mk st h uk w (s : St) :
  normalizeIdentifier j = normalizeIdentifier i ->
  (forall s : St, returns (deriveMasterKey pw i (Some p)) s mk s) ->
  (forall s : St, returns (stretchMasterKey mk) s st s) -> aes_key_ok (encKey st) = true ->
  (forall s : St, returns (deriveMasterPasswordHash mk pw) s h s) ->
  sealed (encKey st) uk w ->
  returns (unlock j pw (Some p) (Some (JStr w))) s (uk, h) s.
Proof.
  intros Hj Hmk Hst Hk Hh Hw.
  assert (Hmj : returns (deriveMasterKey pw j (Some p)) s mk s)
    by (unfold deriveMasterKey; rewrite Hj; apply Hmk).
  unfold returns, unlock. run Hmj. run Hst. unfold unwrapUserKey.
  run (open_under_sealed _ _ _ s Hk Hw). run Hh. done.
Qed.

Lemma buildRegistration_returns i pw p (s : St) : pw <> [] -> identifier_ok i -> params_ok p ->
  exists mk st h uk w kw seed s',
    returns (buildRegistration i pw p) s
      ({| rb_identifier := normalizeIdentifier i; rb_kdf := p; rb_masterPasswordHash := h;
          rb_protectedUserKey := w; rb_publicKey := toBase64 (rsa_keygen seed).1;
          rb_protectedPrivateKey := kw |}, uk) s' /\
    (forall s : St, returns (deriveMasterKey pw i (Some p)) s mk s) /\
    (forall s : St, returns (stretchMasterKey mk) s st s) /\ aes_key_ok (encKey st) = true /\
    (forall s : St, returns (deriveMasterPasswordHash mk pw) s h s) /\
    user_key_ok uk /\ sealed (encKey st) uk w /\
    bytes_ok seed /\ sealed (itemKey uk) (rsa_keygen seed).2 kw.
Proof.
  intros Hp Hi Hok. destruct (credentials pw i p Hp Hi Hok) as (mk & st & h & Hmk & Hst & Hk & Hh).
  destruct (generateUserKey_returns s) as (uk & s1 & Hu & _ & Huk).
  destruct (seal_under_returns (encKey st) uk s1 Hk (proj2 Huk)) as (w & s2 & Hw & Hsw).
  destruct (generateUserKeypair_returns uk s2 Huk) as (seed & kw & s3 & Hg & Hb & Hsk).
  exists mk, st, h, uk, w, kw, seed, s3. split_and!; try done.
  unfold returns, buildRegistration. run Hmk. run Hst. run Hu. unfold wrapUserKey. run Hw. run Hh.
  run Hg. done.
Qed.

(** The words of a phrase in any case and any spacing are the phrase. *)
Lemma phrase_spelled ids typed : ids_ok ids -> ascii typed ->
  map (map ascii_lower) (fields typed) = fields (phrase ids) -> normalizeIdentifier typed = normalizeIdentifier (phrase ids).
Proof.
  intros Hid Ht Htf. rewrite phrase_fields in Htf by done.
  rewrite (normalize_words typed (map word_at ids)) by (done || by apply phrase_words).
  rewrite (normalize_words (phrase ids) (map word_at ids)); [done|by apply phrase_ascii|by apply phrase_words|].
  rewrite phrase_fields by done. by apply phrase_lower.
Qed.

Lemma enrollRecovery_returns uk (s : St) : user_key_ok uk ->
  exists ids w rk s', returns (enrollRecovery uk) s
      {| re_recoveryCode := phrase ids; re_recoveryProtectedUserKey := w;
         re_recoveryAuthHash := recoveryAuthHash rk |} s' /\
    length ids = 24%nat /\ ids_ok ids /\
    (forall s : St, returns (deriveRecoveryKeys (phrase ids)) s rk s) /\
    aes_key_ok (recoveryEncKey rk) = true /\ sealed (recoveryEncKey rk) uk w.
Proof.
  intros Hk. destruct (generateAccountId_returns 24 s ltac:(lia)) as (ids & s1 & Hg & Hl & Hid).
  destruct (deriveRecoveryKeys_returns (St := St) (phrase ids)) as (rk & Hrk & Hrok).
  destruct (seal_under_returns (recoveryEncKey rk) uk s1 Hrok (proj2 Hk)) as (w & s2 & Hw & Hs).
  exists ids, w, rk, s2. split_and!; try done; [|lia].
  unfold returns, enrollRecovery. run Hg. run Hrk. unfold wrapUserKeyWithRecovery. run Hw. done.
Qed.

Lemma completeRecovery_returns code i pw p uk w rk (s : St) :
  pw <> [] -> identifier_ok i -> params_ok p -> user_key_ok uk ->
  (forall s : St, returns (deriveRecoveryKeys code) s rk s) ->
  aes_key_ok (recoveryEncKey rk) = true -> sealed (recoveryEncKey rk) uk w ->
  exists r mk st s', returns (completeRecovery code (Some (JStr w)) i pw (Some p)) s r s' /\
    rr_userKey r = uk /\ rr_kdf r = Some p /\ rr_recoveryAuthHash r = recoveryAuthHash rk /\
    (forall s : St, returns (deriveMasterKey pw i (Some p)) s mk s) /\
    (forall s : St, returns (stretchMasterKey mk) s st s) /\ aes_key_ok (encKey st) = true /\
    (forall s : St, returns (deriveMasterPasswordHash mk pw) s (rr_masterPasswordHash r) s) /\
    sealed (encKey st) uk (rr_protectedUserKey r).
Proof.
  intros Hp Hi Hok Hk Hrk Hrok Hsw.
  destruct (credentials pw i p Hp Hi Hok) as (mk & st & h & Hmk & Hst & Hke & Hh).
  destruct (seal_under_returns (encKey st) uk s Hke (proj2 Hk)) as (w' & s' & Hw' & Hs').
  exists {| rr_recoveryAuthHash := recoveryAuthHash rk; rr_masterPasswordHash := h;
            rr_protectedUserKey := w'; rr_kdf := Some p; rr_userKey := uk |}, mk, st, s'.
  split; [|by split_and!].
  unfold returns, completeRecovery. run Hrk. unfold unwrapUserKeyWithRecovery.
  run (open_under_sealed _ _ _ s Hrok Hsw). run Hmk. run Hst. unfold wrapUserKey. run Hw'. run Hh. done.
Qed.
End Hierarchy.

(** ** Theorems *)
Section Theorems.
Context {St : Type} `{Unicode} `{Entropy St} `{WebCrypto}.

(** C10: an item stored by [encryptItemKeyed] decrypts, with the same user key and
    at any later time, to the text that was stored; so does a legacy item stored
    by [encryptItem], without migration. *)
Theorem item_roundtrip uk x (s : St) (Hk : user_key_ok uk) (Hx : text_ok x) :
  (exists stored s1, returns (encryptItemKeyed uk x) s stored s1 /\
    forall s2 : St, returns (decryptItemKeyed uk (Some (JStr stored))) s2 x s2) /\
  (exists stored s1, returns (encryptItem uk x) s stored s1 /\
    forall s2 : St, returns (decryptItemKeyed uk (Some (JStr stored))) s2 x s2).
Proof.
  pose proof (fromUtf8_utf8_id x Hx) as E. pose proof (proj1 Hx) as Hu.
  rewrite fromUtf8_utf8 in E by done. split.
  - destruct (encryptItemKeyed_returns uk x s Hk Hu) as (w & s1 & Hw & Hi). exists w, s1.
    split; [done|]. intros s2. rewrite <- E. by apply decryptItemKeyed_item.
  - destruct (encryptItem_returns uk x s Hk Hu) as (w & s1 & Hw & Hi). exists w, s1.
    split; [done|]. intros s2. rewrite <- E. apply decryptItemKeyed_item; [done..|by left].
Qed.

(** Whatever [decryptItemKeyed] returns was sealed under this user key,
    directly or through an item key this user key seals, and the stored value has
    the shape of one of the two formats; a value that was tampered with is not
    decrypted to something else.  The state is never touched, on any outcome. *)
Theorem decryptItemKeyed_authentic uk stored (s : St) :
  exists r, decryptItemKeyed uk stored s = (r, s) /\
    match r with inl x => item_opens uk stored x | inr _ => True end.
Proof.
  destruct (decryptItemKeyed_constant (St := St) uk stored) as [r E]. exists r. split; [apply E|].
  destruct r as [x|e]; [|done]. exact (proj2 (decryptItemKeyed_inv uk stored x s s (E s))).
Qed.

(** An item whose text starts with a byte order mark comes back without it:
    the decoder of [fromUtf8] strips what [utf8] wrote. *)
Theorem item_loses_bom uk x (s : St) (Hk : user_key_ok uk) (Hx : text_ok x) :
  exists stored s1, returns (encryptItemKeyed uk (bom :: x)) s stored s1 /\
    forall s2 : St, returns (decryptItemKeyed uk (Some (JStr stored))) s2 x s2.
Proof.
  assert (Hb : units_ok (bom :: x)).
  { constructor; [unfold_ok; lia|apply Hx]. }
  destruct (encryptItemKeyed_returns uk (bom :: x) s Hk Hb) as (w & s1 & Hw & Hi).
  exists w, s1. split; [done|]. intros s2.
  assert (E : strip_bom (to_well_formed (bom :: x)) = x).
  { rewrite well_formed_id; [done|done|]. cbn. apply Hx. }
  rewrite <- E. by apply decryptItemKeyed_item.
Qed.

(** C1: logging in after registration: the same password, with the identifier in
    any spelling that normalizes to the registered one, recovers the user key and
    the authentication hash of the registration bundle. *)
Theorem registration_unlock i pw p (s : St)
  (Hp : pw <> []) (Hi : identifier_ok i) (Hok : params_ok p) :
  exists b uk s1, returns (buildRegistration i pw p) s (b, uk) s1 /\ user_key_ok uk /\
    rb_identifier b = normalizeIdentifier i /\
    forall j (s2 : St), normalizeIdentifier j = normalizeIdentifier i ->
      returns (unlock j pw (Some (rb_kdf b)) (Some (JStr (rb_protectedUserKey b)))) s2
        (uk, rb_masterPasswordHash b) s2.
Proof.
  destruct (buildRegistration_returns i pw p s Hp Hi Hok)
    as (mk & st & h & uk & w & kw & seed & s1 & Hr & Hmk & Hst & Hk & Hh & Huk & Hw & _).
  eexists _, uk, s1. split; [exact Hr|]. split_and!; [done|done|]. intros j s2 Hj.
  by apply (unlock_with pw i j p mk st h uk w).
Qed.

(** C29: an unlock that succeeds returns the key that the protected value seals
    under the key stretched from this password and identifier: no other password
    path leads to a user key. *)
Theorem unlock_authentic i pw p prot (s s' : St) uk h
  (Hr : returns (unlock i pw p prot) s (uk, h) s') :
  exists mk st e t, returns (deriveMasterKey pw i p) s mk s' /\
    returns (stretchMasterKey mk) s' st s' /\ prot = Some (JStr t) /\ parse_enc t = inl e /\
    e_data e = gcm_seal (encKey st) (e_nonce e) uk /\
    returns (deriveMasterPasswordHash mk pw) s' h s'.
Proof.
  apply bind_inv in Hr as (mk & s1 & Hm & Hr). apply bind_inv in Hr as (st & s2 & Hst & Hr).
  apply bind_inv in Hr as (uk' & s3 & Hu & Hr). apply bind_inv in Hr as (h' & s4 & Hh & Hr).
  apply ret_inv in Hr as [[= -> ->] ->].
  apply constant_returns in Hm as [-> Hm]; [|apply _]. apply constant_returns in Hst as [-> Hst]; [|apply _].
  apply constant_returns in Hh as [-> Hh]; [|apply _].
  apply open_under_inv in Hu as (-> & t & e & -> & He & Hd).
  by exists mk, st, e, t.
Qed.
(** C27: the recovery code works: with the words typed in any case and any
    spacing, recovery returns the same user key that was enrolled, the verifier
    the server stored, and credentials under which the new password unlocks that
    key again. *)
Theorem recovery_roundtrip uk i pw p (s : St)
  (Hk : user_key_ok uk) (Hp : pw <> []) (Hi : identifier_ok i) (Hok : params_ok p) :
  exists en s1, returns (enrollRecovery uk) s en s1 /\
    length (fields (re_recoveryCode en)) = 24%nat /\
    forall typed (s2 : St), ascii typed ->
      map (map ascii_lower) (fields typed) = fields (re_recoveryCode en) ->
      exists r s3,
        returns (completeRecovery typed (Some (JStr (re_recoveryProtectedUserKey en))) i pw (Some p))
          s2 r s3 /\
        rr_userKey r = uk /\ rr_recoveryAuthHash r = re_recoveryAuthHash en /\
        forall s4 : St, returns (unlock i pw (rr_kdf r) (Some (JStr (rr_protectedUserKey r)))) s4
                          (uk, rr_masterPasswordHash r) s4.
Proof.
  destruct (enrollRecovery_returns uk s Hk) as (ids & w & rk & s1 & He & Hl & Hid & Hrk & Hrok & Hw).
  eexists _, s1. split; [exact He|]. cbn [re_recoveryCode re_recoveryProtectedUserKey re_recoveryAuthHash].
  split; [by rewrite phrase_fields, length_map|]. intros typed s2 Ht Htf.
  pose proof (phrase_spelled ids typed Hid Ht Htf) as Hn.
  rewrite <- (deriveRecoveryKeys_normal _ _ Hn) in Hrk.
  destruct (completeRecovery_returns typed i pw p uk w rk s2 Hp Hi Hok Hk Hrk Hrok Hw)
    as (r & mk & st & s3 & Hr & Hu & Hkdf & Ha & Hmk & Hst & Hke & Hh & Hs).
  exists r, s3. split_and!; [done|done|done|]. intros s4. rewrite Hkdf.
  by apply (unlock_with pw i i p mk st _ uk).
Qed.
End Theorems.

(** ** Concrete inputs *)
#[local] Existing Instances latin1_unicode model_crypto lcg_entropy.

Definition sample_key : bytes := map Z.of_nat (seq 0 64).

Lemma sample_key_ok : user_key_ok sample_key.
Proof. split; [cbn; lia|decide_forall]. Qed.

Lemma sample_identifier_ok : identifier_ok (js "Alice@Example.org").
Proof. split; [decide_forall|vm_compute; lia]. Qed.

Lemma item_roundtrip_witness :
  (exists stored s1, returns (encryptItemKeyed sample_key (jq "{'name':'bank'}")) 1 stored s1 /\
    forall s2 : Z, returns (decryptItemKeyed sample_key (Some (JStr stored))) s2 (jq "{'name':'bank'}") s2) /\
  (exists stored s1, returns (encryptItem sample_key (jq "{'name':'bank'}")) 1 stored s1 /\
    forall s2 : Z, returns (decryptItemKeyed sample_key (Some (JStr stored))) s2 (jq "{'name':'bank'}") s2).
Proof. apply item_roundtrip; [apply sample_key_ok|apply ascii_text_ok; decide_forall]. Defined.

Lemma item_loses_bom_witness :
  exists stored s1, returns (encryptItemKeyed sample_key (bom :: js "note")) 1 stored s1 /\
    forall s2 : Z, returns (decryptItemKeyed sample_key (Some (JStr stored))) s2 (js "note") s2.
Proof. apply item_loses_bom; [apply sample_key_ok|apply ascii_text_ok; decide_forall]. Defined.

Lemma registration_unlock_witness :
  exists b uk s1, returns (buildRegistration (js "Alice@Example.org") (js "correct horse") DEFAULT_KDF) 7
                    (b, uk) s1 /\ user_key_ok uk /\
    rb_identifier b = normalizeIdentifier (js "Alice@Example.org") /\
    forall j (s2 : Z), normalizeIdentifier j = normalizeIdentifier (js "Alice@Example.org") ->
      returns (unlock j (js "correct horse") (Some (rb_kdf b)) (Some (JStr (rb_protectedUserKey b)))) s2
        (uk, rb_masterPasswordHash b) s2.
Proof. apply registration_unlock; [done|apply sample_identifier_ok|apply default_kdf_ok]. Defined.

Lemma unlock_authentic_witness :
  exists uk h s' mk st e t,
    returns (deriveMasterKey (js "correct horse") (js "alice@example.org") (Some DEFAULT_KDF)) 7 mk s' /\
    returns (stretchMasterKey mk) s' st s' /\ parse_enc t = inl e /\
    e_data e = gcm_seal (encKey st) (e_nonce e) uk /\
    returns (deriveMasterPasswordHash mk (js "correct horse")) s' h s'.
Proof.
  set (r := buildRegistration (js "alice@example.org") (js "correct horse") DEFAULT_KDF 7).
  assert (E : exists b uk, r.1 = inl (b, uk)) by (vm_compute; eauto). destruct E as (b & uk & E).
  assert (Hu : unlock (js "alice@example.org") (js "correct horse") (Some DEFAULT_KDF)
                 (Some (JStr (rb_protectedUserKey b))) 7 = (inl (uk, rb_masterPasswordHash b), 7)).
  { assert (r.1 = inl (b, uk)) as Hr by done. vm_compute in Hr. injection Hr as <- <-.
    vm_compute. reflexivity. }
  pose proof (unlock_authentic _ _ _ _ _ _ _ _ Hu) as (mk & st & e & t & H1 & H2 & H3 & H4 & H5 & H6).
  exists uk, (rb_masterPasswordHash b), 7, mk, st, e, t. tauto.
Defined.

Lemma recovery_roundtrip_witness :
  exists en s1, returns (enrollRecovery sample_key) 3 en s1 /\
    length (fields (re_recoveryCode en)) = 24%nat /\
    forall typed (s2 : Z), ascii typed ->
      map (map ascii_lower) (fields typed) = fields (re_recoveryCode en) ->
      exists r s3,
        returns (completeRecovery typed (Some (JStr (re_recoveryProtectedUserKey en)))
                   (js "Alice@Example.org") (js "new horse") (Some DEFAULT_KDF)) s2 r s3 /\
        rr_userKey r = sample_key /\ rr_recoveryAuthHash r = re_recoveryAuthHash en /\
        forall s4 : Z, returns (unlock (js "Alice@Example.org") (js "new horse") (rr_kdf r)
                                  (Some (JStr (rr_protectedUserKey r)))) s4
                         (sample_key, rr_masterPasswordHash r) s4.
Proof.
  apply recovery_roundtrip; [apply sample_key_ok|done|apply sample_identifier_ok|apply default_kdf_ok].
Defined.
