(* ===== verification/Sharing.v ===== *)
(** crypto/src/sharing.ts: sharing one item with another user.  The keypair of
    the recipient is [Account.generateUserKeypair]. *)
From S2P Require Import Prelude Text Numeral Json Encoding Effects Platform Primitives.
From S2P Require Import EncString Kdf Identifier Account.

Definition SHARE_ITEM_KEY_BYTES : nat := 32.

Record ShareEnvelope := { wrappedKey : jsstr; sh_data : jsstr }.

(** [fromBase64] on a value that came out of JSON: [atob] converts to a string. *)
Definition fromBase64_jsv {St} (v : jsv) : M St bytes :=
  t ← of_option JsTypeError (js_to_string v);
  of_option InvalidCharacterError (fromBase64 t).

Section Sharing.
Context {St : Type} `{Unicode} `{Entropy St} `{WebCrypto}.

Definition importPublicKey (spkiB64 : jsv) : M St bytes :=
  spki ← fromBase64_jsv spkiB64;
  _ ← throw_if (negb (rsa_public spki)) DataError;
  mret spki.

Definition importPrivateKey (userKey : bytes) (protectedPrivateKey : jsv) : M St bytes :=
  pkcs8 ← open_under (itemKey userKey) protectedPrivateKey;
  _ ← throw_if (negb (rsa_private pkcs8)) DataError;
  mret pkcs8.

(** The 32 bytes drawn before the encryption are the seed of OAEP's padding. *)
Definition createShare (recipientPublicKey : jsv) (plaintext : jsstr) : M St ShareEnvelope :=
  key ← getRandomValues SHARE_ITEM_KEY_BYTES;
  enc ← aesGcmEncrypt key (utf8 plaintext) None;
  pub ← importPublicKey recipientPublicKey;
  seed ← randomBytes 32;
  wrapped ← of_option OperationError (rsa_seal pub seed key);
  mret {| wrappedKey := toBase64 wrapped;
          sh_data := serializeEncString
            {| e_type := AesGcm; e_nonce := nonce enc; e_data := ciphertext enc |} |}.

Definition openShare (userKey : bytes) (protectedPrivateKey wrapped data : jsv) : M St jsstr :=
  priv ← importPrivateKey userKey protectedPrivateKey;
  c ← fromBase64_jsv wrapped;
  key ← of_option OperationError (rsa_open priv c);
  p ← open_under key data;
  mret (fromUtf8 p).

#[global] Instance fromBase64_jsv_constant v : Constant (S := St) (fromBase64_jsv v).
Proof. apply _. Qed.
#[global] Instance openShare_constant uk k w d : Constant (S := St) (openShare uk k w d).
Proof. apply _. Qed.

Lemma fromBase64_jsv_returns b (s : St) : bytes_ok b ->
  returns (fromBase64_jsv (Some (JStr (toBase64 b)))) s b s.
Proof.
  intros Hb. unfold returns, fromBase64_jsv. change (js_to_string _) with (Some (toBase64 b)).
  rewrite bind_some. by rewrite fromBase64_toBase64.
Qed.

Lemma importPublicKey_returns pub (s : St) : bytes_ok pub -> rsa_public pub = true ->
  returns (importPublicKey (Some (JStr (toBase64 pub)))) s pub s.
Proof.
  intros Hb Hp. unfold returns, importPublicKey. run (fromBase64_jsv_returns pub s Hb). by rewrite Hp.
Qed.

Lemma importPrivateKey_returns uk priv kw (s : St) : user_key_ok uk ->
  sealed (itemKey uk) priv kw -> rsa_private priv = true ->
  returns (importPrivateKey uk (Some (JStr kw))) s priv s.
Proof.
  intros Hk Hkw Hp. unfold returns, importPrivateKey.
  run (open_under_sealed _ _ _ s (itemKey_ok uk Hk) Hkw). by rewrite Hp.
Qed.

Lemma createShare_returns seed x (s : St) : bytes_ok seed -> text_ok x ->
  exists key c w s',
    returns (createShare (Some (JStr (toBase64 (rsa_keygen seed).1))) x) s
      {| wrappedKey := toBase64 c; sh_data := w |} s' /\
    length key = 32%nat /\ sealed key (utf8 x) w /\ bytes_ok c /\
    rsa_open (rsa_keygen seed).2 c = Some key.
Proof.
  intros Hseed Hx. destruct (rsa_keygen_bytes seed Hseed) as [Hpb _]. destruct (rsa_keygen_keys seed) as [Hpk _].
  destruct (randomBytes_returns SHARE_ITEM_KEY_BYTES s ltac:(unfold SHARE_ITEM_KEY_BYTES; lia))
    as (key & s1 & Hr & Hl & Hb).
  destruct (aesGcmEncrypt_returns key (utf8 x) s1 (key32_ok key Hl) (utf8_bytes x (proj1 Hx)))
    as (n & s2 & He & Hnl & Hn & Hc & Hcn).
  destruct (randomBytes_returns 32 s2 ltac:(lia)) as (o & s3 & Ho & _).
  destruct (rsa_open_seal seed o key Hb) as (c & Hsc & Hcb & Hop); [rewrite Hl; unfold SHARE_ITEM_KEY_BYTES; lia|].
  exists key, c, (serializeEncString {| e_type := AesGcm; e_nonce := n; e_data := gcm_seal key n (utf8 x) |}), s3.
  split_and!; [|done|by exists n|done|done].
  unfold returns, createShare. run Hr. run He. run (importPublicKey_returns _ s2 Hpb Hpk).
  run Ho. by rewrite Hsc.
Qed.

Lemma openShare_returns uk seed kw c w key x (s : St) :
  user_key_ok uk -> sealed (itemKey uk) (rsa_keygen seed).2 kw -> bytes_ok c ->
  rsa_open (rsa_keygen seed).2 c = Some key -> length key = 32%nat -> sealed key (utf8 x) w ->
  returns (openShare uk (Some (JStr kw)) (Some (JStr (toBase64 c))) (Some (JStr w))) s
    (fromUtf8 (utf8 x)) s.
Proof.
  intros Hk Hkw Hc Ho Hl Hw. unfold returns, openShare.
  run (importPrivateKey_returns uk _ kw s Hk Hkw (proj2 (rsa_keygen_keys seed))).
  run (fromBase64_jsv_returns c s Hc). rewrite Ho, bind_some.
  run (open_under_sealed _ _ _ s (key32_ok key Hl) Hw). done.
Qed.
End Sharing.

(** ** Theorems *)
Section Theorems.
Context {St : Type} `{Unicode} `{Entropy St} `{WebCrypto}.

(** C30: sharing end to end: from the bundle a user registered, the public key
    lets anyone build a share of a text, and only the registered private key and
    the user key of the bundle are needed to read exactly that text back, however
    much happens in between. *)
Theorem share_roundtrip i pw p x (s : St)
  (Hp : pw <> []) (Hi : identifier_ok i) (Hok : params_ok p) (Hx : text_ok x) :
  exists b uk s1, returns (buildRegistration i pw p) s (b, uk) s1 /\
    forall s2 : St, exists env s3,
      returns (createShare (Some (JStr (rb_publicKey b))) x) s2 env s3 /\
      forall s4 : St,
        returns (openShare uk (Some (JStr (rb_protectedPrivateKey b)))
                   (Some (JStr (wrappedKey env))) (Some (JStr (sh_data env)))) s4 x s4.
Proof.
  destruct (buildRegistration_returns i pw p s Hp Hi Hok)
    as (mk & st & h & uk & w & kw & seed & s1 & Hr & _ & _ & _ & _ & Huk & _ & Hsd & Hkw).
  eexists _, uk, s1. split; [exact Hr|]. intros s2.
  destruct (createShare_returns seed x s2 Hsd Hx) as (key & c & d & s3 & Hc & Hl & Hd & Hcb & Ho).
  eexists _, s3. split; [exact Hc|]. intros s4. cbn [rb_protectedPrivateKey wrappedKey sh_data].
  rewrite <- (fromUtf8_utf8_id x Hx) at 1. by apply (openShare_returns uk seed kw c d key).
Qed.
End Theorems.

#[local] Existing Instances latin1_unicode model_crypto lcg_entropy.

Lemma share_roundtrip_witness :
  exists b uk s1,
    returns (buildRegistration (js "bob@example.org") (js "battery staple") DEFAULT_KDF) 5 (b, uk) s1 /\
    forall s2 : Z, exists env s3,
      returns (createShare (Some (JStr (rb_publicKey b))) (js "the wifi password")) s2 env s3 /\
      forall s4 : Z,
        returns (openShare uk (Some (JStr (rb_protectedPrivateKey b)))
                   (Some (JStr (wrappedKey env))) (Some (JStr (sh_data env)))) s4
          (js "the wifi password") s4.
Proof.
  apply share_roundtrip; [done|split; [decide_forall|vm_compute; lia]|apply default_kdf_ok|].
  apply ascii_text_ok. decide_forall.
Defined.
