(* ===== verification/Backup.v ===== *)
(** crypto/src/backup.ts: passphrase-protected backups. *)
From S2P Require Import Prelude Text Numeral Json JsonFacts Encoding Effects Platform Primitives.
From S2P Require Import EncString Kdf Identifier Account Sharing.

Definition BACKUP_FORMAT : jsstr := js "passwd-backup".
Definition BACKUP_VERSION : Z := 1.

Definition no_passphrase := JsError (js "a backup passphrase is required").
Definition not_valid_backup := JsError (js "not a valid passwd backup file").
Definition not_a_backup := JsError (js "not a passwd backup file").
Definition unsupported_backup (v : jsstr) := JsError (js "unsupported backup version " ++ v).
Definition wrong_passphrase := JsError (js "wrong passphrase or corrupted backup").

(** [v === z] for an integer literal. *)
Definition is_int (z : Z) (v : jsv) : bool := bool_decide (v = jint z).
Definition is_string (s : jsstr) (v : jsv) : bool := bool_decide (v = Some (JStr s)).

Section Backup.
Context {St : Type} `{Unicode} `{Entropy St} `{WebCrypto}.

Definition encryptBackup (plaintext passphrase : jsstr) (params : jsv) : M St jsstr :=
  _ ← throw_if (bool_decide (passphrase = [])) no_passphrase;
  r ← randomBytes 16;
  let salt := toBase64 r in
  key ← deriveKey passphrase (Some (JStr salt)) params;
  enc ← aesGcmEncrypt key (utf8 plaintext) None;
  mret (stringify2 (obj_of [(js "format", Some (JStr BACKUP_FORMAT));
                            (js "version", jint BACKUP_VERSION);
                            (js "kdf", params);
                            (js "salt", Some (JStr salt));
                            (js "nonce", Some (JStr (toBase64 (nonce enc))));
                            (js "data", Some (JStr (toBase64 (ciphertext enc))))])).

Definition decryptBackup (envelope passphrase : jsstr) : M St jsstr :=
  env ← of_option not_valid_backup (json_parse envelope);
  _ ← throw_if (negb (is_string BACKUP_FORMAT (get_prop (js "format") env))) not_a_backup;
  _ ← (if is_int BACKUP_VERSION (get_prop (js "version") env) then mret tt
       else v ← of_option JsTypeError (js_to_string (get_prop (js "version") env));
            raise (unsupported_backup v));
  key ← deriveKey passphrase (get_prop (js "salt") env) (get_prop (js "kdf") env);
  catch (n ← fromBase64_jsv (get_prop (js "nonce") env);
         d ← fromBase64_jsv (get_prop (js "data") env);
         p ← aesGcmDecrypt key n d;
         mret (fromUtf8 p))
        (fun _ => raise wrong_passphrase).

Definition isBackupEnvelope (text : jsstr) : bool :=
  match json_parse text with
  | Some v => is_string BACKUP_FORMAT (get_prop (js "format") v)
  | None => false
  end.

#[global] Instance decryptBackup_constant t p : Constant (S := St) (decryptBackup t p).
Proof. unfold decryptBackup. constant. Qed.

(** The envelope as a JSON value. *)
Definition backup_json (params : json) (salt n d : jsstr) : json :=
  obj_of [(js "format", Some (JStr BACKUP_FORMAT)); (js "version", jint BACKUP_VERSION);
          (js "kdf", Some params); (js "salt", Some (JStr salt));
          (js "nonce", Some (JStr n)); (js "data", Some (JStr d))].

Lemma backup_json_ok params salt n d : json_ok params -> units_ok salt -> units_ok n -> units_ok d ->
  json_ok (backup_json params salt n d).
Proof.
  intros Hp Hs Hn Hd. apply json_ok_obj. split; [vm_compute; reflexivity|].
  repeat (constructor; [split; [decide_forall|first [done|decide_forall]]|]). constructor.
Qed.

Lemma encryptBackup_returns x pw params (s : St) :
  text_ok x -> pw <> [] -> params_ok params ->
  exists salt key n s', returns (encryptBackup x pw (Some params)) s
      (stringify2 (backup_json params salt (toBase64 n) (toBase64 (gcm_seal key n (utf8 x))))) s' /\
    (forall s : St, returns (deriveKey pw (Some (JStr salt)) (Some params)) s key s) /\
    length key = 32%nat /\ units_ok salt /\ bytes_ok n /\ bytes_ok (gcm_seal key n (utf8 x)).
Proof.
  intros Hx Hp Hok. destruct (randomBytes_returns 16 s ltac:(lia)) as (r & s1 & Hr & Hl & Hb).
  destruct (fresh_salt_ok r Hl Hb) as [Ha Hs8].
  destruct (deriveKey_returns (St := St) pw (toBase64 r) params Hp Ha Hs8 Hok) as (key & Hk & Hkl & _).
  destruct (aesGcmEncrypt_returns key (utf8 x) s1 (key32_ok key Hkl) (utf8_bytes x (proj1 Hx)))
    as (n & s2 & He & Hnl & Hn & Hc & _).
  exists (toBase64 r), key, n, s2. split_and!; try done; [|by apply ascii_units].
  unfold returns, encryptBackup. rewrite bool_decide_eq_false_2 by done. rewrite bind_throw_if.
  run Hr. run Hk. run He. done.
Qed.
End Backup.

(** ** Theorems *)
Section Theorems.
Context {St : Type} `{Unicode} `{Entropy St} `{WebCrypto}.

Lemma encryptBackup_opens x pw params (s : St)
  (Hx : text_ok x) (Hp : pw <> []) (Hok : params_ok params) (Hj : json_ok params) :
  exists file s1, returns (encryptBackup x pw (Some params)) s file s1 /\
    isBackupEnvelope file = true /\
    forall s2 : St, returns (decryptBackup file pw) s2 x s2.
Proof.
  destruct (encryptBackup_returns x pw params s Hx Hp Hok)
    as (salt & key & n & s1 & He & Hk & Hl & Hs & Hn & Hc).
  eexists _, s1. split; [exact He|].
  assert (E : json_parse (stringify2 (backup_json params salt (toBase64 n)
                (toBase64 (gcm_seal key n (utf8 x))))) = Some (backup_json params salt (toBase64 n)
                (toBase64 (gcm_seal key n (utf8 x)))))
    by (apply json_parse_stringify2, backup_json_ok; auto with passwd).
  split; [unfold isBackupEnvelope; by rewrite E|]. intros s2. unfold returns, decryptBackup.
  rewrite E, bind_some. change (is_string BACKUP_FORMAT _) with true. rewrite bind_throw_if. cbn [negb].
  change (is_int BACKUP_VERSION _) with true. cbv iota. rewrite bind_ret.
  change (get_prop (js "salt") _) with (Some (JStr salt)).
  change (get_prop (js "kdf") (backup_json _ _ _ _)) with (Some params). run Hk.
  apply catch_returns. unfold returns.
  run (fromBase64_jsv_returns n s2 Hn). run (fromBase64_jsv_returns _ s2 Hc).
  run (aesGcmDecrypt_seal key n (utf8 x) s2 (key32_ok key Hl)). by rewrite fromUtf8_utf8_id.
Qed.

(** A backup restores, anywhere and at any later time, to the text that was
    backed up, with the passphrase alone: the file carries everything else.  And
    the cheap check recognises it. *)
Theorem backup_roundtrip x pw params (s : St)
  (Hx : text_ok x) (Hp : pw <> []) (Hok : params_ok params) (Hj : json_ok params) :
  exists file s1, returns (encryptBackup x pw (Some params)) s file s1 /\
    isBackupEnvelope file = true /\
    forall s2 : St, returns (decryptBackup file pw) s2 x s2.
Proof. by apply encryptBackup_opens. Qed.

(** Every way restoring can fail: the first three messages tell a foreign or
    newer file from a backup, a failing key derivation shows through, and once a
    key is derived nothing but the right text or the passphrase message comes
    out; the restored text was sealed in the file under the derived key. *)
Theorem decryptBackup_outcomes file pw (s : St) :
  match json_parse file with
  | None => throws (decryptBackup file pw) s not_valid_backup s
  | Some env =>
      let prop k := get_prop k env in
      if negb (is_string BACKUP_FORMAT (prop (js "format"))) then
        throws (decryptBackup file pw) s not_a_backup s
      else if negb (is_int BACKUP_VERSION (prop (js "version"))) then
        throws (decryptBackup file pw) s
          (match js_to_string (prop (js "version")) with
           | Some v => unsupported_backup v | None => JsTypeError end) s
      else
        (exists e, throws (deriveKey pw (prop (js "salt")) (prop (js "kdf"))) s e s /\
           throws (decryptBackup file pw) s e s) \/
        (exists key, returns (deriveKey pw (prop (js "salt")) (prop (js "kdf"))) s key s /\
           (throws (decryptBackup file pw) s wrong_passphrase s \/
            exists n d p, fromBase64_jsv (prop (js "nonce")) s = (inl n, s) /\
              fromBase64_jsv (prop (js "data")) s = (inl d, s) /\ d = gcm_seal key n p /\
              returns (decryptBackup file pw) s (fromUtf8 p) s))
  end.
Proof.
  unfold throws, returns, decryptBackup. destruct (json_parse file) as [env|]; [|done]. cbv zeta.
  rewrite bind_some, bind_throw_if. destruct (is_string _ _); [|done]. cbn [negb].
  destruct (is_int _ _); cbn [negb]; [|by destruct (js_to_string _)].
  rewrite bind_ret.
  destruct (deriveKey_constant (St := St) pw (get_prop (js "salt") env) (get_prop (js "kdf") env)) as [[key|e] Hk];
    [right; exists key|left; exists e]; (split; [apply Hk|]); [|unfold mbind, M_bind; by rewrite Hk].
  unfold mbind, M_bind, catch. rewrite Hk.
  destruct (fromBase64_jsv_constant (St := St) (get_prop (js "nonce") env)) as [[n|e] Hn]; rewrite Hn; [|by left].
  destruct (fromBase64_jsv_constant (St := St) (get_prop (js "data") env)) as [[d|e] Hd]; rewrite Hd; [|by left].
  destruct (aesGcmDecrypt_cases key n d s) as [(p & Hp & Hs)|(e & He & _)];
    [right; exists n, d, p; by rewrite Hp|left; by rewrite He].
Qed.
End Theorems.

#[local] Existing Instances latin1_unicode model_crypto lcg_entropy.

Lemma backup_roundtrip_witness :
  exists file s1,
    returns (encryptBackup (jq "{'items':[]}") (js "tide pool lantern") (Some DEFAULT_KDF)) 11 file s1 /\
    isBackupEnvelope file = true /\
    forall s2 : Z, returns (decryptBackup file (js "tide pool lantern")) s2 (jq "{'items':[]}") s2.
Proof.
  apply backup_roundtrip; [apply ascii_text_ok; decide_forall|done|apply default_kdf_ok|].
  apply json_okb_ok. vm_compute. reflexivity.
Defined.
