(* ===== verification/VaultFile.v ===== *)
(** crypto/src/vault.ts: the standalone, offline vault file of the desktop app. *)
From S2P Require Import Prelude Text Numeral Json JsonFacts Encoding Effects Platform Primitives.
From S2P Require Import EncString Kdf Identifier Account Sharing Backup.

Definition VAULT_FORMAT : jsstr := js "passwd-vault".
Definition VAULT_VERSION : Z := 1.

(** The unlocked state: the three public members are whatever the file's JSON
    held, so that saving writes them back unread. *)
Record VaultState := {
  vs_kdf : jsv;
  vs_salt : jsv;
  vs_protectedUserKey : jsv;
  vs_userKey : bytes;
}.

Definition no_password := JsError (js "a master password is required").
Definition not_valid_vault := JsError (js "not a valid passwd vault file").
Definition not_a_vault := JsError (js "not a passwd vault file").
Definition unsupported_vault (v : jsstr) := JsError (js "unsupported vault version " ++ v).
Definition wrong_password := JsError (js "wrong master password or corrupted vault").

Section Vault.
Context {St : Type} `{Unicode} `{Entropy St} `{WebCrypto}.

Definition serialize (state : VaultState) (payload : jsstr) : M St jsstr :=
  vault ← encryptItem (vs_userKey state) payload;
  mret (stringify2 (obj_of [(js "format", Some (JStr VAULT_FORMAT));
                            (js "version", jint VAULT_VERSION);
                            (js "kdf", vs_kdf state);
                            (js "salt", vs_salt state);
                            (js "protectedUserKey", vs_protectedUserKey state);
                            (js "vault", Some (JStr vault))])).

Definition createVault (masterPassword payload : jsstr) (params : jsv) : M St (jsstr * VaultState) :=
  _ ← throw_if (bool_decide (masterPassword = [])) no_password;
  r ← randomBytes 16;
  let salt := Some (JStr (toBase64 r)) in
  masterKey ← deriveKey masterPassword salt params;
  stretched ← stretchMasterKey masterKey;
  userKey ← generateUserKey;
  protectedUserKey ← wrapUserKey stretched userKey;
  let state := {| vs_kdf := params; vs_salt := salt;
                  vs_protectedUserKey := Some (JStr protectedUserKey); vs_userKey := userKey |} in
  file ← serialize state payload;
  mret (file, state).

Definition openVault (fileText masterPassword : jsstr) : M St (VaultState * jsstr) :=
  file ← of_option not_valid_vault (json_parse fileText);
  let prop k := get_prop k file in
  _ ← throw_if (negb (is_string VAULT_FORMAT (prop (js "format")))) not_a_vault;
  _ ← (if is_int VAULT_VERSION (prop (js "version")) then mret tt
       else v ← of_option JsTypeError (js_to_string (prop (js "version")));
            raise (unsupported_vault v));
  masterKey ← deriveKey masterPassword (prop (js "salt")) (prop (js "kdf"));
  stretched ← stretchMasterKey masterKey;
  catch (userKey ← unwrapUserKey stretched (prop (js "protectedUserKey"));
         payload ← decryptItem userKey (prop (js "vault"));
         mret ({| vs_kdf := prop (js "kdf"); vs_salt := prop (js "salt");
                  vs_protectedUserKey := prop (js "protectedUserKey"); vs_userKey := userKey |},
               payload))
        (fun _ => raise wrong_password).

Definition saveVault (state : VaultState) (payload : jsstr) : M St jsstr := serialize state payload.

Definition changeMasterPassword (state : VaultState) (newPassword payload : jsstr) (params : jsv) :
    M St (jsstr * VaultState) :=
  _ ← throw_if (bool_decide (newPassword = [])) no_password;
  r ← randomBytes 16;
  let salt := Some (JStr (toBase64 r)) in
  masterKey ← deriveKey newPassword salt params;
  stretched ← stretchMasterKey masterKey;
  protectedUserKey ← wrapUserKey stretched (vs_userKey state);
  let next := {| vs_kdf := params; vs_salt := salt;
                 vs_protectedUserKey := Some (JStr protectedUserKey);
                 vs_userKey := vs_userKey state |} in
  file ← serialize next payload;
  mret (file, next).

Definition isVaultFile (text : jsstr) : bool :=
  match json_parse text with
  | Some v => is_string VAULT_FORMAT (get_prop (js "format") v)
  | None => false
  end.

#[global] Instance openVault_constant t p : Constant (S := St) (openVault t p).
Proof. unfold openVault. constant. Qed.

(** ** The contract of a state: the password opens what it saves *)

Definition vault_ok (pw : jsstr) (st : VaultState) : Prop :=
  exists params salt w mk sk, vs_kdf st = Some params /\ vs_salt st = Some (JStr salt) /\
    vs_protectedUserKey st = Some (JStr w) /\ json_ok params /\ units_ok salt /\ units_ok w /\
    user_key_ok (vs_userKey st) /\
    (forall s : St, returns (deriveKey pw (Some (JStr salt)) (Some params)) s mk s) /\
    (forall s : St, returns (stretchMasterKey mk) s sk s) /\ aes_key_ok (encKey sk) = true /\
    sealed (encKey sk) (vs_userKey st) w.

Definition vault_json (params : json) (salt w d : jsstr) : json :=
  obj_of [(js "format", Some (JStr VAULT_FORMAT)); (js "version", jint VAULT_VERSION);
          (js "kdf", Some params); (js "salt", Some (JStr salt));
          (js "protectedUserKey", Some (JStr w)); (js "vault", Some (JStr d))].

Lemma vault_json_ok params salt w d : json_ok params -> units_ok salt -> units_ok w -> units_ok d ->
  json_ok (vault_json params salt w d).
Proof.
  intros Hp Hs Hn Hd. apply json_ok_obj. split; [vm_compute; reflexivity|].
  repeat (constructor; [split; [decide_forall|first [done|decide_forall]]|]). constructor.
Qed.

Lemma openVault_sealed pw params salt w d mk sk uk x (s : St) :
  json_ok params -> units_ok salt -> units_ok w -> user_key_ok uk -> text_ok x ->
  (forall s : St, returns (deriveKey pw (Some (JStr salt)) (Some params)) s mk s) ->
  (forall s : St, returns (stretchMasterKey mk) s sk s) -> aes_key_ok (encKey sk) = true ->
  sealed (encKey sk) uk w -> sealed (itemKey uk) (utf8 x) d ->
  returns (openVault (stringify2 (vault_json params salt w d)) pw) s
    ({| vs_kdf := Some params; vs_salt := Some (JStr salt);
        vs_protectedUserKey := Some (JStr w); vs_userKey := uk |}, x) s.
Proof.
  intros Hp Hs Hw Huk Hx Hmk Hsk Hk Hwr Hd. unfold returns, openVault.
  assert (units_ok d) by (by eapply ascii_units, sealed_ascii).
  rewrite json_parse_stringify2, bind_some by (by apply vault_json_ok). cbv zeta.
  change (is_string VAULT_FORMAT _) with true. rewrite bind_throw_if. cbn [negb].
  change (is_int VAULT_VERSION _) with true. cbv iota. rewrite bind_ret.
  change (get_prop (js "salt") _) with (Some (JStr salt)).
  change (get_prop (js "kdf") (vault_json _ _ _ _)) with (Some params).
  change (get_prop (js "protectedUserKey") _) with (Some (JStr w)).
  change (get_prop (js "vault") (vault_json _ _ _ _)) with (Some (JStr d)).
  run Hmk. run Hsk. apply catch_returns. unfold returns, unwrapUserKey.
  run (open_under_sealed _ _ _ s Hk Hwr). run (decryptItem_sealed uk x d s Huk Hd).
  by rewrite fromUtf8_utf8_id.
Qed.

(** Saving writes a file the password opens to the same state and payload. *)
Lemma saveVault_opens pw st x (s : St) : vault_ok pw st -> text_ok x ->
  exists file s1, returns (saveVault st x) s file s1 /\ isVaultFile file = true /\
    forall s2 : St, returns (openVault file pw) s2 (st, x) s2.
Proof.
  intros (params & salt & w & mk & sk & Ek & Es & Ew & Hj & Hsu & Hwu & Huk & Hmk & Hsk & Hk & Hw) Hx.
  destruct (encryptItem_returns (vs_userKey st) x s Huk (proj1 Hx)) as (d & s1 & Hd & Hds).
  exists (stringify2 (vault_json params salt w d)), s1. split_and!.
  - unfold returns, saveVault, serialize. run Hd. by rewrite Ek, Es, Ew.
  - unfold isVaultFile. rewrite json_parse_stringify2; [done|]. apply vault_json_ok; try done.
    by eapply ascii_units, sealed_ascii.
  - intros s2. pose proof (openVault_sealed pw params salt w d mk sk (vs_userKey st) x s2) as Ho.
    destruct st as [k sa pu uk]. cbn in *. subst. by apply Ho.
Qed.

(** Wrapping a user key under a password, a fresh salt and its stretched key. *)
Lemma rewrap pw params (s : St) : pw <> [] -> params_ok params -> json_ok params ->
  exists r mk sk s1, returns (randomBytes 16) s r s1 /\
    (forall s : St, returns (deriveKey pw (Some (JStr (toBase64 r))) (Some params)) s mk s) /\
    (forall s : St, returns (stretchMasterKey mk) s sk s) /\ aes_key_ok (encKey sk) = true /\
    units_ok (toBase64 r) /\
    forall uk w, user_key_ok uk -> sealed (encKey sk) uk w ->
      vault_ok pw {| vs_kdf := Some params; vs_salt := Some (JStr (toBase64 r));
                     vs_protectedUserKey := Some (JStr w); vs_userKey := uk |}.
Proof.
  intros Hp Hok Hj. destruct (randomBytes_returns 16 s ltac:(lia)) as (r & s1 & Hr & Hl & Hb).
  destruct (fresh_salt_ok r Hl Hb) as [Ha Hs8].
  destruct (deriveKey_returns (St := St) pw (toBase64 r) params Hp Ha Hs8 Hok) as (mk & Hmk & Hmkl & _).
  destruct (stretchMasterKey_returns (St := St) mk Hmkl) as (sk & Hsk & Hk).
  exists r, mk, sk, s1. split_and!; try done; [by apply ascii_units|].
  intros uk w Huk Hw. exists params, (toBase64 r), w, mk, sk. split_and!; try done;
    [by apply ascii_units|by eapply ascii_units, sealed_ascii].
Qed.

Lemma createVault_ok pw x params (s : St) : pw <> [] -> text_ok x -> params_ok params -> json_ok params ->
  exists file st s1, returns (createVault pw x (Some params)) s (file, st) s1 /\
    vault_ok pw st /\ vs_kdf st = Some params /\ isVaultFile file = true /\
    forall s2 : St, returns (openVault file pw) s2 (st, x) s2.
Proof.
  intros Hp Hx Hok Hj. destruct (rewrap pw params s Hp Hok Hj) as (r & mk & sk & s1 & Hr & Hmk & Hsk & Hk & Hu & Hv).
  destruct (generateUserKey_returns s1) as (uk & s2 & Hg & _ & Huk).
  destruct (seal_under_returns (encKey sk) uk s2 Hk (proj2 Huk)) as (w & s3 & Hw & Hs).
  specialize (Hv uk w Huk Hs). destruct (saveVault_opens pw _ x s3 Hv Hx) as (file & s4 & Hf & Hi & Ho).
  eexists file, _, s4. split; [|done]. unfold returns, createVault.
  rewrite bool_decide_eq_false_2, bind_throw_if by done. run Hr. run Hmk. run Hsk. run Hg.
  unfold wrapUserKey. run Hw. unfold saveVault in Hf. run Hf. done.
Qed.

Lemma changeMasterPassword_ok st pw x params (s : St) :
  user_key_ok (vs_userKey st) -> pw <> [] -> text_ok x -> params_ok params -> json_ok params ->
  exists file next s1, returns (changeMasterPassword st pw x (Some params)) s (file, next) s1 /\
    vault_ok pw next /\ vs_userKey next = vs_userKey st /\ vs_kdf next = Some params /\
    forall s2 : St, returns (openVault file pw) s2 (next, x) s2.
Proof.
  intros Huk Hp Hx Hok Hj.
  destruct (rewrap pw params s Hp Hok Hj) as (r & mk & sk & s1 & Hr & Hmk & Hsk & Hk & Hu & Hv).
  destruct (seal_under_returns (encKey sk) (vs_userKey st) s1 Hk (proj2 Huk)) as (w & s2 & Hw & Hs).
  specialize (Hv _ w Huk Hs). destruct (saveVault_opens pw _ x s2 Hv Hx) as (file & s3 & Hf & _ & Ho).
  eexists file, _, s3. split; [|done]. unfold returns, changeMasterPassword.
  rewrite bool_decide_eq_false_2, bind_throw_if by done. run Hr. run Hmk. run Hsk.
  unfold wrapUserKey. run Hw. unfold saveVault in Hf. run Hf. done.
Qed.
End Vault.

(** ** Histories: what the desktop app does with one vault *)

(** The vault on disk and in memory, and what the user knows. *)
Record desk := { dk_file : jsstr; dk_password : jsstr; dk_payload : jsstr; dk_state : VaultState }.

Inductive vault_op :=
| Save (payload : jsstr)
| Rekey (newPassword payload : jsstr)       (* with the default parameters, the state's own *)
| Reopen.                                   (* lock, then open the file again *)

Definition op_ok (o : vault_op) : Prop :=
  match o with
  | Save x => text_ok x
  | Rekey pw x => pw <> [] /\ text_ok x
  | Reopen => True
  end.

Definition op_password (pw : jsstr) (o : vault_op) : jsstr :=
  match o with Rekey pw' _ => pw' | _ => pw end.
Definition op_payload (x : jsstr) (o : vault_op) : jsstr :=
  match o with Save y | Rekey _ y => y | Reopen => x end.

Section History.
Context {St : Type} `{Unicode} `{Entropy St} `{WebCrypto}.

Definition apply_op (d : desk) (o : vault_op) : M St desk :=
  match o with
  | Save x =>
      file ← saveVault (dk_state d) x;
      mret {| dk_file := file; dk_password := dk_password d; dk_payload := x; dk_state := dk_state d |}
  | Rekey pw x =>
      r ← changeMasterPassword (dk_state d) pw x (vs_kdf (dk_state d));
      mret {| dk_file := r.1; dk_password := pw; dk_payload := x; dk_state := r.2 |}
  | Reopen =>
      r ← openVault (dk_file d) (dk_password d);
      mret {| dk_file := dk_file d; dk_password := dk_password d; dk_payload := r.2; dk_state := r.1 |}
  end.

Fixpoint apply_ops (d : desk) (ops : list vault_op) : M St desk :=
  match ops with
  | [] => mret d
  | o :: ops' => d' ← apply_op d o; apply_ops d' ops'
  end.

(** Disk, memory and user agree. *)
Definition desk_ok (uk : bytes) (params : json) (d : desk) : Prop :=
  vault_ok (St := St) (dk_password d) (dk_state d) /\
  vs_userKey (dk_state d) = uk /\ vs_kdf (dk_state d) = Some params /\
  forall s : St, returns (openVault (dk_file d) (dk_password d)) s (dk_state d, dk_payload d) s.

Lemma vault_ok_key pw st : vault_ok (St := St) pw st -> user_key_ok (vs_userKey st).
Proof. by intros (? & ? & ? & ? & ? & _ & _ & _ & _ & _ & _ & ? & _). Qed.

Lemma apply_op_ok uk params d o (s : St) : params_ok params -> json_ok params ->
  desk_ok uk params d -> op_ok o ->
  exists d' s', returns (apply_op d o) s d' s' /\ desk_ok uk params d' /\
    dk_password d' = op_password (dk_password d) o /\ dk_payload d' = op_payload (dk_payload d) o.
Proof.
  intros Hp Hj (Hv & Hu & Hk & Ho) Hok. destruct o as [x|pw x|].
  - destruct (saveVault_opens _ _ x s Hv Hok) as (file & s1 & Hf & _ & Hop).
    eexists _, s1. split; [unfold returns, apply_op; run Hf; reflexivity|].
    split; [|done]. by split_and!.
  - destruct Hok as [Hpw Hx].
    destruct (changeMasterPassword_ok _ pw x params s (vault_ok_key _ _ Hv) Hpw Hx Hp Hj)
      as (file & next & s1 & Hf & Hvn & Hun & Hkn & Hop).
    eexists _, s1. split; [unfold returns, apply_op; rewrite Hk; run Hf; reflexivity|].
    split; [|done]. split_and!; try done. cbn. congruence.
  - eexists _, s. split; [unfold returns, apply_op; run Ho; reflexivity|]. by split.
Qed.

Lemma apply_ops_ok uk params ops : forall d (s : St), params_ok params -> json_ok params ->
  desk_ok uk params d -> Forall op_ok ops ->
  exists d' s', returns (apply_ops d ops) s d' s' /\ desk_ok uk params d' /\
    dk_password d' = foldl op_password (dk_password d) ops /\
    dk_payload d' = foldl op_payload (dk_payload d) ops.
Proof.
  induction ops as [|o ops IH]; intros d s Hp Hj Hd Hok; [by exists d, s|].
  apply Forall_cons in Hok as [Ho Hok].
  destruct (apply_op_ok uk params d o s Hp Hj Hd Ho) as (d1 & s1 & Hr1 & Hd1 & Hw1 & Hx1).
  destruct (IH d1 s1 Hp Hj Hd1 Hok) as (d2 & s2 & Hr2 & Hd2 & Hw2 & Hx2).
  exists d2, s2. split_and!; [|done|by rewrite Hw2, Hw1|by rewrite Hx2, Hx1].
  unfold returns, apply_ops. fold apply_ops. run Hr1. apply Hr2.
Qed.
End History.

(** ** Theorems *)
Section Theorems.
Context {St : Type} `{Unicode} `{Entropy St} `{WebCrypto}.

(** C26: no history of the desktop app loses the vault: after it is created, any
    sequence of saves, password changes and reopenings goes through, and then the
    file opens, with the latest password, to the latest payload, under the user
    key drawn at creation, which password changes only re-wrap. *)
Theorem vault_history pw x params ops (s : St)
  (Hp : pw <> []) (Hx : text_ok x) (Hok : params_ok params) (Hj : json_ok params)
  (Hops : Forall op_ok ops) :
  exists file st s0 d s1, returns (createVault pw x (Some params)) s (file, st) s0 /\
    returns (apply_ops {| dk_file := file; dk_password := pw; dk_payload := x; dk_state := st |} ops)
      s0 d s1 /\
    dk_password d = foldl op_password pw ops /\ dk_payload d = foldl op_payload x ops /\
    vs_userKey (dk_state d) = vs_userKey st /\
    isVaultFile file = true /\
    forall s2 : St, returns (openVault (dk_file d) (dk_password d)) s2 (dk_state d, dk_payload d) s2.
Proof.
  destruct (createVault_ok pw x params s Hp Hx Hok Hj) as (file & st & s0 & Hc & Hv & Hk & Hi & Ho).
  destruct (apply_ops_ok (vs_userKey st) params ops
    {| dk_file := file; dk_password := pw; dk_payload := x; dk_state := st |} s0 Hok Hj)
    as (d & s1 & Hr & (_ & Hu & _ & Hop) & Hw & Hy); [by split_and!|done|].
  exists file, st, s0, d, s1. by split_and!.
Qed.

(** Every way opening can fail, in the order the code checks: text that is not
    JSON, another format, another version; a failing key derivation shows through
    as it is; once keys are derived the only failure is the password message, and
    what comes out was sealed in the file: the user key under the stretched key of
    this password, the payload under the user key. *)
Theorem openVault_outcomes text pw (s : St) :
  match json_parse text with
  | None => throws (openVault text pw) s not_valid_vault s
  | Some file =>
      let prop k := get_prop k file in
      if negb (is_string VAULT_FORMAT (prop (js "format"))) then
        throws (openVault text pw) s not_a_vault s
      else if negb (is_int VAULT_VERSION (prop (js "version"))) then
        throws (openVault text pw) s
          (match js_to_string (prop (js "version")) with
           | Some v => unsupported_vault v | None => JsTypeError end) s
      else
        (exists e, throws (deriveKey pw (prop (js "salt")) (prop (js "kdf"))) s e s /\
           throws (openVault text pw) s e s) \/
        (exists mk sk, returns (deriveKey pw (prop (js "salt")) (prop (js "kdf"))) s mk s /\
           returns (stretchMasterKey mk) s sk s /\
           (throws (openVault text pw) s wrong_password s \/
            exists st x, returns (openVault text pw) s (st, x) s /\
              vs_kdf st = prop (js "kdf") /\ vs_salt st = prop (js "salt") /\
              vs_protectedUserKey st = prop (js "protectedUserKey") /\
              returns (unwrapUserKey sk (prop (js "protectedUserKey"))) s (vs_userKey st) s /\
              returns (decryptItem (vs_userKey st) (prop (js "vault"))) s x s))
  end.
Proof.
  unfold throws, returns, openVault. destruct (json_parse text) as [file|]; [|done]. cbv zeta.
  rewrite bind_some, bind_throw_if. destruct (is_string _ _); [|done]. cbn [negb].
  destruct (is_int _ _); cbn [negb]; [|by destruct (js_to_string _)]. rewrite bind_ret.
  destruct (deriveKey_constant (St := St) pw (get_prop (js "salt") file) (get_prop (js "kdf") file))
    as [[mk|e] Hm]; [right|left; exists e; (split; [apply Hm|]); unfold mbind, M_bind; by rewrite Hm].
  destruct (stretchMasterKey_returns (St := St) mk (deriveKey_length _ _ _ _ _ _ (Hm s))) as (sk & Hsk & _).
  exists mk, sk. split; [apply Hm|]. split; [apply Hsk|]. unfold returns in Hsk.
  unfold mbind, M_bind, catch. rewrite Hm, Hsk.
  destruct (open_under_constant (St := St) (encKey sk) (get_prop (js "protectedUserKey") file)) as [[uk|e] Hu];
    unfold unwrapUserKey; rewrite Hu; [|by left].
  destruct (decryptItem_constant (St := St) uk (get_prop (js "vault") file)) as [[x|e] Hx]; rewrite Hx; [|by left].
  right. eexists _, x. split; [reflexivity|]. by split_and!.
Qed.

(** A file with the right format and version but no parameters is not
    answered with a message of the module: reading the parameters of [undefined]
    raises a TypeError, before and outside the [try]. *)
Theorem openVault_malformed pw (s : St) :
  isVaultFile (jq "{'format':'passwd-vault','version':1}") = true /\
  throws (openVault (jq "{'format':'passwd-vault','version':1}") pw) s JsTypeError s.
Proof. split; [vm_compute; reflexivity|]. done. Qed.
End Theorems.

#[local] Existing Instances latin1_unicode model_crypto lcg_entropy.

Lemma vault_history_witness :
  let ops := [Save (jq "{'items':[1]}"); Reopen; Rekey (js "second password") (jq "{'items':[1,2]}");
              Reopen; Save (jq "{'items':[]}")] in
  exists file st s0 d s1,
    returns (createVault (js "first password") (jq "{}") (Some DEFAULT_KDF)) 42 (file, st) s0 /\
    returns (apply_ops {| dk_file := file; dk_password := js "first password";
                          dk_payload := jq "{}"; dk_state := st |} ops) s0 d s1 /\
    dk_password d = js "second password" /\ dk_payload d = jq "{'items':[]}" /\
    vs_userKey (dk_state d) = vs_userKey st /\ isVaultFile file = true /\
    forall s2 : Z, returns (openVault (dk_file d) (dk_password d)) s2 (dk_state d, dk_payload d) s2.
Proof.
  intros ops. apply (vault_history (js "first password") (jq "{}") DEFAULT_KDF ops 42); [done| |apply default_kdf_ok| |].
  - apply ascii_text_ok. decide_forall.
  - apply json_okb_ok. vm_compute. reflexivity.
  - repeat constructor; first [apply ascii_text_ok; decide_forall|done].
Defined.
