(* ===== verification/Objects.v ===== *)
(** Laws of the object operations: lookups, property order, spreads over a
    template of text keys. *)
From S2P Require Import Prelude Text Numeral Json JsonFacts.

(** [p.k]: a TypeError on null. *)
Definition json_member (k : jsstr) (v : json) : option jsv :=
  match v with JNull => None | _ => Some (get_prop k v) end.

Lemma str_eqb_spec a b : str_eqb a b = true <-> a = b.
Proof. apply bool_decide_eq_true. Qed.

Lemma str_eqb_refl a : str_eqb a a = true.
Proof. by apply str_eqb_spec. Qed.

Lemma str_eqb_ne a b : a <> b -> str_eqb a b = false.
Proof. intros. by apply bool_decide_eq_false. Qed.

(** ** Lookup *)

Lemma obj_get_replace k v k' o :
  obj_get k' (obj_replace k v o) =
    if str_eqb k' k then (fun _ => v) <$> obj_get k o else obj_get k' o.
Proof.
  induction o as [|[j w] o IH]; cbn; [by destruct (str_eqb k' k)|].
  destruct (str_eqb k j) eqn:Ej; cbn.
  - apply str_eqb_spec in Ej as ->. destruct (str_eqb k' j) eqn:E; [|done]. done.
  - destruct (str_eqb k' j) eqn:E; [|done]. apply str_eqb_spec in E as ->.
    destruct (str_eqb j k) eqn:E'; [|done]. apply str_eqb_spec in E' as ->. by rewrite str_eqb_refl in Ej.
Qed.

Lemma obj_get_insert k v k' o : obj_get k o = None ->
  obj_get k' (obj_insert k v o) = if str_eqb k' k then Some v else obj_get k' o.
Proof.
  induction o as [|[j w] o IH]; cbn; [done|]. destruct (str_eqb k j) eqn:Ej; [done|]. intros Hk.
  destruct (key_rank k <? key_rank j); cbn; [done|]. rewrite IH by done.
  destruct (str_eqb k' j) eqn:E; [|done]. apply str_eqb_spec in E as ->.
  destruct (str_eqb j k) eqn:E'; [|done]. apply str_eqb_spec in E' as ->. by rewrite str_eqb_refl in Ej.
Qed.

Lemma obj_get_put k v k' o :
  obj_get k' (obj_put k v o) = if str_eqb k' k then Some v else obj_get k' o.
Proof.
  unfold obj_put. destruct (obj_get k o) as [w|] eqn:E; [|by apply obj_get_insert].
  rewrite obj_get_replace, E. done.
Qed.

Lemma obj_get_put_eq k v o : obj_get k (obj_put k v o) = Some v.
Proof. by rewrite obj_get_put, str_eqb_refl. Qed.

Lemma obj_get_put_ne k v k' o : k' <> k -> obj_get k' (obj_put k v o) = obj_get k' o.
Proof. intros Hn. by rewrite obj_get_put, str_eqb_ne. Qed.

Lemma obj_get_Some_keys k o : is_Some (obj_get k o) <-> k ∈ keys o.
Proof.
  destruct (obj_get k o) as [v|] eqn:E.
  - split; [intros _|by eauto]. destruct (decide (k ∈ keys o)) as [|Hn]; [done|].
    apply obj_get_None in Hn. congruence.
  - apply obj_get_None in E. split; [by intros [? ?]|done].
Qed.

Lemma obj_get_assign k es o : NoDup (keys es) ->
  obj_get k (obj_assign o es) = match obj_get k es with Some v => Some v | None => obj_get k o end.
Proof.
  unfold obj_assign. revert o. induction es as [|[j w] es IH]; intros o Hd; [done|].
  change (keys ((j, w) :: es)) with (j :: keys es) in Hd.
  apply NoDup_cons in Hd as [Hj Hd]. cbn [foldl fst snd]. rewrite IH by done. cbn [obj_get].
  destruct (str_eqb k j) eqn:E.
  - apply str_eqb_spec in E as ->. rewrite (proj2 (obj_get_None _ _) Hj). apply obj_get_put_eq.
  - destruct (obj_get k es); [done|]. rewrite obj_get_put, E. done.
Qed.

(** ** Property order *)

Definition precedes (k k' : jsstr) : Prop := k' <> k /\ key_rank k <= key_rank k'.

Lemma keys_ok_cons k ks : keys_ok (k :: ks) = true <-> Forall (precedes k) ks /\ keys_ok ks = true.
Proof.
  cbn. rewrite andb_true_iff. apply and_iff_compat_r.
  apply forallb_Forall_iff. intros k'. unfold precedes. rewrite andb_true_iff, !negb_true_iff.
  unfold str_eqb. rewrite bool_decide_eq_false, Z.ltb_ge. done.
Qed.

Lemma keys_ok_NoDup ks : keys_ok ks = true -> NoDup ks.
Proof.
  induction ks as [|k ks IH]; [constructor|]. rewrite keys_ok_cons. intros [Hf Hk].
  constructor; [|by apply IH]. intros Hin. rewrite Forall_forall in Hf. by destruct (Hf k Hin).
Qed.

Lemma keys_replace k v o : keys (obj_replace k v o) = keys o.
Proof. unfold keys. induction o as [|[j w] o IH]; cbn; [done|]. destruct (str_eqb k j); cbn; [done|by rewrite IH]. Qed.

Lemma elem_keys_insert k v o j : j ∈ keys (obj_insert k v o) <-> j = k \/ j ∈ keys o.
Proof.
  unfold keys. induction o as [|[i w] o IH]; cbn.
  - rewrite list_elem_of_singleton. split; [by left|by intros [|H%not_elem_of_nil]].
  - destruct (key_rank k <? key_rank i); cbn; rewrite !elem_of_cons; [done|]. rewrite IH. tauto.
Qed.

Lemma keys_ok_insert k v o : k ∉ keys o -> keys_ok (keys o) = true ->
  keys_ok (keys (obj_insert k v o)) = true.
Proof.
  induction o as [|[j w] o IH]; [done|]. change (keys ((j, w) :: o)) with (j :: keys o).
  rewrite not_elem_of_cons, keys_ok_cons. intros [Hkj Hk] [Hf Ho]. cbn [obj_insert].
  destruct (Z.ltb_spec (key_rank k) (key_rank j)) as [Hlt|Hge].
  - change (keys ((k, v) :: (j, w) :: o)) with (k :: j :: keys o). rewrite !keys_ok_cons. split; [|done].
    constructor; [split; [congruence|lia]|]. rewrite Forall_forall in *. intros i Hi.
    destruct (Hf i Hi) as [Hij Hr]. split; [intros ->; done|lia].
  - change (keys ((j, w) :: obj_insert k v o)) with (j :: keys (obj_insert k v o)).
    rewrite keys_ok_cons. split; [|by apply IH]. rewrite Forall_forall in *. intros i Hi.
    apply elem_keys_insert in Hi as [->|Hi]; [split; [done|lia]|by apply Hf].
Qed.

Lemma keys_ok_put k v o : keys_ok (keys o) = true -> keys_ok (keys (obj_put k v o)) = true.
Proof.
  intros Ho. unfold obj_put. destruct (obj_get k o) eqn:E; [by rewrite keys_replace|].
  apply keys_ok_insert; [by apply obj_get_None|done].
Qed.

Lemma keys_ok_assign es o : keys_ok (keys o) = true -> keys_ok (keys (obj_assign o es)) = true.
Proof.
  unfold obj_assign. revert o. induction es as [|[k v] es IH]; intros o Ho; [done|].
  by apply IH, keys_ok_put.
Qed.

Lemma Forall_put (P : jsstr * json -> Prop) k v o : P (k, v) -> Forall P o -> Forall P (obj_put k v o).
Proof.
  intros Hk Ho. unfold obj_put. destruct (obj_get k o) as [u|].
  - induction Ho as [|[j w] o Hj Ho IH]; cbn; [constructor|].
    destruct (str_eqb k j) eqn:E; [|by constructor]. apply str_eqb_spec in E as ->. by constructor.
  - induction Ho as [|[j w] o Hj Ho IH]; cbn; [by constructor|].
    destruct (key_rank k <? key_rank j); by repeat constructor.
Qed.

Lemma Forall_assign (P : jsstr * json -> Prop) es o : Forall P o -> Forall P es -> Forall P (obj_assign o es).
Proof.
  unfold obj_assign. intros Ho Hes. revert o Ho. induction Hes as [|[k v] es Hk _ IH]; intros o Ho; [done|].
  by apply IH, Forall_put.
Qed.

(** ** Spreading over a template

    A template is an object whose keys are text (no array index).  Whatever is
    spread or assigned over it, its keys stay together, in order, between the
    indexed keys and the additional ones. *)
Definition is_text_key (k : jsstr) : Prop := array_index k = None.

Definition over (b o : list (jsstr * json)) : Prop :=
  exists I B X, o = I ++ B ++ X /\ keys B = keys b /\
    Forall (fun k => ~ is_text_key k) (keys I) /\ Forall is_text_key (keys X) /\
    keys_ok (keys o) = true.

Lemma array_index_bound k n : array_index k = Some n -> n < 2 ^ 32 - 1.
Proof.
  intros E. unfold array_index in E. destruct k as [|u k]; [done|]. repeat case_match; try done.
  apply (f_equal (default 0)) in E. change (horner 0 (u :: k) = n) in E. bool_prop. lia.
Qed.

Lemma text_rank k : is_text_key k <-> key_rank k = 2 ^ 32.
Proof.
  unfold is_text_key, key_rank. destruct (array_index k) as [n|] eqn:E; [|by split].
  apply array_index_bound in E. split; [done|]. change (n = 2 ^ 32 -> Some n = None). lia.
Qed.

Lemma rank_le k : key_rank k <= 2 ^ 32.
Proof.
  unfold key_rank. destruct (array_index k) as [n|] eqn:E; [|cbn; lia].
  apply array_index_bound in E. change (n <= 2 ^ 32). lia.
Qed.

Lemma over_refl b : Forall is_text_key (keys b) -> keys_ok (keys b) = true -> over b b.
Proof. intros Ht Hk. exists [], b, []. rewrite app_nil_r. by repeat split. Qed.

Lemma keys_app o o' : keys (o ++ o') = keys o ++ keys o'.
Proof. unfold keys. by rewrite fmap_app. Qed.

Lemma obj_get_app k o o' : obj_get k (o ++ o') = match obj_get k o with Some v => Some v | None => obj_get k o' end.
Proof. induction o as [|[j w] o IH]; cbn; [done|]. by destruct (str_eqb k j). Qed.

Lemma replace_app_l k v o o' : k ∈ keys o -> obj_replace k v (o ++ o') = obj_replace k v o ++ o'.
Proof.
  induction o as [|[j w] o IH]; [by intros ?%not_elem_of_nil|].
  change (keys ((j, w) :: o)) with (j :: keys o). rewrite elem_of_cons. cbn. unfold str_eqb.
  case_bool_decide; [done|]. intros [|Hk]; [done|]. by rewrite IH.
Qed.

Lemma replace_app_r k v o o' : k ∉ keys o -> obj_replace k v (o ++ o') = o ++ obj_replace k v o'.
Proof.
  induction o as [|[j w] o IH]; [done|].
  change (keys ((j, w) :: o)) with (j :: keys o). rewrite not_elem_of_cons. intros [Hj Hk]. cbn.
  rewrite str_eqb_ne by done. by rewrite IH.
Qed.

(** Inserting an indexed key before text keys, or a text key after everything. *)
Lemma insert_index k v I T : ~ is_text_key k -> Forall is_text_key (keys T) ->
  obj_insert k v (I ++ T) = obj_insert k v I ++ T.
Proof.
  intros Hk HT. induction I as [|[j w] I IH].
  - destruct T as [|[j w] T]; [done|]. apply Forall_cons in HT as [Hj _]. cbn [app obj_insert].
    apply text_rank in Hj. cbn [fst] in Hj. rewrite Hj. pose proof (rank_le k).
    assert (key_rank k <> 2 ^ 32) by (by rewrite <- text_rank).
    by rewrite (proj2 (Z.ltb_lt _ _)) by lia.
  - cbn. destruct (key_rank k <? key_rank j); [done|]. by rewrite IH.
Qed.

Lemma insert_text k v o : is_text_key k -> obj_insert k v o = o ++ [(k, v)].
Proof.
  intros Hk%text_rank. apply obj_insert_last. apply Forall_forall. intros j _. rewrite Hk.
  apply Z.ltb_ge, rank_le.
Qed.

Lemma over_put b o k v : Forall is_text_key (keys b) -> over b o -> over b (obj_put k v o).
Proof.
  intros Hb (I & B & X & -> & HB & HI & HX & Hok). pose proof (keys_ok_put k v _ Hok) as Hok'.
  rewrite <- HB in Hb. assert (HT : Forall is_text_key (keys (B ++ X))) by (rewrite keys_app; by apply Forall_app).
  unfold obj_put in *. destruct (obj_get k (I ++ B ++ X)) as [w|] eqn:E.
  - assert (Hin : k ∈ keys (I ++ B ++ X)) by (apply obj_get_Some_keys; by rewrite E).
    destruct (decide (k ∈ keys I)) as [Hki|Hki].
    { rewrite replace_app_l in * by done. exists (obj_replace k v I), B, X. by rewrite keys_replace. }
    rewrite replace_app_r in * by done. destruct (decide (k ∈ keys B)) as [Hkb|Hkb].
    { rewrite replace_app_l in * by done. exists I, (obj_replace k v B), X. by rewrite keys_replace. }
    rewrite replace_app_r in * by done. exists I, B, (obj_replace k v X). by rewrite keys_replace.
  - destruct (array_index k) as [n|] eqn:Ei.
    + assert (~ is_text_key k) as Hk by (unfold is_text_key; congruence).
      rewrite insert_index in * by done. exists (obj_insert k v I), B, X. split_and!; try done.
      apply Forall_forall. intros j [->|Hj]%elem_keys_insert; [done|].
      rewrite Forall_forall in HI. by apply HI.
    + rewrite insert_text in * by done. exists I, B, (X ++ [(k, v)]). rewrite <- !app_assoc in *.
      split_and!; try done. rewrite keys_app. apply Forall_app. split; [done|]. by repeat constructor.
Qed.

Lemma over_assign b es o : Forall is_text_key (keys b) -> over b o -> over b (obj_assign o es).
Proof.
  intros Hb. unfold obj_assign. revert o. induction es as [|[k v] es IH]; intros o Ho; [done|].
  by apply IH, over_put.
Qed.

(** Respreading what was spread over a template changes nothing. *)
Lemma assign_index I b : Forall (fun k => ~ is_text_key k) (keys I) -> Forall is_text_key (keys b) ->
  keys_ok (keys I) = true -> obj_assign b I = I ++ b.
Proof.
  intros HI Hb. unfold obj_assign. induction I as [|[k v] I IH] using rev_ind; [done|].
  rewrite keys_app in *. apply Forall_app in HI as [HI Hk]. apply Forall_cons in Hk as [Hk _]. cbn in Hk.
  intros Hok. pose proof (keys_ok_app _ _ _ Hok) as [Hn Hr].
  assert (Hok' : keys_ok (keys I) = true).
  { clear -Hok. induction (keys I) as [|j ks IH]; [done|]. cbn [app] in Hok.
    apply keys_ok_cons in Hok as [Hf Hk]. apply Forall_app in Hf as [Hf _].
    apply keys_ok_cons. auto. }
  rewrite foldl_app, IH by done. cbn [foldl fst snd]. unfold obj_put.
  assert (obj_get k (I ++ b) = None) as ->.
  { apply obj_get_None. rewrite keys_app. apply not_elem_of_app. split; [done|].
    intros Hin. rewrite Forall_forall in Hb. by apply Hk, Hb. }
  rewrite insert_index by done. by rewrite obj_insert_last, <- app_assoc.
Qed.

Lemma assign_template I B' B b : keys B = keys b -> NoDup (keys (I ++ B' ++ B)) ->
  obj_assign (I ++ B' ++ b) B = I ++ B' ++ B.
Proof.
  unfold obj_assign. revert B' b. induction B as [|[k v] B IH]; intros B' [|[j w] b] Hk Hd; try done.
  injection Hk as <- Hk. cbn [foldl fst snd].
  assert (Hn : k ∉ keys (I ++ B')).
  { rewrite app_assoc, (keys_app (I ++ B')) in Hd. apply NoDup_app in Hd as (_ & Hd & _).
    intros Hin. apply (Hd k Hin). by left. }
  assert (obj_put k v (I ++ B' ++ (k, w) :: b) = I ++ (B' ++ [(k, v)]) ++ b) as ->.
  { unfold obj_put. rewrite app_assoc, obj_get_app, (proj2 (obj_get_None _ _) Hn). cbn [obj_get].
    rewrite str_eqb_refl, replace_app_r by done. cbn [obj_replace]. rewrite str_eqb_refl.
    by rewrite <- !app_assoc. }
  rewrite (IH (B' ++ [(k, v)]) b Hk); [by rewrite <- !app_assoc|].
  rewrite <- !app_assoc. exact Hd.
Qed.

Lemma assign_extra o X : Forall is_text_key (keys X) -> NoDup (keys (o ++ X)) ->
  obj_assign o X = o ++ X.
Proof.
  intros HX. unfold obj_assign. revert o. induction X as [|[k v] X IH]; intros o Hd; [by rewrite app_nil_r|].
  apply Forall_cons in HX as [Hk HX]. cbn [foldl fst snd].
  assert (obj_put k v o = o ++ [(k, v)]) as ->.
  { unfold obj_put. rewrite keys_app in Hd. apply NoDup_app in Hd as (_ & Hd & _).
    assert (obj_get k o = None) as -> by (apply obj_get_None; intros Hin; apply (Hd k Hin); by left).
    by apply insert_text. }
  rewrite IH by (done || by rewrite <- app_assoc). by rewrite <- app_assoc.
Qed.

Lemma assign_over b o : Forall is_text_key (keys b) -> over b o -> obj_assign b o = o.
Proof.
  intros Hb (I & B & X & -> & HB & HI & HX & Hok). pose proof (keys_ok_NoDup _ Hok) as Hd.
  assert (HokI : keys_ok (keys I) = true).
  { clear -Hok. rewrite keys_app in Hok. induction (keys I) as [|j ks IH]; [done|]. cbn [app] in Hok.
    apply keys_ok_cons in Hok as [Hf Hk]. apply Forall_app in Hf as [Hf _].
    apply keys_ok_cons. auto. }
  assert (Happ : forall o es es', obj_assign o (es ++ es') = obj_assign (obj_assign o es) es')
    by (intros; unfold obj_assign; by rewrite foldl_app).
  rewrite !Happ, (assign_index I b) by done.
  change (I ++ b) with (I ++ [] ++ b). rewrite (assign_template I [] B b HB).
  - cbn [app]. rewrite assign_extra; [by rewrite <- app_assoc|done|by rewrite <- app_assoc].
  - cbn [app]. rewrite app_assoc, (keys_app (I ++ B)) in Hd. by apply NoDup_app in Hd as [? _].
Qed.

Lemma put_same o k v : obj_get k o = Some v -> obj_put k v o = o.
Proof.
  intros Hg. unfold obj_put. rewrite Hg. revert Hg. induction o as [|[j w] o IH]; [done|]. cbn.
  destruct (str_eqb k j) eqn:E; [|intros Hg; by rewrite IH].
  apply str_eqb_spec in E as ->. by intros [= ->].
Qed.
