(* ===== verification/Items.v ===== *)
(** api-client/src/session.ts, the vault items: blank items, and the coercion of
    decrypted or imported JSON of any vintage into a full item. *)
From S2P Require Import Prelude Text Numeral Json JsonFacts Encoding JsonText Objects.

(** An item is a JavaScript object that keeps unknown keys, so it is its JSON
    object: the members in property order. *)
Abbreviation obj := (list (jsstr * json)).

Definition blank : json := JStr [].

Definition blankCard : obj :=
  [(js "cardholder", blank); (js "number", blank); (js "expMonth", blank);
   (js "expYear", blank); (js "cvv", blank)].
Definition blankIdentity : obj :=
  [(js "fullName", blank); (js "email", blank); (js "phone", blank);
   (js "address", blank); (js "company", blank)].

Definition blankFields (type : jsstr) : obj :=
  [(js "type", JStr type); (js "name", blank); (js "username", blank); (js "password", blank);
   (js "url", blank); (js "totp", blank); (js "notes", blank); (js "card", JObj blankCard);
   (js "identity", JObj blankIdentity); (js "fields", JArr []); (js "favorite", JBool false);
   (js "folder", blank)].

(** The typed members of an item: text is what normalization makes of them. *)
Definition text_at (k : jsstr) (it : obj) : jsstr :=
  match obj_get k it with Some (JStr s) => s | _ => [] end.
Definition favorite_of (it : obj) : bool := truthy (obj_get (js "favorite") it).

(** What the editors of all three clients refuse to save: [!item.name.trim() &&
    !item.username.trim() && !item.url.trim()]. *)
Definition editor_error := js "Give the item a name, username, or URL.".
Definition nameless (it : obj) : bool :=
  match trim (text_at (js "name") it), trim (text_at (js "username") it), trim (text_at (js "url") it) with
  | [], [], [] => true
  | _, _, _ => false
  end.

(** The own enumerable properties a spread copies: the members of an object, the
    indexed elements of an array or a string, nothing of other primitives. *)
Definition own_props (v : json) : obj :=
  match v with
  | JObj o => o
  | JArr l => imap (fun i w => (dec (Z.of_nat i), w)) l
  | JStr s => imap (fun i u => (dec (Z.of_nat i), JStr [u])) s
  | _ => []
  end.

(** [v && typeof v === "object" ? v : {}] *)
Definition object_or_empty (v : jsv) : obj :=
  match v with Some (JObj o) => o | Some (JArr l) => own_props (JArr l) | _ => [] end.

(** [v == null ? "" : String(v)]; [None] is a TypeError. *)
Definition text_or_blank (v : jsv) : option json :=
  match v with
  | None | Some JNull => Some blank
  | Some w => JStr <$> json_to_string w
  end.

Definition norm_type (v : jsv) : json :=
  if bool_decide (v = Some (JStr (js "note"))) then JStr (js "note")
  else if bool_decide (v = Some (JStr (js "card"))) then JStr (js "card")
  else if bool_decide (v = Some (JStr (js "identity"))) then JStr (js "identity")
  else JStr (js "login").

Definition is_object (v : json) : bool := truthy (Some v) && typeof_object (Some v).

Definition norm_custom (f : json) : option json :=
  label ← text_or_blank (get_prop (js "label") f);
  value ← text_or_blank (get_prop (js "value") f);
  Some (JObj ([(js "label", label); (js "value", value)]
              ++ if truthy (get_prop (js "hidden") f) then [(js "hidden", JBool true)] else [])).

Definition norm_customs (v : jsv) : option json :=
  match v with
  | Some (JArr l) => JArr <$> mapM norm_custom (List.filter is_object l)
  | _ => Some (JArr [])
  end.

Definition TEXT_KEYS : list jsstr :=
  [js "name"; js "username"; js "password"; js "url"; js "totp"; js "notes"; js "folder"].

(** The loop over the text keys. *)
Fixpoint norm_texts (ks : list jsstr) (raw : json) (out : obj) : option obj :=
  match ks with
  | [] => Some out
  | k :: ks' => v ← text_or_blank (get_prop k raw); norm_texts ks' raw (obj_put k v out)
  end.

Definition TRUE_SPELLINGS : list jsstr := [js "1"; js "true"; js "yes"].

Section Items.
Context `{Unicode}.

Definition norm_favorite (v : jsv) : option json :=
  if bool_decide (v = Some (JBool true)) then Some (JBool true)
  else
    s ← js_to_string v;
    Some (JBool (existsb (str_eqb (to_lower s)) TRUE_SPELLINGS)).

(** [None] is a TypeError: [raw] is null, or a member that is converted to a
    string carries its own [toString]. *)
Definition normalizeItemFields (raw : json) : option obj :=
  if bool_decide (raw = JNull) then None
  else
    let out := obj_assign (blankFields (js "login")) (own_props raw) in
    let out := obj_put (js "type") (norm_type (get_prop (js "type") raw)) out in
    let out := obj_put (js "card")
      (JObj (obj_assign blankCard (object_or_empty (get_prop (js "card") raw)))) out in
    let out := obj_put (js "identity")
      (JObj (obj_assign blankIdentity (object_or_empty (get_prop (js "identity") raw)))) out in
    customs ← norm_customs (get_prop (js "fields") raw);
    let out := obj_put (js "fields") customs out in
    out ← norm_texts TEXT_KEYS raw out;
    favorite ← norm_favorite (get_prop (js "favorite") raw);
    Some (obj_put (js "favorite") favorite out).
End Items.

(** ** Well-formed items *)

Definition item_types : list jsstr := [js "note"; js "card"; js "identity"; js "login"].

Definition custom_ok (f : json) : Prop :=
  exists label value hidden, f = JObj ([(js "label", JStr label); (js "value", JStr value)] ++ hidden) /\
    (hidden = [] \/ hidden = [(js "hidden", JBool true)]).

(** The struct [ItemFields] promises, with room for unknown members. *)
Record item_wf (it : obj) : Prop := {
  wf_over : over (blankFields (js "login")) it;
  wf_type : exists t, obj_get (js "type") it = Some (JStr t) /\ t ∈ item_types;
  wf_text : forall k, k ∈ TEXT_KEYS -> exists s, obj_get k it = Some (JStr s);
  wf_card : exists c, obj_get (js "card") it = Some (JObj c) /\ over blankCard c;
  wf_identity : exists c, obj_get (js "identity") it = Some (JObj c) /\ over blankIdentity c;
  wf_fields : exists l, obj_get (js "fields") it = Some (JArr l) /\ Forall custom_ok l;
  wf_favorite : exists b, obj_get (js "favorite") it = Some (JBool b);
}.

Lemma text_keys_of l : forallb (fun k => bool_decide (array_index k = None)) (keys l) = true ->
  Forall is_text_key (keys l).
Proof. apply forallb_Forall_iff. intros k. apply bool_decide_eq_true. Qed.

Lemma blank_text t : Forall is_text_key (keys (blankFields t)).
Proof. by apply text_keys_of. Qed.
Lemma blankCard_text : Forall is_text_key (keys blankCard).
Proof. by apply text_keys_of. Qed.
Lemma blankIdentity_text : Forall is_text_key (keys blankIdentity).
Proof. by apply text_keys_of. Qed.
#[export] Hint Resolve blank_text blankCard_text blankIdentity_text : passwd.

Lemma text_or_blank_str v w : text_or_blank v = Some w -> exists s, w = JStr s.
Proof.
  unfold text_or_blank. destruct v as [[| | | | |]|]; intros H; try (injection H as <-; eexists; done);
    apply fmap_Some in H as (s & _ & ->); by exists s.
Qed.

Lemma norm_texts_spec raw ks : forall out out', NoDup ks -> norm_texts ks raw out = Some out' ->
  (forall k, k ∈ ks -> exists v, text_or_blank (get_prop k raw) = Some v /\ obj_get k out' = Some v) /\
  (forall k, k ∉ ks -> obj_get k out' = obj_get k out) /\
  (forall b, Forall is_text_key (keys b) -> over b out -> over b out').
Proof.
  induction ks as [|k ks IH]; intros out out' Hd; cbn [norm_texts].
  - intros [= <-]. split_and!; [by intros ? ?%not_elem_of_nil|done|done].
  - apply NoDup_cons in Hd as [Hk Hd]. intros (v & Hv & Hn)%bind_Some.
    destruct (IH _ _ Hd Hn) as (Hin & Hout & Hov). split_and!.
    + intros j [->|Hj]%elem_of_cons; [|by apply Hin]. exists v. split; [done|].
      by rewrite Hout, obj_get_put_eq by done.
    + intros j [Hjk Hj]%not_elem_of_cons. by rewrite Hout, obj_get_put_ne by done.
    + intros b Hb Ho. by apply Hov, over_put.
Qed.

(** When every text member is already a string, the loop changes nothing. *)
Lemma norm_texts_same ks o : (forall k, k ∈ ks -> exists s, obj_get k o = Some (JStr s)) ->
  norm_texts ks (JObj o) o = Some o.
Proof.
  intros Hk. induction ks as [|k ks IH]; [done|]. cbn [norm_texts get_prop].
  destruct (Hk k) as [s Hs]; [by left|]. rewrite Hs. cbn.
  rewrite put_same by done. apply IH. intros j Hj. apply Hk. by right.
Qed.

Lemma norm_custom_ok f g : norm_custom f = Some g -> custom_ok g.
Proof.
  unfold norm_custom. intros (l & Hl & (v & Hv & [= <-])%bind_Some)%bind_Some.
  apply text_or_blank_str in Hl as [sl ->]. apply text_or_blank_str in Hv as [sv ->].
  eexists sl, sv, _. split; [done|]. case_match; auto.
Qed.

Lemma norm_custom_same f : custom_ok f -> is_object f = true /\ norm_custom f = Some f.
Proof. intros (l & v & h & -> & [-> | ->]); done. Qed.

Lemma norm_customs_ok v w : norm_customs v = Some w -> exists l, w = JArr l /\ Forall custom_ok l.
Proof.
  unfold norm_customs. destruct v as [[| | | |l|]|]; intros H;
    try (injection H as <-; exists []; split; [done|constructor]).
  apply fmap_Some in H as (l' & Hm & ->). exists l'. split; [done|].
  apply mapM_Some in Hm. induction Hm as [|f g fs gs Hf _ IH]; [constructor|].
  constructor; [by eapply norm_custom_ok|done].
Qed.

Lemma norm_customs_same l : Forall custom_ok l -> norm_customs (Some (JArr l)) = Some (JArr l).
Proof.
  intros Hl. cbn. assert (List.filter is_object l = l) as ->.
  { induction Hl as [|f l [Hf _]%norm_custom_same _ IH]; [done|]. cbn. by rewrite Hf, IH. }
  assert (mapM norm_custom l = Some l) as ->; [|done].
  induction Hl as [|f l [_ Hf]%norm_custom_same _ IH]; [done|]. cbn. by rewrite Hf, IH.
Qed.

Lemma norm_type_in v : exists t, norm_type v = JStr t /\ t ∈ item_types.
Proof.
  unfold norm_type, item_types. repeat case_match; eexists; (split; [done|]);
    repeat (first [by left | right]).
Qed.

Lemma norm_type_same t : t ∈ item_types -> norm_type (Some (JStr t)) = JStr t.
Proof.
  unfold item_types. intros H. repeat (apply elem_of_cons in H as [->|H]; [done|]).
  by apply not_elem_of_nil in H.
Qed.

Section Facts.
Context `{Unicode}.

Lemma norm_favorite_bool v w : norm_favorite v = Some w -> exists b, w = JBool b.
Proof.
  unfold norm_favorite. case_match; [intros [= <-]; by exists true|].
  intros (s & _ & [= <-])%bind_Some. by eexists.
Qed.

Lemma norm_favorite_same b : norm_favorite (Some (JBool b)) = Some (JBool b).
Proof.
  unfold norm_favorite. destruct b; [done|]. rewrite bool_decide_eq_false_2 by done.
  change (js_to_string (Some (JBool false))) with (Some (js "false")). cbn [mbind option_bind].
  rewrite to_lower_ascii by decide_forall. done.
Qed.

Lemma norm_favorite_none : norm_favorite None = Some (JBool false).
Proof.
  unfold norm_favorite. rewrite bool_decide_eq_false_2 by done. cbn [js_to_string mbind option_bind].
  rewrite to_lower_ascii by decide_forall. done.
Qed.

(** The body of the function, with its intermediate results named. *)
Lemma normalize_inv raw out : normalizeItemFields raw = Some out ->
  raw <> JNull /\ exists customs favorite out1 out2,
    norm_customs (get_prop (js "fields") raw) = Some customs /\
    norm_favorite (get_prop (js "favorite") raw) = Some favorite /\
    out1 = obj_put (js "fields") customs
      (obj_put (js "identity") (JObj (obj_assign blankIdentity (object_or_empty (get_prop (js "identity") raw))))
        (obj_put (js "card") (JObj (obj_assign blankCard (object_or_empty (get_prop (js "card") raw))))
          (obj_put (js "type") (norm_type (get_prop (js "type") raw))
            (obj_assign (blankFields (js "login")) (own_props raw))))) /\
    norm_texts TEXT_KEYS raw out1 = Some out2 /\ out = obj_put (js "favorite") favorite out2.
Proof.
  unfold normalizeItemFields. case_bool_decide as Hr; [done|]. cbv zeta.
  intros (c & Hc & (o & Ho & (f & Hf & [= <-])%bind_Some)%bind_Some)%bind_Some.
  split; [done|]. eexists c, f, _, o. by split_and!.
Qed.

Lemma blank_over : over (blankFields (js "login")) (blankFields (js "login")).
Proof. apply over_refl; [apply blank_text|vm_compute; reflexivity]. Qed.

Lemma card_over v : over blankCard (obj_assign blankCard (object_or_empty v)).
Proof. apply over_assign; [apply blankCard_text|]. apply over_refl; [apply blankCard_text|done]. Qed.

Lemma identity_over v : over blankIdentity (obj_assign blankIdentity (object_or_empty v)).
Proof. apply over_assign; [apply blankIdentity_text|]. apply over_refl; [apply blankIdentity_text|done]. Qed.

Lemma TEXT_KEYS_NoDup : NoDup TEXT_KEYS.
Proof. apply (bool_decide_unpack _). vm_compute. exact I. Qed.

(** Each member of the result, by its key. *)
Lemma normalize_members raw out : normalizeItemFields raw = Some out ->
  over (blankFields (js "login")) out /\
  obj_get (js "type") out = Some (norm_type (get_prop (js "type") raw)) /\
  obj_get (js "card") out =
    Some (JObj (obj_assign blankCard (object_or_empty (get_prop (js "card") raw)))) /\
  obj_get (js "identity") out =
    Some (JObj (obj_assign blankIdentity (object_or_empty (get_prop (js "identity") raw)))) /\
  (exists c, norm_customs (get_prop (js "fields") raw) = Some c /\ obj_get (js "fields") out = Some c) /\
  (exists f, norm_favorite (get_prop (js "favorite") raw) = Some f /\ obj_get (js "favorite") out = Some f) /\
  (forall k, k ∈ TEXT_KEYS -> exists v, text_or_blank (get_prop k raw) = Some v /\ obj_get k out = Some v) /\
  (forall k, k ∉ keys (blankFields (js "login")) ->
     obj_get k out = obj_get k (obj_assign (blankFields (js "login")) (own_props raw))).
Proof.
  intros (Hn & c & f & o1 & o2 & Hc & Hf & Ho1 & Ht & ->)%normalize_inv.
  destruct (norm_texts_spec raw TEXT_KEYS o1 o2 TEXT_KEYS_NoDup Ht) as (Hin & Hout & Hov).
  assert (Hg : forall k, k ∉ js "favorite" :: TEXT_KEYS -> obj_get k (obj_put (js "favorite") f o2) = obj_get k o1).
  { intros k [Hk Hk']%not_elem_of_cons. by rewrite obj_get_put_ne, Hout. }
  assert (over (blankFields (js "login")) o1).
  { rewrite Ho1. repeat apply over_put; try apply blank_text. apply over_assign; [apply blank_text|].
    apply blank_over. }
  split_and!.
  - apply over_put; [apply blank_text|]. apply Hov; [apply blank_text|done].
  - rewrite Hg, Ho1 by (by apply (bool_decide_unpack _); vm_compute). by rewrite !obj_get_put.
  - rewrite Hg, Ho1 by (by apply (bool_decide_unpack _); vm_compute). by rewrite !obj_get_put.
  - rewrite Hg, Ho1 by (by apply (bool_decide_unpack _); vm_compute). by rewrite !obj_get_put.
  - exists c. split; [done|].
    rewrite Hg, Ho1 by (by apply (bool_decide_unpack _); vm_compute). by rewrite !obj_get_put.
  - exists f. split; [done|]. apply obj_get_put_eq.
  - intros k Hk. destruct (Hin k Hk) as (v & Hv & Hgv). exists v. split; [done|].
    rewrite obj_get_put_ne; [done|]. intros ->. revert Hk.
    apply (bool_decide_unpack (js "favorite" ∉ TEXT_KEYS)). by vm_compute.
  - intros k Hk. assert (Hsub : forall j, j ∈ js "favorite" :: TEXT_KEYS -> j ∈ keys (blankFields (js "login"))).
    { apply Forall_forall. apply (bool_decide_unpack _). vm_compute. exact I. }
    rewrite Hg by (intros Hj; by apply Hk, Hsub). rewrite Ho1.
    assert (Hne : forall j, j ∈ keys (blankFields (js "login")) -> k <> j) by (intros j Hj ->; done).
    rewrite !obj_get_put_ne; [done|apply Hne; apply (bool_decide_unpack _); by vm_compute..].
Qed.

(** Normalization succeeds when the members it converts convert. *)
Lemma normalize_some o c f : (forall k, k ∈ TEXT_KEYS -> exists s, obj_get k o = Some (JStr s)) ->
  norm_customs (obj_get (js "fields") o) = Some c -> norm_favorite (obj_get (js "favorite") o) = Some f ->
  is_Some (normalizeItemFields (JObj o)).
Proof.
  intros Ht Hc Hf. unfold normalizeItemFields. rewrite bool_decide_eq_false_2 by done. cbv zeta. cbn [get_prop].
  rewrite Hc, Hf. cbn [mbind option_bind].
  set (out := obj_put (js "fields") c _). clearbody out. revert out Ht. generalize TEXT_KEYS as ks.
  induction ks as [|k ks IH]; intros out Ht; [by eexists|]. cbn [norm_texts get_prop].
  destruct (Ht k) as [s Hs]; [by left|]. rewrite Hs. apply IH. intros j Hj. apply Ht. by right.
Qed.

Lemma normalize_wf raw out : normalizeItemFields raw = Some out -> item_wf out.
Proof.
  intros (Ho & Ht & Hc & Hi & (c & Hnc & Hgc) & (f & Hnf & Hgf) & Hx & _)%normalize_members.
  apply norm_customs_ok in Hnc as (l & -> & Hl). apply norm_favorite_bool in Hnf as [b ->].
  destruct (norm_type_in (get_prop (js "type") raw)) as (t & Et & Hin).
  split; [done|exists t; by rewrite Ht, Et| | | |by exists l|by exists b].
  - intros k Hk. destruct (Hx k Hk) as (v & Hv & Hg). apply text_or_blank_str in Hv as [s ->]. by exists s.
  - eexists. split; [exact Hc|apply card_over].
  - eexists. split; [exact Hi|apply identity_over].
Qed.

(** A well-formed item is a fixed point. *)
Lemma normalize_fixpoint it : item_wf it -> normalizeItemFields (JObj it) = Some it.
Proof.
  intros [Ho (t & Ht & Htin) Hx (c & Hc & Hco) (i & Hi & Hio) (l & Hf & Hl) (b & Hb)].
  unfold normalizeItemFields. rewrite bool_decide_eq_false_2 by done. cbn [own_props get_prop]. cbv zeta.
  rewrite (assign_over (blankFields (js "login")) it) by (done || apply blank_text).
  rewrite Ht, norm_type_same, (put_same it (js "type")) by done.
  rewrite Hc. cbn [object_or_empty]. rewrite (assign_over blankCard c) by (done || apply blankCard_text).
  rewrite (put_same it (js "card")) by done. rewrite Hi. cbn [object_or_empty].
  rewrite (assign_over blankIdentity i) by (done || apply blankIdentity_text).
  rewrite (put_same it (js "identity")) by done.
  rewrite Hf, norm_customs_same by done. cbn [mbind option_bind].
  rewrite (put_same it (js "fields")), norm_texts_same by done. cbn [mbind option_bind].
  rewrite Hb, norm_favorite_same. cbn [mbind option_bind]. by rewrite put_same.
Qed.
End Facts.

(** ** Printable results *)

Lemma num_to_string_units n : num_ok n -> units_ok (num_to_string n).
Proof. intros Hn. by apply ascii_units, num_to_string_ascii. Qed.

Lemma join_units sep l : units_ok sep -> Forall (fun s => units_ok s) l -> units_ok (join sep l).
Proof.
  intros Hs. induction 1 as [|s l Hx Hl IH]; [constructor|]. destruct l as [|t l]; [done|].
  change (join sep (s :: t :: l)) with (s ++ sep ++ join sep (t :: l)). by repeat (apply Forall_app; split).
Qed.

Lemma json_to_string_units v : forall s, json_ok v -> json_to_string v = Some s -> units_ok s.
Proof.
  induction v as [|b|n|t|l IH|o IH] using json_ind; intros s Hok.
  - intros [= <-]. decide_forall.
  - destruct b; intros [= <-]; decide_forall.
  - intros [= <-]. by apply num_to_string_units.
  - by intros [= <-].
  - apply json_ok_arr in Hok. cbn [json_to_string]. intros H. apply fmap_Some in H as (ss & Hss & ->).
    apply join_units; [decide_forall|]. revert ss Hss.
    induction l as [|w l IHl]; intros ss; [intros [= <-]; constructor|].
    apply Forall_cons in Hok as [Hw Hok]. apply Forall_cons in IH as [IHw IH].
    intros (s1 & H1 & (ss1 & H2 & [= <-])%bind_Some)%bind_Some. constructor; [|by apply IHl].
    destruct w; try (by apply IHw). by injection H1 as <-.
  - cbn. case_match; [done|]. intros [= <-]. decide_forall.
Qed.

Lemma obj_get_ok o k v : json_ok (JObj o) -> obj_get k o = Some v -> json_ok v.
Proof.
  intros [_ Hf]%json_ok_obj. induction Hf as [|[j w] o [_ Hw] _ IH]; [done|]. cbn.
  destruct (str_eqb k j); [by intros [= <-]|done].
Qed.

Lemma get_prop_ok r k v : json_ok r -> get_prop k r = Some v -> json_ok v.
Proof. destruct r; try done. apply obj_get_ok. Qed.

Definition member_ok (kv : jsstr * json) : Prop := units_ok kv.1 /\ json_ok kv.2.

Lemma own_props_ok r : json_ok r -> Forall member_ok (own_props r).
Proof.
  assert (Hdec : forall i, units_ok (dec (Z.of_nat i))) by (intros; apply ascii_units, dec_ascii; lia).
  assert (Himap : forall {A} (f : A -> json) (l : list A), Forall (fun a => json_ok (f a)) l ->
    Forall member_ok (imap (fun i a => (dec (Z.of_nat i), f a)) l)).
  { intros A f l Hl. apply Forall_lookup. intros i [k w] Hi. rewrite list_lookup_imap in Hi.
    apply fmap_Some in Hi as (a & Ha & [= -> ->]). split; [apply Hdec|].
    by eapply (Forall_lookup_1 (fun a => json_ok (f a))). }
  destruct r as [| | |s|l|o]; intros H; try constructor; cbn.
  - apply (Himap _ (fun u => JStr [u])). eapply Forall_impl; [exact H|].
    intros u Hu. constructor; [exact Hu|constructor].
  - apply json_ok_arr in H. by apply (Himap _ (fun w => w)).
  - by apply json_ok_obj in H as [_ ?].
Qed.

Lemma object_or_empty_ok r k : json_ok r -> Forall member_ok (object_or_empty (get_prop k r)).
Proof.
  intros Hr. destruct (get_prop k r) as [v|] eqn:E; [|constructor]. apply get_prop_ok in E; [|done].
  destruct v; try constructor; cbn [object_or_empty]; [by apply (own_props_ok (JArr l))|].
  by apply (own_props_ok (JObj o)).
Qed.

Lemma blank_ok : json_ok blank.
Proof. exact (Forall_nil_2 _). Qed.

Lemma text_or_blank_ok r k v : json_ok r -> text_or_blank (get_prop k r) = Some v -> json_ok v.
Proof.
  intros Hr. unfold text_or_blank. destruct (get_prop k r) as [w|] eqn:E; [|intros [= <-]; exact blank_ok].
  apply get_prop_ok in E; [|done].
  destruct w; intros H; try (injection H as <-; exact blank_ok); apply fmap_Some in H as (t & Ht & ->);
    cbn; by eapply json_to_string_units.
Qed.

Lemma over_json_ok b o : Forall is_text_key (keys b) -> over b o -> Forall member_ok o -> json_ok (JObj o).
Proof. intros _ (I & B & X & _ & _ & _ & _ & Hok) Hf. by apply json_ok_obj. Qed.

Lemma norm_custom_json f g : json_ok f -> norm_custom f = Some g -> json_ok g.
Proof.
  intros Hf. unfold norm_custom. intros (l & Hl & (v & Hv & [= <-])%bind_Some)%bind_Some.
  apply text_or_blank_ok in Hl, Hv; try done. apply json_ok_obj. split; [by case_match|].
  constructor; [split; [decide_forall|done]|]. constructor; [split; [decide_forall|done]|].
  case_match; repeat constructor; decide_forall.
Qed.

Lemma norm_customs_json r k c : json_ok r -> norm_customs (get_prop k r) = Some c -> json_ok c.
Proof.
  intros Hr. unfold norm_customs. destruct (get_prop k r) as [v|] eqn:E; [|by intros [= <-]].
  apply get_prop_ok in E; [|done].
  destruct v; intros H; try (injection H as <-; constructor). apply fmap_Some in H as (l' & Hm & ->).
  apply json_ok_arr in E. apply json_ok_arr. apply mapM_Some in Hm.
  assert (Hl : Forall json_ok (List.filter is_object l)).
  { clear Hm. induction E as [|w l Hw _ IH]; [constructor|]. cbn. destruct (is_object w); [by constructor|done]. }
  clear E. induction Hm as [|f g fs gs Hg _ IH]; [constructor|]. apply Forall_cons in Hl as [Hf Hl].
  constructor; [by eapply norm_custom_json|by apply IH].
Qed.

Section Printable.
Context `{Unicode}.

Lemma norm_texts_ok raw ks : forall o o', json_ok raw -> Forall (fun k => units_ok k) ks ->
  Forall member_ok o -> norm_texts ks raw o = Some o' -> Forall member_ok o'.
Proof.
  induction ks as [|k ks IH]; intros o o' Hr Hks Ho; cbn; [by intros [= <-]|].
  apply Forall_cons in Hks as [Hk Hks]. intros (v & Hv & Hn)%bind_Some. apply (IH _ _ Hr Hks) in Hn; [done|].
  apply Forall_put; [|done]. split; [done|]. by eapply text_or_blank_ok.
Qed.

(** The item built from a printable value is printable: it can be stored. *)
Lemma normalize_json_ok raw out : json_ok raw -> normalizeItemFields raw = Some out -> json_ok (JObj out).
Proof.
  intros Hr Hn. pose proof (normalize_wf raw out Hn) as [Ho _].
  apply (over_json_ok (blankFields (js "login"))); [apply blank_text|done|].
  apply normalize_inv in Hn as (_ & c & f & o1 & o2 & Hc & Hf & -> & Ht & ->).
  assert (Hk : forall k, units_ok (js k)) by (intros; auto with passwd).
  assert (Hb : forall o, forallb (fun kv => bool_decide (units_ok kv.1) && bool_decide (kv.2 = blank)) o = true ->
    Forall member_ok o).
  { intros o. rewrite (forallb_Forall_iff _ (fun kv => units_ok kv.1 /\ kv.2 = blank)).
    - apply Forall_impl_list. intros [k v] [Hkv E]. split; [done|]. cbn in E. subst v. exact blank_ok.
    - intros kv. by rewrite andb_true_iff, !bool_decide_eq_true. }
  assert (Hsub : forall b v, Forall is_text_key (keys b) -> over b (obj_assign b (object_or_empty v)) ->
     Forall member_ok b -> Forall member_ok (object_or_empty v) ->
     json_ok (JObj (obj_assign b (object_or_empty v)))).
  { intros b v Hbt Hbo Hbm Hv. apply (over_json_ok b); [done..|]. by apply Forall_assign. }
  apply Forall_put; [split; [apply Hk|apply norm_favorite_bool in Hf as [b ->]; constructor]|].
  eapply norm_texts_ok; [exact Hr| |..|exact Ht].
  { repeat (constructor; [apply Hk|]). constructor. }
  apply Forall_put; [split; [apply Hk|by eapply norm_customs_json]|].
  apply Forall_put; [split; [apply Hk|]|].
  { apply Hsub; [apply blankIdentity_text|apply identity_over|by apply Hb|by apply object_or_empty_ok]. }
  apply Forall_put; [split; [apply Hk|]|].
  { apply Hsub; [apply blankCard_text|apply card_over|by apply Hb|by apply object_or_empty_ok]. }
  apply Forall_put; [split; [apply Hk|destruct (norm_type_in (get_prop (js "type") raw)) as (t & -> & Hin)]|].
  { unfold item_types in Hin. repeat (apply elem_of_cons in Hin as [->|Hin]; [apply Hk|]).
    by apply not_elem_of_nil in Hin. }
  apply Forall_assign; [|by apply own_props_ok].
  repeat (constructor; [split; [apply Hk|first [apply Hk|apply json_ok_obj; split; [done|by apply Hb]|constructor]]|]).
  constructor.
Qed.

(** Writing a well-formed item and reading it back. *)
Lemma item_reload it : item_wf it -> json_ok (JObj it) ->
  json_parse (stringify (JObj it)) ≫= normalizeItemFields = Some it.
Proof. intros Hw Hj. rewrite json_parse_stringify by done. by apply normalize_fixpoint. Qed.

Lemma blank_item_wf t : t ∈ item_types -> item_wf (blankFields t).
Proof.
  intros Ht. split.
  - exists [], (blankFields t), []. rewrite app_nil_r. by repeat split.
  - by exists t.
  - intros k Hk. exists []. revert k Hk. apply Forall_forall. repeat (constructor; [done|]). constructor.
  - exists blankCard. split; [done|]. apply over_refl; [apply blankCard_text|done].
  - exists blankIdentity. split; [done|]. apply over_refl; [apply blankIdentity_text|done].
  - by exists [].
  - by exists false.
Qed.
End Printable.

(** ** Theorems *)
Section Theorems.
Context `{Unicode}.

Lemma norm_type_cases v : norm_type v = match v with
  | Some (JStr t) => JStr (if bool_decide (t ∈ item_types) then t else js "login")
  | _ => JStr (js "login") end.
Proof.
  destruct v as [[| | |t| |]|]; try done. unfold norm_type, item_types.
  repeat case_bool_decide; try done; simplify_eq; set_solver.
Qed.

(** The only failures. *)
Lemma normalize_fails o : normalizeItemFields (JObj o) = None ->
  norm_customs (obj_get (js "fields") o) = None \/ norm_favorite (obj_get (js "favorite") o) = None \/
  exists k, k ∈ TEXT_KEYS /\ text_or_blank (obj_get k o) = None.
Proof.
  intros E. unfold normalizeItemFields in E. rewrite bool_decide_eq_false_2 in E by done. cbv zeta in E.
    cbn [get_prop] in E. destruct (norm_customs _) as [c|]; [right|by left]. cbn [mbind option_bind] in E.
    destruct (norm_favorite _) as [f|]; [right|by left].
    destruct (norm_texts _ _ _) as [o2|] eqn:Et; [done|]. clear E.
    revert Et. generalize TEXT_KEYS as ks. generalize (obj_put (js "fields") c
       (obj_put (js "identity") (JObj (obj_assign blankIdentity (object_or_empty (obj_get (js "identity") o))))
          (obj_put (js "card") (JObj (obj_assign blankCard (object_or_empty (obj_get (js "card") o))))
             (obj_put (js "type") (norm_type (obj_get (js "type") o))
                (obj_assign (blankFields (js "login")) (own_props (JObj o))))))) as out.
    intros out ks. revert out. induction ks as [|k ks IH]; intros out; [done|]. cbn.
    destruct (text_or_blank (obj_get k o)) as [v|] eqn:Ev.
    + intros Ht. destruct (IH _ Ht) as (j & Hj & Hv). exists j. split; [by right|done].
    + intros _. exists k. split; [by left|done].
Qed.

(** C37: whatever object an item was stored or imported as, normalization yields a
    complete item, and every well-formed member comes through it: one of the four
    types stays (anything else is a login); the seven texts stay, absent ones are
    blank; of a card and an identity every member stays, unknown ones included,
    and absent ones are blank; custom fields that are labelled strings stay in
    their order; a boolean favorite mark stays, an absent one is off; members the
    program does not know are kept as they are.  The only failure is a member that
    cannot be converted to a string. *)
Theorem normalizeItemFields_complete o (Hk : NoDup (keys o)) :
  match normalizeItemFields (JObj o) with
  | Some it =>
      item_wf it /\
      obj_get (js "type") it = Some (match obj_get (js "type") o with
        | Some (JStr t) => JStr (if bool_decide (t ∈ item_types) then t else js "login")
        | _ => JStr (js "login") end) /\
      (forall k s, k ∈ TEXT_KEYS -> obj_get k o = Some (JStr s) -> obj_get k it = Some (JStr s)) /\
      (forall k, k ∈ TEXT_KEYS -> obj_get k o = None -> obj_get k it = Some (JStr [])) /\
      (forall k b, k = js "card" /\ b = blankCard \/ k = js "identity" /\ b = blankIdentity ->
         (forall c, obj_get k o = Some (JObj c) -> NoDup (keys c) -> exists c', obj_get k it = Some (JObj c') /\
            forall j, obj_get j c' = match obj_get j c with Some v => Some v | None => obj_get j b end) /\
         (obj_get k o = None -> obj_get k it = Some (JObj b))) /\
      (forall l, obj_get (js "fields") o = Some (JArr l) -> Forall custom_ok l ->
         obj_get (js "fields") it = Some (JArr l)) /\
      (obj_get (js "fields") o = None -> obj_get (js "fields") it = Some (JArr [])) /\
      (forall b, obj_get (js "favorite") o = Some (JBool b) -> obj_get (js "favorite") it = Some (JBool b)) /\
      (obj_get (js "favorite") o = None -> obj_get (js "favorite") it = Some (JBool false)) /\
      (forall k, k ∉ keys (blankFields (js "login")) -> obj_get k it = obj_get k o)
  | None =>
      norm_customs (obj_get (js "fields") o) = None \/ norm_favorite (obj_get (js "favorite") o) = None \/
      exists k, k ∈ TEXT_KEYS /\ text_or_blank (obj_get k o) = None
  end.
Proof.
  destruct (normalizeItemFields (JObj o)) as [it|] eqn:E; [|by apply normalize_fails].
  split; [by eapply normalize_wf|].
  apply normalize_members in E as (_ & Ht & Hc & Hi & (cs & Hcs & Hgc) & (f & Hf & Hgf) & Hx & Hu).
  cbn [get_prop own_props] in *. split_and!.
  - rewrite Ht. f_equal. apply norm_type_cases.
  - intros k s Hin Hs. destruct (Hx k Hin) as (v & Hv & ->). rewrite Hs in Hv. by injection Hv as <-.
  - intros k Hin Hs. destruct (Hx k Hin) as (v & Hv & ->). rewrite Hs in Hv. by injection Hv as <-.
  - intros k b [[-> ->]|[-> ->]]; (split; [intros c Hg Hd|intros Hg]).
    1,3: rewrite ?Hc, ?Hi, Hg; eexists; split; [reflexivity|]; intros j; by apply obj_get_assign.
    all: by rewrite ?Hc, ?Hi, Hg.
  - intros l Hl Hok. rewrite Hgc, <- Hcs, Hl. by apply norm_customs_same.
  - intros Hn. rewrite Hn in Hcs. by injection Hcs as <-.
  - intros b Hb. rewrite Hb, norm_favorite_same in Hf. by injection Hf as <-.
  - intros Hn. rewrite Hn, norm_favorite_none in Hf. by injection Hf as <-.
  - intros k Hin. rewrite Hu, obj_get_assign by done. destruct (obj_get k o); [done|].
    by apply obj_get_None.
Qed.

(** Normalizing is idempotent: an item that went through it once is never
    changed by a later load, export or import; and as JSON text it reads back as
    itself. *)
Theorem normalizeItemFields_idempotent raw it (Hn : normalizeItemFields raw = Some it) :
  normalizeItemFields (JObj it) = Some it /\
  (json_ok raw -> json_parse (stringify (JObj it)) ≫= normalizeItemFields = Some it).
Proof.
  pose proof (normalize_wf raw it Hn) as Hw. split; [by apply normalize_fixpoint|].
  intros Hr. apply item_reload; [done|by eapply normalize_json_ok].
Qed.
End Theorems.

#[local] Existing Instance latin1_unicode.
Example normalize_old_item :
  normalizeItemFields (JObj [(js "name", JStr (js "bank")); (js "password", JNum (NInt 7));
                             (js "favorite", JStr (js "Yes")); (js "color", JNull)])
  = Some [(js "type", JStr (js "login")); (js "name", JStr (js "bank")); (js "username", blank);
          (js "password", JStr (js "7")); (js "url", blank); (js "totp", blank); (js "notes", blank);
          (js "card", JObj blankCard); (js "identity", JObj blankIdentity); (js "fields", JArr []);
          (js "favorite", JBool true); (js "folder", blank); (js "color", JNull)].
Proof. vm_compute. reflexivity. Qed.

Definition old_item : obj :=
  [(js "name", JStr (js "bank")); (js "password", JNum (NInt 7));
   (js "favorite", JStr (js "Yes")); (js "color", JNull)].

Definition old_card : obj :=
  [(js "type", JStr (js "card")); (js "name", JStr (js "visa")); (js "favorite", JBool true);
   (js "card", JObj [(js "number", JStr (js "4111")); (js "issuer", JStr (js "bank"))]);
   (js "fields", JArr [JObj [(js "label", JStr (js "pin")); (js "value", JStr (js "1234"))]]);
   (js "color", JNull)].

Lemma normalizeItemFields_complete_witness :
  exists it c, normalizeItemFields (JObj old_card) = Some it /\ item_wf it /\
    obj_get (js "type") it = Some (JStr (js "card")) /\ obj_get (js "name") it = Some (JStr (js "visa")) /\
    obj_get (js "url") it = Some (JStr []) /\ obj_get (js "favorite") it = Some (JBool true) /\
    obj_get (js "card") it = Some (JObj c) /\ obj_get (js "issuer") c = Some (JStr (js "bank")) /\
    obj_get (js "cvv") c = Some blank /\
    obj_get (js "fields") it = Some (JArr [JObj [(js "label", JStr (js "pin")); (js "value", JStr (js "1234"))]]) /\
    obj_get (js "color") it = Some JNull.
Proof.
  assert (Hk : NoDup (keys old_card)) by (apply (bool_decide_unpack _); vm_compute; exact I).
  pose proof (normalizeItemFields_complete old_card Hk) as Hc.
  destruct (normalizeItemFields (JObj old_card)) as [it|] eqn:E; [|vm_compute in E; discriminate E].
  destruct Hc as (Hw & Ht & Hs & Hb & Hsub & Hf & _ & Hv & _ & Hu).
  destruct (proj1 (Hsub (js "card") blankCard (or_introl (conj eq_refl eq_refl)))
    [(js "number", JStr (js "4111")); (js "issuer", JStr (js "bank"))] eq_refl) as (c & Hc & Hj).
  { apply (bool_decide_unpack _); vm_compute; exact I. }
  exists it, c. split_and!; [done|done|by rewrite Ht|apply Hs; [by left|done]|apply Hb; [do 3 right; by left|done]|
    by apply Hv|done|by rewrite Hj|by rewrite Hj| |].
  - apply Hf; [done|]. constructor; [|constructor]. exists (js "pin"), (js "1234"), []. by auto.
  - apply Hu. apply (bool_decide_unpack _). by vm_compute.
Defined.

Lemma normalizeItemFields_idempotent_witness :
  exists it, normalizeItemFields (JObj old_item) = Some it /\ normalizeItemFields (JObj it) = Some it /\
    json_parse (stringify (JObj it)) ≫= normalizeItemFields = Some it.
Proof.
  destruct (normalizeItemFields (JObj old_item)) as [it|] eqn:E; [|vm_compute in E; discriminate E].
  exists it. split; [done|]. destruct (normalizeItemFields_idempotent (JObj old_item) it E) as [Hi Hj].
  split; [done|]. apply Hj. apply json_okb_ok. vm_compute. reflexivity.
Defined.
