(* ===== verification/Portable.v ===== *)
(** api-client/src/portable.ts: vault import and export, as JSON and CSV. *)
From S2P Require Import Prelude Text Numeral Json JsonFacts Encoding JsonText Encoding Effects Objects Items.

Definition FIELDS : list jsstr :=
  [js "name"; js "url"; js "username"; js "password"; js "totp"; js "notes"; js "folder"].
Definition EXPORT_FORMAT : jsstr := js "passwd-export".
Definition EXPORT_VERSION : Z := 2.

Definition in_list (s : jsstr) (l : list jsstr) : bool := existsb (str_eqb s) l.

(** ** Export *)
Section Writing.
Context `{Unicode}.

(** [None] is a TypeError. *)
Definition toPlaintextJSON (items : list obj) : option jsstr :=
  its ← mapM (fun i => normalizeItemFields (JObj i)) items;
  Some (stringify2 (obj_of [(js "format", Some (JStr EXPORT_FORMAT));
                            (js "version", Some (JNum (NInt EXPORT_VERSION)));
                            (js "items", Some (JArr (map JObj its)))])).
End Writing.

Definition csv_special (u : Z) : bool :=
  (u =? c_quote) || (u =? c_comma) || (u =? c_cr) || (u =? c_lf).

(** Every quote is doubled. *)
Fixpoint double_quotes (s : jsstr) : jsstr :=
  match s with
  | [] => []
  | u :: s' => if u =? c_quote then c_quote :: c_quote :: double_quotes s' else u :: double_quotes s'
  end.

Definition csvEscape (v : jsstr) : jsstr :=
  if existsb csv_special v then c_quote :: double_quotes v ++ [c_quote] else v.

(** The call on a member: a value that is not a string can be tested and joined,
    but has no [replace]. *)
Definition csv_cell (v : jsv) : option jsstr :=
  match coalesce v blank with
  | JStr s => Some (csvEscape s)
  | w => s ← json_to_string w; if existsb csv_special s then None else Some s
  end.

Definition csv_line (it : obj) : option jsstr :=
  cells ← mapM (fun f => csv_cell (obj_get f it)) FIELDS;
  Some (join [c_comma] (cells ++ [if truthy (obj_get (js "favorite") it) then js "1" else []])).

Definition csv_header : jsstr := join [c_comma] (FIELDS ++ [js "favorite"]).

Definition toCSV (items : list obj) : option jsstr :=
  lines ← mapM csv_line items;
  Some (join [c_cr; c_lf] (csv_header :: lines)).

(** ** Import *)

(** Column names of other managers. *)
Definition ALIASES : list (jsstr * jsstr) :=
  [(js "name", js "name"); (js "title", js "name"); (js "item", js "name");
   (js "url", js "url"); (js "uri", js "url"); (js "login_uri", js "url");
   (js "website", js "url"); (js "site", js "url");
   (js "username", js "username"); (js "user", js "username"); (js "user name", js "username");
   (js "login", js "username"); (js "login_username", js "username"); (js "email", js "username");
   (js "password", js "password"); (js "pass", js "password"); (js "login_password", js "password");
   (js "notes", js "notes"); (js "note", js "notes"); (js "comment", js "notes");
   (js "comments", js "notes"); (js "totp", js "totp"); (js "otp", js "totp");
   (js "login_totp", js "totp"); (js "folder", js "folder"); (js "group", js "folder");
   (js "grouping", js "folder")].

(** What the object also answers to, inherited from [Object.prototype]: the
    members with an all-lower-case name.  As a property key the value found is
    the text of the [Object] constructor, or of the prototype object. *)
Definition INHERITED : list (jsstr * jsstr) :=
  [(js "constructor", js "function Object() { [native code] }");
   (js "__proto__", js "[object Object]")].

Fixpoint assoc (k : jsstr) (l : list (jsstr * jsstr)) : option jsstr :=
  match l with
  | [] => None
  | (k', v) :: l' => if str_eqb k k' then Some v else assoc k l'
  end.

(** [ALIASES[lower]] *)
Definition alias (lower : jsstr) : option jsstr := assoc lower (ALIASES ++ INHERITED).

Definition FAVORITE_KEYS : list jsstr := [js "favorite"; js "favourite"; js "fav"].
Definition CARRIED : list jsstr := [js "type"; js "card"; js "identity"; js "fields"].

(** The first loop of [normalize]: the structured keys of passwd's own exports. *)
Definition carry (row : json) : obj :=
  foldl (fun flat k => match get_prop k row with Some v => obj_put k v flat | None => flat end)
    [] CARRIED.

Definition nonEmpty (i : obj) : bool :=
  let get k := obj_get (js k) i in
  let sub k j := match get k with Some v => get_prop (js j) v | None => None end in
  truthy (get "name"%string) || truthy (get "username"%string) || truthy (get "password"%string)
  || truthy (get "url"%string) || truthy (get "notes"%string) || truthy (get "totp"%string)
  || truthy (sub "card"%string "number"%string) || truthy (sub "identity"%string "fullName"%string)
  || truthy (sub "identity"%string "email"%string)
  || match get "fields"%string with Some (JArr (_ :: _)) => true | _ => false end.

(** ** The CSV reader *)

(** CR LF becomes LF, then a lone CR becomes LF. *)
Fixpoint crlf_to_lf (s : jsstr) : jsstr :=
  match s with
  | [] => []
  | u :: s' =>
      if u =? c_cr then
        match s' with
        | v :: s'' => if v =? c_lf then c_lf :: crlf_to_lf s'' else u :: crlf_to_lf s'
        | [] => [u]
        end
      else u :: crlf_to_lf s'
  end.
Definition normalize_newlines (s : jsstr) : jsstr :=
  map (fun u => if u =? c_cr then c_lf else u) (crlf_to_lf s).

Definition keep_row (row : list jsstr) : bool := existsb (fun c => negb (bool_decide (c = []))) row.
Definition push_row (rows : list (list jsstr)) (row : list jsstr) : list (list jsstr) :=
  if keep_row row then rows ++ [row] else rows.

(** The character loop, with the variables of the function as arguments. *)
Fixpoint csv_loop (src : jsstr) (quoted : bool) (cell : jsstr) (row : list jsstr)
    (rows : list (list jsstr)) : list (list jsstr) :=
  match src with
  | [] =>
      if bool_decide (cell = []) && bool_decide (row = []) then rows
      else push_row rows (row ++ [cell])
  | ch :: src' =>
      if quoted then
        if ch =? c_quote then
          match src' with
          | u :: src'' =>
              if u =? c_quote then csv_loop src'' true (cell ++ [c_quote]) row rows
              else csv_loop src' false cell row rows
          | [] => csv_loop src' false cell row rows
          end
        else csv_loop src' true (cell ++ [ch]) row rows
      else if ch =? c_quote then csv_loop src' true cell row rows
      else if ch =? c_comma then csv_loop src' false [] (row ++ [cell]) rows
      else if ch =? c_lf then csv_loop src' false [] [] (push_row rows (row ++ [cell]))
      else csv_loop src' false (cell ++ [ch]) row rows
  end.

Definition csvRows (text : jsstr) : list (list jsstr) :=
  csv_loop (normalize_newlines text) false [] [] [].

(** One record of a CSV file as an object: the first column of a name wins, a
    missing cell is blank. *)
Definition csv_object (cols : list (option jsstr)) (cells : list jsstr) : obj :=
  foldl (fun o '(i, c) =>
           match c with
           | Some field =>
               match obj_get field o with
               | None => obj_put field (JStr (default [] (cells !! i))) o
               | Some _ => o
               end
           | None => o
           end) [] (imap pair cols).

Definition empty_file := JsError (js "the file is empty").
Definition no_items := JsError (js "no items found in the file").
Definition invalid_json := JsError (js "the file is not valid JSON").
Definition unrecognized_json := JsError (js "unrecognized JSON: expected an array of items").

Section Reading.
Context `{Unicode}.

(** The second loop of [normalize], over [Object.entries(row)]. *)
Fixpoint flatten (entries : obj) (flat : obj) : option obj :=
  match entries with
  | [] => Some flat
  | (key, value) :: es =>
      let lower := to_lower (trim key) in
      if in_list lower FAVORITE_KEYS then flatten es (obj_put (js "favorite") value flat)
      else
        match (if in_list key FIELDS then Some key else alias lower) with
        | Some field =>
            if truthy (obj_get field flat) then flatten es flat
            else v ← text_or_blank (Some value); flatten es (obj_put field v flat)
        | None => flatten es flat
        end
  end.

(** [normalize]; [None] is a TypeError. *)
Definition normalize_row (row : json) : option obj :=
  if bool_decide (row = JNull) then None
  else flat ← flatten (own_props row) (carry row); normalizeItemFields (JObj flat).

Definition parseJSON (text : jsstr) : list obj + exn :=
  match json_parse text with
  | None => inr invalid_json
  | Some data =>
      let arr := match data with
                 | JArr l => Some l
                 | _ => match get_prop (js "items") data with Some (JArr l) => Some l | _ => None end
                 end in
      match arr with
      | None => inr unrecognized_json
      | Some l =>
          match mapM normalize_row l with
          | Some its => inl (List.filter nonEmpty its)
          | None => inr JsTypeError
          end
      end
  end.

Definition csv_column (h : jsstr) : option jsstr :=
  let lower := to_lower (trim h) in
  match alias lower with
  | Some f => Some f
  | None => if in_list lower FAVORITE_KEYS then Some (js "favorite") else None
  end.

Definition parseCSV (text : jsstr) : list obj + exn :=
  match csvRows text with
  | [] => inl []
  | header :: rows =>
      let cols := map csv_column header in
      match mapM (fun cells => normalize_row (JObj (csv_object cols cells))) rows with
      | Some its => inl (List.filter nonEmpty its)
      | None => inr JsTypeError
      end
  end.

Definition parseVaultImport (text : jsstr) : list obj + exn :=
  let trimmed := trim text in
  match trimmed with
  | [] => inr empty_file
  | u :: _ =>
      let r := if (u =? c_lbrace) || (u =? c_lbrack) then parseJSON trimmed else parseCSV trimmed in
      match r with
      | inl [] => inr no_items
      | r => r
      end
  end.
End Reading.

(** ** Items without members of their own *)

(** An item with exactly the members of [ItemFields]. *)
Definition plain (it : obj) : Prop := item_wf it /\ keys it = keys (blankFields (js "login")).

Definition item_of_parts (t n u p l o x : jsstr) (c i : obj) (fs : list json) (b : bool) (f : jsstr) : obj :=
  [(js "type", JStr t); (js "name", JStr n); (js "username", JStr u); (js "password", JStr p);
   (js "url", JStr l); (js "totp", JStr o); (js "notes", JStr x); (js "card", JObj c);
   (js "identity", JObj i); (js "fields", JArr fs); (js "favorite", JBool b); (js "folder", JStr f)].

Lemma item_of_parts_wf t n u p l o x c i fs b f :
  t ∈ item_types -> over blankCard c -> over blankIdentity i -> Forall custom_ok fs ->
  item_wf (item_of_parts t n u p l o x c i fs b f).
Proof.
  intros Ht Hc Hi Hf. split.
  - exists [], (item_of_parts t n u p l o x c i fs b f), []. rewrite app_nil_r. by repeat split.
  - by exists t.
  - apply Forall_forall. repeat (constructor; [by eexists|]). constructor.
  - by exists c.
  - by exists i.
  - by exists fs.
  - by exists b.
Qed.

Lemma plain_parts it : plain it ->
  exists t n u p l o x c i fs b f, it = item_of_parts t n u p l o x c i fs b f.
Proof.
  intros [[_ (t & Ht & _) Hx (c & Hc & _) (i & Hi & _) (fs & Hf & _) (b & Hb)] Hk].
  do 12 (destruct it as [|[? ?] it]; [discriminate Hk|]). destruct it; [|discriminate Hk].
  cbn in Hk. injection Hk as -> -> -> -> -> -> -> -> -> -> -> ->.
  assert (Hs : Forall (fun k => exists s, obj_get k
    [(js "type", j); (js "name", j0); (js "username", j1); (js "password", j2);
     (js "url", j3); (js "totp", j4); (js "notes", j5); (js "card", j6); (js "identity", j7);
     (js "fields", j8); (js "favorite", j9); (js "folder", j10)] = Some (JStr s)) TEXT_KEYS).
  { apply Forall_forall. exact Hx. }
  repeat (apply Forall_cons in Hs as [[? E] Hs]; vm_compute in E; injection E as ->).
  vm_compute in Ht, Hc, Hi, Hf, Hb. injection Ht as ->. injection Hc as ->. injection Hi as ->.
  injection Hf as ->. injection Hb as ->. by do 12 eexists.
Qed.

Section Rows.
Context `{Unicode}.

Lemma lower_key k : k ∈ keys (blankFields (js "login")) -> to_lower (trim k) = k.
Proof.
  intros Hk. assert (Hall : Forall (fun k => ascii k /\ map ascii_lower (trim k) = k /\ ascii (trim k))
    (keys (blankFields (js "login")))).
  { repeat (constructor; [split_and!; [decide_forall|vm_compute; reflexivity|decide_forall]|]). constructor. }
  rewrite Forall_forall in Hall. destruct (Hall k Hk) as (_ & Hl & Ha). by rewrite to_lower_ascii.
Qed.

Lemma flatten_text k s es flat : k ∈ FIELDS -> obj_get k flat = None ->
  flatten ((k, JStr s) :: es) flat = flatten es (obj_put k (JStr s) flat).
Proof.
  intros Hk Hg. cbn [flatten].
  assert (Hall : Forall (fun k => k ∈ keys (blankFields (js "login")) /\
    in_list k FAVORITE_KEYS = false /\ in_list k FIELDS = true) FIELDS).
  { repeat (constructor; [split_and!; [apply (bool_decide_unpack _); by vm_compute|done..]|]). constructor. }
  rewrite Forall_forall in Hall. destruct (Hall k Hk) as (Hb & Hf & Hi).
  by rewrite lower_key, Hf, Hi, Hg by done.
Qed.

Lemma flatten_carried k v es flat : k ∈ CARRIED -> flatten ((k, v) :: es) flat = flatten es flat.
Proof.
  intros Hk. cbn [flatten].
  assert (Hall : Forall (fun k => k ∈ keys (blankFields (js "login")) /\
    in_list k FAVORITE_KEYS = false /\ in_list k FIELDS = false /\ alias k = None) CARRIED).
  { repeat (constructor; [split_and!; [apply (bool_decide_unpack _); by vm_compute|done..]|]). constructor. }
  rewrite Forall_forall in Hall. destruct (Hall k Hk) as (Hb & Hf & Hi & Ha).
  by rewrite lower_key, Hf, Hi, Ha by done.
Qed.

Lemma flatten_favorite v es flat :
  flatten ((js "favorite", v) :: es) flat = flatten es (obj_put (js "favorite") v flat).
Proof.
  cbn [flatten]. rewrite lower_key by (apply (bool_decide_unpack _); by vm_compute). done.
Qed.

(** A row of passwd's own export comes back as it is. *)
Lemma normalize_row_plain it : plain it -> normalize_row (JObj it) = Some it.
Proof.
  intros Hp. destruct (plain_parts it Hp) as (t & n & u & p & l & o & x & c & i & fs & b & f & E).
  unfold normalize_row. rewrite bool_decide_eq_false_2 by done. cbn [own_props].
  assert (Hfl : flatten it (carry (JObj it)) = Some
    [(js "type", JStr t); (js "card", JObj c); (js "identity", JObj i); (js "fields", JArr fs);
     (js "name", JStr n); (js "username", JStr u); (js "password", JStr p); (js "url", JStr l);
     (js "totp", JStr o); (js "notes", JStr x); (js "favorite", JBool b); (js "folder", JStr f)]).
  { rewrite E. unfold item_of_parts.
    repeat (first [rewrite flatten_carried by (apply (bool_decide_unpack _); by vm_compute)
                  |rewrite flatten_text by (reflexivity || (apply (bool_decide_unpack _); by vm_compute))
                  |rewrite flatten_favorite]). reflexivity. }
  rewrite Hfl. cbn [mbind option_bind]. rewrite <- (normalize_fixpoint it (proj1 Hp)).
  rewrite E. unfold normalizeItemFields. reflexivity.
Qed.
End Rows.

(** ** What an export keeps of an item *)

Definition ITEM_KEYS : list jsstr := keys (blankFields (js "login")).



(** The members every item has, in the order of an item: not its identifier, and
    nothing the program does not know. *)
Definition own_fields (it : obj) : obj := omap (fun k => pair k <$> obj_get k it) ITEM_KEYS.

Lemma own_fields_get it k : k ∈ ITEM_KEYS -> obj_get k (own_fields it) = obj_get k it.
Proof.
  unfold own_fields. induction ITEM_KEYS as [|j ks IH]; [by intros ?%not_elem_of_nil|].
  intros Hk. cbn [omap list_omap]. destruct (decide (k = j)) as [->|Hn].
  - destruct (obj_get j it) as [v|] eqn:E; cbn [fmap option_fmap option_map obj_get].
    + unfold str_eqb. by rewrite bool_decide_eq_true_2.
    + apply obj_get_None. intros Hin. apply list_elem_of_fmap in Hin as ([i v] & -> & Hin).
      apply list_elem_of_omap in Hin as (i' & _ & Hi). apply fmap_Some in Hi as (w & Hw & [= -> ->]). cbn in E. congruence.
  - apply elem_of_cons in Hk as [Hk|Hk]; [done|]. destruct (obj_get j it) as [v|]; cbn [fmap option_fmap option_map obj_get]; [|by apply IH].
    unfold str_eqb. rewrite bool_decide_eq_false_2 by done. by apply IH.
Qed.

Lemma own_fields_text it k : k ∈ ITEM_KEYS -> text_at k (own_fields it) = text_at k it.
Proof. intros Hk. unfold text_at. by rewrite own_fields_get. Qed.

Lemma own_fields_eq it it' : (forall k, k ∈ ITEM_KEYS -> obj_get k it = obj_get k it') -> own_fields it = own_fields it'.
Proof.
  intros He. unfold own_fields. induction ITEM_KEYS as [|k ks IH]; [done|]. cbn. rewrite He by (by left).
  rewrite IH; [done|]. intros j Hj. apply He. by right.
Qed.

(** The same, in the order the object has them. *)
Definition known_members (it : obj) : obj := List.filter (fun kv => in_list kv.1 ITEM_KEYS) it.

Lemma in_list_elem k l : in_list k l = true <-> k ∈ l.
Proof.
  unfold in_list. rewrite existsb_exists. setoid_rewrite <- list_elem_of_In. split.
  - intros (j & Hj & Hk%bool_decide_eq_true). by subst.
  - intros Hk. exists k. split; [done|]. by apply bool_decide_eq_true.
Qed.

Lemma known_members_get it k : k ∈ ITEM_KEYS -> obj_get k (known_members it) = obj_get k it.
Proof.
  intros Hk. induction it as [|[j v] it IH]; [done|]. unfold known_members. cbn [List.filter fst].
  destruct (in_list j ITEM_KEYS) eqn:E; cbn [obj_get]; [by destruct (str_eqb k j)|].
  unfold str_eqb. rewrite bool_decide_eq_false_2; [done|]. intros <-. apply in_list_elem in Hk. congruence.
Qed.

Lemma text_key_ITEM k : k ∈ TEXT_KEYS -> k ∈ ITEM_KEYS.
Proof. revert k. apply Forall_forall. apply (bool_decide_unpack _). vm_compute. exact I. Qed.

Lemma known_members_keys it : item_wf it -> keys (known_members it) = ITEM_KEYS.
Proof.
  intros [(I & B & X & -> & HB & HI & HX & Hok) _ _ _ _ _ _].
  assert (Hnone : forall l : obj, Forall (fun k => k ∉ ITEM_KEYS) (keys l) -> known_members l = []).
  { intros l Hl. induction l as [|[k v] l IH]; [done|]. apply Forall_cons in Hl as [Hk Hl].
    unfold known_members. cbn [List.filter fst]. destruct (in_list k ITEM_KEYS) eqn:E; [|by apply IH].
    by apply in_list_elem in E. }
  assert (Hall : forall l : obj, Forall (fun k => k ∈ ITEM_KEYS) (keys l) -> known_members l = l).
  { intros l Hl. induction l as [|[k v] l IH]; [done|]. apply Forall_cons in Hl as [Hk Hl].
    unfold known_members. cbn [List.filter]. apply in_list_elem in Hk. rewrite Hk. f_equal. by apply IH. }
  assert (Happ : forall l l' : obj, known_members (l ++ l') = known_members l ++ known_members l')
    by (intros; apply List.filter_app).
  rewrite !Happ, (Hnone I), (Hall B), (Hnone X); [by rewrite app_nil_r| | |].
  - apply keys_ok_NoDup in Hok. unfold keys in Hok. rewrite !map_app in Hok.
    apply NoDup_app in Hok as (_ & _ & Hok). apply NoDup_app in Hok as (_ & Hd & _).
    apply Forall_forall. intros k Hk Hin. apply (Hd k); [|done]. change (k ∈ keys B). by rewrite HB.
  - rewrite HB. by apply Forall_forall.
  - eapply Forall_impl; [exact HI|]. cbn. intros k Hk Hin. apply Hk.
    pose proof (blank_text (js "login")) as Ht. rewrite Forall_forall in Ht. by apply Ht.
Qed.

Lemma known_members_plain it : item_wf it -> plain (known_members it).
Proof.
  intros Hw. pose proof (known_members_keys it Hw) as Hk. split; [|exact Hk].
  destruct Hw as [_ Ht Hx Hc Hi Hf Hb]. split.
  - exists [], (known_members it), []. split_and!; [by rewrite app_nil_r|exact Hk|constructor|constructor|].
    rewrite Hk. vm_compute. reflexivity.
  - by rewrite known_members_get by (apply (bool_decide_unpack _); vm_compute; exact I).
  - intros k Hin. rewrite known_members_get by (by apply text_key_ITEM). by apply Hx.
  - by rewrite known_members_get by (apply (bool_decide_unpack _); vm_compute; exact I).
  - by rewrite known_members_get by (apply (bool_decide_unpack _); vm_compute; exact I).
  - by rewrite known_members_get by (apply (bool_decide_unpack _); vm_compute; exact I).
  - by rewrite known_members_get by (apply (bool_decide_unpack _); vm_compute; exact I).
Qed.

Lemma lookup_members (l : obj) : NoDup (keys l) -> omap (fun k => pair k <$> obj_get k l) (keys l) = l.
Proof.
  intros Hd. assert (Hs : forall k v, (k, v) ∈ l -> obj_get k l = Some v).
  { induction l as [|[j w] l IH]; intros k v Hin; [by apply not_elem_of_nil in Hin|].
    apply NoDup_cons in Hd as [Hj Hd]. cbn [obj_get]. unfold str_eqb. apply elem_of_cons in Hin as [[= -> ->]|Hin].
    - by rewrite bool_decide_eq_true_2.
    - rewrite bool_decide_eq_false_2; [by apply IH|]. intros ->. apply Hj. apply list_elem_of_fmap. by exists (j, v). }
  clear Hd. assert (Hg : forall (l' : obj), (forall k v, (k, v) ∈ l' -> obj_get k l = Some v) ->
    omap (fun k => pair k <$> obj_get k l) (keys l') = l').
  { intros l'. induction l' as [|[k v] l' IH]; intros Hl; [done|]. cbn. rewrite (Hl k v) by (by left). cbn.
    f_equal. apply IH. intros j w Hj. apply Hl. by right. }
  by apply Hg.
Qed.

Lemma known_own it : item_wf it -> known_members it = own_fields it.
Proof.
  intros Hw. pose proof (known_members_keys it Hw) as Hk. rewrite <- (lookup_members (known_members it)).
  - rewrite Hk. change (own_fields (known_members it) = own_fields it). apply own_fields_eq. apply known_members_get.
  - rewrite Hk. apply (bool_decide_unpack _). vm_compute. exact I.
Qed.

(** Some text of the item, other than its folder. *)
Definition has_text (it : obj) : Prop :=
  Exists (fun k => text_at (js k) it <> [])
    ["name"%string; "username"%string; "password"%string; "url"%string; "notes"%string; "totp"%string].

(** A text of the card or of the identity. *)
Definition part_text (k j : jsstr) (it : obj) : jsstr :=
  match obj_get k it with Some (JObj c) => text_at j c | _ => [] end.

(** Something by which an import knows an item from an empty row: one of its
    texts, the number of the card, the full name or the email of the identity, or
    a custom field. *)
Definition has_content (it : obj) : Prop :=
  has_text it \/ part_text (js "card") (js "number") it <> [] \/
  part_text (js "identity") (js "fullName") it <> [] \/ part_text (js "identity") (js "email") it <> [] \/
  exists f fs, obj_get (js "fields") it = Some (JArr (f :: fs)).

Lemma text_truthy k it : text_at k it <> [] -> truthy (obj_get k it) = true.
Proof. unfold text_at. by destruct (obj_get k it) as [[| | |[]| |]|]. Qed.

Lemma has_text_nonEmpty it : has_text it -> nonEmpty it = true.
Proof.
  unfold has_text, nonEmpty. rewrite !Exists_cons. rewrite !orb_true_iff.
  intros [H|[H|[H|[H|[H|[H|H%Exists_nil]]]]]]; [apply text_truthy in H; tauto..|done].
Qed.

Lemma own_has_content it : has_content it -> has_content (own_fields it).
Proof.
  intros [Ht|Hc]; [left|right].
  - unfold has_text in *. rewrite Exists_exists in *. destruct Ht as (k & Hk & Ht). exists k. split; [done|].
    rewrite own_fields_text; [done|]. clear Ht. revert k Hk. apply Forall_forall. apply (bool_decide_unpack _). vm_compute. exact I.
  - unfold part_text in *.
    by rewrite !own_fields_get by (apply (bool_decide_unpack _); vm_compute; exact I).
Qed.

Lemma has_content_nonEmpty it : has_content it -> nonEmpty it = true.
Proof.
  intros [Ht|Hc]; [by apply has_text_nonEmpty|]. unfold nonEmpty. rewrite !orb_true_iff.
  assert (Hp : forall k j, part_text k j it <> [] ->
    truthy (match obj_get k it with Some v => get_prop j v | None => None end) = true).
  { intros k j. unfold part_text. destruct (obj_get k it) as [[| | | | |c]|]; try done. apply text_truthy. }
  destruct Hc as [H|[H|[H|(f & fs & ->)]]]; [apply Hp in H; tauto..|tauto].
Qed.

(** What an editor saves has some of it. *)
Lemma named_has_text it : nameless it = false -> has_text it.
Proof.
  unfold nameless, has_text. rewrite !Exists_cons. intros Hn.
  assert (Ht : forall t : jsstr, trim t <> [] -> t <> []) by (by intros ? ? ->).
  destruct (trim (text_at (js "name") it)) eqn:E1; [|left; apply Ht; by rewrite E1].
  destruct (trim (text_at (js "username") it)) eqn:E2; [|right; left; apply Ht; by rewrite E2].
  destruct (trim (text_at (js "url") it)) eqn:E3; [done|do 3 right; left; apply Ht; by rewrite E3].
Qed.

Section Exports.
Context `{Unicode}.

(** The name of a member beside an item's own that is not a spelling of one of
    them: [id], for one. *)
Definition foreign (k : jsstr) : Prop :=
  in_list (to_lower (trim k)) FAVORITE_KEYS = false /\ alias (to_lower (trim k)) = None.

(** An item of the vault: all members of an item, wherever its identifier and
    others stand, and none of the others spelled like one of them. *)
Definition exportable (it : obj) : Prop :=
  item_wf (own_fields it) /\ NoDup (keys it) /\ Forall (fun k => k ∈ ITEM_KEYS \/ foreign k) (keys it).

Lemma own_fields_plain it : plain it -> own_fields it = it.
Proof. intros Hp. by destruct (plain_parts it Hp) as (t & n & u & p & l & o & y & c & i & fs & b & f & ->). Qed.

Lemma plain_exportable it : plain it -> exportable it.
Proof.
  intros Hp. split; [rewrite own_fields_plain by done; apply Hp|]. destruct Hp as [_ Hk]. rewrite Hk.
  split; [apply (bool_decide_unpack _); vm_compute; exact I|]. apply Forall_forall. by left.
Qed.

(** The items of a list have their identifier first. *)
Lemma listed_exportable it x : plain it -> exportable ((js "id", x) :: it) /\ own_fields ((js "id", x) :: it) = it.
Proof.
  intros Hp. assert (Ho : own_fields ((js "id", x) :: it) = it).
  { by destruct (plain_parts it Hp) as (t & n & u & p & l & o & y & c & i & fs & b & f & ->). }
  split; [|done]. split; [by rewrite Ho; apply Hp|]. destruct Hp as [_ Hk].
  change (keys ((js "id", x) :: it)) with (js "id" :: keys it). rewrite Hk.
  split; [apply (bool_decide_unpack _); vm_compute; exact I|].
  constructor; [|apply Forall_forall; by left]. right. unfold foreign.
  change (trim (js "id")) with (js "id"). rewrite to_lower_ascii by decide_forall. done.
Qed.

Lemma flatten_known es flat : Forall (fun k => k ∈ ITEM_KEYS \/ foreign k) (keys es) ->
  flatten es flat = flatten (known_members es) flat.
Proof.
  revert flat. induction es as [|[k v] es IH]; intros flat Hf; [done|]. apply Forall_cons in Hf as [Hk Hf].
  unfold known_members. cbn [List.filter fst]. fold (known_members es). destruct (in_list k ITEM_KEYS) eqn:E.
  - cbn [flatten]. destruct (in_list (to_lower (trim k)) FAVORITE_KEYS); [by apply IH|].
    destruct (if in_list k FIELDS then Some k else alias (to_lower (trim k))); [|by apply IH].
    destruct (truthy _); [by apply IH|]. destruct (text_or_blank _); [|done]. by apply IH.
  - destruct Hk as [Hk%in_list_elem|[Hfav Ha]]; [cbn [fst] in Hk; congruence|]. cbn [flatten fst] in *. rewrite Hfav.
    assert (in_list k FIELDS = false) as ->; [|rewrite Ha; by apply IH].
    apply not_true_iff_false. intros Hin%in_list_elem. apply not_true_iff_false in E. apply E, in_list_elem.
    apply text_key_ITEM. revert Hin. clear. revert k. apply Forall_forall. apply (bool_decide_unpack _). vm_compute. exact I.
Qed.

(** A row of passwd's own export, unknown members and all, comes back as the item. *)
Lemma normalize_row_exported it : item_wf it -> Forall (fun k => k ∈ ITEM_KEYS \/ foreign k) (keys it) ->
  normalize_row (JObj it) = Some (own_fields it).
Proof.
  intros Hw Hf. rewrite <- (normalize_row_plain (own_fields it)) by (rewrite <- known_own by done; by apply known_members_plain).
  unfold normalize_row. rewrite !bool_decide_eq_false_2 by done. cbn [own_props].
  rewrite (flatten_known it), known_own by done.
  assert (carry (JObj it) = carry (JObj (own_fields it))) as ->; [|done].
  unfold carry, CARRIED. cbn [foldl get_prop].
  by rewrite !own_fields_get by (apply (bool_decide_unpack _); vm_compute; exact I).
Qed.

(** What the export writes of an item. *)
Lemma export_row it : exportable it -> exists out, normalizeItemFields (JObj it) = Some out /\
  item_wf out /\ own_fields out = own_fields it /\ Forall (fun k => k ∈ ITEM_KEYS \/ foreign k) (keys out).
Proof.
  intros ([_ (t & Ht & Htin) Hx (c & Hc & Hco) (i & Hi & Hio) (l & Hf & Hl) (b & Hb)] & Hd & Hk).
  rewrite !own_fields_get in Ht, Hc, Hi, Hf, Hb by (apply (bool_decide_unpack _); vm_compute; exact I).
  assert (Hx' : forall k, k ∈ TEXT_KEYS -> exists s, obj_get k it = Some (JStr s)).
  { intros k Hin. destruct (Hx k Hin) as [s Hs]. exists s. by rewrite <- own_fields_get by (by apply text_key_ITEM). }
  destruct (normalizeItemFields (JObj it)) as [out|] eqn:E.
  2: { apply normalize_fails in E as [E|[E|(k & Hin & E)]].
       - by rewrite Hf, norm_customs_same in E.
       - by rewrite Hb, norm_favorite_same in E.
       - destruct (Hx' k Hin) as [s Hs]. by rewrite Hs in E. }
  exists out. split; [done|]. split; [by eapply normalize_wf|].
  apply normalize_members in E as (_ & Gt & Gc & Gi & (cs & Hcs & Gf) & (f & Hfv & Gb) & Gx & Gu).
  cbn [get_prop own_props] in *. split.
  - apply own_fields_eq. intros k Hin.
    assert (Hcase : k = js "type" \/ k = js "card" \/ k = js "identity" \/ k = js "fields" \/ k = js "favorite" \/ k ∈ TEXT_KEYS).
    { revert Hin. revert k. apply Forall_forall. repeat (constructor; [by (repeat first [by left|right; by left|right])||set_solver|]). constructor. }
    destruct Hcase as [->|[->|[->|[->|[->|Hin']]]]].
    + by rewrite Gt, Ht, norm_type_same.
    + rewrite Gc, Hc. cbn [object_or_empty]. by rewrite (assign_over blankCard c) by (done || apply blankCard_text).
    + rewrite Gi, Hi. cbn [object_or_empty]. by rewrite (assign_over blankIdentity i) by (done || apply blankIdentity_text).
    + rewrite Gf, <- Hcs, Hf. by apply norm_customs_same.
    + rewrite Gb, <- Hfv, Hb. by apply norm_favorite_same.
    + destruct (Gx k Hin') as (v & Hv & ->). destruct (Hx' k Hin') as [s Hs]. rewrite Hs in Hv |- *. by injection Hv as <-.
  - apply Forall_forall. intros k Hin. destruct (decide (k ∈ ITEM_KEYS)) as [|Hn]; [by left|].
    assert (Hg : obj_get k out <> None) by (intros Hnone%obj_get_None; done).
    rewrite Gu, obj_get_assign in Hg by done. destruct (obj_get k it) as [v|] eqn:Ek.
    + rewrite Forall_forall in Hk. apply Hk. destruct (decide (k ∈ keys it)) as [|Hn']; [done|]. apply obj_get_None in Hn'. congruence.
    + exfalso. apply Hg. by apply obj_get_None.
Qed.
End Exports.

(** ** The CSV reader reads the CSV writer *)

(** Text as the import reads it: every line ending, CR LF, CR or LF, is one LF.
    [cr] says that the text before it ended in a CR. *)
Fixpoint unix_from (cr : bool) (s : jsstr) : jsstr :=
  match s with
  | [] => []
  | u :: s' =>
      if u =? c_cr then c_lf :: unix_from true s'
      else if (u =? c_lf) && cr then unix_from false s'
      else u :: unix_from false s'
  end.
Definition unix_text (s : jsstr) : jsstr := unix_from false s.

Lemma unix_empty s : unix_text s = [] <-> s = [].
Proof. destruct s as [|u s]; [done|]. unfold unix_text. cbn. rewrite andb_false_r. by case_match. Qed.

(** What does not begin with an LF is read on its own. *)
Lemma unix_app s t : head t <> Some c_lf -> forall b, unix_from b (s ++ t) = unix_from b s ++ unix_text t.
Proof.
  intros Ht. induction s as [|u s IH]; intros b; cbn [app unix_from].
  - unfold unix_text. destruct t as [|v t]; [done|]. cbn [unix_from].
    destruct (Z.eqb_spec v c_lf) as [->|]; [done|]. by case_match.
  - case_match; [by rewrite IH|]. case_match; by rewrite IH.
Qed.

(** The two replacements of the reader do just this. *)
Lemma normalize_newlines_unix s : normalize_newlines s = unix_text s.
Proof.
  unfold normalize_newlines, unix_text.
  set (lf := map (fun u => if u =? c_cr then c_lf else u)).
  enough (forall n s, (length s <= n)%nat -> lf (crlf_to_lf s) = unix_from false s /\
    (forall u s', s = u :: s' -> u <> c_lf -> lf (crlf_to_lf s) = unix_from true s)) as Hg by (by eapply Hg).
  clear s. induction n as [|n IH]; intros [|u s] Hs; cbn [length] in Hs; try lia; try (split; [done|by intros]).
  assert (Hu : u <> c_cr -> lf (crlf_to_lf (u :: s)) = u :: unix_from false s).
  { intros Hn. cbn [crlf_to_lf]. destruct (Z.eqb_spec u c_cr); [done|]. cbn [lf map].
    destruct (Z.eqb_spec u c_cr); [done|]. f_equal. apply IH. lia. }
  assert (Hc : u = c_cr -> lf (crlf_to_lf (u :: s)) = c_lf :: unix_from true s).
  { intros ->. cbn [crlf_to_lf]. rewrite Z.eqb_refl. destruct s as [|v s]; [done|].
    destruct (Z.eqb_spec v c_lf) as [->|Hn].
    - change (lf (c_lf :: crlf_to_lf s)) with (c_lf :: lf (crlf_to_lf s)). f_equal. cbn [unix_from].
      change ((c_lf =? c_lf) && true) with true. change (c_lf =? c_cr) with false. cbv iota. apply IH. cbn [length] in Hs. lia.
    - change (lf (c_cr :: crlf_to_lf (v :: s))) with (c_lf :: lf (crlf_to_lf (v :: s))). f_equal.
      eapply IH; [|reflexivity|done]. cbn [length] in *. lia. }
  destruct (Z.eqb_spec u c_cr) as [->|Hn].
  - split; [by apply Hc|]. intros ? ? _ _. by apply Hc.
  - split; [|intros ? ? [= <- <-] Hlf]; rewrite Hu by done; cbn [unix_from]; destruct (Z.eqb_spec u c_cr); try done.
    + by rewrite andb_false_r.
    + by destruct (Z.eqb_spec u c_lf).
Qed.

Lemma unix_double_quotes s : forall b, unix_from b (double_quotes s) = double_quotes (unix_from b s).
Proof.
  induction s as [|u s IH]; intros b; [done|]. cbn [double_quotes unix_from].
  destruct (Z.eqb_spec u c_quote) as [->|Hq].
  - cbn [unix_from]. change (c_quote =? c_cr) with false. change (c_quote =? c_lf) with false. cbv iota beta. cbn [andb].
    cbn [double_quotes]. rewrite Z.eqb_refl. by rewrite IH.
  - cbn [unix_from]. destruct (Z.eqb_spec u c_cr); [cbn [double_quotes]; change (c_lf =? c_quote) with false; by rewrite IH|].
    destruct ((u =? c_lf) && b); [by rewrite IH|]. cbn [double_quotes]. destruct (Z.eqb_spec u c_quote); [done|]. by rewrite IH.
Qed.

Lemma unix_special s : existsb csv_special (unix_text s) = existsb csv_special s.
Proof.
  unfold unix_text. induction s as [|u s IH]; [done|]. cbn [unix_from existsb].
  destruct (Z.eqb_spec u c_cr) as [->|Hn]; [done|]. rewrite andb_false_r. cbn [existsb]. by rewrite IH.
Qed.

Lemma unix_csvEscape s : unix_text (csvEscape s) = csvEscape (unix_text s).
Proof.
  unfold csvEscape. rewrite unix_special. destruct (existsb csv_special s); [|done].
  change (unix_text (c_quote :: double_quotes s ++ [c_quote])) with (c_quote :: unix_from false (double_quotes s ++ [c_quote])).
  by rewrite unix_app, unix_double_quotes.
Qed.

Lemma unix_row cells : unix_text (join [c_comma] cells) = join [c_comma] (map unix_text cells).
Proof.
  induction cells as [|s l IH]; [done|]. destruct l as [|t l]; [done|].
  change (join [c_comma] (s :: t :: l)) with (s ++ c_comma :: join [c_comma] (t :: l)).
  unfold unix_text at 1. rewrite unix_app by done.
  change (unix_text (c_comma :: ?x)) with (c_comma :: unix_text x). by rewrite IH.
Qed.

Lemma unix_lines rows : unix_text (join [c_cr; c_lf] rows) = join [c_lf] (map unix_text rows).
Proof.
  induction rows as [|s l IH]; [done|]. destruct l as [|t l]; [done|].
  change (join [c_cr; c_lf] (s :: t :: l)) with (s ++ c_cr :: c_lf :: join [c_cr; c_lf] (t :: l)).
  unfold unix_text at 1. rewrite unix_app by done.
  change (unix_text (c_cr :: c_lf :: ?x)) with (c_lf :: unix_text x). by rewrite IH.
Qed.

(** What follows a cell: a separator, or the end of the text. *)
Definition ends_cell (rest : jsstr) : Prop :=
  match rest with [] => True | u :: _ => u = c_comma \/ u = c_lf end.

Lemma csv_quoted s rest cell row rows : ends_cell rest ->
  csv_loop (double_quotes s ++ c_quote :: rest) true cell row rows
  = csv_loop rest false (cell ++ s) row rows.
Proof.
  intros Hr. revert cell. induction s as [|u s IH]; intros cell; cbn [double_quotes app].
  - rewrite app_nil_r. cbn [csv_loop]. destruct rest as [|v rest]; [done|].
    change (c_quote =? c_quote) with true. cbv iota.
    by destruct (Z.eqb_spec v c_quote) as [->|]; [destruct Hr|].
  - destruct (Z.eqb_spec u c_quote) as [->|Hu].
    + cbn [app csv_loop]. change (c_quote =? c_quote) with true. cbv iota. rewrite IH. by rewrite <- app_assoc.
    + cbn [app csv_loop]. destruct (Z.eqb_spec u c_quote); [done|]. rewrite IH. by rewrite <- app_assoc.
Qed.

Lemma csv_bare s rest cell row rows : existsb csv_special s = false ->
  csv_loop (s ++ rest) false cell row rows = csv_loop rest false (cell ++ s) row rows.
Proof.
  revert cell. induction s as [|u s IH]; intros cell; [by rewrite app_nil_r|].
  cbn [existsb]. intros [Hu Hs]%orb_false_iff. unfold csv_special in Hu. bool_prop.
  cbn [app csv_loop]. zcases. rewrite IH by done. by rewrite <- app_assoc.
Qed.

Lemma csv_escaped s rest row rows : ends_cell rest ->
  csv_loop (csvEscape s ++ rest) false [] row rows = csv_loop rest false s row rows.
Proof.
  intros Hr. unfold csvEscape. destruct (existsb csv_special s) eqn:E; [|by apply csv_bare].
  cbn [app csv_loop]. change (c_quote =? c_quote) with true. cbv iota.
  rewrite <- app_assoc. by apply csv_quoted.
Qed.

(** A line of cells, and what comes after it. *)
Lemma csv_cells cs c rest row rows : ends_cell rest ->
  csv_loop (join [c_comma] (map csvEscape (cs ++ [c])) ++ rest) false [] row rows
  = csv_loop rest false c (row ++ cs) rows.
Proof.
  intros Hr. revert row. induction cs as [|d cs IH]; intros row; [cbn; rewrite app_nil_r; by apply csv_escaped|].
  change ((d :: cs) ++ [c]) with (d :: (cs ++ [c])). cbn [map].
  rewrite join_cons by (by destruct cs). rewrite <- !app_assoc, csv_escaped by (by left).
  cbn [app csv_loop]. change (c_comma =? c_quote) with false. change (c_comma =? c_comma) with true. cbv iota.
  rewrite IH. by rewrite <- app_assoc.
Qed.

Definition csv_row_text (cells : list jsstr) : jsstr := join [c_comma] (map csvEscape cells).

(** Lines joined by line feeds come back as their cells, blank lines dropped. *)
Lemma csv_lines lines rows : Forall (fun l => exists cs c, l = cs ++ [c] /\ cs <> []) lines ->
  csv_loop (join [c_lf] (map csv_row_text lines)) false [] [] rows
  = rows ++ List.filter keep_row lines.
Proof.
  intros Hl. revert rows. induction Hl as [|l lines (cs & c & -> & Hne) Hl IH]; intros rows.
  { cbn. by rewrite app_nil_r. }
  assert (Hpush : forall rows, push_row rows (cs ++ [c]) = rows ++ (if keep_row (cs ++ [c]) then [cs ++ [c]] else [])).
  { intros rs. unfold push_row. by destruct (keep_row _); [|rewrite app_nil_r]. }
  cbn [List.filter map]. destruct lines as [|l2 lines].
  - cbn [map join List.filter]. unfold csv_row_text.
    rewrite <- (app_nil_r (join [c_comma] _)), (csv_cells cs c [] [] rows I). cbn [csv_loop app].
    rewrite (bool_decide_eq_false_2 (cs = [])), andb_false_r by done.
    rewrite Hpush. by destruct (keep_row _).
  - change (join [c_lf] (csv_row_text (cs ++ [c]) :: map csv_row_text (l2 :: lines)))
      with (csv_row_text (cs ++ [c]) ++ c_lf :: join [c_lf] (map csv_row_text (l2 :: lines))).
    unfold csv_row_text at 1. rewrite csv_cells by (by right). cbn [csv_loop app].
    change (c_lf =? c_quote) with false. change (c_lf =? c_comma) with false.
    change (c_lf =? c_lf) with true. cbv iota. rewrite IH, Hpush, <- app_assoc.
    by destruct (keep_row (cs ++ [c])).
Qed.

Lemma csvRows_lines lines :
  Forall (fun l => exists cs c, l = cs ++ [c] /\ cs <> []) lines ->
  csvRows (join [c_cr; c_lf] (map csv_row_text lines)) = List.filter keep_row (map (map unix_text) lines).
Proof.
  intros Hl. unfold csvRows. rewrite normalize_newlines_unix, unix_lines, map_map.
  assert (map (fun l => unix_text (csv_row_text l)) lines = map csv_row_text (map (map unix_text) lines)) as ->.
  { rewrite map_map. apply map_ext. intros l. unfold csv_row_text. rewrite unix_row, !map_map. f_equal.
    apply map_ext. apply unix_csvEscape. }
  rewrite csv_lines; [done|]. apply Forall_map. eapply Forall_impl; [exact Hl|].
  intros l (cs & c & -> & Hne). exists (map unix_text cs), (unix_text c). rewrite map_app. split; [done|]. by destruct cs.
Qed.

(** ** What CSV keeps of an item *)

Definition csv_cells_of (it : obj) : list jsstr :=
  map (fun k => text_at k it) FIELDS ++ [if favorite_of it then js "1" else []].

(** A login with the texts of the item, one LF for every line ending, and its
    favorite mark; everything else blank. *)
Definition csv_view (it : obj) : obj :=
  let text k := unix_text (text_at (js k) it) in
  item_of_parts (js "login") (text "name"%string) (text "username"%string)
    (text "password"%string) (text "url"%string) (text "totp"%string)
    (text "notes"%string) blankCard blankIdentity [] (favorite_of it) (text "folder"%string).

Lemma FIELDS_text k : k ∈ FIELDS -> k ∈ TEXT_KEYS.
Proof.
  revert k. apply Forall_forall. apply (bool_decide_unpack _). vm_compute. exact I.
Qed.

Lemma csv_line_cells it : item_wf (own_fields it) -> csv_line it = Some (csv_row_text (csv_cells_of it)).
Proof.
  intros Hw. unfold csv_line.
  assert (mapM (fun f => csv_cell (obj_get f it)) FIELDS
          = Some (map csvEscape (map (fun k => text_at k it) FIELDS))) as ->.
  { assert (Hall : Forall (fun f => csv_cell (obj_get f it) = Some (csvEscape (text_at f it))) FIELDS).
    { apply Forall_forall. intros f Hf. destruct (wf_text _ Hw f (FIELDS_text f Hf)) as [s Hs].
      rewrite own_fields_get in Hs by (by apply text_key_ITEM, FIELDS_text). unfold text_at. by rewrite Hs. }
    induction Hall as [|f fs Hf _ IH]; [done|]. cbn. rewrite Hf. cbn. by rewrite IH. }
  cbn [mbind option_bind]. f_equal. unfold csv_row_text, csv_cells_of. rewrite map_app. do 2 f_equal.
  unfold favorite_of. by destruct (truthy _).
Qed.

Lemma toCSV_rows items : Forall (fun it => item_wf (own_fields it)) items ->
  toCSV items = Some (join [c_cr; c_lf] (map csv_row_text
    ((FIELDS ++ [js "favorite"]) :: map csv_cells_of items))).
Proof.
  intros Hw. unfold toCSV.
  assert (mapM csv_line items = Some (map csv_row_text (map csv_cells_of items))) as ->; [|done].
  apply mapM_Some. induction Hw as [|it items Hit _ IH]; [constructor|].
  constructor; [by apply csv_line_cells|exact IH].
Qed.

Section CsvImport.
Context `{Unicode}.

Lemma csv_columns : map csv_column (FIELDS ++ [js "favorite"]) = map Some (FIELDS ++ [js "favorite"]).
Proof.
  apply map_ext_Forall. apply Forall_forall. intros k Hk. unfold csv_column.
  assert (Hall : Forall (fun k => k ∈ keys (blankFields (js "login")) /\
    match alias k with Some f => Some f | None => if in_list k FAVORITE_KEYS then Some (js "favorite") else None end
    = Some k) (FIELDS ++ [js "favorite"])).
  { repeat (constructor; [split; [apply (bool_decide_unpack _); by vm_compute|done]|]). constructor. }
  rewrite Forall_forall in Hall. destruct (Hall k Hk) as [Hb Hc]. by rewrite lower_key.
Qed.

Lemma favorite_cell (b : bool) : norm_favorite (Some (JStr (if b then js "1" else []))) = Some (JBool b).
Proof.
  unfold norm_favorite. rewrite bool_decide_eq_false_2 by (by destruct b).
  cbn [js_to_string json_to_string mbind option_bind].
  rewrite to_lower_ascii by (destruct b; decide_forall). by destruct b.
Qed.

Lemma csv_record it :
  normalize_row (JObj (csv_object (map Some (FIELDS ++ [js "favorite"])) (map unix_text (csv_cells_of it))))
  = Some (csv_view it).
Proof.
  unfold csv_view, csv_cells_of. cbn [map app FIELDS].
  assert (unix_text (if favorite_of it then js "1" else []) = if favorite_of it then js "1" else []) as ->
    by (by destruct (favorite_of it)).
  generalize (unix_text (text_at (js "name") it)) as n, (unix_text (text_at (js "url") it)) as l,
    (unix_text (text_at (js "username") it)) as u, (unix_text (text_at (js "password") it)) as p,
    (unix_text (text_at (js "totp") it)) as o, (unix_text (text_at (js "notes") it)) as x,
    (unix_text (text_at (js "folder") it)) as f, (favorite_of it) as b. intros n l u p o x f b.
  set (c := if b then js "1" else []).
  set (row := [(js "name", JStr n); (js "url", JStr l); (js "username", JStr u); (js "password", JStr p);
     (js "totp", JStr o); (js "notes", JStr x); (js "folder", JStr f); (js "favorite", JStr c)]).
  change (csv_object _ _) with row.
  unfold normalize_row. rewrite bool_decide_eq_false_2 by done. cbn [own_props].
  change (carry (JObj row)) with (@nil (jsstr * json)).
  assert (flatten row [] = Some row) as ->.
  { unfold row. repeat (first [rewrite flatten_text by (reflexivity || (apply (bool_decide_unpack _); by vm_compute))
                              |rewrite flatten_favorite]). reflexivity. }
  cbn [mbind option_bind].
  transitivity (f' ← norm_favorite (Some (JStr c));
    Some (obj_put (js "favorite") f' (item_of_parts (js "login") n u p l o x blankCard blankIdentity [] false f)));
    [reflexivity|].
  unfold c. by rewrite favorite_cell.
Qed.

Lemma kept_row it : has_text it -> keep_row (map unix_text (csv_cells_of it)) = true /\ nonEmpty (csv_view it) = true.
Proof.
  intros Ht. apply Exists_exists in Ht as (k & Hk & Ht). assert (Hu : unix_text (text_at (js k) it) <> []) by (by rewrite unix_empty).
  split.
  - apply existsb_exists. exists (unix_text (text_at (js k) it)).
    split; [|by apply negb_true_iff, bool_decide_eq_false]. apply in_map, in_or_app. left.
    change (text_at (js k) it) with ((fun k => text_at k it) (js k)). apply in_map, list_elem_of_In.
    revert Hk. clear. revert k. apply Forall_forall. apply (bool_decide_unpack _). vm_compute. exact I.
  - apply has_text_nonEmpty, Exists_exists. exists k. split; [done|].
    assert (text_at (js k) (csv_view it) = unix_text (text_at (js k) it)) as ->; [|done].
    revert Hk. clear. revert k. apply Forall_forall. repeat (constructor; [reflexivity|]). constructor.
Qed.

Lemma parse_records items : Forall has_text items ->
  mapM (fun cells => normalize_row (JObj (csv_object (map Some (FIELDS ++ [js "favorite"])) cells)))
    (List.filter keep_row (map (map unix_text) (map csv_cells_of items)))
  = Some (map csv_view items) /\ List.filter nonEmpty (map csv_view items) = map csv_view items.
Proof.
  intros Ht. rewrite mapM_Some. induction Ht as [|it items Hit _ [IH1 IH2]]; [split; [constructor|done]|].
  destruct (kept_row it Hit) as [Hk Hn]. cbn [map List.filter]. rewrite Hk, Hn, IH2. split; [|done].
  constructor; [apply csv_record|exact IH1].
Qed.
End CsvImport.

(** The file begins with the header and ends with a cell or a comma: trimming
    does not touch it. *)
Lemma join_snoc sep l s : exists p, join sep (l ++ [s]) = p ++ s.
Proof.
  induction l as [|t l [p IH]]; [by exists []|]. cbn [app]. rewrite join_cons by (by destruct l).
  rewrite IH. exists (t ++ sep ++ p). by rewrite <- !app_assoc.
Qed.

Lemma csv_line_end cells c : cells <> [] -> c = [] \/ c = js "1" ->
  exists p e, csv_row_text (cells ++ [c]) = p ++ [e] /\ is_ws e = false.
Proof.
  intros Hn Hc. unfold csv_row_text. rewrite map_app. cbn [map].
  assert (csvEscape c = c) as -> by (by destruct Hc as [-> | ->]).
  destruct cells as [|d cells]; [done|]. clear Hn. revert d.
  induction cells as [|d' cells IH]; intros d.
  - cbn. destruct Hc as [-> | ->]; [exists (csvEscape d), c_comma|exists (csvEscape d ++ [c_comma]), 49];
      by rewrite <- ?app_assoc.
  - destruct (IH d') as (p & e & E & He). cbn [map app] in *. rewrite join_cons by done. rewrite E.
    exists (csvEscape d ++ [c_comma] ++ p), e. by rewrite <- !app_assoc.
Qed.

Lemma csv_text_trimmed items :
  let text := join [c_cr; c_lf] (map csv_row_text ((FIELDS ++ [js "favorite"]) :: map csv_cells_of items)) in
  trim text = text /\ exists r, text = 110 :: r.
Proof.
  cbv zeta. set (text := join _ _).
  assert (Hh : exists r, text = 110 :: r).
  { unfold text. cbn [map]. destruct (map csv_row_text (map csv_cells_of items)); by eexists. }
  split; [|exact Hh]. apply trimmed_trim. split; [by destruct Hh as [r ->]|].
  enough (exists p e, text = p ++ [e] /\ is_ws e = false) as (p & e & -> & He) by (by rewrite last_snoc).
  unfold text. destruct items as [|it items _] using rev_ind; [by eexists (js "name,url,username,password,totp,notes,folder,favorit"), _|].
  rewrite map_app. cbn [map]. rewrite map_app. cbn [map]. rewrite app_comm_cons.
  destruct (join_snoc [c_cr; c_lf] (csv_row_text (FIELDS ++ [js "favorite"]) :: map csv_row_text (map csv_cells_of items))
    (csv_row_text (csv_cells_of it))) as [p ->].
  destruct (csv_line_end (map (fun k => text_at k it) FIELDS) (if favorite_of it then js "1" else []))
    as (q & e & E & He); [done|destruct (favorite_of it); auto|].
  unfold csv_cells_of. rewrite E. exists (p ++ q), e. by rewrite <- app_assoc.
Qed.

(** ** Theorems *)
Section Theorems.
Context `{Unicode}.

Lemma export_json_ok its : Forall (fun it => json_ok (JObj it)) its ->
  json_ok (obj_of [(js "format", Some (JStr EXPORT_FORMAT));
                   (js "version", Some (JNum (NInt EXPORT_VERSION)));
                   (js "items", Some (JArr (map JObj its)))]).
Proof.
  intros Hj. apply json_ok_obj. split; [vm_compute; reflexivity|].
  do 2 (constructor; [split; [decide_forall|first [decide_forall|cbn; lia]]|]).
  constructor; [split; [decide_forall|]|constructor]. apply json_ok_arr. by apply Forall_map.
Qed.

Lemma stringify2_object_trimmed o : o <> [] -> trim (stringify2 (JObj o)) = stringify2 (JObj o) /\
  exists r, stringify2 (JObj o) = c_lbrace :: r.
Proof.
  intros Ho. unfold stringify2. cbn [stringify_at].
  destruct (layout_shape c_lbrace c_rbrace [c_space; c_space] []
    (map (fun '(k, w) => quote k ++ key_sep [c_space; c_space] ++
       stringify_at [c_space; c_space] ([] ++ [c_space; c_space]) w) o))
    as (w1 & w2 & _ & _ & ->); [by repeat constructor|constructor|by destruct o|].
  split; [|by eexists]. apply trimmed_trim. split; [done|].
  by rewrite app_comm_cons, !app_assoc, last_snoc.
Qed.

Lemma kept_all its : Forall has_content its ->
  List.filter nonEmpty (map own_fields its) = map own_fields its.
Proof.
  induction 1 as [|it its Hit _ IH]; [done|]. cbn [map List.filter].
  rewrite has_content_nonEmpty; [by rewrite IH|]. by apply own_has_content.
Qed.

Lemma toPlaintextJSON_text items
  (Hp : Forall exportable items) (Hj : Forall (fun it => json_ok (JObj it)) items) :
  exists text, toPlaintextJSON items = Some text /\ text_ok text /\
    parseVaultImport text = match List.filter nonEmpty (map own_fields items) with [] => inr no_items | l => inl l end.
Proof.
  assert (Ho : exists outs, mapM (fun i => normalizeItemFields (JObj i)) items = Some outs /\
    Forall (fun it => json_ok (JObj it)) outs /\ mapM normalize_row (map JObj outs) = Some (map own_fields items)).
  { induction Hp as [|it its Hit _ IH]; [by exists []|]. apply Forall_cons in Hj as [Hji Hj].
    destruct (IH Hj) as (outs & Hm & Hjs & Hr). destruct (export_row it Hit) as (out & Hn & Hw & He & Hk).
    exists (out :: outs). split_and!.
    - cbn. by rewrite Hn, Hm.
    - constructor; [by eapply normalize_json_ok|done].
    - cbn [map mapM]. rewrite Hr, (normalize_row_exported out Hw Hk), He. reflexivity. }
  destruct Ho as (outs & Hm & Hjs & Hr).
  set (data := [(js "format", JStr EXPORT_FORMAT); (js "version", JNum (NInt EXPORT_VERSION));
                (js "items", JArr (map JObj outs))]).
  exists (stringify2 (JObj data)). split_and!.
  - unfold toPlaintextJSON. by rewrite Hm.
  - by apply stringify2_text_ok, (export_json_ok outs).
  - unfold parseVaultImport. destruct (stringify2_object_trimmed data) as [Et [r Er]]; [done|].
    rewrite Et. rewrite Er. change (c_lbrace =? c_lbrace) with true. cbn [orb]. rewrite <- Er.
    unfold parseJSON. rewrite json_parse_stringify2 by (by apply (export_json_ok outs)).
    change (get_prop (js "items") (JObj data)) with (Some (JArr (map JObj outs))). cbv iota.
    rewrite Hr. by destruct (List.filter nonEmpty (map own_fields items)).
Qed.

Lemma toPlaintextJSON_reads items
  (Hp : Forall exportable items) (Hj : Forall (fun it => json_ok (JObj it)) items)
  (Hc : Forall has_content items) (Hne : items <> []) :
  exists text, toPlaintextJSON items = Some text /\ text_ok text /\
    parseVaultImport text = inl (map own_fields items).
Proof.
  destruct (toPlaintextJSON_text items Hp Hj) as (text & Ht & Hx & Hr). exists text. split_and!; [done..|].
  rewrite kept_all in Hr by done. by destruct items.
Qed.

(** C31: what passwd exports as JSON it imports unchanged: of items of a vault,
    with their identifiers or without, each of which has a name, a username, a
    password, an address, a note, a one-time secret, a card number, a full name,
    an email or a custom field (what an editor saves has), the import gives every
    one, in order, with all the members of an item as they were: types, texts,
    cards, identities, custom fields, folders and favorite marks.  Identifiers and
    unknown members stay behind. *)
Theorem json_export_import items
  (Hp : Forall exportable items) (Hj : Forall (fun it => json_ok (JObj it)) items)
  (Hc : Forall has_content items) (Hne : items <> []) :
  exists text, toPlaintextJSON items = Some text /\
    parseVaultImport text = inl (map own_fields items).
Proof. destruct (toPlaintextJSON_reads items Hp Hj Hc Hne) as (text & Ht & _ & Hr). by exists text. Qed.

(** What the import takes for an empty row is not always one: an identity with
    only a phone number, and a card with only its security code, are exported and
    then dropped. *)
Definition only_phone : obj :=
  item_of_parts (js "identity") [] [] [] [] [] [] blankCard (obj_put (js "phone") (JStr (js "555")) blankIdentity) [] false [].
Definition only_cvv : obj :=
  item_of_parts (js "card") [] [] [] [] [] [] (obj_put (js "cvv") (JStr (js "123")) blankCard) blankIdentity [] false [].

Theorem import_drops_phone :
  exists text, toPlaintextJSON [only_phone; only_cvv] = Some text /\ parseVaultImport text = inr no_items.
Proof.
  assert (Hc : over blankCard blankCard) by (apply over_refl; [apply blankCard_text|done]).
  assert (Hi : over blankIdentity blankIdentity) by (apply over_refl; [apply blankIdentity_text|done]).
  destruct (toPlaintextJSON_text [only_phone; only_cvv]) as (text & Ht & _ & Hr).
  - apply Forall_cons_2; [|apply Forall_singleton]; apply plain_exportable; (split; [|reflexivity]);
      apply item_of_parts_wf; auto; try (apply over_put; auto with passwd); set_solver.
  - apply Forall_cons_2; [|apply Forall_singleton]; apply json_okb_ok; vm_compute; reflexivity.
  - exists text. split; [exact Ht|]. rewrite Hr. reflexivity.
Qed.

(** C32: what passwd exports as CSV it imports as the logins CSV can carry: for
    any complete items with a name, a username, a password, an address, a note or
    a one-time secret each, the import gives one login per item, in order, with
    the seven texts and the favorite mark of the item, whatever commas, quotes,
    spaces and line endings they contain, each line ending (CR LF, CR or LF) being
    read as one LF; cards, identities and custom fields are not in the file. *)
Theorem csv_export_import items
  (Hp : Forall (fun it => item_wf (own_fields it)) items) (Ht : Forall has_text items) (Hne : items <> []) :
  exists text, toCSV items = Some text /\
    parseVaultImport text = inl (map csv_view items).
Proof.
  eexists. split; [by apply toCSV_rows|].
  unfold parseVaultImport. destruct (csv_text_trimmed items) as [Et [r Er]]. rewrite Et. rewrite Er.
  change (110 =? c_lbrace) with false. change (110 =? c_lbrack) with false. cbn [orb]. rewrite <- Er.
  unfold parseCSV. rewrite csvRows_lines.
  - cbn [map List.filter]. change (keep_row (map unix_text (FIELDS ++ [js "favorite"]))) with true. cbv iota.
    change (map unix_text (FIELDS ++ [js "favorite"])) with (FIELDS ++ [js "favorite"]).
    destruct (parse_records items Ht) as [Hm Hf]. rewrite csv_columns, Hm, Hf. by destruct items.
  - constructor; [by exists FIELDS, (js "favorite")|].
    apply Forall_map, Forall_forall. intros it _. by eexists (map (fun k => text_at k it) FIELDS), _.
Qed.

Lemma csv_object_strings cols cells :
  Forall (fun kv => exists s, kv.2 = JStr s) (csv_object cols cells).
Proof.
  unfold csv_object. generalize (imap pair cols) as l.
  enough (forall l o, Forall (fun kv : jsstr * json => exists s, kv.2 = JStr s) o ->
    Forall (fun kv : jsstr * json => exists s, kv.2 = JStr s)
      (foldl (fun (o : obj) (ic : nat * option jsstr) => let '(i, c) := ic in
         match c with
         | Some field => match obj_get field o with
                         | None => obj_put field (JStr (default [] (cells !! i))) o
                         | Some _ => o end
         | None => o end) o l)) as Hl by (intros l; apply Hl; constructor).
  intros l. induction l as [|[i [f|]] l IH]; intros o Ho; cbn; [done| |by apply IH].
  apply IH. destruct (obj_get f o); [done|]. apply Forall_put; [by eexists|done].
Qed.

Lemma parseVaultImport_cases text :
  match parseVaultImport text with
  | inl items => items <> [] /\ Forall (fun it => item_wf it /\ nonEmpty it = true) items
  | inr e => e = empty_file \/ e = no_items \/ e = invalid_json \/ e = unrecognized_json \/ e = JsTypeError
  end.
Proof.
  assert (Hwf : forall rows its, mapM normalize_row rows = Some its ->
    Forall (fun it => item_wf it /\ nonEmpty it = true) (List.filter nonEmpty its)).
  { intros rows its Hm. apply mapM_Some in Hm. induction Hm as [|r it rs its Hr _ IH]; [constructor|].
    cbn. destruct (nonEmpty it) eqn:E; [|done]. constructor; [split; [|done]|done].
    unfold normalize_row in Hr. case_bool_decide; [done|]. apply bind_Some in Hr as (flat & _ & Hr).
    by eapply normalize_wf. }
  unfold parseVaultImport. destruct (trim text) as [|u t]; [by left|].
  destruct ((u =? c_lbrace) || (u =? c_lbrack)).
  - unfold parseJSON. destruct (json_parse _) as [data|]; [|tauto].
    destruct (match data with JArr l => Some l | _ => _ end) as [l|]; [|tauto].
    destruct (mapM normalize_row l) as [its|] eqn:E; [|tauto]. apply Hwf in E.
    destruct (List.filter nonEmpty its); [tauto|done].
  - unfold parseCSV. destruct (csvRows _) as [|header rows]; [tauto|].
    destruct (mapM _ rows) as [its|] eqn:E; [|tauto].
    assert (E' : mapM normalize_row (map (fun cells => JObj (csv_object (map csv_column header) cells)) rows) = Some its).
    { apply mapM_Some. apply mapM_Some in E. by apply Forall2_fmap_l. }
    apply Hwf in E'. destruct (List.filter nonEmpty its); [tauto|done].
Qed.

(** An import yields at least one item or an exception: everything it returns
    is a complete item with something to show, the exceptions are the four
    messages of the module and, for JSON only, a TypeError. *)
Theorem parseVaultImport_outcomes text :
  match parseVaultImport text with
  | inl items => items <> [] /\ Forall (fun it => item_wf it /\ nonEmpty it = true) items
  | inr e => e = empty_file \/ e = no_items \/ e = invalid_json \/ e = unrecognized_json \/ e = JsTypeError
  end.
Proof. apply parseVaultImport_cases. Qed.

(** A JSON row with the key [constructor] is not "dropped rather than
    smuggled": the alias table inherits that name, and the item gets a member
    whose name is the source text of a built-in function. *)
Theorem import_smuggles :
  exists it, parseVaultImport (jq "[{'name':'bank','constructor':'x'}]") = inl [it] /\
    obj_get (js "function Object() { [native code] }") it = Some (JStr (js "x")) /\
    array_index (js "function Object() { [native code] }") = None.
Proof.
  assert (Hrow : normalize_row (JObj [(js "name", JStr (js "bank")); (js "constructor", JStr (js "x"))])
    = normalizeItemFields (JObj [(js "name", JStr (js "bank"));
        (js "function Object() { [native code] }", JStr (js "x"))])).
  { unfold normalize_row. rewrite bool_decide_eq_false_2 by done. cbn [own_props].
    change (carry _) with (@nil (jsstr * json)).
    rewrite flatten_text by (reflexivity || (apply (bool_decide_unpack _); by vm_compute)).
    cbn [flatten]. change (trim (js "constructor")) with (js "constructor").
    rewrite to_lower_ascii by decide_forall. reflexivity. }
  assert (Hn : exists it, normalizeItemFields (JObj [(js "name", JStr (js "bank"));
      (js "function Object() { [native code] }", JStr (js "x"))]) = Some it /\
      nonEmpty it = true /\ obj_get (js "function Object() { [native code] }") it = Some (JStr (js "x"))).
  { unfold normalizeItemFields. rewrite bool_decide_eq_false_2 by done. cbv zeta. cbn [get_prop].
    change (obj_get (js "favorite") _) with (@None json).
    rewrite norm_favorite_none.
    exists (obj_assign (blankFields (js "login"))
      [(js "name", JStr (js "bank")); (js "function Object() { [native code] }", JStr (js "x"))]).
    split_and!; vm_compute; reflexivity. }
  destruct Hn as (it & Hit & Hne & Hg). exists it.
  split_and!; [|exact Hg|vm_compute; reflexivity].
  unfold parseVaultImport. change (trim _) with (jq "[{'name':'bank','constructor':'x'}]").
  change (parseJSON _) with (match mapM normalize_row [JObj [(js "name", JStr (js "bank")); (js "constructor", JStr (js "x"))]] with
     | Some its => inl (List.filter nonEmpty its) | None => inr JsTypeError end).
  cbn [mapM]. rewrite Hrow, Hit. cbn. by rewrite Hne.
Qed.

(** One null row makes the import of a whole JSON file fail, with a TypeError
    that is none of the module's messages. *)
Theorem import_null_row :
  parseVaultImport (jq "[{'name':'bank'},null]") = inr JsTypeError.
Proof.
  assert (Hrow : mapM normalize_row [JObj [(js "name", JStr (js "bank"))]; JNull] = None).
  { destruct (mapM _ _) as [its|] eqn:E; [|done]. exfalso. apply mapM_Some in E.
    apply Forall2_cons_inv_l in E as (a & its1 & _ & E & _).
    apply Forall2_cons_inv_l in E as (b & its2 & Hb & _). unfold normalize_row in Hb.
    by rewrite bool_decide_eq_true_2 in Hb. }
  unfold parseVaultImport. change (trim _) with (jq "[{'name':'bank'},null]").
  change (parseJSON _) with (match mapM normalize_row [JObj [(js "name", JStr (js "bank"))]; JNull] with
     | Some its => inl (List.filter nonEmpty its) | None => inr JsTypeError end).
  by rewrite Hrow.
Qed.
End Theorems.
#[local] Existing Instance latin1_unicode.
Example import_chrome_csv :
  parseVaultImport (jq "name,url,username,password,Note
'My, ''bank''',https://b.example,me,'a
b',
,,,,
only,,,,x,y") = inl
  [obj_assign (blankFields (js "login"))
     [(js "name", JStr (jq "My, 'bank'")); (js "url", JStr (js "https://b.example"));
      (js "username", JStr (js "me")); (js "password", JStr [97; c_lf; 98])];
   obj_assign (blankFields (js "login")) [(js "name", JStr (js "only")); (js "notes", JStr (js "x"))]].
Proof. vm_compute. reflexivity. Qed.

Definition sample_login : obj :=
  item_of_parts (js "login") (jq "My, 'bank'") (js "me") (js "p,w") (js "https://b.example") [] (js " two
lines ") blankCard blankIdentity
    [JObj [(js "label", JStr (js "pin")); (js "value", JStr (js "1234")); (js "hidden", JBool true)]] true (js "money").
Definition sample_blank : obj := blankFields (js "note").

Lemma sample_plain : Forall plain [sample_login; sample_blank].
Proof.
  constructor; [|constructor; [|constructor]]; (split; [|reflexivity]).
  - apply (normalize_wf (JObj sample_login)). vm_compute. reflexivity.
  - apply (normalize_wf (JObj sample_blank)). vm_compute. reflexivity.
Qed.

Lemma sample_json_ok : Forall (fun it => json_ok (JObj it)) [sample_login; sample_blank].
Proof.
  constructor; [|constructor; [|constructor]]; apply json_okb_ok; vm_compute; reflexivity.
Qed.

(** A login as the list of a vault holds it, and the note above with its title. *)
Definition listed_login : obj := (js "id", JStr (js "17")) :: sample_login.
Definition titled_note : obj := obj_put (js "name") (JStr (js "wifi")) sample_blank.

Lemma listed_exportable_ok : Forall exportable [listed_login; titled_note].
Proof.
  apply Forall_cons_2; [|apply Forall_singleton].
  - apply listed_exportable. pose proof sample_plain as Hs. by apply Forall_cons in Hs as [? _].
  - apply plain_exportable. split; [|reflexivity]. apply (normalize_wf (JObj titled_note)). vm_compute. reflexivity.
Qed.
Lemma listed_has_text : Forall has_text [listed_login; titled_note].
Proof. apply Forall_cons_2; [|apply Forall_singleton]; left; discriminate. Qed.
Lemma listed_json_ok : Forall (fun it => json_ok (JObj it)) [listed_login; titled_note].
Proof. apply Forall_cons_2; [|apply Forall_singleton]; apply json_okb_ok; vm_compute; reflexivity. Qed.

Lemma json_export_import_witness :
  exists text, toPlaintextJSON [listed_login; titled_note] = Some text /\
    parseVaultImport text = inl [sample_login; titled_note].
Proof.
  apply (json_export_import [listed_login; titled_note] listed_exportable_ok listed_json_ok); [|discriminate].
  eapply Forall_impl; [exact listed_has_text|]. intros it Ht. by left.
Defined.

(** A password with all three line endings. *)
Definition multiline : obj := obj_put (js "password") (JStr [97; c_cr; c_lf; 98; c_cr; 99; c_lf]) sample_login.

Lemma csv_export_import_witness :
  exists text, toCSV [listed_login; multiline] = Some text /\
    parseVaultImport text = inl [csv_view listed_login; csv_view multiline] /\
    text_at (js "password") (csv_view multiline) = [97; c_lf; 98; c_lf; 99; c_lf].
Proof.
  assert (Hp : Forall (fun it => item_wf (own_fields it)) [listed_login; multiline]).
  { pose proof sample_plain as Hs. apply Forall_cons in Hs as [Hl _].
    apply Forall_cons_2; [|apply Forall_singleton].
    - destruct (listed_exportable sample_login (JStr (js "17")) Hl) as [He _]. apply He.
    - apply (normalize_wf (JObj multiline)). vm_compute. reflexivity. }
  assert (Ht : Forall has_text [listed_login; multiline])
    by (apply Forall_cons_2; [|apply Forall_singleton]; left; discriminate).
  destruct (csv_export_import [listed_login; multiline] Hp Ht) as (text & Hc & Hr); [discriminate|].
  exists text. split; [exact Hc|]. split; [exact Hr|]. reflexivity.
Defined.
