(* ===== verification/Api.v ===== *)
(** api-client/src/api.ts: the client of the backend.  The backend and the
    network are a parameter: what a request is answered with. *)
From S2P Require Import Prelude Text Numeral Json Encoding Effects.

Record request := {
  rq_method : jsstr;
  rq_url : jsstr;
  rq_headers : list (jsstr * jsstr);
  rq_body : option jsstr;
}.
Record response := { rs_status : Z; rs_text : jsstr }.
Definition rs_ok (r : response) : bool := (200 <=? rs_status r) && (rs_status r <=? 299).

(** What is outside the client: the backend behind [fetch] ([None] is a network
    failure), and the passkey ceremonies of @simplewebauthn/browser. *)
Class Environment (N : Type) := {
  handle : request -> N -> option response * N;
  startAuthentication : jsv -> N -> (json + exn) * N;
  startRegistration : jsv -> N -> (json + exn) * N;
}.

(** The module's [baseUrl], the environment and the entropy of the platform. *)
Record world (N E : Type) := World { baseUrl : jsstr; net : N; rng : E }.
Arguments World {N E}.
Arguments baseUrl {N E}.
Arguments net {N E}.
Arguments rng {N E}.

Definition world_draw {N E} `{Entropy E} (n : nat) (w : world N E) : bytes * world N E :=
  let r := draw n (rng w) in (r.1, World (baseUrl w) (net w) r.2).
#[global] Instance world_entropy {N E} `{Entropy E} : Entropy (world N E) := {|
  draw := world_draw;
  draw_length n w := draw_length n (rng w);
  draw_bytes n w := draw_bytes n (rng w);
|}.

(** ** Strings of the platform *)

Definition hex_upper (d : Z) : Z := if d <? 10 then 48 + d else 55 + d.
Definition percent (b : Z) : jsstr := [37; hex_upper (b / 16); hex_upper (b mod 16)].

(** Characters [encodeURIComponent] keeps. *)
Definition uri_unreserved (u : Z) : bool := is_alnum u || existsb (Z.eqb u) (js "-_.!~*'()").

Definition URIError := JsError (js "URI malformed").

Definition encodeURIComponent (s : jsstr) : jsstr + exn :=
  if well_formed s
  then inl (utf8 s ≫= fun b => if uri_unreserved b then [b] else percent b)
  else inr URIError.

(** The serializer of [URLSearchParams]. *)
Definition form_encode (s : jsstr) : jsstr :=
  utf8 s ≫= fun b => if is_alnum b || existsb (Z.eqb b) (js "*-._") then [b]
                     else if b =? c_space then [c_plus] else percent b.
Definition form_query (ps : list (jsstr * jsstr)) : jsstr :=
  join (js "&") (map (fun '(k, v) => form_encode k ++ [c_eq] ++ form_encode v) ps).

Section Api.
Context {N E : Type} `{Environment N}.

Definition of_sum {A} (r : A + exn) : M (world N E) A := fun w => (r, w).

Definition fetch (r : request) : M (world N E) response := fun w =>
  let '(o, n) := handle r (net w) in
  let w' := World (baseUrl w) n (rng w) in
  match o with Some res => (inl res, w') | None => (inr JsTypeError, w') end.

(** [v.k]: a TypeError on null and undefined. *)
Definition member (k : jsstr) (v : jsv) : M (world N E) jsv :=
  match v with
  | None | Some JNull => raise JsTypeError
  | Some w => mret (get_prop k w)
  end.

(** [`${v}`] *)
Definition text_of_value (v : jsv) : M (world N E) jsstr := of_option JsTypeError (js_to_string v).

(** [opts.baseUrl.replace(/\/$/, "")] *)
Definition configureApi (base : jsstr) : M (world N E) unit :=
  modify (fun w => World (match last base with
                          | Some u => if u =? c_slash then removelast base else base
                          | None => base end) (net w) (rng w)).

(** [new Error(json.error || fallback)] *)
Definition error_of (err : jsv) (fallback : jsstr) : M (world N E) exn :=
  if truthy err then m ← text_of_value err; mret (JsError m) else mret (JsError fallback).

Definition call (method path : jsstr) (body : jsv) (token : jsv) : M (world N E) json :=
  auth ← (if truthy token then t ← text_of_value token;
            mret [(js "authorization", js "Bearer " ++ t)]
          else mret []);
  base ← gets baseUrl;
  res ← fetch {| rq_method := method; rq_url := base ++ path;
                 rq_headers := match body with
                               | Some _ => [(js "content-type", js "application/json")]
                               | None => [] end ++ auth;
                 rq_body := stringify <$> body |};
  v ← match rs_text res with
      | [] => mret (JObj [])
      | t => of_option JsSyntaxError (json_parse t)
      end;
  if rs_ok res then mret v
  else
    err ← member (js "error") (Some v);
    e ← error_of err (js "request failed (" ++ dec (rs_status res) ++ js ")");
    raise e.

Definition str (s : jsstr) : jsv := Some (JStr s).
Definition POST := js "POST".
Definition GET := js "GET".
Definition PUT := js "PUT".
Definition DELETE := js "DELETE".

Definition prelogin (identifier : jsstr) : M (world N E) json :=
  call POST (js "/api/accounts/prelogin") (Some (obj_of [(js "identifier", str identifier)])) None.
Definition register (bundle : json) : M (world N E) json :=
  call POST (js "/api/accounts/register") (Some bundle) None.
Definition deleteAccountReq (token : jsv) : M (world N E) json :=
  call DELETE (js "/api/account") None token.
Definition listSessions (token : jsv) : M (world N E) json := call GET (js "/api/sessions") None token.
Definition logoutAll (token : jsv) : M (world N E) json := call POST (js "/api/auth/logout-all") None token.

(** A 401 that asks for a second factor is a result, not an exception. *)
Definition login (identifier masterPasswordHash : jsstr) (totpCode : option jsstr) : M (world N E) json :=
  base ← gets baseUrl;
  res ← fetch {| rq_method := POST; rq_url := base ++ js "/api/auth/login";
                 rq_headers := [(js "content-type", js "application/json")];
                 rq_body := Some (stringify (obj_of [(js "identifier", str identifier);
                   (js "masterPasswordHash", str masterPasswordHash);
                   (js "totpCode", JStr <$> totpCode)])) |};
  let v := default (JObj []) (json_parse (rs_text res)) in
  if rs_ok res then mret v
  else
    second ← (if rs_status res =? 401 then member (js "twoFactorRequired") (Some v) else mret None);
    if truthy second then
      mret (JObj [(js "twoFactorRequired", JBool true);
                  (js "methods", coalesce (get_prop (js "methods") v) (JArr []))])
    else
      err ← member (js "error") (Some v);
      e ← error_of err (js "login failed (" ++ dec (rs_status res) ++ js ")");
      raise e.

Definition twoFactorStatus (token : jsv) : M (world N E) json := call GET (js "/api/2fa") None token.
Definition twoFactorSetup (token : jsv) : M (world N E) json :=
  call POST (js "/api/2fa/setup") (Some (JObj [])) token.
Definition twoFactorEnable (token : jsv) (code : jsstr) : M (world N E) json :=
  call POST (js "/api/2fa/enable") (Some (obj_of [(js "code", str code)])) token.
Definition twoFactorDisable (token : jsv) (code : jsstr) : M (world N E) json :=
  call POST (js "/api/2fa/disable") (Some (obj_of [(js "code", str code)])) token.

Definition recoveryStatus (token : jsv) : M (world N E) json := call GET (js "/api/recovery") None token.
Definition recoveryEnable (token : jsv) (recoveryProtectedUserKey recoveryAuthHash : jsstr) :
    M (world N E) json :=
  call POST (js "/api/recovery/enable")
    (Some (obj_of [(js "recoveryProtectedUserKey", str recoveryProtectedUserKey);
                   (js "recoveryAuthHash", str recoveryAuthHash)])) token.
Definition recoveryDisable (token : jsv) : M (world N E) json :=
  call POST (js "/api/recovery/disable") None token.
Definition recoveryChallenge (identifier : jsstr) : M (world N E) json :=
  call POST (js "/api/auth/recovery/challenge") (Some (obj_of [(js "identifier", str identifier)])) None.
Definition recoveryComplete (params : json) : M (world N E) json :=
  call POST (js "/api/auth/recovery/complete") (Some params) None.

Definition webauthnCredentials (token : jsv) : M (world N E) json :=
  call GET (js "/api/2fa/webauthn/credentials") None token.
Definition webauthnDeleteCredential (token : jsv) (id : jsstr) : M (world N E) json :=
  call DELETE (js "/api/2fa/webauthn/credentials/" ++ id) None token.
Definition webauthnRegisterBegin (token : jsv) : M (world N E) json :=
  call POST (js "/api/2fa/webauthn/register/begin") (Some (JObj [])) token.
Definition webauthnRegisterFinish (token sessionId : jsv) (name : jsstr) (credential : json) :
    M (world N E) json :=
  call POST (js "/api/2fa/webauthn/register/finish")
    (Some (obj_of [(js "sessionId", sessionId); (js "name", str name);
                   (js "credential", Some credential)])) token.
Definition webauthnLoginBegin (identifier masterPasswordHash : jsstr) : M (world N E) json :=
  call POST (js "/api/auth/webauthn/begin")
    (Some (obj_of [(js "identifier", str identifier); (js "masterPasswordHash", str masterPasswordHash)])) None.
Definition webauthnLoginFinish (identifier masterPasswordHash : jsstr) (sessionId : jsv)
    (credential : json) : M (world N E) json :=
  call POST (js "/api/auth/webauthn/finish")
    (Some (obj_of [(js "identifier", str identifier); (js "masterPasswordHash", str masterPasswordHash);
                   (js "sessionId", sessionId); (js "credential", Some credential)])) None.

Definition auditLog (token : jsv) : M (world N E) json := call GET (js "/api/audit") None token.

Definition lookupPublicKey (token : jsv) (identifier : jsstr) : M (world N E) json :=
  q ← of_sum (encodeURIComponent identifier);
  call GET (js "/api/users/public-key?identifier=" ++ q) None token.
Definition createShareReq (token : jsv) (recipientIdentifier wrappedKey data : jsstr) :
    M (world N E) json :=
  call POST (js "/api/shares")
    (Some (obj_of [(js "recipientIdentifier", str recipientIdentifier);
                   (js "wrappedKey", str wrappedKey); (js "data", str data)])) token.
Definition listShares (token : jsv) : M (world N E) json := call GET (js "/api/shares") None token.
Definition deleteShare (token : jsv) (id : jsstr) : M (world N E) json :=
  call DELETE (js "/api/shares/" ++ id) None token.

Definition sync (token : jsv) : M (world N E) json := call GET (js "/api/sync") None token.
Definition createCipher (token : jsv) (data : jsstr) : M (world N E) json :=
  call POST (js "/api/ciphers") (Some (obj_of [(js "data", str data)])) token.
Definition updateCipher (token : jsv) (id data : jsstr) : M (world N E) json :=
  call PUT (js "/api/ciphers/" ++ id) (Some (obj_of [(js "data", str data)])) token.
Definition deleteCipher (token : jsv) (id : jsstr) : M (world N E) json :=
  call DELETE (js "/api/ciphers/" ++ id) None token.
End Api.
