(* ===== verification/Session.v ===== *)
(** api-client/src/session.ts: the flows that join the cryptography to the API. *)
From S2P Require Import Prelude Text Numeral Json JsonFacts Encoding Effects Platform Primitives.
From S2P Require Import EncString Kdf Identifier Account Sharing Objects Items Api.

(** Tokens and the wrapped private key come from the server's JSON and are kept
    as they came. *)
Record Session := {
  ss_identifier : jsstr;
  ss_accessToken : jsv;
  ss_refreshToken : jsv;
  ss_userKey : bytes;
  ss_protectedPrivateKey : jsv;
}.

(** [{ id, ...rest } = o] *)
Definition obj_delete (k : jsstr) (o : obj) : obj := List.filter (fun kv => negb (str_eqb kv.1 k)) o.

(** [{ k: v, ...o }]; an undefined member is not kept. *)
Definition with_member (k : jsstr) (v : jsv) (o : obj) : obj :=
  obj_assign (match v with Some w => [(k, w)] | None => [] end) o.

(** [String.prototype[Symbol.iterator]]: the code points. *)
Definition code_points (s : jsstr) : list jsstr := map of_cp (to_cps s).

Definition unexpected_challenge := JsError (js "unexpected two-factor challenge on a new account").

Definition PASSWORD_ALPHABET : jsstr :=
  js "ABCDEFGHIJKLMNOPQRSTUVWXYZabcdefghijklmnopqrstuvwxyz0123456789!@#$%^&*()-_=+".

Definition bundle_json (b : RegistrationBundle) : json :=
  obj_of [(js "identifier", str (rb_identifier b)); (js "kdf", Some (rb_kdf b));
          (js "masterPasswordHash", str (rb_masterPasswordHash b));
          (js "protectedUserKey", str (rb_protectedUserKey b));
          (js "publicKey", str (rb_publicKey b));
          (js "protectedPrivateKey", str (rb_protectedPrivateKey b))].

(** Built client-side, so that the identifier never reaches the server. *)
Definition buildOtpauthUri (identifier secret : jsstr) : jsstr + exn :=
  match encodeURIComponent (js "passwd:" ++ identifier) with
  | inl label =>
      inl (js "otpauth://totp/" ++ label ++ js "?" ++
           form_query [(js "secret", secret); (js "issuer", js "passwd");
                       (js "algorithm", js "SHA1"); (js "digits", js "6"); (js "period", js "30")])
  | inr e => inr e
  end.

Section Session.
Context {N E : Type} `{Unicode} `{WebCrypto} `{Environment N} `{Entropy E}.
Abbreviation W := (world N E).
Implicit Types s : Session.

(** [for (const x of v)]: arrays and strings iterate, anything else raises. *)
Definition elements (v : jsv) : M W (list json) :=
  match v with
  | Some (JArr l) => mret l
  | Some (JStr t) => mret (map JStr (code_points t))
  | _ => raise JsTypeError
  end.

(** [("twoFactorRequired" in res) && res.twoFactorRequired] *)
Definition challenged (res : json) : M W bool :=
  match res with
  | JObj _ | JArr _ => mret (truthy (get_prop (js "twoFactorRequired") res))
  | _ => raise JsTypeError
  end.

Definition registerAccount (identifier masterPassword : jsstr) : M W Session :=
  r ← buildRegistration identifier masterPassword DEFAULT_KDF;
  let '(bundle, userKey) := r in
  _ ← register (bundle_json bundle);
  res ← login (rb_identifier bundle) (rb_masterPasswordHash bundle) None;
  c ← challenged res;
  _ ← throw_if c unexpected_challenge;
  mret {| ss_identifier := rb_identifier bundle;
          ss_accessToken := get_prop (js "accessToken") res;
          ss_refreshToken := get_prop (js "refreshToken") res;
          ss_userKey := userKey;
          ss_protectedPrivateKey := str (rb_protectedPrivateKey bundle) |}.

(** The session a login answer carries. *)
Definition session_of (identifier : jsstr) (res : json) (userKey : bytes) : Session :=
  {| ss_identifier := identifier;
     ss_accessToken := get_prop (js "accessToken") res;
     ss_refreshToken := get_prop (js "refreshToken") res;
     ss_userKey := userKey;
     ss_protectedPrivateKey := Some (coalesce (get_prop (js "protectedPrivateKey") res) (JStr [])) |}.

Definition loginAccount (identifier masterPassword : jsstr) (totpCode : option jsstr) : M W Session :=
  pre ← prelogin identifier;
  kdf ← member (js "kdf") (Some pre);
  masterKey ← deriveMasterKey masterPassword identifier kdf;
  masterPasswordHash ← deriveMasterPasswordHash masterKey masterPassword;
  res ← login identifier masterPasswordHash totpCode;
  c ← challenged res;
  _ ← throw_if c (TwoFactorRequiredError (Some (default (JArr []) (get_prop (js "methods") res))));
  stretched ← stretchMasterKey masterKey;
  userKey ← unwrapUserKey stretched (get_prop (js "protectedUserKey") res);
  mret (session_of identifier res userKey).

Definition ceremony (f : jsv -> N -> (json + exn) * N) (options : jsv) : M W json := fun w =>
  let '(r, n) := f options (net w) in (r, World (baseUrl w) n (rng w)).

Definition loginWithPasskey (identifier masterPassword : jsstr) : M W Session :=
  pre ← prelogin identifier;
  kdf ← member (js "kdf") (Some pre);
  masterKey ← deriveMasterKey masterPassword identifier kdf;
  masterPasswordHash ← deriveMasterPasswordHash masterKey masterPassword;
  begin ← webauthnLoginBegin identifier masterPasswordHash;
  sessionId ← member (js "sessionId") (Some begin);
  options ← member (js "options") (Some begin);
  publicKey ← member (js "publicKey") options;
  assertion ← ceremony startAuthentication publicKey;
  res ← webauthnLoginFinish identifier masterPasswordHash sessionId assertion;
  stretched ← stretchMasterKey masterKey;
  protectedUserKey ← member (js "protectedUserKey") (Some res);
  userKey ← unwrapUserKey stretched protectedUserKey;
  mret (session_of identifier res userKey).

Definition getTwoFactorStatus s := twoFactorStatus (E := E) (ss_accessToken s).
Definition setupTwoFactor s : M W (jsv * jsstr) :=
  r ← twoFactorSetup (ss_accessToken s);
  secret ← member (js "secret") (Some r);
  t ← text_of_value secret;
  uri ← of_sum (buildOtpauthUri (ss_identifier s) t);
  mret (secret, uri).
Definition enableTwoFactor s code := twoFactorEnable (E := E) (ss_accessToken s) code.
Definition disableTwoFactor s code := twoFactorDisable (E := E) (ss_accessToken s) code.

Definition getRecoveryStatus s := recoveryStatus (E := E) (ss_accessToken s).
Definition enableRecovery s : M W jsstr :=
  r ← enrollRecovery (ss_userKey s);
  _ ← recoveryEnable (ss_accessToken s) (re_recoveryProtectedUserKey r) (re_recoveryAuthHash r);
  mret (re_recoveryCode r).
Definition disableRecovery s := recoveryDisable (E := E) (ss_accessToken s).

Definition getActivity s : M W jsv :=
  r ← auditLog (ss_accessToken s); member (js "events") (Some r).
Definition getSessions s : M W jsv :=
  r ← listSessions (ss_accessToken s); member (js "sessions") (Some r).
Definition signOutEverywhere s := logoutAll (E := E) (ss_accessToken s).
Definition deleteAccount s := deleteAccountReq (E := E) (ss_accessToken s).

Definition recoverAccount (identifier recoveryCode newMasterPassword : jsstr) : M W Session :=
  r ← recoveryChallenge identifier;
  wrapped ← member (js "recoveryProtectedUserKey") (Some r);
  kdf ← member (js "kdf") (Some r);
  reset ← completeRecovery recoveryCode wrapped identifier newMasterPassword kdf;
  res ← recoveryComplete (obj_of [(js "identifier", str identifier);
          (js "recoveryAuthHash", str (rr_recoveryAuthHash reset));
          (js "masterPasswordHash", str (rr_masterPasswordHash reset));
          (js "protectedUserKey", str (rr_protectedUserKey reset));
          (js "kdf", rr_kdf reset)]);
  _ ← member (js "accessToken") (Some res);
  mret (session_of identifier res (rr_userKey reset)).

Definition shareItem s (recipientIdentifier : jsstr) (item : obj) : M W unit :=
  r ← lookupPublicKey (ss_accessToken s) recipientIdentifier;
  publicKey ← member (js "publicKey") (Some r);
  envelope ← createShare publicKey (stringify (JObj (obj_delete (js "id") item)));
  _ ← createShareReq (ss_accessToken s) recipientIdentifier (wrappedKey envelope) (sh_data envelope);
  mret tt.

(** One round of the loops that decrypt what they can: [None] is the [catch]
    that skips. *)
Definition try_item (m : M W obj) : M W (list obj) :=
  catch (it ← m; mret [it]) (fun _ => mret []).

(** [JSON.parse(text)] then [normalizeItemFields]. *)
Definition read_fields (text : jsstr) : M W obj :=
  v ← of_option JsSyntaxError (json_parse text);
  of_option JsTypeError (normalizeItemFields v).

Fixpoint collect (f : json -> M W obj) (l : list json) : M W (list obj) :=
  match l with
  | [] => mret []
  | c :: l' => it ← try_item (f c); rest ← collect f l'; mret (it ++ rest)
  end.

Definition open_shared s (sh : json) : M W obj :=
  wrapped ← member (js "wrappedKey") (Some sh);
  data ← member (js "data") (Some sh);
  text ← openShare (ss_userKey s) (ss_protectedPrivateKey s) wrapped data;
  fields ← read_fields text;
  let id := get_prop (js "id") sh in
  mret (with_member (js "id") id (with_member (js "shareId") id fields)).

Definition listSharedWithMe s : M W (list obj) :=
  r ← listShares (ss_accessToken s);
  shares ← member (js "shares") (Some r);
  l ← elements shares;
  collect (open_shared s) l.

Definition removeSharedItem s (shareId : jsstr) := deleteShare (E := E) (ss_accessToken s) shareId.

Definition listPasskeys s : M W jsv :=
  r ← webauthnCredentials (ss_accessToken s); member (js "credentials") (Some r).
Definition removePasskey s (id : jsstr) := webauthnDeleteCredential (E := E) (ss_accessToken s) id.
Definition enrollPasskey s (name : jsstr) : M W json :=
  begin ← webauthnRegisterBegin (ss_accessToken s);
  sessionId ← member (js "sessionId") (Some begin);
  options ← member (js "options") (Some begin);
  publicKey ← member (js "publicKey") options;
  attestation ← ceremony startRegistration publicKey;
  webauthnRegisterFinish (ss_accessToken s) sessionId name attestation.

Definition open_cipher s (c : json) : M W obj :=
  data ← member (js "data") (Some c);
  text ← decryptItemKeyed (ss_userKey s) data;
  fields ← read_fields text;
  mret (with_member (js "id") (get_prop (js "id") c) fields).

Definition loadVault s : M W (list obj) :=
  r ← sync (ss_accessToken s);
  ciphers ← member (js "ciphers") (Some r);
  l ← elements ciphers;
  collect (open_cipher s) l.

Definition addItem s (fields : obj) : M W obj :=
  data ← encryptItemKeyed (ss_userKey s) (stringify (JObj fields));
  c ← createCipher (ss_accessToken s) data;
  id ← member (js "id") (Some c);
  mret (with_member (js "id") id fields).

Definition saveItem s (item : obj) : M W unit :=
  data ← encryptItemKeyed (ss_userKey s) (stringify (JObj (obj_delete (js "id") item)));
  id ← text_of_value (obj_get (js "id") item);
  _ ← updateCipher (ss_accessToken s) id data;
  mret tt.

Definition removeItem s (id : jsstr) : M W unit :=
  _ ← deleteCipher (ss_accessToken s) id; mret tt.

(** The loop of [importItems]; [onProgress] may itself raise, outside the [try]. *)
Fixpoint import_loop s (onProgress : Z -> Z -> M W unit) (total i : Z) (items : list obj)
    (added failed : Z) : M W (Z * Z) :=
  match items with
  | [] => mret (added, failed)
  | it :: items' =>
      ok ← (catch (_ ← addItem s it; mret true) (fun _ => mret false) : M W bool);
      _ ← onProgress (i + 1) total;
      import_loop s onProgress total (i + 1) items'
        (if ok : bool then added + 1 else added) (if ok : bool then failed else failed + 1)
  end.
Definition importItems s (items : list obj) (onProgress : Z -> Z -> M W unit) : M W (Z * Z) :=
  import_loop s onProgress (Z.of_nat (length items)) 0 items 0 0.
End Session.

Section Generator.
Context {St : Type} `{Entropy St}.

Definition generatePassword (n : nat) : M St jsstr :=
  buf ← randomU32 n;
  mret (map (fun x => default 0
    (PASSWORD_ALPHABET !! Z.to_nat (x mod Z.of_nat (length PASSWORD_ALPHABET)))) buf).
End Generator.
