(* ===== verification/VaultStore.v ===== *)
(** The synced vault as a map: what the backend promises, and the proof that
    [loadVault], [addItem], [saveItem] and [removeItem] of
    api-client/src/session.ts implement a map from identifiers to items on top
    of a server that only ever holds ciphertext. *)
From S2P Require Import Prelude Text Numeral Json JsonFacts Encoding JsonText Effects Platform Primitives.
From S2P Require Import EncString Kdf Identifier Account Sharing Objects Items Api Session.

(** An authorized request of the client. *)
Definition auth_request (base token method path : jsstr) (body : jsv) : request :=
  {| rq_method := method; rq_url := base ++ path;
     rq_headers := match body with Some _ => [(js "content-type", js "application/json")] | None => [] end
                   ++ [(js "authorization", js "Bearer " ++ token)];
     rq_body := stringify <$> body |}.

(** The entries of a sync answer: the stored pairs, in any order. *)
Definition dtos (m : gmap jsstr jsstr) (l : list json) : Prop :=
  exists kvs, kvs ≡ₚ map_to_list m /\
    Forall2 (fun kv c => get_prop (js "id") c = Some (JStr kv.1) /\
                         get_prop (js "data") c = Some (JStr kv.2)) kvs l.

Definition data_body (data : jsstr) : json := obj_of [(js "data", str data)].

(** An identifier the server gives out. *)
Definition id_ok (id : jsstr) : Prop := id <> [] /\ units_ok id.

(** What a request that is not done is answered with: nothing, when the network
    fails, or a response that is not a success, whose text is empty, not JSON (a
    proxy's page), or names the error. *)
Definition refusal (res : option response) : Prop :=
  match res with
  | None => True
  | Some r => rs_ok r = false /\
      (rs_text r = [] \/ json_parse (rs_text r) = None \/
       exists v m, json_parse (rs_text r) = Some v /\ get_prop (js "error") v = Some (JStr m) /\ m <> [])
  end.

(** What the client makes of it. *)
Definition refused_exn (e : exn) : Prop := e = JsTypeError \/ e = JsSyntaxError \/ exists m, e = JsError m /\ m <> [].

(** What the client relies on of the cipher endpoints, for one account: the
    server keeps a map from identifiers to opaque text.  [accepts] says which
    requests that carry the token it does: not after the token has expired (an
    access token lives for 15 minutes and no client refreshes it), not with a body
    over the limit, not for an item it does not have; what makes it change, and
    when, is the server's own.  A request it does not accept changes nothing. *)
Class CipherServer (N : Type) `{Environment N} (base token : jsstr) := {
  store : N -> gmap jsstr jsstr;
  srv_ok : N -> Prop;
  accepts : N -> request -> bool;
  srv_sync : forall n, srv_ok n -> accepts n (auth_request base token GET (js "/api/sync") None) = true ->
    exists text v l n',
    handle (auth_request base token GET (js "/api/sync") None) n
      = (Some {| rs_status := 200; rs_text := text |}, n') /\
    srv_ok n' /\ store n' = store n /\ text <> [] /\ json_parse text = Some v /\
    get_prop (js "ciphers") v = Some (JArr l) /\ dtos (store n) l;
  srv_create : forall n data, srv_ok n -> units_ok data -> data <> [] ->
    accepts n (auth_request base token POST (js "/api/ciphers") (Some (data_body data))) = true ->
    exists id text v n',
    handle (auth_request base token POST (js "/api/ciphers") (Some (data_body data))) n
      = (Some {| rs_status := 201; rs_text := text |}, n') /\
    srv_ok n' /\ store n !! id = None /\ id_ok id /\ store n' = <[id := data]> (store n) /\
    text <> [] /\ json_parse text = Some v /\ get_prop (js "id") v = Some (JStr id);
  srv_update : forall n id data, srv_ok n -> units_ok data -> data <> [] ->
    accepts n (auth_request base token PUT (js "/api/ciphers/" ++ id) (Some (data_body data))) = true ->
    is_Some (store n !! id) /\ exists text v n',
    handle (auth_request base token PUT (js "/api/ciphers/" ++ id) (Some (data_body data))) n
      = (Some {| rs_status := 200; rs_text := text |}, n') /\
    srv_ok n' /\ store n' = <[id := data]> (store n) /\ text <> [] /\ json_parse text = Some v;
  srv_delete : forall n id, srv_ok n ->
    accepts n (auth_request base token DELETE (js "/api/ciphers/" ++ id) None) = true ->
    is_Some (store n !! id) /\ exists n',
    handle (auth_request base token DELETE (js "/api/ciphers/" ++ id) None) n
      = (Some {| rs_status := 204; rs_text := [] |}, n') /\
    srv_ok n' /\ store n' = delete id (store n);
  srv_refuse : forall n method path body, srv_ok n ->
    accepts n (auth_request base token method path body) = false -> exists res n',
    handle (auth_request base token method path body) n = (res, n') /\ refusal res /\
    srv_ok n' /\ store n' = store n;
}.

Section Items.
Context `{Unicode}.

(** What the program can store: printable, and readable again as an item. *)
Definition savable (it : obj) : Prop := json_ok (JObj it) /\ is_Some (normalizeItemFields (JObj it)).

(** What reading it back makes of it. *)
Definition settled (it : obj) : obj := default it (normalizeItemFields (JObj it)).

(** A complete and printable item reads back as itself. *)
Definition good_item (it : obj) : Prop := item_wf it /\ json_ok (JObj it).

Lemma good_savable it : good_item it -> savable it.
Proof. intros [Hw Hj]. split; [done|]. rewrite normalize_fixpoint by done. by eexists. Qed.

Lemma good_settled it : good_item it -> settled it = it.
Proof. intros [Hw _]. unfold settled. by rewrite normalize_fixpoint. Qed.

Lemma savable_some it : savable it -> normalizeItemFields (JObj it) = Some (settled it).
Proof. unfold settled. by intros [_ [o ->]]. Qed.

Lemma settled_wf it : savable it -> item_wf (settled it).
Proof. intros Hs%savable_some. by eapply normalize_wf. Qed.
End Items.

Section Refinement.
Context {N E : Type} `{Unicode} `{WebCrypto} `{Environment N} `{Entropy E}.
Context (base token : jsstr) `{!CipherServer N base token}.
Hypothesis Htoken : token <> [].
Abbreviation W := (world N E).
Implicit Types s : Session.

#[global] Instance here_undrawn n : Undrawn (S := W) (fun w => baseUrl w = base /\ net w = n).
Proof. intros k w Hw. exact Hw. Qed.

(** ** One authorized call *)
Lemma call_returns (method path : jsstr) body res (w : W) n' text status :
  baseUrl w = base ->
  handle (auth_request base token method path body) (net w)
    = (Some {| rs_status := status; rs_text := text |}, n') ->
  rs_ok {| rs_status := status; rs_text := text |} = true ->
  match text with [] => Some (JObj []) | _ => json_parse text end = Some res ->
  returns (call method path body (str token)) w res (World base n' (rng w)).
Proof.
  intros Hb Hh Hok Hp. unfold returns, call.
  assert (truthy (str token) = true) as -> by (by destruct token).
  assert (Ha : returns (t ← text_of_value (str token); mret [(js "authorization", js "Bearer " ++ t)]) w
    [(js "authorization", js "Bearer " ++ token)] w) by done.
  run Ha. unfold gets. change ((fun w : W => (inl (baseUrl w), w)) ≫= ?f) with (fun w : W => f (baseUrl w) w).
  cbv beta. rewrite Hb.
  assert (Hf : returns (fetch (auth_request base token method path body)) w
    {| rs_status := status; rs_text := text |} (World base n' (rng w))).
  { unfold returns, fetch. rewrite Hh, Hb. done. }
  run Hf. cbn [rs_text]. destruct text as [|u text].
  - injection Hp as <-. rewrite bind_ret, Hok. done.
  - rewrite Hp, bind_some, Hok. done.
Qed.

Lemma call_throws (method path : jsstr) body (w : W) n' res :
  baseUrl w = base -> handle (auth_request base token method path body) (net w) = (res, n') -> refusal res ->
  exists e, throws (call method path body (str token)) w e (World base n' (rng w)) /\ refused_exn e.
Proof.
  intros Hb Hh Hr. unfold throws, call.
  assert (truthy (str token) = true) as -> by (by destruct token).
  assert (Ha : returns (t ← text_of_value (str token); mret [(js "authorization", js "Bearer " ++ t)]) w
    [(js "authorization", js "Bearer " ++ token)] w) by done.
  setoid_rewrite (bind_returns _ _ _ _ _ _ Ha eq_refl). unfold gets.
  change ((fun w : W => (inl (baseUrl w), w)) ≫= ?f) with (fun w : W => f (baseUrl w) w). cbv beta. rewrite Hb.
  destruct res as [r|].
  2: { assert (Hf : throws (fetch (auth_request base token method path body)) w JsTypeError (World base n' (rng w)))
         by (unfold throws, fetch; by rewrite Hh, Hb).
       exists JsTypeError. split; [|by left]. by apply (bind_throws _ _ _ _ _ Hf). }
  assert (Hf : returns (fetch (auth_request base token method path body)) w r (World base n' (rng w)))
    by (unfold returns, fetch; by rewrite Hh, Hb).
  setoid_rewrite (bind_returns _ _ _ _ _ _ Hf eq_refl). destruct Hr as [Hok Ht]. rewrite Hok.
  destruct (rs_text r) as [|u t].
  { eexists. split; [reflexivity|]. right; right. eexists. split; [reflexivity|]. done. }
  destruct Ht as [[=]|[->|(v & m & -> & Hg & Hm)]].
  - exists JsSyntaxError. split; [done|]. by right; left.
  - exists (JsError m). split; [|right; right; by exists m]. rewrite bind_some.
    assert (Hmem : forall w : W, returns (member (E := E) (js "error") (Some v)) w (Some (JStr m)) w)
      by (intros w'; unfold returns; destruct v; try discriminate Hg; by rewrite <- Hg).
    setoid_rewrite (bind_returns _ _ _ _ _ _ (Hmem _) eq_refl). unfold error_of.
    assert (truthy (Some (JStr m)) = true) as -> by (by destruct m). reflexivity.
Qed.

(** ** The abstraction *)

(** Ciphertext nobody can read with this key, which loading skips. *)
Definition unreadable s (data : jsstr) : Prop :=
  forall c, get_prop (js "data") c = Some (JStr data) ->
  forall w : W, exists e, open_cipher s c w = (inr e, w).

(** Ciphertext that is read as the item [it]. *)
Definition keeps s (data : jsstr) (it : obj) : Prop :=
  exists raw, savable raw /\ it = settled raw /\ item_of (ss_userKey s) (stringify (JObj raw)) data.

(** The server's map represents the vault [V] under the session's key. *)
Definition represents s (m : gmap jsstr jsstr) (V : gmap jsstr obj) : Prop :=
  forall id, match m !! id, V !! id with
             | Some data, Some it => keeps s data it
             | Some data, None => unreadable s data
             | None, v => v = None
             end.

Definition linked s (w : W) (V : gmap jsstr obj) : Prop :=
  baseUrl w = base /\ srv_ok (net w) /\ represents s (store (net w)) V /\
  ss_accessToken s = str token /\ user_key_ok (ss_userKey s).

Lemma represents_insert s m V id it data : represents s m V ->
  keeps s data it ->
  represents s (<[id := data]> m) (<[id := it]> V).
Proof.
  intros Hr Hi j. destruct (decide (j = id)) as [->|Hn]; [by rewrite !lookup_insert_eq|].
  rewrite !lookup_insert_ne by done. apply Hr.
Qed.

Lemma represents_delete s m V id : represents s m V -> represents s (delete id m) (delete id V).
Proof.
  intros Hr j. destruct (decide (j = id)) as [->|Hn]; [by rewrite !lookup_delete_eq|].
  rewrite !lookup_delete_ne by done. apply Hr.
Qed.

(** The text of an item, encrypted: the world changes only by the entropy. *)
Lemma encrypt_here s it (w : W) : baseUrl w = base -> user_key_ok (ss_userKey s) -> savable it ->
  exists data w', returns (encryptItemKeyed (ss_userKey s) (stringify (JObj it))) w data w' /\
    item_of (ss_userKey s) (stringify (JObj it)) data /\ baseUrl w' = base /\ net w' = net w.
Proof.
  intros Hb Hk [Hj _]. destruct (stringify_text_ok _ Hj) as [Hu _].
  destruct (encryptItemKeyed_returns (ss_userKey s) (stringify (JObj it)) w Hk Hu) as (data & w' & Hr & Hi).
  exists data, w'. split; [done|]. split; [done|].
  eapply (keeps_returns (fun w : W => baseUrl w = base /\ net w = net _)) in Hr; [exact Hr|apply _|done].
Qed.

Lemma item_of_units uk x data : item_of uk x data -> units_ok data /\ data <> [].
Proof.
  intros [Hs|(k & w & d & _ & Hw & Hd & ->)]; [by eapply sealed_parts|].
  destruct (sealed_parts _ _ _ Hw) as [Hwu _]. destruct (sealed_parts _ _ _ Hd) as [Hdu _].
  split; [|by unfold stringify, item_json]. apply stringify_text_ok.
  apply json_ok_obj. split; [vm_compute; reflexivity|].
  repeat (constructor; [split; [decide_forall|done]|]). constructor.
Qed.

(** ** Loading *)

Lemma read_fields_item it (w : W) : savable it -> returns (read_fields (stringify (JObj it))) w (settled it) w.
Proof.
  intros Hs. unfold returns, read_fields. rewrite json_parse_stringify, bind_some by apply Hs.
  by rewrite savable_some.
Qed.

Lemma open_cipher_item s it data id c (w : W) : user_key_ok (ss_userKey s) -> keeps s data it ->
  get_prop (js "id") c = Some (JStr id) -> get_prop (js "data") c = Some (JStr data) ->
  returns (open_cipher s c) w (with_member (js "id") (str id) it) w.
Proof.
  intros Hk (raw & Hg & -> & Hi) Hid Hd. unfold returns, open_cipher.
  assert (Hm : returns (member (E := E) (js "data") (Some c)) w (Some (JStr data)) w)
    by (unfold returns; destruct c; try discriminate Hd; by rewrite <- Hd).
  run Hm. pose proof (stringify_text_ok _ (proj1 Hg)) as Ht.
  pose proof (decryptItemKeyed_item (ss_userKey s) _ data w Hk (proj1 Ht) Hi) as Hdec.
  rewrite <- fromUtf8_utf8, fromUtf8_utf8_id in Hdec by (done || apply Ht).
  run Hdec. run (read_fields_item raw w Hg). by rewrite Hid.
Qed.

(** What the vault shows: each item with its identifier. *)
Definition shown (kv : jsstr * obj) : obj := with_member (js "id") (str kv.1) kv.2.

Lemma collect_returns s (V : gmap jsstr obj) kvs l (w : W) :
  user_key_ok (ss_userKey s) ->
  Forall (fun kv => match V !! kv.1 with
                    | Some it => keeps s kv.2 it
                    | None => unreadable s kv.2 end) kvs ->
  Forall2 (fun kv c => get_prop (js "id") c = Some (JStr kv.1) /\
                       get_prop (js "data") c = Some (JStr kv.2)) kvs l ->
  returns (collect (open_cipher s) l) w
    (map shown (omap (fun kv => pair kv.1 <$> V !! kv.1) kvs)) w.
Proof.
  intros Hk Hkvs Hl. induction Hl as [|[id data] c kvs l [Hid Hd] Hl IH]; [done|].
  apply Forall_cons in Hkvs as [Hc Hkvs]. specialize (IH Hkvs). cbn [fst snd] in *.
  unfold returns. cbn [collect omap list_omap fst].
  destruct (V !! id) as [it|]; cbn [fmap option_fmap option_map].
  - assert (Ht : returns (try_item (open_cipher s c)) w
      [with_member (js "id") (str id) it] w).
    { apply catch_returns. unfold returns. by run (open_cipher_item s it data id c w Hk Hc Hid Hd). }
    run Ht. run IH. done.
  - destruct (Hc c Hd w) as [e He]. assert (Ht : returns (try_item (open_cipher s c)) w [] w).
    { unfold returns, try_item. eapply catch_throws; [|reflexivity].
      unfold throws. by apply bind_throws. }
    run Ht. run IH. done.
Qed.

Lemma shown_permutation s (m : gmap jsstr jsstr) (V : gmap jsstr obj) (kvs : list (jsstr * jsstr)) : represents s m V -> kvs ≡ₚ map_to_list m ->
  omap (fun kv : jsstr * jsstr => pair kv.1 <$> V !! kv.1) kvs ≡ₚ map_to_list V.
Proof.
  intros Hr Hp. rewrite Hp. apply NoDup_Permutation.
  - assert (Hd : NoDup (omap (fun kv : jsstr * jsstr => pair kv.1 <$> V !! kv.1) (map_to_list m)).*1).
    { clear Hp. pose proof (NoDup_fst_map_to_list m) as Hd. induction (map_to_list m) as [|[k d] l IH]; [constructor|].
      cbn in *. apply NoDup_cons in Hd as [Hk Hd]. destruct (V !! k); cbn; [|by apply IH].
      apply NoDup_cons. split; [|by apply IH]. intros Hin. apply Hk.
      apply list_elem_of_fmap in Hin as ([k' it] & -> & Hin). apply list_elem_of_omap in Hin as ([k2 d2] & Hin & E2).
      cbn in E2. apply fmap_Some in E2 as (x & _ & [= -> _]). apply list_elem_of_fmap. by exists (k2, d2). }
    by eapply NoDup_fmap_1.
  - apply NoDup_map_to_list.
  - intros [id it]. rewrite list_elem_of_omap, elem_of_map_to_list. split.
    + intros ([k d] & _ & E2). cbn in E2. by apply fmap_Some in E2 as (x & Hx & [= -> ->]).
    + intros Hv. specialize (Hr id). rewrite Hv in Hr. destruct (m !! id) as [d|] eqn:Em; [|done].
      exists (id, d). split; [by apply elem_of_map_to_list|]. cbn. by rewrite Hv.
Qed.

(** The server had not accepted the request: nothing has changed. *)
Definition declined (method path : jsstr) body s (w : W) V (e : exn) (w' : W) : Prop :=
  accepts (net w) (auth_request base token method path body) = false /\ refused_exn e /\ linked s w' V /\
  store (net w') = store (net w).

Lemma linked_net s V (w w' : W) : linked s w V -> baseUrl w' = base -> srv_ok (net w') -> store (net w') = store (net w) ->
  linked s w' V.
Proof. intros (_ & _ & Hr & Ht & Hk) Hb Hok Hst. split_and!; try done. by rewrite Hst. Qed.

Lemma call_declined s V (w : W) (method path : jsstr) body : linked s w V ->
  accepts (net w) (auth_request base token method path body) = false ->
  exists e w', throws (call method path body (str token)) w e w' /\ declined method path body s w V e w'.
Proof.
  intros Hl Ha. destruct (srv_refuse (net w) method path body) as (res & n' & Hh & Hr & Hok & Hst); [apply Hl|done|].
  destruct (call_throws method path body w n' res) as (e & He & Hx); [apply Hl|done..|].
  exists e, (World base n' (rng w)). split; [done|]. split; [done|]. split; [done|]. split; [by eapply linked_net|done].
Qed.

Lemma loadVault_outcomes s V (w : W) : linked s w V ->
  (exists its w', returns (loadVault s) w its w' /\ linked s w' V /\ its ≡ₚ map shown (map_to_list V) /\
     store (net w') = store (net w)) \/
  (exists e w', throws (loadVault s) w e w' /\ declined GET (js "/api/sync") None s w V e w').
Proof.
  intros Hlk. pose proof Hlk as (Hb & Hok & Hr & Ht & Hk).
  destruct (accepts (net w) (auth_request base token GET (js "/api/sync") None)) eqn:Hacc; [left|right].
  2: { destruct (call_declined s V w GET (js "/api/sync") None Hlk Hacc) as (e & w' & He & Hd).
       exists e, w'. split; [|done]. unfold loadVault. apply bind_throws. unfold sync. by rewrite Ht. }
  destruct (srv_sync (net w) Hok Hacc) as (text & v & l & n' & Hh & Hok' & Hst & Htn & Hp & Hc & kvs & Hperm & Hl).
  set (w' := World base n' (rng w)).
  assert (Hcall : returns (sync (ss_accessToken s)) w v w').
  { rewrite Ht. eapply call_returns; [done|exact Hh|done|]. by destruct text. }
  assert (Hkvs : Forall (fun kv : jsstr * jsstr => match V !! kv.1 with
      | Some it => keeps s kv.2 it
      | None => unreadable s kv.2 end) kvs).
  { apply Forall_forall. intros [id d] Hin. rewrite Hperm, elem_of_map_to_list in Hin.
    specialize (Hr id). rewrite Hin in Hr. exact Hr. }
  exists (map shown (omap (fun kv => pair kv.1 <$> V !! kv.1) kvs)), w'. split_and!.
  - unfold returns, loadVault. run Hcall.
    assert (Hm : returns (member (js "ciphers") (Some v)) w' (Some (JArr l)) w')
      by (unfold returns; destruct v; try discriminate Hc; by rewrite <- Hc).
    run Hm. assert (He : returns (elements (Some (JArr l))) w' l w') by done. run He.
    by apply collect_returns.
  - split_and!; try done. cbn. by rewrite Hst.
  - by rewrite (shown_permutation s (store (net w)) V kvs).
  - done.
Qed.

(** The text a request carries for an item. *)
Definition carries s it (data : jsstr) : Prop := item_of (ss_userKey s) (stringify (JObj it)) data.

Lemma addItem_outcomes s V it (w : W) : linked s w V -> savable it ->
  (exists id w', returns (addItem s it) w (with_member (js "id") (str id) it) w' /\
    V !! id = None /\ linked s w' (<[id := settled it]> V) /\ id_ok id) \/
  (exists data e w', carries s it data /\ throws (addItem s it) w e w' /\
     declined POST (js "/api/ciphers") (Some (data_body data)) s w V e w').
Proof.
  intros (Hb & Hok & Hr & Ht & Hk) Hg.
  destruct (encrypt_here s it w Hb Hk Hg) as (data & w1 & He & Hi & Hb1 & Hn1).
  destruct (item_of_units _ _ _ Hi) as [Hu Hne].
  destruct (accepts (net w) (auth_request base token POST (js "/api/ciphers") (Some (data_body data)))) eqn:Hacc; [left|right].
  2: { assert (Hl1 : linked s w1 V) by (split_and!; rewrite ?Hn1; done).
       rewrite <- Hn1 in Hacc. destruct (call_declined s V w1 _ _ _ Hl1 Hacc) as (e & w' & Hc & Hd).
       exists data, e, w'. split; [done|]. split; [|by destruct Hd as (? & ? & ? & ?); rewrite Hn1 in *].
       unfold throws, addItem. run He. apply bind_throws. unfold createCipher. by rewrite Ht. }
  destruct (srv_create (net w) data Hok Hu Hne Hacc) as (id & text & v & n' & Hh & Hok' & Hfresh & Hi0 & Hst & Htn & Hp & Hid).
  exists id, (World base n' (rng w1)). split; [|split; [|split]].
  - unfold returns, addItem. run He.
    assert (Hcall : returns (createCipher (ss_accessToken s) data) w1 v (World base n' (rng w1))).
    { rewrite Ht. eapply call_returns; [done|rewrite Hn1; exact Hh|done|]. by destruct text. }
    run Hcall. assert (Hm : returns (member (js "id") (Some v)) (World base n' (rng w1)) (str id) (World base n' (rng w1)))
      by (unfold returns, str; destruct v; try discriminate Hid; by rewrite <- Hid).
    run Hm. done.
  - specialize (Hr id). by rewrite Hfresh in Hr.
  - split_and!; try done. cbn. rewrite Hst. apply represents_insert; [done|by eexists].
  - exact Hi0.
Qed.

Lemma stored_known s V (w : W) id : linked s w V -> is_Some (V !! id) -> is_Some (store (net w) !! id).
Proof.
  intros (_ & _ & Hr & _) [it Hv]. specialize (Hr id). rewrite Hv in Hr. by destruct (store (net w) !! id).
Qed.

(** Saving an item that the vault has not (any more) is declined; but the server may
    hold a text under its identifier that nobody can read. *)
Lemma saveItem_outcomes s V id item (w : W) : linked s w V ->
  obj_get (js "id") item = Some (JStr id) -> savable (obj_delete (js "id") item) ->
  (exists w', returns (saveItem s item) w tt w' /\ is_Some (store (net w) !! id) /\
     linked s w' (<[id := settled (obj_delete (js "id") item)]> V)) \/
  (exists data e w', carries s (obj_delete (js "id") item) data /\ throws (saveItem s item) w e w' /\
     declined PUT (js "/api/ciphers/" ++ id) (Some (data_body data)) s w V e w').
Proof.
  intros (Hb & Hok & Hr & Ht & Hk) Hid Hg.
  destruct (encrypt_here s _ w Hb Hk Hg) as (data & w1 & He & Hi & Hb1 & Hn1).
  destruct (item_of_units _ _ _ Hi) as [Hu Hne].
  assert (Hs : returns (text_of_value (E := E) (Some (JStr id))) w1 id w1) by done.
  destruct (accepts (net w) (auth_request base token PUT (js "/api/ciphers/" ++ id) (Some (data_body data)))) eqn:Hacc; [left|right].
  2: { assert (Hl1 : linked s w1 V) by (split_and!; rewrite ?Hn1; done).
       rewrite <- Hn1 in Hacc. destruct (call_declined s V w1 _ _ _ Hl1 Hacc) as (e & w' & Hc & Hd).
       exists data, e, w'. split; [done|]. split; [|by destruct Hd as (? & ? & ? & ?); rewrite Hn1 in *].
       unfold throws, saveItem. run He. rewrite Hid. run Hs. apply bind_throws. unfold updateCipher. by rewrite Ht. }
  destruct (srv_update (net w) id data Hok Hu Hne Hacc) as (His & text & v & n' & Hh & Hok' & Hst & Htn & Hp).
  exists (World base n' (rng w1)). split; [|split; [done|]].
  - unfold returns, saveItem. run He. rewrite Hid. run Hs.
    assert (Hcall : returns (updateCipher (ss_accessToken s) id data) w1 v (World base n' (rng w1))).
    { rewrite Ht. eapply call_returns; [done|rewrite Hn1; exact Hh|done|]. by destruct text. }
    by run Hcall.
  - split_and!; try done. cbn. rewrite Hst. apply represents_insert; [done|by eexists].
Qed.

Lemma removeItem_outcomes s V id (w : W) : linked s w V ->
  (exists w', returns (removeItem s id) w tt w' /\ is_Some (store (net w) !! id) /\ linked s w' (delete id V)) \/
  (exists e w', throws (removeItem s id) w e w' /\ declined DELETE (js "/api/ciphers/" ++ id) None s w V e w').
Proof.
  intros Hlk. pose proof Hlk as (Hb & Hok & Hr & Ht & Hk).
  destruct (accepts (net w) (auth_request base token DELETE (js "/api/ciphers/" ++ id) None)) eqn:Hacc; [left|right].
  2: { destruct (call_declined s V w _ _ _ Hlk Hacc) as (e & w' & He & Hd).
       exists e, w'. split; [|done]. unfold removeItem. apply bind_throws. unfold deleteCipher. by rewrite Ht. }
  destruct (srv_delete (net w) id Hok Hacc) as (His & n' & Hh & Hok' & Hst).
  exists (World base n' (rng w)). split; [|split; [done|]].
  - unfold returns, removeItem.
    assert (Hcall : returns (deleteCipher (ss_accessToken s) id) w (JObj []) (World base n' (rng w))).
    { rewrite Ht. by eapply call_returns. }
    by run Hcall.
  - split_and!; try done. cbn. rewrite Hst. by apply represents_delete.
Qed.

Lemma import_all s items : forall V (w : W) i total added failed,
  linked s w V -> Forall savable items ->
  exists w' V' its n, returns (import_loop s (fun _ _ => mret tt) total i items added failed) w
      (added + Z.of_nat (length its), failed + n) w' /\
    linked s w' V' /\ V ⊆ V' /\ size V' = (size V + length its)%nat /\
    sublist its items /\ Z.of_nat (length its) + n = Z.of_nat (length items) /\
    Forall (fun it => exists id, V' !! id = Some (settled it)) its.
Proof.
  induction items as [|it items IH]; intros V w i total added failed Hl Hg.
  { exists w, V, [], 0. split_and!; [unfold returns; cbn; by rewrite !Z.add_0_r|done|done|cbn; lia|done|done|constructor]. }
  apply Forall_cons in Hg as [Hit Hg].
  destruct (addItem_outcomes s V it w Hl Hit) as [(id & w1 & Ha & Hf & Hl1 & _)|(data & e & w1 & _ & Ha & _ & _ & Hl1 & _)].
  - destruct (IH (<[id := settled it]> V) w1 (i + 1) total (added + 1) failed Hl1 Hg)
      as (w2 & V2 & its & n & Hr & Hl2 & Hsub & Hsz & Hits & Hn & Hall).
    exists w2, V2, (it :: its), n. split_and!; [|done| | |by constructor|cbn [length]; lia|].
    + unfold returns. cbn [import_loop].
      assert (Hc : returns (catch (_ ← addItem s it; mret true) (fun _ => mret false)) w true w1).
      { apply catch_returns. unfold returns. by run Ha. }
      run Hc. rewrite bind_ret. unfold returns in Hr. rewrite Hr. do 3 f_equal. cbn [length]. lia.
    + etrans; [|exact Hsub]. by apply insert_subseteq.
    + rewrite Hsz, map_size_insert_None by done. cbn [length]. lia.
    + constructor; [|done]. exists id. eapply lookup_weaken; [apply lookup_insert_eq|done].
  - destruct (IH V w1 (i + 1) total added (failed + 1) Hl1 Hg)
      as (w2 & V2 & its & n & Hr & Hl2 & Hsub & Hsz & Hits & Hn & Hall).
    exists w2, V2, its, (n + 1). split_and!; [|done|done|done|by constructor|cbn [length]; lia|done].
    unfold returns. cbn [import_loop].
    assert (Hc : returns (catch (_ ← addItem s it; mret true) (fun _ => mret false)) w false w1).
    { eapply catch_throws; [|reflexivity]. by apply bind_throws. }
    run Hc. rewrite bind_ret. unfold returns in Hr. rewrite Hr. do 3 f_equal. lia.
Qed.
End Refinement.

(** ** Theorems *)
Section Theorems.
Context {N E : Type} `{Unicode} `{WebCrypto} `{Environment N} `{Entropy E}.
Context (base token : jsstr) `{!CipherServer N base token}.

(** C3: the synced vault is a map.  While server and client are linked by the
    abstraction (each stored ciphertext is the encryption of one item, or is
    unreadable), loading returns exactly the items of the map with their
    identifiers, skipping what cannot be read; adding inserts under a fresh
    identifier; saving replaces; removing deletes; each of them succeeds and keeps
    the link, whenever the server accepts its request, and otherwise throws and
    changes nothing.  Adding and saving take any object that is read back as an
    item, complete or not, and the map then holds what reading makes of it.  The
    server holds only text sealed under the user key. *)
Theorem vault_refines_map (s : Session) (V : gmap jsstr obj) (w : world N E)
  (Htoken : token <> []) (Hl : linked base token s w V) :
  ((exists its w', returns (loadVault s) w its w' /\ linked base token s w' V /\
     its ≡ₚ map shown (map_to_list V)) \/
   (exists e w', throws (loadVault s) w e w' /\ declined base token GET (js "/api/sync") None s w V e w')) /\
  (forall it, savable it -> (exists id w',
     returns (addItem s it) w (with_member (js "id") (str id) it) w' /\
     V !! id = None /\ linked base token s w' (<[id := settled it]> V)) \/
   (exists data e w', carries s it data /\ throws (addItem s it) w e w' /\
     declined base token POST (js "/api/ciphers") (Some (data_body data)) s w V e w')) /\
  (forall id item, obj_get (js "id") item = Some (JStr id) ->
     savable (obj_delete (js "id") item) -> (exists w', returns (saveItem s item) w tt w' /\
     linked base token s w' (<[id := settled (obj_delete (js "id") item)]> V)) \/
   (exists data e w', carries s (obj_delete (js "id") item) data /\ throws (saveItem s item) w e w' /\
     declined base token PUT (js "/api/ciphers/" ++ id) (Some (data_body data)) s w V e w')) /\
  (forall id, (exists w', returns (removeItem s id) w tt w' /\ linked base token s w' (delete id V)) \/
   (exists e w', throws (removeItem s id) w e w' /\
     declined base token DELETE (js "/api/ciphers/" ++ id) None s w V e w')).
Proof.
  split; [|split; [|split]].
  - destruct (loadVault_outcomes base token Htoken s V w Hl) as [(its & w' & Hr & Hl' & Hp & _)|Hd]; [left; by exists its, w'|by right].
  - intros it Hs. destruct (addItem_outcomes base token Htoken s V it w Hl Hs) as [(id & w' & Hr & Hf & Hl' & _)|Hd];
      [left; by exists id, w'|by right].
  - intros id item Hid Hs. destruct (saveItem_outcomes base token Htoken s V id item w Hl Hid Hs) as [(w' & Hr & _ & Hl')|Hd];
      [left; by exists w'|by right].
  - intros id. destruct (removeItem_outcomes base token Htoken s V id w Hl) as [(w' & Hr & _ & Hl')|Hd];
      [left; by exists w'|by right].
Qed.

(** An import into a working vault counts every item as added or as failed; those
    it counts as added are there, those that were there are untouched, and nothing
    else has come. *)
Theorem importItems_adds (s : Session) (V : gmap jsstr obj) (w : world N E) items
  (Htoken : token <> []) (Hl : linked base token s w V) (Hg : Forall savable items) :
  exists w' V' its n, returns (importItems s items (fun _ _ => mret tt)) w (Z.of_nat (length its), n) w' /\
    linked base token s w' V' /\ V ⊆ V' /\ size V' = (size V + length its)%nat /\
    sublist its items /\ Z.of_nat (length its) + n = Z.of_nat (length items) /\
    Forall (fun it => exists id, V' !! id = Some (settled it)) its.
Proof.
  destruct (import_all base token Htoken s items V w 0 (Z.of_nat (length items)) 0 0 Hl Hg)
    as (w' & V' & its & n & Hr & Hrest). exists w', V', its, n. split; [exact Hr|done].
Qed.
End Theorems.

(** ** A concrete server *)

Definition dto (kv : jsstr * jsstr) : json := JObj [(js "id", JStr kv.1); (js "data", JStr kv.2)].
Definition fresh_id (m : gmap jsstr jsstr) : jsstr :=
  replicate (S (foldr Nat.max 0%nat (map length (map_to_list m).*1))) 97.

Definition body_data (r : request) : jsstr :=
  match rq_body r ≫= json_parse with
  | Some v => match get_prop (js "data") v with Some (JStr d) => d | _ => [] end
  | None => []
  end.

(** The server refuses bodies over its limit, and writes to items it does not have. *)
Definition cipher_prefix : jsstr := js "/api/ciphers/".
Definition map_accepts (m : gmap jsstr jsstr) (r : request) : bool :=
  (Z.of_nat (length (default [] (rq_body r))) <=? 2 ^ 20) &&
  (negb (starts_with cipher_prefix (rq_url r)) || bool_decide (is_Some (m !! drop (length cipher_prefix) (rq_url r)))).
Definition map_refusal : response :=
  {| rs_status := 400; rs_text := stringify (JObj [(js "error", JStr (js "invalid JSON body"))]) |}.

Definition map_server (r : request) (m : gmap jsstr jsstr) : option response * gmap jsstr jsstr :=
  let answer status v m' := (Some {| rs_status := status; rs_text := stringify v |}, m') in
  let id := drop (length cipher_prefix) (rq_url r) in
  if negb (map_accepts m r) then (Some map_refusal, m)
  else if str_eqb (rq_url r) (js "/api/sync") then
    answer 200 (JObj [(js "ciphers", JArr (map dto (map_to_list m)))]) m
  else if str_eqb (rq_url r) (js "/api/ciphers") then
    answer 201 (dto (fresh_id m, body_data r)) (<[fresh_id m := body_data r]> m)
  else if negb (starts_with cipher_prefix (rq_url r)) then (None, m)
  else if str_eqb (rq_method r) PUT then answer 200 (dto (id, body_data r)) (<[id := body_data r]> m)
  else (Some {| rs_status := 204; rs_text := [] |}, delete id m).

#[local] Instance map_environment : Environment (gmap jsstr jsstr) := {|
  handle := map_server;
  startAuthentication _ n := (inr LibraryError, n);
  startRegistration _ n := (inr LibraryError, n);
|}.

Definition map_ok (m : gmap jsstr jsstr) : Prop :=
  map_Forall (fun id d => units_ok id /\ units_ok d) m.

Lemma fresh_id_fresh m : m !! fresh_id m = None.
Proof.
  apply not_elem_of_dom. intros Hin. apply elem_of_dom in Hin as [d Hd].
  assert (Hlen : forall (l : list jsstr) (k : jsstr), k ∈ l -> (length k <= foldr Nat.max 0%nat (map length l))%nat).
  { intros l k Hk. induction l as [|j l IH]; [by apply not_elem_of_nil in Hk|].
    apply elem_of_cons in Hk as [->|Hk]; cbn; [lia|]. specialize (IH Hk). lia. }
  specialize (Hlen (map_to_list m).*1 (fresh_id m)). unfold fresh_id in Hlen at 2.
  rewrite length_replicate in Hlen. apply (Nat.lt_irrefl (foldr Nat.max 0%nat (map length (map_to_list m).*1))).
  apply Hlen. apply list_elem_of_fmap. exists (fresh_id m, d). split; [done|]. by apply elem_of_map_to_list.
Qed.

Lemma dto_ok kv : units_ok kv.1 -> units_ok kv.2 -> json_ok (dto kv).
Proof.
  intros H1 H2. apply json_ok_obj. split; [vm_compute; reflexivity|].
  repeat (constructor; [split; [decide_forall|done]|]). constructor.
Qed.

Lemma body_data_of base token method path data : units_ok data ->
  body_data (auth_request base token method path (Some (data_body data))) = data.
Proof.
  intros Hd. unfold body_data, auth_request. cbn [rq_body fmap option_fmap option_map mbind option_bind].
  rewrite json_parse_stringify; [done|]. apply json_ok_obj. split; [vm_compute; reflexivity|].
  constructor; [split; [decide_forall|done]|constructor].
Qed.

Lemma map_server_item base token method id body m :
  base = [] -> method = PUT \/ method = DELETE ->
  let r := auth_request base token method (js "/api/ciphers/" ++ id) body in
  map_accepts m r = true ->
  is_Some (m !! id) /\
  map_server r m =
    if str_eqb method PUT
    then (Some {| rs_status := 200; rs_text := stringify (dto (id, body_data r)) |}, <[id := body_data r]> m)
    else (Some {| rs_status := 204; rs_text := [] |}, delete id m).
Proof.
  intros -> Hm r Ha. split.
  - unfold map_accepts in Ha. apply andb_true_iff in Ha as [_ Ha]. change (starts_with cipher_prefix (rq_url r)) with true in Ha.
    change (drop (length cipher_prefix) (rq_url r)) with id in Ha. by apply bool_decide_eq_true in Ha.
  - unfold map_server. rewrite Ha. by destruct Hm as [-> | ->].
Qed.

Lemma map_refusal_refuses : refusal (Some map_refusal).
Proof.
  split; [done|]. right; right. exists (JObj [(js "error", JStr (js "invalid JSON body"))]), (js "invalid JSON body").
  split_and!; [|done|done]. apply json_parse_stringify, json_okb_ok. vm_compute. reflexivity.
Qed.

#[local] Program Instance map_cipher_server (token : jsstr) : CipherServer (gmap jsstr jsstr) [] token := {|
  store m := m;
  srv_ok := map_ok;
  accepts := map_accepts;
|}.
Next Obligation.
  intros token m Hm _. set (v := JObj [(js "ciphers", JArr (map dto (map_to_list m)))]).
  exists (stringify v), v, (map dto (map_to_list m)), m.
  split_and!; [done|done|done|by unfold stringify, v| |done|].
  - apply json_parse_stringify. apply json_ok_obj. split; [vm_compute; reflexivity|].
    constructor; [split; [decide_forall|]|constructor]. apply json_ok_arr, Forall_map, Forall_forall.
    intros [id d] Hin%elem_of_map_to_list. destruct (Hm id d Hin). by apply dto_ok.
  - exists (map_to_list m). split; [done|]. induction (map_to_list m) as [|kv l IH]; by constructor.
Qed.
Next Obligation.
  intros token m data Hm Hu Hne Ha. set (id := fresh_id m).
  assert (Hid : units_ok id) by (apply Forall_replicate; unfold_ok; lia).
  exists id, (stringify (dto (id, data))), (dto (id, data)), (<[id := data]> m). split_and!.
  - cbn [handle map_environment]. set (r := auth_request _ _ _ _ _) in *.
    assert (E : body_data r = data) by (by apply body_data_of). unfold map_server. rewrite Ha.
    change (str_eqb (rq_url r) (js "/api/sync")) with false. change (str_eqb (rq_url r) (js "/api/ciphers")) with true.
    cbv iota zeta. cbn [negb]. by rewrite E.
  - by apply map_Forall_insert_2.
  - apply fresh_id_fresh.
  - by split.
  - done.
  - by unfold stringify, dto.
  - by apply json_parse_stringify, dto_ok.
  - done.
Qed.
Next Obligation.
  intros token m id data Hm Hu Hne Ha.
  destruct (map_server_item [] token PUT id (Some (VaultStore.data_body data)) m eq_refl (or_introl eq_refl) Ha) as [[d Hd] Hs].
  split; [by exists d|]. destruct (Hm id d Hd) as [Hid _].
  exists (stringify (dto (id, data))), (dto (id, data)), (<[id := data]> m). split_and!.
  - cbn [handle map_environment]. rewrite Hs, body_data_of by done. done.
  - by apply map_Forall_insert_2.
  - done.
  - by unfold stringify, dto.
  - by apply json_parse_stringify, dto_ok.
Qed.
Next Obligation.
  intros token m id Hm Ha.
  destruct (map_server_item [] token DELETE id None m eq_refl (or_intror eq_refl) Ha) as [His Hs].
  split; [done|]. exists (delete id m). split_and!; [|by apply map_Forall_delete|done].
  cbn [handle map_environment]. by rewrite Hs.
Qed.
Next Obligation.
  intros token m method path body Hm Ha. exists (Some map_refusal), m. split_and!; [|apply map_refusal_refuses|done|done].
  cbn [handle map_environment]. unfold map_server. by rewrite Ha.
Qed.

#[local] Existing Instances latin1_unicode model_crypto lcg_entropy.

Definition sample_session : Session :=
  {| ss_identifier := js "alice@example.org"; ss_accessToken := str (js "token");
     ss_refreshToken := None; ss_userKey := sample_key; ss_protectedPrivateKey := str [] |}.
Definition empty_world : world (gmap jsstr jsstr) Z := World [] ∅ 1.

Lemma sample_linked : linked [] (js "token") sample_session empty_world ∅.
Proof.
  split_and!; [done|by apply map_Forall_empty| |done|apply sample_key_ok].
  intros id. cbn. by rewrite !lookup_empty.
Qed.

Lemma blank_good t : t ∈ item_types -> good_item (blankFields t).
Proof.
  intros Ht. split; [by apply blank_item_wf|]. apply json_okb_ok.
  unfold item_types in Ht. repeat (apply elem_of_cons in Ht as [->|Ht]; [vm_compute; reflexivity|]).
  by apply not_elem_of_nil in Ht.
Qed.

(** A card is added, read and removed; removing what the server does not have is
    refused. *)
Lemma vault_refines_map_witness :
  (exists id w1, returns (addItem sample_session (blankFields (js "card"))) empty_world
      (with_member (js "id") (str id) (blankFields (js "card"))) w1 /\
    (exists its w2, returns (loadVault sample_session) w1 its w2 /\
      its ≡ₚ [with_member (js "id") (str id) (blankFields (js "card"))]) /\
    exists w3, returns (removeItem sample_session id) w1 tt w3) /\
  exists e w', throws (removeItem sample_session (js "nope")) empty_world e w' /\ refused_exn e /\
    linked [] (js "token") sample_session w' ∅.
Proof.
  assert (Htok : js "token" <> []) by done.
  pose proof (vault_refines_map [] (js "token") sample_session ∅ empty_world Htok sample_linked)
    as (_ & Hadd & _ & Hrem). split.
  - destruct (Hadd (blankFields (js "card"))) as [(id & w1 & Ha & _ & Hl1)|(data & e & w1 & _ & Ha & _)].
    { apply good_savable, blank_good. right. by left. }
    2: { assert (Hok : match (addItem sample_session (blankFields (js "card")) empty_world).1 with inl _ => true | inr _ => false end = true)
           by (vm_compute; reflexivity).
         unfold throws in Ha. rewrite Ha in Hok. discriminate Hok. }
    rewrite good_settled in Hl1 by (apply blank_good; right; by left). exists id, w1. split; [exact Ha|].
    pose proof (vault_refines_map [] (js "token") sample_session _ w1 Htok Hl1) as ([(its & w2 & Hld & _ & Hp)|(e & w2 & _ & [=] & _)] & _ & _ & Hrm).
    split; [exists its, w2; split; [exact Hld|by rewrite Hp, map_to_list_insert, map_to_list_empty]|].
    destruct (Hrm id) as [(w3 & Hr & _)|(e & w3 & _ & Hacc & _)]; [by exists w3|exfalso].
    assert (Hin : is_Some (net w1 !! id)).
    { apply (stored_known [] (js "token") (CipherServer0 := map_cipher_server (js "token")) sample_session _ w1 id Hl1).
      by rewrite lookup_insert_eq. }
    cbn [accepts map_cipher_server] in Hacc. unfold map_accepts in Hacc.
    change (starts_with cipher_prefix _) with true in Hacc. cbn [negb orb andb] in Hacc.
    change (drop _ (rq_url _)) with id in Hacc. rewrite bool_decide_eq_true_2 in Hacc by exact Hin. discriminate Hacc.
  - destruct (Hrem (js "nope")) as [(w' & Hr & _)|(e & w' & He & _ & Hx & Hl & _)]; [exfalso|by exists e, w'].
    assert (Hno : match (removeItem sample_session (js "nope") empty_world).1 with inl _ => true | inr _ => false end = false)
      by (vm_compute; reflexivity).
    unfold returns in Hr. rewrite Hr in Hno. discriminate Hno.
Defined.

Lemma importItems_adds_witness :
  exists w' V' its n, returns (importItems sample_session [blankFields (js "note"); blankFields (js "login")]
                           (fun _ _ => mret tt)) empty_world (Z.of_nat (length its), n) w' /\
    linked [] (js "token") sample_session w' V' /\ ∅ ⊆ V' /\ size V' = length its /\
    sublist its [blankFields (js "note"); blankFields (js "login")] /\ Z.of_nat (length its) + n = 2 /\
    Forall (fun it => exists id, V' !! id = Some (settled it)) its.
Proof.
  assert (Hg : Forall savable [blankFields (js "note"); blankFields (js "login")])
    by (constructor; [apply good_savable, blank_good; by left|
        constructor; [apply good_savable, blank_good; do 3 right; by left|constructor]]).
  pose proof (importItems_adds [] (js "token") sample_session ∅ empty_world _ ltac:(done) sample_linked Hg) as H.
  rewrite map_size_empty in H. exact H.
Defined.
