(* ===== verification/Login.v ===== *)
(** The account flows against the backend's promises: registration, login from
    another device, two-factor challenges, errors, import counts, and the
    otpauth URI of api-client/src/session.ts. *)
From S2P Require Import Prelude Text Numeral Json JsonFacts Encoding JsonText Effects Platform Primitives.
From S2P Require Import EncString Kdf Identifier Totp Account Sharing Objects Items Api Session.

(** An anonymous JSON request of the client. *)
Definition anon_request (base path : jsstr) (body : json) : request :=
  {| rq_method := POST; rq_url := base ++ path;
     rq_headers := [(js "content-type", js "application/json")];
     rq_body := Some (stringify body) |}.

Definition prelogin_body (i : jsstr) : json := obj_of [(js "identifier", str i)].
Definition login_body (i h : jsstr) : json :=
  obj_of [(js "identifier", str i); (js "masterPasswordHash", str h); (js "totpCode", None)].

(** The answer to a request is this JSON with a success status. *)
Definition answers {N} `{Environment N} (r : request) (n : N) (v : json) (n' : N) : Prop :=
  exists status text, handle r n = (Some {| rs_status := status; rs_text := text |}, n') /\
    rs_ok {| rs_status := status; rs_text := text |} = true /\ text <> [] /\ json_parse text = Some v.

(** What the flows rely on of the account endpoints: bundles are kept under
    their canonical identifier and handed back, with a token of the account that is
    taken at that point ([issued]), to whoever presents the hash, whose attempts
    are neither limited nor lost on the way; the ciphers of accounts are none of their business,
    and an account that is not there has none. *)
Class AccountServer (N : Type) `{Environment N} `{Unicode} (base : jsstr) := {
  accounts : N -> gmap jsstr json;
  ciphers : N -> gmap jsstr (gmap jsstr jsstr);
  issued : N -> jsstr -> jsv -> Prop;
  acc_ok : N -> Prop;
  srv_unknown : forall n i, acc_ok n -> accounts n !! i = None -> ciphers n !! i = None;
  srv_register : forall n i b, acc_ok n -> json_ok b -> accounts n !! i = None ->
    get_prop (js "identifier") b = Some (JStr i) -> exists v n',
    answers (anon_request base (js "/api/accounts/register") b) n v n' /\
    acc_ok n' /\ accounts n' = <[i := b]> (accounts n) /\ ciphers n' = ciphers n;
  srv_prelogin : forall n j b, acc_ok n -> ascii j -> accounts n !! normalizeIdentifier j = Some b ->
    exists v n', answers (anon_request base (js "/api/accounts/prelogin") (prelogin_body j)) n v n' /\
    acc_ok n' /\ accounts n' = accounts n /\ ciphers n' = ciphers n /\
    v <> JNull /\ get_prop (js "kdf") v = get_prop (js "kdf") b;
  srv_login : forall n j h b, acc_ok n -> ascii j -> ascii h ->
    accounts n !! normalizeIdentifier j = Some b ->
    get_prop (js "masterPasswordHash") b = Some (JStr h) ->
    exists o n', answers (anon_request base (js "/api/auth/login") (login_body j h)) n (JObj o) n' /\
    acc_ok n' /\ accounts n' = accounts n /\ ciphers n' = ciphers n /\
    issued n' (normalizeIdentifier j) (obj_get (js "accessToken") o) /\
    obj_get (js "twoFactorRequired") o = None /\
    obj_get (js "protectedUserKey") o = get_prop (js "protectedUserKey") b /\
    obj_get (js "protectedPrivateKey") o = get_prop (js "protectedPrivateKey") b;
}.

Lemma hash_ascii `{Unicode} `{WebCrypto} {St : Type} mk pw (s s' : St) h :
  returns (deriveMasterPasswordHash mk pw) s h s' -> ascii h.
Proof.
  unfold deriveMasterPasswordHash. intros (k & s1 & Hp & Hr)%bind_inv. apply ret_inv in Hr as [-> _].
  unfold pbkdf2 in Hp. apply bind_inv in Hp as (n & s2 & _ & Hp). apply bind_inv in Hp as (r & s3 & _ & Hp).
  apply bind_inv in Hp as (u & s4 & _ & Hp). apply ret_inv in Hp as [-> _].
  apply toBase64_ascii, pbkdf2_bytes.
Qed.

Section Calls.
Context {N E : Type} `{Environment N}.
Abbreviation W := (world N E).

(** The fetch of a JSON request, when it is answered. *)
Lemma fetch_returns r (w : W) res n' : handle r (net w) = (Some res, n') ->
  returns (fetch r) w res (World (baseUrl w) n' (rng w)).
Proof. intros Hh. unfold returns, fetch. by rewrite Hh. Qed.

Lemma call_anon (path : jsstr) body v (w : W) n' :
  answers (anon_request (baseUrl w) path body) (net w) v n' ->
  returns (call POST path (Some body) None) w v (World (baseUrl w) n' (rng w)).
Proof.
  intros (status & text & Hh & Hok & Hne & Hp). unfold returns, call. cbn [truthy]. rewrite bind_ret.
  unfold gets. change ((fun w : W => (inl (baseUrl w), w)) ≫= ?f) with (fun w : W => f (baseUrl w) w).
  cbv beta. run (fetch_returns (anon_request (baseUrl w) path body) w _ n' Hh). cbn [rs_text].
  destruct text as [|u text]; [done|]. rewrite Hp, bind_some, Hok. done.
Qed.

Lemma login_anon i h v (w : W) n' :
  answers (anon_request (baseUrl w) (js "/api/auth/login") (login_body i h)) (net w) v n' ->
  returns (login i h None) w v (World (baseUrl w) n' (rng w)).
Proof.
  intros (status & text & Hh & Hok & Hne & Hp). unfold returns, login.
  unfold gets. change ((fun w : W => (inl (baseUrl w), w)) ≫= ?f) with (fun w : W => f (baseUrl w) w).
  cbv beta. run (fetch_returns (anon_request (baseUrl w) (js "/api/auth/login") (login_body i h)) w _ n' Hh).
  cbn [rs_text]. rewrite Hp. cbn [default from_option id]. by rewrite Hok.
Qed.

Lemma member_returns k v (w : W) : v <> JNull -> returns (member k (Some v)) w (get_prop k v) w.
Proof. by destruct v. Qed.
End Calls.

Section Accounts.
Context {N E : Type} `{Unicode} `{WebCrypto} `{Environment N} `{Entropy E}.
Context (base : jsstr) `{!AccountServer N base}.
Abbreviation W := (world N E).

#[global] Instance at_undrawn n : Undrawn (S := W) (fun w => baseUrl w = base /\ net w = n).
Proof. intros k w Hw. exact Hw. Qed.

#[global] Instance generateUserKeypair_keeps P uk : Undrawn P -> Keeps (S := W) P (generateUserKeypair uk).
Proof.
  intros HP. unfold generateUserKeypair. apply bind_keeps; [apply _|]. intros seed.
  destruct (rsa_keygen seed). apply _.
Qed.

#[global] Instance buildRegistration_keeps P i pw p : Undrawn P -> Keeps (S := W) P (buildRegistration i pw p).
Proof. intros HP. unfold buildRegistration, generateUserKey, wrapUserKey. apply _. Qed.

Lemma bundle_json_ok i h w kw pub : ascii i -> ascii h -> ascii w -> ascii kw -> ascii pub ->
  json_ok (bundle_json {| rb_identifier := i; rb_kdf := DEFAULT_KDF; rb_masterPasswordHash := h;
    rb_protectedUserKey := w; rb_publicKey := pub; rb_protectedPrivateKey := kw |}).
Proof.
  intros Hi Hh Hw Hk Hp. apply json_ok_obj. split; [vm_compute; reflexivity|].
  constructor; [split; [decide_forall|by apply ascii_units]|].
  constructor; [split; [decide_forall|by apply json_okb_ok; vm_compute]|].
  repeat (constructor; [split; [decide_forall|by apply ascii_units]|]). constructor.
Qed.

(** [A] has a bundle for [i] that the password opens to the user key [uk]. *)
Definition has_account (A : gmap jsstr json) (i pw : jsstr) (uk : bytes) : Prop := exists b mk st h ow,
  A !! normalizeIdentifier i = Some b /\
  get_prop (js "kdf") b = Some DEFAULT_KDF /\ get_prop (js "masterPasswordHash") b = Some (JStr h) /\
  get_prop (js "protectedUserKey") b = Some (JStr ow) /\
  (forall s : W, returns (deriveMasterKey pw i (Some DEFAULT_KDF)) s mk s) /\
  (forall s : W, returns (stretchMasterKey mk) s st s) /\ aes_key_ok (encKey st) = true /\
  (forall s : W, returns (deriveMasterPasswordHash mk pw) s h s) /\ sealed (encKey st) uk ow.

(** The wrapped private key of the bundle. *)
Definition wrapped_in (A : gmap jsstr json) (i : jsstr) : json :=
  coalesce (A !! normalizeIdentifier i ≫= get_prop (js "protectedPrivateKey")) (JStr []).

(** The flows of an account have let in a session of it, and done nothing else. *)
Definition let_in (i : jsstr) (s : Session) (w w' : W) : Prop :=
  baseUrl w' = base /\ acc_ok (net w') /\ ciphers (net w') = ciphers (net w) /\
  issued (net w') (normalizeIdentifier i) (ss_accessToken s).

(** Logging in to an account the server has, with the password that built it. *)
Lemma loginAccount_returns j i pw uk (w : W) :
  baseUrl w = base -> acc_ok (net w) -> ascii j -> normalizeIdentifier j = normalizeIdentifier i ->
  has_account (accounts (net w)) i pw uk ->
  exists s w', returns (loginAccount j pw None) w s w' /\ ss_userKey s = uk /\ ss_identifier s = j /\
    ss_protectedPrivateKey s = Some (wrapped_in (accounts (net w)) i) /\
    let_in i s w w' /\ accounts (net w') = accounts (net w).
Proof.
  intros Hb Hok Hj Hn (b & mk & st & h & ow & Ha & Hkdf & Hmph & Hpuk & Hmk & Hst & Hke & Hh & Hs).
  unfold wrapped_in. rewrite Ha. rewrite <- Hn in Ha.
  destruct (srv_prelogin (net w) j b Hok Hj Ha) as (v & n1 & Hpre & Hok1 & Ha1 & Hc1 & Hv & Hvk).
  set (w1 := World base n1 (rng w)).
  destruct (srv_login n1 j h b Hok1 Hj (hash_ascii _ _ w w h (Hh w))) as (o & n2 & Hlog & Hok2 & Ha2 & Hc2 & Hi & H2f & Hpu & Hpp);
    [by rewrite Ha1|done|].
  set (w2 := World base n2 (rng w)).
  eexists (session_of j (JObj o) uk), w2. split; [|split; [done|split; [done|split;
    [unfold session_of; cbn [ss_protectedPrivateKey get_prop mbind option_bind]; by rewrite Hpp|split; [|cbn [net w2]; by rewrite Ha2]]]]].
  - unfold returns, loginAccount. rewrite <- Hb in Hpre.
    assert (Hc : returns (prelogin j) w v w1) by (unfold w1; rewrite <- Hb; by apply call_anon). run Hc.
    run (member_returns (js "kdf") v w1 Hv). rewrite Hvk, Hkdf.
    assert (Hmj : returns (deriveMasterKey pw j (Some DEFAULT_KDF)) w1 mk w1)
      by (unfold deriveMasterKey; rewrite Hn; apply Hmk).
    run Hmj. run Hh. assert (Hl : returns (login j h None) w1 (JObj o) w2) by (by apply (login_anon j h (JObj o) w1)).
    run Hl. assert (Hch : returns (challenged (JObj o)) w2 false w2).
    { unfold returns, challenged. cbn [get_prop]. by rewrite H2f. }
    run Hch. rewrite bind_throw_if. run Hst. cbn [get_prop]. rewrite Hpu, Hpuk. unfold unwrapUserKey.
    by run (open_under_sealed _ _ _ w2 Hke Hs).
  - split; [done|]. split; [done|]. split; [cbn [net w2]; by rewrite Hc2|]. by rewrite <- Hn.
Qed.

(** Registering a new account leaves the server with it. *)
Lemma registerAccount_returns i pw (w : W) :
  baseUrl w = base -> acc_ok (net w) -> pw <> [] -> identifier_ok i ->
  accounts (net w) !! normalizeIdentifier i = None ->
  exists s w', returns (registerAccount i pw) w s w' /\ user_key_ok (ss_userKey s) /\
    ss_protectedPrivateKey s = Some (wrapped_in (accounts (net w')) i) /\
    let_in i s w w' /\ has_account (accounts (net w')) i pw (ss_userKey s).
Proof.
  intros Hb Hok Hp Hi Hnew.
  destruct (buildRegistration_returns i pw DEFAULT_KDF w Hp Hi default_kdf_ok)
    as (mk & st & h & uk & ow & kw & seed & w0 & Hr & Hmk & Hst & Hke & Hh & Huk & Hs & Hsd & Hkw).
  assert (Hw0 : baseUrl w0 = base /\ net w0 = net w).
  { eapply (keeps_returns (fun v : W => baseUrl v = base /\ net v = net w)) in Hr; [exact Hr|apply _|done]. }
  destruct Hw0 as [Hb0 Hn0].
  set (b := {| rb_identifier := normalizeIdentifier i; rb_kdf := DEFAULT_KDF; rb_masterPasswordHash := h;
    rb_protectedUserKey := ow; rb_publicKey := toBase64 (rsa_keygen seed).1; rb_protectedPrivateKey := kw |}) in *.
  pose proof (normalize_ascii i (proj1 Hi)) as Hia. pose proof (hash_ascii _ _ w w h (Hh w)) as Hha.
  assert (Hbj : json_ok (bundle_json b)).
  { apply bundle_json_ok; [done|done|by eapply sealed_ascii|by eapply sealed_ascii|].
    by apply toBase64_ascii, rsa_keygen_bytes. }
  destruct (srv_register (net w) (normalizeIdentifier i) (bundle_json b) Hok Hbj Hnew eq_refl)
    as (v & n1 & Hreg & Hok1 & Hacc1 & Hc1).
  set (w1 := World base n1 (rng w0)).
  assert (Hl1 : accounts n1 !! normalizeIdentifier i = Some (bundle_json b)) by (rewrite Hacc1; apply lookup_insert_eq).
  assert (Hnn : normalizeIdentifier (normalizeIdentifier i) = normalizeIdentifier i)
    by (apply normalize_idem, Hi).
  destruct (srv_login n1 (normalizeIdentifier i) h (bundle_json b) Hok1 Hia Hha) as
    (o & n2 & Hlog & Hok2 & Hacc2 & Hc2 & Hiss & H2f & _ & Hpp); [by rewrite Hnn|done|].
  set (w2 := World base n2 (rng w0)). rewrite Hnn in Hiss.
  assert (Hl2 : accounts n2 !! normalizeIdentifier i = Some (bundle_json b)) by by rewrite Hacc2.
  eexists _, w2. split.
  { unfold returns, registerAccount. run Hr.
    assert (Hc : returns (register (bundle_json b)) w0 v w1).
    { unfold w1. rewrite <- Hb0. apply call_anon. by rewrite Hb0, Hn0. }
    run Hc. assert (Hl : returns (login (rb_identifier b) (rb_masterPasswordHash b) None) w1 (JObj o) w2)
      by (by apply (login_anon (normalizeIdentifier i) h (JObj o) w1)). run Hl.
    assert (Hch : returns (challenged (JObj o)) w2 false w2)
      by (unfold returns, challenged; cbn [get_prop]; by rewrite H2f).
    run Hch. rewrite bind_throw_if. reflexivity. }
  split; [exact Huk|]. split; [|split].
  - unfold wrapped_in. cbn [net w2]. by rewrite Hl2.
  - split; [done|]. split; [done|]. split; [cbn [net w2]; by rewrite Hc2, Hc1|exact Hiss].
  - exists (bundle_json b), mk, st, h, ow. done.
Qed.
End Accounts.

(** ** Theorems *)
Section Theorems.
Context {N E : Type} `{Unicode} `{WebCrypto} `{Environment N} `{Entropy E}.
Abbreviation W := (world N E).

Lemma register_login_keys base `{!AccountServer N base} i pw (w : W)
  (Hb : baseUrl w = base) (Hok : acc_ok (net w)) (Hp : pw <> []) (Hi : identifier_ok i)
  (Hnew : accounts (net w) !! normalizeIdentifier i = None) :
  exists s w1, returns (registerAccount i pw) w s w1 /\ user_key_ok (ss_userKey s) /\
    forall j, ascii j -> normalizeIdentifier j = normalizeIdentifier i ->
    exists s' w2, returns (loginAccount j pw None) w1 s' w2 /\
      ss_userKey s' = ss_userKey s /\ ss_protectedPrivateKey s' = ss_protectedPrivateKey s.
Proof.
  destruct (registerAccount_returns base i pw w Hb Hok Hp Hi Hnew) as (s & w1 & Hr & Huk & Hpp & (Hb1 & Hok1 & _) & Ha).
  exists s, w1. split; [exact Hr|]. split; [exact Huk|]. intros j Hj Hn.
  destruct (loginAccount_returns base j i pw _ w1 Hb1 Hok1 Hj Hn Ha) as (s' & w2 & Hl & Hu & _ & Hp' & _).
  exists s', w2. rewrite Hpp. done.
Qed.

(** C2: the whole protocol: on a server that keeps what registration uploads, a
    new account can be registered, and from then on the master password, with the
    identifier in any spelling that normalizes to the registered one, logs in on
    any device and arrives at the same user key and the same sharing key. *)
Theorem register_then_login base `{!AccountServer N base} i pw (w : W)
  (Hb : baseUrl w = base) (Hok : acc_ok (net w)) (Hp : pw <> []) (Hi : identifier_ok i)
  (Hnew : accounts (net w) !! normalizeIdentifier i = None) :
  exists s w1, returns (registerAccount i pw) w s w1 /\ user_key_ok (ss_userKey s) /\
    forall j, ascii j -> normalizeIdentifier j = normalizeIdentifier i ->
    exists s' w2, returns (loginAccount j pw None) w1 s' w2 /\
      ss_userKey s' = ss_userKey s /\ ss_protectedPrivateKey s' = ss_protectedPrivateKey s.
Proof. by eapply register_login_keys. Qed.

(** An account with a second factor is not a failed login: when the server
    answers the right password with a 401 that asks for a factor, the caller gets
    the challenge with the methods the server listed, and no session; any other
    refusal is an Error with the server's message. *)
Theorem loginAccount_challenge i pw pre mk h (w : W) n1 n2 text v
  (Hpre : answers (anon_request (baseUrl w) (js "/api/accounts/prelogin") (prelogin_body i)) (net w) pre n1)
  (Hnn : pre <> JNull)
  (Hmk : forall s : W, returns (deriveMasterKey pw i (get_prop (js "kdf") pre)) s mk s)
  (Hh : forall s : W, returns (deriveMasterPasswordHash mk pw) s h s)
  (Hlog : handle (anon_request (baseUrl w) (js "/api/auth/login") (login_body i h)) n1
            = (Some {| rs_status := 401; rs_text := text |}, n2))
  (Hv : json_parse text = Some (JObj v)) :
  throws (loginAccount i pw None) w
    (if truthy (obj_get (js "twoFactorRequired") v)
     then TwoFactorRequiredError (Some (coalesce (obj_get (js "methods") v) (JArr [])))
     else match obj_get (js "error") v with
          | Some e => if truthy (Some e)
                      then match json_to_string e with Some m => JsError m | None => JsTypeError end
                      else JsError (js "login failed (401)")
          | None => JsError (js "login failed (401)")
          end) (World (baseUrl w) n2 (rng w)).
Proof.
  set (w1 := World (baseUrl w) n1 (rng w)). set (w2 := World (baseUrl w) n2 (rng w)).
  unfold throws, loginAccount.
  assert (Hc : returns (prelogin i) w pre w1) by (by apply call_anon). run Hc.
  run (member_returns (js "kdf") pre w1 Hnn). run Hmk. run Hh.
  assert (Hf : forall f : response -> M W json,
    (fetch (anon_request (baseUrl w1) (js "/api/auth/login") (login_body i h)) ≫= f) w1
    = f {| rs_status := 401; rs_text := text |} w2).
  { intros f. by run (fetch_returns (anon_request (baseUrl w1) (js "/api/auth/login") (login_body i h)) w1 _ n2 Hlog). }
  assert (Hl : login i h None w1 = (if truthy (obj_get (js "twoFactorRequired") v)
      then (inl (JObj [(js "twoFactorRequired", JBool true);
                       (js "methods", coalesce (obj_get (js "methods") v) (JArr []))]), w2)
      else (inr (match obj_get (js "error") v with
          | Some e => if truthy (Some e)
                      then match json_to_string e with Some m => JsError m | None => JsTypeError end
                      else JsError (js "login failed (401)")
          | None => JsError (js "login failed (401)")
          end), w2))).
  { unfold login, gets. change ((fun w : W => (inl (baseUrl w), w)) ≫= ?f) with (fun w : W => f (baseUrl w) w).
    cbv beta. rewrite Hf. cbn [rs_text rs_status]. rewrite Hv. cbn [default from_option id].
    change (rs_ok {| rs_status := 401; rs_text := text |}) with false. change (401 =? 401) with true. cbv iota.
    cbn [member]. rewrite bind_ret. cbn [get_prop].
    destruct (truthy (obj_get (js "twoFactorRequired") v)); [done|]. rewrite bind_ret. unfold error_of.
    destruct (obj_get (js "error") v) as [e|]; [|done]. destruct (truthy (Some e)); [|done].
    unfold text_of_value. cbn [js_to_string]. by destruct (json_to_string e). }
  unfold mbind at 1, M_bind. rewrite Hl. by destruct (truthy (obj_get (js "twoFactorRequired") v)).
Qed.

(** A bulk import never stops on a bad item: whatever the server does to each
    request, every item is counted once, as added or as failed, and progress is
    reported after each of them. *)
Theorem importItems_counts (s : Session) items (w : W) :
  exists a f w', returns (importItems s items (fun _ _ => mret tt)) w (a, f) w' /\
    0 <= a /\ 0 <= f /\ a + f = Z.of_nat (length items).
Proof.
  unfold importItems. generalize (Z.of_nat (length items)) at 1 as total. intros total.
  enough (forall i a f (w : W), 0 <= a -> 0 <= f -> exists a' f' w',
    returns (import_loop s (fun _ _ => mret tt) total i items a f) w (a', f') w' /\
    0 <= a' /\ 0 <= f' /\ a' + f' = a + f + Z.of_nat (length items)) as Hg
    by (destruct (Hg 0 0 0 w) as (a & f & w' & Hr & Ha & Hf & Hs); try lia; exists a, f, w'; split; [done|lia]).
  induction items as [|it items IH]; intros i a f w0 Ha Hf; cbn [import_loop].
  { exists a, f, w0. split; [done|cbn [length]; lia]. }
  assert (Hc : exists ok w1, returns (catch (_ ← addItem s it; mret true) (fun _ => mret false)) w0 ok w1).
  { unfold returns, catch, mbind, M_bind. destruct (addItem s it w0) as [[o|e] w1]; by eexists _, w1. }
  destruct Hc as (ok & w1 & Hc).
  destruct (IH (i + 1) (if ok then a + 1 else a) (if ok then f else f + 1) w1) as (a' & f' & w' & Hr & Ha' & Hf' & Hs);
    [destruct ok; lia..|].
  exists a', f', w'. split; [|destruct ok; cbn [length]; lia].
  unfold returns. run Hc. rewrite bind_ret. exact Hr.
Qed.

(** A generated password has the asked length and only characters of the
    alphabet, and generation succeeds up to the platform's 65536 bytes. *)
Theorem generatePassword_spec {St} `{Entropy St} n (s : St) (Hn : 4 * Z.of_nat n <= 65536) :
  exists p s', returns (generatePassword n) s p s' /\ length p = n /\
    Forall (fun u => u ∈ PASSWORD_ALPHABET) p.
Proof.
  destruct (randomBytes_returns (4 * n) s ltac:(lia)) as (b & s1 & Hr & Hl & Hb).
  assert (Hu : returns (randomU32 n) s (u32_list b) s1) by (unfold returns, randomU32; by run Hr).
  eexists _, s1. split; [unfold returns, generatePassword; run Hu; reflexivity|]. split.
  - rewrite length_map. clear Hu Hr Hb Hn. revert b Hl. induction n as [|n IH]; intros b Hl.
    + by destruct b.
    + do 4 (destruct b as [|? b]; [cbn in Hl; lia|]). cbn [u32_list length]. f_equal. apply IH.
      cbn in Hl. lia.
  - apply Forall_map, Forall_forall. intros x _. set (k := Z.to_nat _).
    assert (Hk : (k < length PASSWORD_ALPHABET)%nat).
    { unfold k. pose proof (Z.mod_pos_bound x (Z.of_nat (length PASSWORD_ALPHABET)) eq_refl). lia. }
    destruct (lookup_lt_is_Some_2 _ _ Hk) as [u Hlk]. rewrite Hlk. by eapply list_elem_of_lookup_2.
Qed.

(** Letters and digits only, which no serializer escapes. *)
Definition plain (s : jsstr) : Prop := Forall (fun u => is_alnum u = true) s.

(** The units a percent-encoded component is made of. *)
Lemma uri_component_units b : bytes_ok b ->
  Forall (fun u => uri_unreserved u = true \/ u = 37) (b ≫= fun x => if uri_unreserved x then [x] else percent x).
Proof.
  induction 1 as [|x b Hx _ IH]; [constructor|]. rewrite bind_cons. apply Forall_app. split; [|exact IH].
  destruct (uri_unreserved x) eqn:Eu; [constructor; [by left|constructor]|]. unfold percent.
  assert (Hhex : forall d, 0 <= d < 16 -> uri_unreserved (hex_upper d) = true).
  { intros d Hd. unfold uri_unreserved. apply orb_true_iff. left. unfold is_alnum, is_upper, is_lower, is_digit, hex_upper.
    zcases. }
  constructor; [by right|]. constructor; [left; apply Hhex; divlia|].
  constructor; [left; apply Hhex; divlia|constructor].
Qed.

(** The secret of a two-factor setup survives its URI: what an authenticator
    (or passwd itself) reads from the otpauth URI is the decoded secret with the
    parameters of the server, whatever the identifier is.  The URL parser is asked
    only to read back the serializer's output on letters and digits. *)
Theorem otpauth_roundtrip `{UrlParser} identifier secret key uri
  (Hurl : forall label ps, Forall (fun u => uri_unreserved u = true \/ u = 37) label ->
     Forall (fun p => plain p.1 /\ plain p.2) ps ->
     parse_url (js "otpauth://totp/" ++ label ++ js "?" ++ form_query ps)
       = Some {| hostname := js "totp"; search_params := ps |})
  (Hi : units_ok identifier) (Hp : plain secret)
  (Hs : base32Decode secret = Some key)
  (Huri : buildOtpauthUri identifier secret = inl uri) :
  parseTotpSecret uri = Some {| Totp.secret := key; algorithm := SHA1; digits := 6; period := 30 |}.
Proof.
  unfold buildOtpauthUri, encodeURIComponent in Huri. destruct (well_formed _); [|done].
  set (label := utf8 _ ≫= _) in Huri. set (ps := [(js "secret", secret); _; _; _; _]) in Huri.
  assert (Hu : uri = js "otpauth://totp/" ++ label ++ js "?" ++ form_query ps) by congruence.
  clear Huri. subst uri.
  assert (Htrim : trim (js "otpauth://totp/" ++ label ++ js "?" ++ form_query ps)
    = js "otpauth://totp/" ++ label ++ js "?" ++ form_query ps).
  { apply trimmed_trim. split; [done|].
    change (form_query ps) with ((form_encode (js "secret") ++ [c_eq] ++ form_encode secret) ++
      js "&issuer=passwd&algorithm=SHA1&digits=6&period=30").
    by rewrite !last_app. }
  assert (Hl : Forall (fun u => uri_unreserved u = true \/ u = 37) label).
  { apply uri_component_units, utf8_bytes, Forall_app. split; [auto with passwd|done]. }
  unfold parseTotpSecret. rewrite Htrim.
  change (js "otpauth://totp/" ++ label ++ js "?" ++ form_query ps)
    with (111 :: (js "tpauth://totp/" ++ label ++ js "?" ++ form_query ps)) at 1. cbv iota.
  change (str_eqb _ (js "otpauth://")) with true. cbv iota.
  rewrite Hurl by (done || (repeat (constructor; [split; [decide_forall|first [done|decide_forall]]|]); constructor)).
  cbn [mbind option_bind search_params].
  change (params_get (js "secret") ps) with (Some secret). cbn [default from_option id]. rewrite Hs.
  cbn [mbind option_bind]. do 2 f_equal.
  change (params_get (js "algorithm") ps) with (Some (js "SHA1")). cbn [default from_option id].
  unfold parse_alg. rewrite to_upper_ascii by decide_forall. reflexivity.
Qed.
End Theorems.

(** ** A concrete account server *)

Definition answer_json (v : json) (m : gmap jsstr json) : option response * gmap jsstr json :=
  (Some {| rs_status := 200; rs_text := stringify v |}, m).

Definition text_member (k : jsstr) (v : json) : jsstr :=
  match get_prop k v with Some (JStr s) => s | _ => [] end.

Definition token_of (i : jsstr) : jsstr := js "for " ++ i.
Definition account_server `{Unicode} (r : request) (m : gmap jsstr json) : option response * gmap jsstr json :=
  match rq_body r ≫= json_parse with
  | None => (None, m)
  | Some b =>
      let i := text_member (js "identifier") b in
      if str_eqb (rq_url r) (js "/api/accounts/register") then answer_json (JObj []) (<[i := b]> m)
      else match m !! normalizeIdentifier i with
      | None => (Some {| rs_status := 401; rs_text := [] |}, m)
      | Some a =>
          if str_eqb (rq_url r) (js "/api/accounts/prelogin")
          then answer_json (obj_of [(js "kdf", get_prop (js "kdf") a)]) m
          else if bool_decide (get_prop (js "masterPasswordHash") a = get_prop (js "masterPasswordHash") b)
          then answer_json (obj_of [(js "protectedUserKey", get_prop (js "protectedUserKey") a);
                                    (js "protectedPrivateKey", get_prop (js "protectedPrivateKey") a);
                                    (js "accessToken", str (token_of (normalizeIdentifier i)))]) m
          else (Some {| rs_status := 401; rs_text := [] |}, m)
      end
  end.

#[local] Instance account_environment `{Unicode} : Environment (gmap jsstr json) := {|
  handle := account_server;
  startAuthentication _ n := (inr LibraryError, n);
  startRegistration _ n := (inr LibraryError, n);
|}.

Lemma prop_json_ok k v w : json_ok v -> get_prop k v = Some w -> json_ok w.
Proof. destruct v; try done. apply obj_get_ok. Qed.

Lemma answer_answers `{Unicode} r n v n' : json_ok v ->
  account_server r n = answer_json v n' -> answers r n v n'.
Proof.
  intros Hv Hr. exists 200, (stringify v). split; [exact Hr|]. split; [done|].
  assert (Hp : json_parse (stringify v) = Some v) by by apply json_parse_stringify.
  split; [|done]. intros E. by rewrite E in Hp.
Qed.

Lemma account_server_body `{Unicode} path (b : json) : json_ok b ->
  rq_body (anon_request [] path b) ≫= json_parse = Some b.
Proof. intros Hb. cbn [rq_body anon_request mbind option_bind]. by apply json_parse_stringify. Qed.

#[local] Program Instance account_map_server `{Unicode} : AccountServer (gmap jsstr json) [] := {|
  accounts m := m;
  ciphers _ := ∅;
  issued m i v := v = str (token_of i) /\ is_Some (m !! i);
  acc_ok m := map_Forall (fun _ b => json_ok b) m;
|}.
Next Obligation. intros. apply lookup_empty. Qed.
Next Obligation.
  intros ? n i b Hn Hb Hnew Hi. exists (JObj []), (<[i := b]> n). split_and!; [|by apply map_Forall_insert_2|done|done].
  apply answer_answers; [by apply json_okb_ok|]. unfold account_server. rewrite account_server_body by done.
  unfold text_member. by rewrite Hi.
Qed.
Next Obligation.
  intros ? n j b Hn Hj Ha.
  assert (Hb : json_ok (prelogin_body j)).
  { apply json_ok_obj. split; [vm_compute; reflexivity|].
    constructor; [split; [decide_forall|by apply ascii_units]|constructor]. }
  exists (obj_of [(js "kdf", get_prop (js "kdf") b)]), n. split_and!; [|done|done|done|done|].
  - apply answer_answers.
    + cbn [obj_of]. destruct (get_prop (js "kdf") b) as [v|] eqn:Ek; [|by apply json_okb_ok].
      apply json_ok_obj. split; [vm_compute; reflexivity|].
      constructor; [split; [decide_forall|]|constructor]. by eapply prop_json_ok; [apply (Hn _ _ Ha)|].
    + unfold account_server. rewrite account_server_body by done.
      change (text_member (js "identifier") (prelogin_body j)) with j. by rewrite Ha.
  - by destruct (get_prop (js "kdf") b).
Qed.
Next Obligation.
  intros ? n j h b Hn Hj Hh Ha Hm.
  assert (Hb : json_ok (login_body j h)).
  { apply json_ok_obj. split; [vm_compute; reflexivity|].
    repeat (constructor; [split; [decide_forall|by apply ascii_units]|]). constructor. }
  set (pu := get_prop (js "protectedUserKey") b). set (pp := get_prop (js "protectedPrivateKey") b).
  set (token := JStr (token_of (normalizeIdentifier j))).
  set (o := match pu with Some v => [(js "protectedUserKey", v)] | None => [] end ++
            match pp with Some v => [(js "protectedPrivateKey", v)] | None => [] end ++ [(js "accessToken", token)]).
  assert (Ho : obj_of [(js "protectedUserKey", pu); (js "protectedPrivateKey", pp); (js "accessToken", Some token)] = JObj o)
    by (unfold o; by destruct pu, pp).
  exists o, n. split_and!; [|done|done|done|by unfold o; destruct pu, pp|by eexists|by unfold o; destruct pu, pp..].
  apply answer_answers.
  - assert (Hok : forall k v, get_prop k b = Some v -> json_ok v) by (intros k v; apply prop_json_ok, (Hn _ _ Ha)).
    assert (Ht : json_ok token) by (apply ascii_units, Forall_app; split; [decide_forall|by apply normalize_ascii]).
    apply json_ok_obj. unfold o. unfold pu, pp.
    destruct (get_prop (js "protectedUserKey") b) as [u|] eqn:Eu;
    destruct (get_prop (js "protectedPrivateKey") b) as [p|] eqn:Ep; (split; [vm_compute; reflexivity|]);
    repeat (constructor; [split; [decide_forall|first [exact Ht|by eapply Hok]]|]); constructor.
  - unfold account_server. rewrite account_server_body by done.
    change (text_member (js "identifier") (login_body j h)) with j. rewrite Ha.
    change (get_prop (js "masterPasswordHash") (login_body j h)) with (Some (JStr h)). rewrite Hm.
    rewrite bool_decide_eq_true_2 by done. rewrite <- Ho. done.
Qed.

(** A URL parser for addresses whose query needs no decoding. *)
Definition plain_pairs (query : jsstr) : list (jsstr * jsstr) :=
  omap (fun p => match split_on c_eq p with [k; v] => Some (k, v) | _ => None end) (split_on 38 query).
Definition plain_parser : UrlParser := {|
  parse_url s :=
    if starts_with (js "otpauth://totp/") s
    then match split_on 63 s with
         | [_; query] => Some {| hostname := js "totp"; search_params := plain_pairs query |}
         | _ => None
         end
    else None;
|}.

Lemma plain_ascii s : plain s -> ascii s.
Proof.
  intros Hs. eapply Forall_impl; [exact Hs|]. intros u. unfold ascii_ok, is_alnum, is_upper, is_lower, is_digit. lia.
Qed.

Lemma plain_no c s : is_alnum c = false -> plain s -> Forall (fun u => u <> c) s.
Proof. intros Hc Hs. eapply Forall_impl; [exact Hs|]. intros u Hu ->. by rewrite Hu in Hc. Qed.

Lemma plain_form_encode s : plain s -> form_encode s = s.
Proof.
  intros Hs. unfold form_encode. rewrite utf8_ascii by by apply plain_ascii.
  induction Hs as [|u s Hu _ IH]; [done|]. rewrite bind_cons, IH, Hu. done.
Qed.

Lemma plain_pair_split k v : plain k -> plain v -> split_on c_eq (k ++ c_eq :: v) = [k; v].
Proof.
  intros Hk Hv. rewrite split_on_app by by apply plain_no. by rewrite split_on_nosep by by apply plain_no.
Qed.

Lemma plain_pairs_query ps : Forall (fun p => plain p.1 /\ plain p.2) ps -> plain_pairs (form_query ps) = ps.
Proof.
  intros Hps. unfold plain_pairs, form_query.
  assert (Hm : map (fun '(k, v) => form_encode k ++ [c_eq] ++ form_encode v) ps
             = map (fun p => p.1 ++ c_eq :: p.2) ps).
  { clear -Hps. induction Hps as [|[k v] ps [Hk Hv] _ IH]; [done|]. cbn [map fst snd].
    cbn in Hk, Hv. by rewrite !plain_form_encode, IH. }
  rewrite Hm. clear Hm.
  assert (Ha : forall p : jsstr * jsstr, plain p.1 -> plain p.2 -> Forall (fun u => u <> 38) (p.1 ++ c_eq :: p.2)).
  { intros p H1 H2. apply Forall_app. split; [by apply plain_no|]. constructor; [done|by apply plain_no]. }
  induction Hps as [|[k v] ps [Hk Hv] Hps IH]; [done|]. cbn [map]. cbn [fst snd] in Hk, Hv.
  specialize (Ha (k, v) Hk Hv) as Hkv. cbn [fst snd] in *. destruct ps as [|p ps].
  - cbn [map join]. rewrite split_on_nosep by done. cbn [omap list_omap]. by rewrite plain_pair_split.
  - rewrite join_cons by done. change (js "&" ++ ?t) with (38 :: t). rewrite split_on_app by done.
    cbn [omap list_omap]. rewrite plain_pair_split by done. f_equal. exact IH.
Qed.

Lemma plain_parser_reads `{Unicode} label ps :
  Forall (fun u => uri_unreserved u = true \/ u = 37) label ->
  Forall (fun p => plain p.1 /\ plain p.2) ps ->
  @parse_url plain_parser (js "otpauth://totp/" ++ label ++ js "?" ++ form_query ps)
    = Some {| hostname := js "totp"; search_params := ps |}.
Proof.
  intros Hl Hps. cbn [parse_url plain_parser]. rewrite (proj2 (starts_with_spec _ _)) by by eexists.
  rewrite app_assoc. change (js "?" ++ ?t) with (63 :: t). rewrite split_on_app.
  - rewrite split_on_nosep; [by rewrite plain_pairs_query|]. unfold form_query.
    clear Hl label. induction Hps as [|[k v] ps [Hk Hv] Hps IH]; [constructor|]. cbn [map]. cbn in Hk, Hv.
    assert (Hkv : Forall (fun u => u <> 63) (form_encode k ++ [c_eq] ++ form_encode v)).
    { rewrite !plain_form_encode by done. apply Forall_app. split; [by apply plain_no|].
      constructor; [done|by apply plain_no]. }
    destruct ps; [done|]. rewrite join_cons by done. apply Forall_app. split; [done|]. by constructor.
  - apply Forall_app. split; [decide_forall|]. eapply Forall_impl; [exact Hl|]. intros u [Hu|Hu] ->; [by compute in Hu|done].
Qed.

#[local] Existing Instances latin1_unicode model_crypto lcg_entropy.

Definition new_world : world (gmap jsstr json) Z := World [] ∅ 7.

Lemma register_then_login_witness :
  exists s w1, returns (registerAccount (js "Alice@Example.org") (js "correct horse")) new_world s w1 /\
    exists s' w2, returns (loginAccount (js " alice@EXAMPLE.org") (js "correct horse") None) w1 s' w2 /\
      ss_userKey s' = ss_userKey s /\ ss_protectedPrivateKey s' = ss_protectedPrivateKey s.
Proof.
  destruct (register_then_login [] (js "Alice@Example.org") (js "correct horse") new_world)
    as (s & w1 & Hr & _ & Hl); [done|by apply map_Forall_empty|done|apply sample_identifier_ok|done|].
  exists s, w1. split; [exact Hr|]. apply Hl; [decide_forall|vm_compute; reflexivity].
Defined.

(** A server where every account has a second factor. *)
Definition guarded_server (r : request) (n : unit) : option response * unit :=
  (Some (if str_eqb (rq_url r) (js "/api/auth/login")
         then {| rs_status := 401; rs_text := jq "{'error':'two-factor','twoFactorRequired':true,'methods':['totp']}" |}
         else {| rs_status := 200; rs_text := stringify (JObj [(js "kdf", DEFAULT_KDF)]) |}), n).
#[local] Instance guarded_environment : Environment unit := {|
  handle := guarded_server;
  startAuthentication _ n := (inr LibraryError, n);
  startRegistration _ n := (inr LibraryError, n);
|}.

Lemma loginAccount_challenge_witness :
  throws (loginAccount (js "Alice@Example.org") (js "pw") None) (World [] tt 1 : world unit Z)
    (TwoFactorRequiredError (Some (JArr [JStr (js "totp")]))) (World [] tt 1).
Proof.
  destruct (deriveMasterKey_returns (St := world unit Z) (js "pw") (js "Alice@Example.org") DEFAULT_KDF)
    as (mk & Hmk & _); [done|apply sample_identifier_ok|apply default_kdf_ok|].
  destruct (deriveMasterPasswordHash_returns (St := world unit Z) mk (js "pw")) as [h Hh].
  set (pre := JObj [(js "kdf", DEFAULT_KDF)]).
  refine (loginAccount_challenge (js "Alice@Example.org") (js "pw") pre mk h (World [] tt 1 : world unit Z) tt tt
    (jq "{'error':'two-factor','twoFactorRequired':true,'methods':['totp']}")
    [(js "error", JStr (js "two-factor")); (js "twoFactorRequired", JBool true);
     (js "methods", JArr [JStr (js "totp")])] _ _ Hmk Hh _ _); [|done|vm_compute; reflexivity..].
  exists 200, (stringify pre). split_and!; [done|done|by vm_compute|].
  apply json_parse_stringify. by apply json_okb_ok; vm_compute.
Defined.

Lemma generatePassword_spec_witness :
  exists p s', returns (generatePassword 20) 5 p s' /\ length p = 20%nat /\
    Forall (fun u => u ∈ PASSWORD_ALPHABET) p.
Proof. apply (generatePassword_spec 20 5). lia. Defined.

Lemma otpauth_roundtrip_witness :
  exists uri, buildOtpauthUri (js "alice@example.org") (js "JBSWY3DPEE") = inl uri /\
    @parseTotpSecret _ plain_parser uri =
      Some {| Totp.secret := js "Hello!"; algorithm := SHA1; digits := 6; period := 30 |}.
Proof.
  eexists. split; [vm_compute; reflexivity|].
  apply (@otpauth_roundtrip _ plain_parser (js "alice@example.org") (js "JBSWY3DPEE"));
    [apply plain_parser_reads|decide_forall|decide_forall|vm_compute; reflexivity..].
Defined.
