(* ===== verification/Process.v ===== *)
(** Asynchronous functions as processes: every await is a point where other
    handlers may run.  A process is a tree of atomic actions on a shared state;
    [run_proc] is its meaning when nothing interferes, [step] runs several. *)
From stdpp Require Import relations.
From S2P Require Import Prelude Json Effects.

(** Rule induction on reachability. *)
Lemma rtc_invariant {S} (T : relation S) (P : S -> Prop) s s' :
  (forall a b, T a b -> P a -> P b) -> rtc T s s' -> P s -> P s'.
Proof. intros Hstep. induction 1 as [s|a b c Hab _ IH]; [done|]. intros Ha. apply IH. by eapply Hstep. Qed.

#[local] Unset Elimination Schemes.
Inductive proc (X A : Type) : Type :=
| Done (r : A + exn)
| Await (f : X -> proc X A * X).
#[local] Set Elimination Schemes.
Arguments Done {X A} r.
Arguments Await {X A} f.

Section Proc.
Context {X : Type}.

Fixpoint bindp {A B} (k : A -> proc X B) (p : proc X A) : proc X B :=
  match p with
  | Done (inl a) => k a
  | Done (inr e) => Done (inr e)
  | Await f => Await (fun x => let '(p', x') := f x in (bindp k p', x'))
  end.

#[global] Instance proc_ret : MRet (proc X) := fun A a => Done (inl a).
#[global] Instance proc_bind : MBind (proc X) := fun A B k p => bindp k p.

(** [try { p } catch (e) { h(e) }] *)
Fixpoint catchp {A} (p : proc X A) (h : exn -> proc X A) : proc X A :=
  match p with
  | Done (inl a) => Done (inl a)
  | Done (inr e) => h e
  | Await f => Await (fun x => let '(p', x') := f x in (catchp p' h, x'))
  end.

Definition act {A} (m : M X A) : proc X A :=
  Await (fun x => let '(r, x') := m x in (Done r, x')).

(** Run without interference. *)
Fixpoint run_proc {A} (p : proc X A) : M X A := fun x =>
  match p with
  | Done r => (r, x)
  | Await f => let '(p', x') := f x in run_proc p' x'
  end.

(** Induction with the hypothesis on every continuation. *)
Definition proc_tree_ind {A} (P : proc X A -> Prop)
    (HD : forall r, P (Done r)) (HA : forall f, (forall x, P (f x).1) -> P (Await f)) :
    forall p, P p :=
  fix F p := match p with Done r => HD r | Await f => HA f (fun x => F (f x).1) end.

Section Laws.
Context {A B : Type}.

Lemma run_bind (p : proc X A) (k : A -> proc X B) x :
  run_proc (p ≫= k) x = (run_proc p ≫= fun a => run_proc (k a)) x.
Proof.
  change (p ≫= k) with (bindp k p). unfold mbind, M_bind.
  revert x. induction p as [[a|e]|f IH] using proc_tree_ind; intros x; [done..|].
  cbn [bindp run_proc]. specialize (IH x). destruct (f x) as [p' x']. exact (IH x').
Qed.

Lemma run_catch (p : proc X A) h x :
  run_proc (catchp p h) x = catch (run_proc p) (fun e => run_proc (h e)) x.
Proof.
  revert x. induction p as [[a|e]|f IH] using proc_tree_ind; intros x; [done..|].
  cbn [catchp run_proc]. unfold catch in *. cbn [run_proc].
  specialize (IH x). destruct (f x) as [p' x']. exact (IH x').
Qed.

Lemma run_act (m : M X A) x : run_proc (act m) x = m x.
Proof. cbn. by destruct (m x). Qed.

Lemma run_act_bind (m : M X A) (k : A -> proc X B) x :
  run_proc (act m ≫= k) x = match m x with (inl a, x') => run_proc (k a) x' | (inr e, x') => (inr e, x') end.
Proof. rewrite run_bind. unfold mbind, M_bind. by rewrite run_act. Qed.

Lemma run_ret (a : A) x : run_proc (mret a : proc X A) x = (inl a, x).
Proof. done. Qed.

(** Running a sequence whose first part returns. *)
Lemma run_step (p : proc X A) (k : A -> proc X B) x a x' r :
  run_proc p x = (inl a, x') -> run_proc (k a) x' = r -> run_proc (p ≫= k) x = r.
Proof. intros Hp Hk. rewrite run_bind. unfold mbind, M_bind. by rewrite Hp. Qed.
End Laws.
End Proc.

(** ** Rely and guarantee

    [I] holds between actions, [R] bounds what others do meanwhile: [safe p x Q]
    says that from [x] on every action of [p] keeps [I] and is within [R], and
    that the outcome of [p] satisfies [Q], however others interfere. *)
Section Safe.
Context {X : Type} (I : X -> Prop) (R : relation X) `{!PreOrder R}.

Fixpoint safe {A} (p : proc X A) (x : X) (Q : A + exn -> X -> Prop) : Prop :=
  match p with
  | Done r => Q r x
  | Await f => forall x', R x x' -> I x' ->
      let '(p', x'') := f x' in I x'' /\ R x' x'' /\ safe p' x'' Q
  end.

Definition stable {A} (Q : A -> X -> Prop) : Prop := forall a x x', R x x' -> Q a x -> Q a x'.

Lemma safe_stable {A} (p : proc X A) x x' Q : stable Q -> R x x' -> safe p x Q -> safe p x' Q.
Proof.
  intros HQ HR. destruct p as [r|f]; cbn [safe]; [by apply HQ|]. intros Hs y Hy. apply Hs. by etrans.
Qed.

Lemma safe_impl {A} (p : proc X A) x (Q Q' : A + exn -> X -> Prop) :
  (forall r y, R x y -> Q r y -> Q' r y) -> safe p x Q -> safe p x Q'.
Proof.
  revert x. induction p as [r|f IH] using proc_tree_ind; intros x HQ; cbn [safe]; [by apply HQ|].
  intros Hs y Hy HI. specialize (Hs y Hy HI). specialize (IH y). destruct (f y) as [p' y'].
  destruct Hs as (HI' & HR & Hs). split_and!; [done|done|]. apply IH; [|done].
  intros r z Hz. apply HQ. etrans; [exact Hy|]. by etrans.
Qed.

Lemma safe_bind {A B} (p : proc X A) (k : A -> proc X B) x (Q : A + exn -> X -> Prop) Q' :
  safe p x Q ->
  (forall a y, R x y -> Q (inl a) y -> safe (k a) y Q') ->
  (forall e y, R x y -> Q (inr e) y -> Q' (inr e) y) ->
  safe (p ≫= k) x Q'.
Proof.
  change (p ≫= k) with (bindp k p).
  revert x. induction p as [[a|e]|f IH] using proc_tree_ind; intros x Hp Hk He; cbn [safe bindp] in *;
    [by apply Hk|by apply He|].
  intros y Hy HI. specialize (Hp y Hy HI). specialize (IH y). destruct (f y) as [p' y'].
  destruct Hp as (HI' & HR & Hp). split_and!; [done|done|]. apply IH; [exact Hp|..].
  - intros a z Hz. apply Hk. etrans; [exact Hy|]. by etrans.
  - intros e z Hz. apply He. etrans; [exact Hy|]. by etrans.
Qed.

Lemma safe_catch {A} (p : proc X A) h x (Q : A + exn -> X -> Prop) :
  safe p x (fun r y => match r with inl _ => Q r y | inr e => safe (h e) y Q end) ->
  safe (catchp p h) x Q.
Proof.
  revert x. induction p as [[a|e]|f IH] using proc_tree_ind; intros x Hp; cbn [safe catchp] in *; [done..|].
  intros y Hy HI. specialize (Hp y Hy HI). specialize (IH y). destruct (f y) as [p' y'].
  destruct Hp as (HI' & HR & Hp). split_and!; [done|done|]. by apply IH.
Qed.

Lemma safe_act {A} (m : M X A) x (Q : A + exn -> X -> Prop) :
  (forall y, R x y -> I y -> I (m y).2 /\ R y (m y).2 /\ Q (m y).1 (m y).2) -> safe (act m) x Q.
Proof. intros Hm y Hy HI. specialize (Hm y Hy HI). by destruct (m y). Qed.

Lemma safe_ret {A} (a : A) x (Q : A + exn -> X -> Prop) : Q (inl a) x -> safe (mret a) x Q.
Proof. done. Qed.

(** One action of one process of a pool: the others stay safe. *)
Inductive pool_step {A} : X * list (proc X A) -> X * list (proc X A) -> Prop :=
| pool_act x ps i f p' x' : ps !! i = Some (Await f) -> f x = (p', x') ->
    pool_step (x, ps) (x', <[i := p']> ps).

(** A process of the pool runs alone: its first action, or all of it. *)
Lemma pool_first {A B} (m : M X A) (k : A -> proc X B) i x ps a x' :
  ps !! i = Some (act m ≫= k) -> m x = (inl a, x') -> pool_step (x, ps) (x', <[i := k a]> ps).
Proof. intros Hi Hm. econstructor; [exact Hi|]. cbn. by rewrite Hm. Qed.

Lemma pool_run {A} (p : proc X A) i ps x r x' :
  ps !! i = Some p -> run_proc p x = (r, x') -> rtc pool_step (x, ps) (x', <[i := Done r]> ps).
Proof.
  revert x ps. induction p as [r0|f IH] using proc_tree_ind; intros x ps Hi Hr; cbn [run_proc] in Hr.
  - injection Hr as <- <-. by rewrite list_insert_id.
  - specialize (IH x). destruct (f x) as [p x1] eqn:Ef. cbn [fst] in IH.
    eapply rtc_l; [by econstructor|]. rewrite <- (list_insert_insert_eq ps i (Done r) p).
    apply IH; [|done]. apply list_lookup_insert_eq. by eapply lookup_lt_Some.
Qed.

Lemma pool_safe {A} (Q : A + exn -> X -> Prop) s s' : stable Q -> pool_step s s' ->
  I s.1 -> Forall (fun p => safe p s.1 Q) s.2 ->
  I s'.1 /\ R s.1 s'.1 /\ Forall (fun p => safe p s'.1 Q) s'.2.
Proof.
  intros HQ Hst HI Hps. destruct Hst as [x ps i f p' x' Hi Hf]. cbn [fst snd] in *.
  pose proof (proj1 (Forall_lookup _ _) Hps i _ Hi x ltac:(reflexivity) HI) as Hs. rewrite Hf in Hs.
  destruct Hs as (HI' & HR & Hs). split_and!; [done|done|]. apply Forall_insert; [|done].
  eapply Forall_impl; [exact Hps|]. intros p. by apply safe_stable.
Qed.
End Safe.
