(* ===== verification/Ui.v ===== *)
(** Rendered screens.  What a component returns is the sequence of what its user
    reads and can use, in the order of the markup: layout, icons, styles and the
    animation of a busy button are left out.  [use] is a gesture on a screen,
    [shown] what somebody looking at it reads, and [ui_step] a machine whose only
    gestures are those its current screen offers. *)
From stdpp Require Import relations.
From S2P Require Import Prelude Json Effects Process.

(** An element of a screen whose actions are [A].  A password input is a [Field]
    with [secret]; [Asks] is a button that opens a window.confirm first. *)
Inductive node (A : Type) :=
| Say (text : jsstr)
| Field (hint : jsstr) (secret : bool) (value : jsstr) (on : jsstr -> A)
| Tick (label : jsstr) (on : bool) (act : A)
| Button (label : jsstr) (enabled : bool) (act : A)
| Asks (label question : jsstr) (act : bool -> A)
| Link (label href : jsstr).
Arguments Say {A} text.
Arguments Field {A} hint secret value on.
Arguments Tick {A} label on act.
Arguments Button {A} label enabled act.
Arguments Asks {A} label question act.
Arguments Link {A} label href.

Abbreviation screen A := (list (node A)).

(** What the user does with an element. *)
Inductive gesture := Press | Enter (text : jsstr) | Answer (yes : bool).

Section Screen.
Context {A : Type}.

(** [{c && <>...</>}] *)
Definition when (c : bool) (l : screen A) : screen A := if c then l else [].
(** [{text && <div>{text}</div>}] on a string or null. *)
Definition say_some (o : option jsstr) : screen A :=
  match o with Some ((_ :: _) as t) => [Say t] | _ => [] end.
Definition btn (label : jsstr) (act : A) : node A := Button label true act.

Definition use_node (n : node A) (g : gesture) : option A :=
  match n, g with
  | Field _ _ _ on, Enter t => Some (on t)
  | Tick _ _ a, Press => Some a
  | Button _ true a, Press => Some a
  | Asks _ _ a, Answer b => Some (a b)
  | _, _ => None
  end.
Definition use (s : screen A) (i : nat) (g : gesture) : option A := n ← s !! i; use_node n g.
Definition offered (s : screen A) (a : A) : Prop := exists i g, use s i g = Some a.

(** What a password input shows of [v]. *)
Definition hides (c : Z) (v : jsstr) : jsstr := replicate (length v) c.
Definition text_of (n : node A) : jsstr :=
  match n with
  | Say t => t
  | Field hint _ [] _ => hint
  | Field _ secret v _ => if secret then hides 8226 v else v
  | Tick l _ _ | Button l _ _ | Asks l _ _ | Link l _ => l
  end.
Definition shown (s : screen A) : list jsstr := map text_of s.

(** Two screens that look alike. *)
Definition alike (s s' : screen A) : Prop := shown s = shown s'.
#[global] Instance alike_equivalence : Equivalence alike.
Proof. split; unfold alike; repeat intro; congruence. Qed.

#[global] Instance app_alike : Proper (alike ==> alike ==> alike) (@app (node A)).
Proof. intros a b Hab c d Hcd. unfold alike, shown in *. by rewrite !map_app, Hab, Hcd. Qed.
#[global] Instance cons_alike n : Proper (alike ==> alike) (cons n).
Proof. intros a b Hab. unfold alike, shown in *. cbn. by rewrite Hab. Qed.
#[global] Instance concat_alike : Proper (Forall2 alike ==> alike) (@concat (node A)).
Proof. induction 1 as [|a b l l' Hab _ IH]; cbn [concat]; [done|]. exact (app_alike _ _ Hab _ _ IH). Qed.
Lemma rows_alike {X} (R : X -> X -> Prop) (f : nat -> X -> screen A) l l' :
  (forall i x y, R x y -> alike (f i x) (f i y)) -> Forall2 R l l' -> alike (concat (imap f l)) (concat (imap f l')).
Proof.
  intros Hf Hl. apply concat_alike. revert f Hf. induction Hl as [|x y l l' Hxy _ IH]; intros f Hf; [constructor|].
  rewrite !imap_cons. constructor; [by apply Hf|]. apply IH. intros i u v. apply (Hf (S i)).
Qed.
#[global] Instance when_alike c : Proper (alike ==> alike) (when c).
Proof. by destruct c; intros a b Hab. Qed.
End Screen.

(** ** components/PasswordField.tsx, of the web and the desktop app

    The input's value, which its parent keeps, and the reveal the component does. *)
Record entry := Entry { typed_in : jsstr; plain : bool }.
Definition no_entry : entry := Entry [] false.
Definition type_in (v : jsstr) (e : entry) : entry := Entry v (plain e).
Definition toggle (e : entry) : entry := Entry (typed_in e) (negb (plain e)).

Definition PasswordField {A} (hint : jsstr) (e : entry) (onChange : jsstr -> A) (onToggle : A) : screen A :=
  [ Field hint (negb (plain e)) (typed_in e) onChange;
    btn (if plain e then js "Hide" else js "Show") onToggle ].

(** A child's screen inside its parent: the parent's callbacks. *)
Definition map_node {A B} (f : A -> B) (n : node A) : node B :=
  match n with
  | Say t => Say t
  | Field h s v on => Field h s v (fun t => f (on t))
  | Tick l b a => Tick l b (f a)
  | Button l b a => Button l b (f a)
  | Asks l q a => Asks l q (fun b => f (a b))
  | Link l h => Link l h
  end.
Definition embed {A B} (f : A -> B) : screen A -> screen B := map (map_node f).

Section Laws.
Context {A : Type}.
Implicit Types (s : screen A) (a : A).

Lemma say_some_text (t : jsstr) : t <> [] -> @say_some A (Some t) = [Say t].
Proof. by destruct t. Qed.

Lemma say_shown s t : Say t ∈ s -> t ∈ shown s.
Proof. intros Hin. apply list_elem_of_fmap. by exists (Say t). Qed.

Lemma offered_nil a : ~ offered [] a.
Proof. intros (i & g & Hu). done. Qed.

Lemma offered_cons n s a : offered (n :: s) a <-> (exists g, use_node n g = Some a) \/ offered s a.
Proof.
  split.
  - intros ([|i] & g & Hu); [left; by exists g|right; by exists i, g].
  - intros [[g Hg]|(i & g & Hu)]; [by exists O, g|by exists (S i), g].
Qed.

Lemma offered_app s s' a : offered (s ++ s') a <-> offered s a \/ offered s' a.
Proof.
  induction s as [|n s IH]; cbn [app]; [|rewrite !offered_cons, IH; tauto].
  split; [by right|]. intros [Hn|]; [by apply offered_nil in Hn|done].
Qed.

Lemma offered_when c s a : offered (when c s) a <-> c = true /\ offered s a.
Proof. destruct c; cbn; [tauto|]. split; [by intros ?%offered_nil|by intros [? _]]. Qed.

Lemma offered_concat (l : list (screen A)) a : offered (concat l) a <-> exists s, s ∈ l /\ offered s a.
Proof.
  induction l as [|s l IH]; cbn [concat].
  - split; [by intros ?%offered_nil|]. intros (s & Hs & _). by apply not_elem_of_nil in Hs.
  - rewrite offered_app, IH. setoid_rewrite elem_of_cons. naive_solver.
Qed.

Lemma offered_map {X} (f : X -> node A) l a : offered (map f l) a <-> exists x g, x ∈ l /\ use_node (f x) g = Some a.
Proof.
  induction l as [|x l IH]; cbn [map].
  - split; [by intros ?%offered_nil|]. by intros (x & _ & ?%not_elem_of_nil & _).
  - rewrite offered_cons, IH. setoid_rewrite elem_of_cons. naive_solver.
Qed.
End Laws.

Section Embed.
Context {A B : Type}.
Implicit Types (s : screen A).

Lemma offered_embed (f : A -> B) s b : offered (embed f s) b <-> exists a, b = f a /\ offered s a.
Proof.
  unfold embed. induction s as [|n s IH]; cbn [map].
  - split; [by intros ?%offered_nil|]. by intros (a & _ & ?%offered_nil).
  - rewrite offered_cons, IH. setoid_rewrite offered_cons. split.
    + intros [[g Hg]|(a & -> & Ha)]; [|by eauto].
      destruct n as [| | | ? []| |], g; try done; injection Hg as <-; eexists; (split; [reflexivity|]); left.
      * by exists (Enter text).
      * by exists Press.
      * by exists Press.
      * by exists (Answer yes).
    + intros (a & -> & [[g Hg]|Ha]); [left|by eauto]. exists g.
      destruct n as [| | | ? []| |], g; try done; by injection Hg as <-.
Qed.

Lemma shown_embed (f : A -> B) s : shown (embed f s) = shown s.
Proof. unfold shown, embed. rewrite map_map. apply map_ext. by intros []. Qed.
End Embed.

(** Nobody reads a password off a field that is not revealed: two fields of the
    same length look alike. *)
Lemma password_field_hides {A} hint (v w : jsstr) (f g : jsstr -> A) a b : length v = length w ->
  alike (PasswordField hint (Entry v false) f a) (PasswordField hint (Entry w false) g b).
Proof. unfold alike, shown, PasswordField, hides. cbn. intros Hl. destruct v, w; cbn in *; congruence. Qed.

(** Take apart the hypothesis that a screen offers an action. *)
Ltac offers :=
  repeat match goal with
  | Ho : offered [] _ |- _ => by apply offered_nil in Ho
  | Ho : offered (_ ++ _) _ |- _ => apply offered_app in Ho as [Ho|Ho]
  | Ho : offered (_ :: _) _ |- _ => apply offered_cons in Ho as [[[] Ho]|Ho]; [try discriminate Ho..|]
  | Ho : offered (when _ _) _ |- _ => apply offered_when in Ho as [? Ho]
  | Ho : offered (say_some ?o) _ |- _ => destruct o as [[|? ?]|]; cbn [say_some] in Ho
  | Ho : offered (embed _ _) _ |- _ => apply offered_embed in Ho as (? & ? & Ho)
  end.

(** Find the element that does it; the conditions of its block are left to [side]. *)
Ltac find_node side :=
  lazymatch goal with
  | |- offered (_ ++ _) _ => apply offered_app; first [left; find_node side | right; find_node side]
  | |- offered (when _ _) _ => apply offered_when; split; [solve [side]|find_node side]
  | |- offered (_ :: _) _ =>
      apply offered_cons; first [left; first [exists Press; reflexivity | eexists (Enter _); reflexivity
                                             | eexists (Answer _); reflexivity] | right; find_node side]
  end.

(** The same for an element that is only read. *)
Ltac find_text :=
  lazymatch goal with
  | |- _ ∈ _ ++ _ => apply elem_of_app; first [left; solve [find_text] | right; find_text]
  | |- _ ∈ _ :: _ => apply elem_of_cons; first [left; reflexivity | right; find_text]
  end.

(** ** Machines with a screen *)
Section Machine.
Context {S A : Type} (render : S -> screen A) (act : A -> M S unit) (event : S -> S -> Prop).

(** A gesture on an element of the current screen, run to its end, or an event of
    the environment (a timer, a message). *)
Inductive ui_step : S -> S -> Prop :=
| by_user s a r s' : offered (render s) a -> act a s = (r, s') -> ui_step s s'
| by_event s s' : event s s' -> ui_step s s'.

Lemma ui_invariant (P : S -> Prop) s s' :
  (forall s a r s', P s -> offered (render s) a -> act a s = (r, s') -> P s') ->
  (forall s s', P s -> event s s' -> P s') ->
  rtc ui_step s s' -> P s -> P s'.
Proof. intros Ha He. apply rtc_invariant. intros a b [] HP; eauto. Qed.

(** The same with its record: each gesture and the state it led to, in order. *)
Inductive ui_run : S -> list (A * S) -> S -> Prop :=
| run_end s : ui_run s [] s
| run_user s a r s1 log s2 : offered (render s) a -> act a s = (r, s1) -> ui_run s1 log s2 -> ui_run s ((a, s1) :: log) s2
| run_event s s1 log s2 : event s s1 -> ui_run s1 log s2 -> ui_run s log s2.

Lemma run_steps s log s' : ui_run s log s' -> rtc ui_step s s'.
Proof. induction 1; [done| |]; (eapply rtc_l; [|done]); [by eapply by_user|by apply by_event]. Qed.

Lemma steps_run s s' : rtc ui_step s s' -> exists log, ui_run s log s'.
Proof.
  induction 1 as [s|s s1 s2 Hs _ [log IH]]; [exists []; constructor|]. destruct Hs as [s a r s1 Ho Ha|s s1 He].
  - exists ((a, s1) :: log). by eapply run_user.
  - exists log. by eapply run_event.
Qed.
End Machine.
