(* ===== verification/Protocol.v ===== *)
(** apps/extension/utils/protocol.ts: the messages of the browser extension and
    the host comparison behind autofill. *)
From S2P Require Import Prelude Text Numeral Json Effects Platform Objects Items.

(** ** Messages *)

Record PendingSave := { pe_url : jsstr; pe_username : jsstr; pe_password : jsstr }.

Inductive BgRequest :=
| msg_getState
| msg_unlock (identifier masterPassword : jsstr) (totpCode : option jsstr)
| msg_lock
| msg_getItems
| msg_addItem (fields : obj)
| msg_updateItem (item : obj)
| msg_deleteItem (id : jsstr)
| msg_getPending
| msg_dismissPending
| msg_captureLogin (url username password : jsstr).

Record StateResponse := { st_locked : bool; st_identifier : option jsstr }.
Record ItemsResponse := { it_locked : option bool; it_items : option (list obj); it_error : option jsstr }.
Record UnlockResponse := {
  un_ok : option bool; un_error : option jsstr;
  un_twoFactorRequired : option bool; un_methods : jsv
}.
Record MutationResponse := {
  mu_ok : option bool; mu_locked : option bool; mu_error : option jsstr; mu_item : option obj
}.
Record PendingResponse := { pending : option PendingSave }.
Record FillMessage := { fi_username : jsstr; fi_password : jsstr }.

(** ** Hosts *)

(** [s.replace(/^www\./, "")] *)
Definition strip_www (s : jsstr) : jsstr :=
  if starts_with (js "www.") s then drop 4 s else s.

Section Hosts.
Context `{Unicode} `{UrlParser}.

Definition safeHost (url : jsstr) : jsstr :=
  match parse_url (if includes (js "://") url then url else js "https://" ++ url) with
  | Some u => to_lower (hostname u)
  | None => []
  end.

Definition hostMatches (itemUrl pageHost : jsstr) : bool :=
  let itemHost := safeHost itemUrl in
  if bool_decide (itemHost = []) || bool_decide (pageHost = []) then false
  else
    let a := strip_www itemHost in
    let b := strip_www pageHost in
    str_eqb a b || ends_with (c_dot :: b) a || ends_with (c_dot :: a) b.
End Hosts.

(** ** Host names as label sequences *)

Definition labels (host : jsstr) : list jsstr := split_on c_dot (strip_www host).

Lemma split_on_inj c s t : split_on c s = split_on c t -> s = t.
Proof. intros E. by rewrite <- (split_on_join c s), E, split_on_join. Qed.

(** Splitting at a separator splits the parts. *)
Lemma split_on_cat c s t : split_on c (s ++ c :: t) = split_on c s ++ split_on c t.
Proof.
  induction s as [|u s IH]; cbn [app split_on]; [by rewrite Z.eqb_refl|].
  destruct (Z.eqb_spec u c); [by rewrite IH|]. rewrite IH.
  pose proof (split_on_nonempty c s) as Hne. by destruct (split_on c s).
Qed.

Lemma join_app sep l1 l2 : l1 <> [] -> l2 <> [] -> join sep (l1 ++ l2) = join sep l1 ++ sep ++ join sep l2.
Proof.
  intros H1 H2. induction l1 as [|s l1 IH]; [done|]. destruct l1 as [|s' l1].
  - cbn [app]. by rewrite join_cons.
  - change ((s :: s' :: l1) ++ l2) with (s :: (s' :: l1) ++ l2).
    rewrite !join_cons by done. rewrite IH by done. by rewrite !app_assoc.
Qed.

(** [s.endsWith("." + t)] says that the labels of [t] are a proper suffix of
    those of [s]. *)
Lemma ends_with_dot s t : ends_with (c_dot :: t) s = true <->
  exists l, l <> [] /\ split_on c_dot s = l ++ split_on c_dot t.
Proof.
  rewrite ends_with_spec. split.
  - intros [r ->]. exists (split_on c_dot r). split; [apply split_on_nonempty|apply split_on_cat].
  - intros (l & Hl & E). exists (join [c_dot] l).
    rewrite <- (split_on_join c_dot s), E, join_app by (done || apply split_on_nonempty).
    by rewrite split_on_join.
Qed.

(** Stripping www. takes at most the first label. *)
Lemma labels_of host xs x suffix : split_on c_dot host = xs ++ x :: suffix -> (xs = [] -> x <> js "www") ->
  exists xs', labels host = xs' ++ x :: suffix.
Proof.
  intros E Hx. unfold labels, strip_www. destruct (starts_with _ _) eqn:Es; [|by exists xs].
  apply starts_with_spec in Es as [t ->]. rewrite drop_app_exact by done.
  change (js "www." ++ t) with (js "www" ++ c_dot :: t) in E. rewrite split_on_cat in E.
  change (split_on c_dot (js "www")) with [js "www"] in E. destruct xs as [|w xs].
  - cbn [app] in E. assert (x = js "www") by congruence. by destruct (Hx eq_refl).
  - exists xs. cbn [app] in E. congruence.
Qed.

Section Facts.
Context `{Unicode} `{UrlParser}.

Lemma hostMatches_suffix itemUrl pageHost : hostMatches itemUrl pageHost = true <->
  safeHost itemUrl <> [] /\ pageHost <> [] /\
  (labels (safeHost itemUrl) `suffix_of` labels pageHost \/
   labels pageHost `suffix_of` labels (safeHost itemUrl)).
Proof.
  unfold hostMatches, labels. destruct (bool_decide_reflect (safeHost itemUrl = [])) as [->|Hi];
    [cbn [orb]; split; [done|by intros (? & ? & _)]|].
  destruct (bool_decide_reflect (pageHost = [])) as [->|Hp]; [cbn [orb]; split; [done|by intros (? & ? & _)]|]. cbn [orb].
  set (a := strip_www (safeHost itemUrl)). set (b := strip_www pageHost).
  rewrite !orb_true_iff, !ends_with_dot. unfold str_eqb. rewrite bool_decide_eq_true.
  split.
  - intros [[E|(l & _ & E)]|(l & _ & E)]; (split_and!; [done|done|]).
    + left. by rewrite E.
    + right. by exists l.
    + left. by exists l.
  - intros (_ & _ & [[l E]|[l E]]).
    + destruct l as [|s l]; [left; left; by apply (split_on_inj c_dot)|]. right. by exists (s :: l).
    + destruct l as [|s l]; [left; left; by apply (split_on_inj c_dot)|]. left. right. by exists (s :: l).
Qed.
End Facts.

(** ** Theorems *)
Section Theorems.
Context `{Unicode} `{UrlParser}.

(** Autofill compares host names label by label: an item matches a page
    exactly when both have a host and, without a leading www., the labels of one
    are a suffix of the labels of the other (equal hosts, or a subdomain either
    way); a URL that does not parse matches nothing. *)
Theorem hostMatches_labels itemUrl pageHost :
  hostMatches itemUrl pageHost = true <->
  safeHost itemUrl <> [] /\ pageHost <> [] /\
  (labels (safeHost itemUrl) `suffix_of` labels pageHost \/
   labels pageHost `suffix_of` labels (safeHost itemUrl)).
Proof. apply hostMatches_suffix. Qed.

(** C38: the anti-phishing promise, on host names as they are: two hosts whose
    dotted labels end in the same suffix (com, co.uk, github.io, ...) with
    different labels before it never match, whatever subdomains come first.  The
    one exception is a host that is www and the suffix alone, whose only label
    before the suffix is stripped: it is excluded here and is what
    [hostMatches_www_tld] is about. *)
Theorem hostMatches_registrable itemUrl pageHost xs x ys y suffix
  (Hi : split_on c_dot (safeHost itemUrl) = xs ++ x :: suffix)
  (Hp : split_on c_dot pageHost = ys ++ y :: suffix)
  (Hxy : x <> y) (Hx : xs = [] -> x <> js "www") (Hy : ys = [] -> y <> js "www") :
  hostMatches itemUrl pageHost = false.
Proof.
  destruct (labels_of _ _ _ _ Hi Hx) as [xs' Hi']. destruct (labels_of _ _ _ _ Hp Hy) as [ys' Hp'].
  apply not_true_iff_false. rewrite hostMatches_suffix, Hi', Hp'.
  assert (Hno : forall (a b : list jsstr) (u v : jsstr), u <> v -> ~ (a ++ u :: suffix) `suffix_of` (b ++ v :: suffix)).
  { intros a b u v Huv [l E]. rewrite app_assoc in E.
    rewrite 2!(cons_middle _ _ suffix), 2!app_assoc in E. apply app_inv_tail in E.
    apply app_inj_tail in E as [_ E]. by apply Huv. }
  intros (_ & _ & [Hs|Hs]); by eapply Hno; [|exact Hs].
Qed.

(** What the comparison does not rule out: an item whose host is www.com is
    stripped to the bare top-level domain and is offered on every .com page,
    although no registrable domain is shared. *)
Theorem hostMatches_www_tld itemUrl host
  (Hi : safeHost itemUrl = js "www.com") :
  hostMatches itemUrl (host ++ js ".com") = true.
Proof.
  apply hostMatches_suffix. rewrite Hi. split_and!; [done|by destruct host|]. left.
  change (labels (js "www.com")) with [js "com"]. unfold labels, strip_www.
  destruct (starts_with _ _) eqn:E.
  - apply starts_with_spec in E as [t E].
    assert (Ht : exists h, t = h ++ js ".com" \/ t = js "com").
    { revert E. destruct host as [|h0 [|h1 [|h2 [|h3 host]]]]; cbn; intros [=]; subst; try done.
      - exists []. by right.
      - exists host. by left. }
    rewrite E, drop_app_exact by done. destruct Ht as [h [->| ->]].
    + change (js ".com") with (c_dot :: js "com"). rewrite split_on_cat. by exists (split_on c_dot h).
    + by exists [].
  - change (js ".com") with (c_dot :: js "com"). rewrite split_on_cat. by exists (split_on c_dot host).
Qed.
End Theorems.

(** ** Concrete inputs *)

(** The authority of an address without user, port or path. *)
Definition authority_parser : UrlParser := {|
  parse_url s :=
    match split_on c_slash s with
    | scheme :: _ :: host :: _ => if ends_with [c_colon] scheme then Some {| hostname := host; search_params := [] |} else None
    | _ => None
    end
|}.
#[local] Existing Instances latin1_unicode authority_parser.

Example host_examples :
  hostMatches (js "GitHub.com/login") (js "www.github.com") = true /\
  hostMatches (js "https://accounts.google.com") (js "google.com") = true /\
  hostMatches (js "https://github.com") (js "github.com.evil.org") = false /\
  hostMatches (js "https://github.com") (js "notgithub.com") = false.
Proof. vm_compute. done. Qed.

Lemma hostMatches_registrable_witness :
  hostMatches (js "https://login.mybank.co.uk") (js "www.evil.co.uk") = false.
Proof.
  apply (hostMatches_registrable (js "https://login.mybank.co.uk") (js "www.evil.co.uk")
    [js "login"] (js "mybank") [js "www"] (js "evil") [js "co"; js "uk"]); [reflexivity..|done|done|done].
Defined.

Lemma hostMatches_www_tld_witness : hostMatches (js "https://www.com/") (js "anybank.com") = true.
Proof. apply (hostMatches_www_tld (js "https://www.com/") (js "anybank")). reflexivity. Defined.
