(* ===== verification/Background.v ===== *)
(** apps/extension/entrypoints/background.ts: the worker that owns the unlocked
    session, as asynchronous handlers over the extension's storage. *)
From stdpp Require Import relations.
From S2P Require Import Prelude Text Numeral Json JsonFacts Encoding Effects Platform Primitives.
From S2P Require Import Kdf Account Items Api Session Process Protocol.

Definition IDLE_MS : Z := 15 * 60 * 1000.
Definition PENDING_TTL_MS : Z := 5 * 60 * 1000.

Record StoredSession := {
  identifier : jsstr;
  accessToken : jsv;
  refreshToken : jsv;
  userKeyB64 : jsstr;
  lockAt : Z;
}.

Record StoredPending := { pending_save : PendingSave; capturedAt : Z }.

(** What the engine writes in the message of the errors it raises itself. *)
Class EngineText := { engine_message : exn -> jsstr }.

(** The extension: the API client's world, [storage.session] (two keys) and the
    alarm [LOCK_ALARM]. *)
Record extension (N E : Type) := Extension {
  world_of : world N E;
  session_slot : option StoredSession;
  pending_slot : option StoredPending;
  alarm : option Z;
}.
Arguments Extension {N E}.
Arguments world_of {N E}.
Arguments session_slot {N E}.
Arguments pending_slot {N E}.
Arguments alarm {N E}.

Inductive Response :=
| RState (r : StateResponse)
| RItems (r : ItemsResponse)
| RUnlock (r : UnlockResponse)
| RMutation (r : MutationResponse)
| RPending (r : PendingResponse)
| ROk.

Definition items_answer items := {| it_locked := None; it_items := Some items; it_error := None |}.
Definition items_locked := {| it_locked := Some true; it_items := None; it_error := None |}.
Definition items_failed e := {| it_locked := None; it_items := None; it_error := Some e |}.
Definition mutation_done item := {| mu_ok := Some true; mu_locked := None; mu_error := None; mu_item := item |}.
Definition mutation_locked := {| mu_ok := None; mu_locked := Some true; mu_error := None; mu_item := None |}.
Definition mutation_failed e := {| mu_ok := None; mu_locked := None; mu_error := Some e; mu_item := None |}.
Definition unlock_done :=
  {| un_ok := Some true; un_error := None; un_twoFactorRequired := None; un_methods := None |}.
Definition unlock_challenge methods :=
  {| un_ok := None; un_error := None; un_twoFactorRequired := Some true; un_methods := methods |}.
Definition unlock_failed e :=
  {| un_ok := None; un_error := Some e; un_twoFactorRequired := None; un_methods := None |}.

(** [e.message]: everything the modelled code throws is an Error. *)
Definition message `{EngineText} (e : exn) : jsstr :=
  match e with
  | JsError m => m
  | TwoFactorRequiredError _ => js "two-factor authentication required"
  | _ => engine_message e
  end.

Definition b64encode (u : bytes) : jsstr := toBase64 u.
Definition b64decode (s : jsstr) : option bytes := fromBase64 s.

Section Background.
Context {N E : Type} `{Unicode} `{WebCrypto} `{Environment N} `{Entropy E} `{Clock N} `{EngineText}.
Abbreviation W := (world N E).
Abbreviation X := (extension N E).

(** ** Effects, one action each *)

Definition now_of (x : X) : Z := clock (net (world_of x)).
Definition with_world (x : X) (w : W) : X := Extension w (session_slot x) (pending_slot x) (alarm x).
Definition with_session (x : X) (s : option StoredSession) : X :=
  Extension (world_of x) s (pending_slot x) (alarm x).
Definition with_pending (x : X) (p : option StoredPending) : X :=
  Extension (world_of x) (session_slot x) p (alarm x).
Definition with_alarm (x : X) (a : option Z) : X :=
  Extension (world_of x) (session_slot x) (pending_slot x) a.

Definition dateNow : proc X Z := act (gets now_of).
Definition session_get : proc X (option StoredSession) := act (gets session_slot).
Definition session_set (s : option StoredSession) : proc X unit := act (modify (fun x => with_session x s)).
Definition pending_get : proc X (option StoredPending) := act (gets pending_slot).
Definition pending_set (p : option StoredPending) : proc X unit := act (modify (fun x => with_pending x p)).
Definition alarms_set (a : option Z) : proc X unit := act (modify (fun x => with_alarm x a)).

(** A call of the API client, which touches nothing of the extension's own. *)
Definition on_world {A} (m : M W A) : M X A := fun x =>
  let '(r, w) := m (world_of x) in (r, with_world x w).
Definition api {A} (m : M W A) : proc X A := act (on_world m).

(** ** Storage *)

Definition clearStored : proc X unit := _ ← session_set None; alarms_set None.

Definition readStored : proc X (option StoredSession) :=
  got ← session_get;
  match got with
  | None => mret None
  | Some s =>
      now ← dateNow;
      if lockAt s <? now then _ ← clearStored; mret None else mret (Some s)
  end.

Definition writeStored (s : StoredSession) : proc X unit :=
  _ ← session_set (Some s); alarms_set (Some (lockAt s)).

Definition set_lockAt (s : StoredSession) (t : Z) : StoredSession :=
  {| identifier := identifier s; accessToken := accessToken s; refreshToken := refreshToken s;
     userKeyB64 := userKeyB64 s; lockAt := t |}.

Definition touch (s : StoredSession) : proc X unit :=
  now ← dateNow; writeStored (set_lockAt s (now + IDLE_MS)).

Definition toSession (s : StoredSession) : Session + exn :=
  match b64decode (userKeyB64 s) with
  | Some k => inl {| ss_identifier := identifier s; ss_accessToken := accessToken s;
                     ss_refreshToken := refreshToken s; ss_userKey := k;
                     ss_protectedPrivateKey := str [] |}
  | None => inr InvalidCharacterError
  end.

Definition readPending : proc X (option PendingSave) :=
  got ← pending_get;
  match got with
  | None => mret None
  | Some p =>
      now ← dateNow;
      if PENDING_TTL_MS <? now - capturedAt p then _ ← pending_set None; mret None
      else mret (Some (pending_save p))
  end.

(** ** Messages *)

(** The shape the four vault handlers share: the session, the idle deadline, the
    call, and the error as a message. *)
Definition with_stored (locked : Response) (failed : jsstr -> Response) (use : Session -> proc X Response) :
    proc X Response :=
  s ← readStored;
  match s with
  | None => mret locked
  | Some s =>
      catchp (_ ← touch s; sess ← Done (toSession s); use sess)
        (fun e => mret (failed (message e)))
  end.

Definition stored_of (sess : Session) (t : Z) : StoredSession :=
  {| identifier := ss_identifier sess; accessToken := ss_accessToken sess;
     refreshToken := ss_refreshToken sess; userKeyB64 := b64encode (ss_userKey sess); lockAt := t |}.

Definition onMessage (msg : BgRequest) : proc X Response :=
  match msg with
  | msg_getState =>
      s ← readStored;
      mret (RState match s with
                   | Some s => {| st_locked := false; st_identifier := Some (identifier s) |}
                   | None => {| st_locked := true; st_identifier := None |}
                   end)
  | msg_unlock i pw code =>
      catchp
        (sess ← api (loginAccount i pw code);
         now ← dateNow;
         _ ← writeStored (stored_of sess (now + IDLE_MS));
         mret (RUnlock unlock_done))
        (fun e => mret (RUnlock match e with
                                | TwoFactorRequiredError methods => unlock_challenge methods
                                | _ => unlock_failed (message e)
                                end))
  | msg_lock => _ ← clearStored; mret ROk
  | msg_getItems =>
      with_stored (RItems items_locked) (fun e => RItems (items_failed e))
        (fun sess => items ← api (loadVault sess); mret (RItems (items_answer items)))
  | msg_addItem fields =>
      with_stored (RMutation mutation_locked) (fun e => RMutation (mutation_failed e))
        (fun sess => item ← api (addItem sess fields); mret (RMutation (mutation_done (Some item))))
  | msg_updateItem item =>
      with_stored (RMutation mutation_locked) (fun e => RMutation (mutation_failed e))
        (fun sess => _ ← api (saveItem sess item); mret (RMutation (mutation_done None)))
  | msg_deleteItem id =>
      with_stored (RMutation mutation_locked) (fun e => RMutation (mutation_failed e))
        (fun sess => _ ← api (removeItem sess id); mret (RMutation (mutation_done None)))
  | msg_captureLogin url username password =>
      if bool_decide (password = []) then mret ROk
      else
        now ← dateNow;
        _ ← pending_set (Some {| pending_save := {| pe_url := url; pe_username := username;
                                                    pe_password := password |};
                                 capturedAt := now |});
        mret ROk
  | msg_getPending => p ← readPending; mret (RPending {| pending := p |})
  | msg_dismissPending => _ ← pending_set None; mret ROk
  end.

(** The listener of [LOCK_ALARM]. *)
Definition onAlarm : proc X Response := _ ← clearStored; mret ROk.

Definition serve (msg : BgRequest) : M X Response := run_proc (onMessage msg).

(** ** The worker: messages in any order, interleaved at every await *)

Inductive worker_step (allowed : BgRequest -> Prop) : X * list (proc X Response) -> X * list (proc X Response) -> Prop :=
| step_message x ps msg : allowed msg -> worker_step allowed (x, ps) (x, ps ++ [onMessage msg])
| step_action s s' : pool_step s s' -> worker_step allowed s s'
| step_alarm x ps t : alarm x = Some t -> t <= now_of x ->
    worker_step allowed (x, ps) (with_alarm x None, ps ++ [onAlarm])
| step_elapse x ps n : now_of x <= clock n ->
    worker_step allowed (x, ps) (with_world x (World (baseUrl (world_of x)) n (rng (world_of x))), ps)
| step_sleep x ps : worker_step allowed (x, ps) (x, [])          (* the browser stops the worker *)
| step_exit x ps : worker_step allowed (x, ps) (Extension (world_of x) None None None, []).

(** ** Handlers run without interference *)

Definition is_locked (x : X) : Prop :=
  match session_slot x with None => True | Some s => lockAt s < now_of x end.

(** What reading an expired session leaves. *)
Definition wiped (x : X) : X :=
  Extension (world_of x) None (pending_slot x)
    (match session_slot x with None => alarm x | Some _ => None end).

Lemma readStored_locked x : is_locked x -> run_proc readStored x = (inl None, wiped x).
Proof.
  destruct x as [w [s|] p a]; cbn; [|done]. unfold now_of. cbn. intros Hl.
  by rewrite (proj2 (Z.ltb_lt _ _)).
Qed.

Lemma readStored_open x s : session_slot x = Some s -> now_of x <= lockAt s ->
  run_proc readStored x = (inl (Some s), x).
Proof.
  destruct x as [w ss p a]; cbn. intros ->. unfold now_of. cbn. intros Hl.
  by rewrite (proj2 (Z.ltb_ge _ _)).
Qed.

Lemma touch_run s x : run_proc (touch s) x =
  (inl tt, Extension (world_of x) (Some (set_lockAt s (now_of x + IDLE_MS))) (pending_slot x)
             (Some (now_of x + IDLE_MS))).
Proof. done. Qed.

Lemma toSession_stored sess t : bytes_ok (ss_userKey sess) ->
  toSession (stored_of sess t) = inl {| ss_identifier := ss_identifier sess;
    ss_accessToken := ss_accessToken sess; ss_refreshToken := ss_refreshToken sess;
    ss_userKey := ss_userKey sess; ss_protectedPrivateKey := str [] |}.
Proof. intros Hb. unfold toSession, stored_of, b64decode, b64encode. cbn [userKeyB64]. by rewrite fromBase64_toBase64. Qed.

Lemma run_api {A} (m : M W A) (k : A -> proc X Response) x :
  run_proc (a ← api m; k a) x =
    match m (world_of x) with
    | (inl a, w) => run_proc (k a) (with_world x w)
    | (inr e, w) => (inr e, with_world x w)
    end.
Proof.
  rewrite run_bind. unfold mbind, M_bind. unfold api. rewrite run_act. unfold on_world.
  by destruct (m (world_of x)) as [[a|e] w].
Qed.
End Background.

(** ** Specification: the API client behind a lock *)
Section Spec.
Context {N E : Type} `{Unicode} `{WebCrypto} `{Environment N} `{Entropy E} `{Clock N} `{EngineText}.
Abbreviation W := (world N E).
Abbreviation X := (extension N E).

(** What a vault message asks of the API client. *)
Definition vault_call (msg : BgRequest) (sess : Session) : option (M W Response) :=
  match msg with
  | msg_getItems => Some (items ← loadVault sess; mret (RItems (items_answer items)))
  | msg_addItem fields => Some (item ← addItem sess fields; mret (RMutation (mutation_done (Some item))))
  | msg_updateItem item => Some (_ ← saveItem sess item; mret (RMutation (mutation_done None)))
  | msg_deleteItem id => Some (_ ← removeItem sess id; mret (RMutation (mutation_done None)))
  | _ => None
  end.

(** The answers to the messages that need the session: when there is none, and
    when the call raised. *)
Definition refusal (msg : BgRequest) : option Response :=
  match msg with
  | msg_getState => Some (RState {| st_locked := true; st_identifier := None |})
  | msg_getItems => Some (RItems items_locked)
  | msg_addItem _ | msg_updateItem _ | msg_deleteItem _ => Some (RMutation mutation_locked)
  | _ => None
  end.
Definition failure (msg : BgRequest) (e : exn) : Response :=
  match msg with
  | msg_getItems => RItems (items_failed (message e))
  | _ => RMutation (mutation_failed (message e))
  end.

(** The idle deadline after activity now. *)
Definition touched (x : X) (sess : Session) : X :=
  Extension (world_of x) (Some (stored_of sess (now_of x + IDLE_MS))) (pending_slot x)
    (Some (now_of x + IDLE_MS)).

Definition armed (x : X) : Prop := forall s, session_slot x = Some s -> alarm x = Some (lockAt s).

Lemma serve_locked msg r (x : X) : refusal msg = Some r -> is_locked x ->
  returns (serve msg) x r (wiped x).
Proof.
  intros Hm Hl. unfold returns, serve.
  destruct msg; cbn [refusal] in Hm; simplify_eq; cbn [onMessage]; unfold with_stored;
    by rewrite (run_step _ _ _ _ _ _ (readStored_locked x Hl) eq_refl).
Qed.

(** The body of the handlers that use the session. *)
Lemma with_stored_run {B} locked failed (m : Session -> M W B) (f : B -> Response) (x : X) sess t :
  bytes_ok (ss_userKey sess) -> session_slot x = Some (stored_of sess t) -> now_of x <= t ->
  (forall k : jsv, m {| ss_identifier := ss_identifier sess; ss_accessToken := ss_accessToken sess;
     ss_refreshToken := ss_refreshToken sess; ss_userKey := ss_userKey sess; ss_protectedPrivateKey := k |}
     = m sess) ->
  run_proc (with_stored locked failed (fun se => a ← api (m se); mret (f a))) x =
    match (a ← m sess; mret (f a)) (world_of x) with
    | (inl r, w) => (inl r, with_world (touched x sess) w)
    | (inr e, w) => (inl (failed (message e)), with_world (touched x sess) w)
    end.
Proof.
  intros Hk Hs Ht Hm. unfold with_stored.
  rewrite (run_step _ _ _ _ _ _ (readStored_open x (stored_of sess t) Hs Ht) eq_refl). rewrite run_catch.
  unfold catch. rewrite (run_step _ _ _ _ _ _ (touch_run (stored_of sess t) x) eq_refl).
  rewrite toSession_stored by done.
  change (Done (inl ?a) ≫= ?k) with (k a). cbv beta. rewrite run_api, Hm. cbn [world_of].
  unfold mbind, M_bind. by destruct (m sess (world_of x)) as [[a|e] w].
Qed.

Lemma serve_open msg sess t (x : X) call :
  vault_call msg sess = Some call -> bytes_ok (ss_userKey sess) ->
  session_slot x = Some (stored_of sess t) -> now_of x <= t ->
  serve msg x = match call (world_of x) with
                | (inl r, w) => (inl r, with_world (touched x sess) w)
                | (inr e, w) => (inl (failure msg e), with_world (touched x sess) w)
                end.
Proof.
  intros Hc Hk Hs Ht. unfold serve.
  destruct msg as [| | | |fields|item|id| | |]; cbn [vault_call] in Hc; simplify_eq; cbn [onMessage failure].
  - by apply (with_stored_run (RItems items_locked) (fun e => RItems (items_failed e)) loadVault (fun items => RItems (items_answer items)) x sess t).
  - by apply (with_stored_run (RMutation mutation_locked) (fun e => RMutation (mutation_failed e))
      (fun se => addItem se fields)
      (fun it => RMutation (mutation_done (Some it))) x sess t).
  - by apply (with_stored_run (RMutation mutation_locked) (fun e => RMutation (mutation_failed e))
      (fun se => saveItem se item) (fun _ => RMutation (mutation_done None)) x sess t).
  - by apply (with_stored_run (RMutation mutation_locked) (fun e => RMutation (mutation_failed e))
      (fun se => removeItem se id) (fun _ => RMutation (mutation_done None)) x sess t).
Qed.

(** A handler's call of the API changes neither the session nor the alarm. *)
Lemma run_api_world {A} (m : M W A) (f : A -> Response) (x : X) :
  exists w, (run_proc (a ← api m; mret (f a)) x).2 = with_world x w.
Proof. rewrite run_api. destruct (m (world_of x)) as [[a|e] w]; by exists w. Qed.

Lemma armed_stored l f (use : Session -> proc X Response) (x : X) :
  (forall se y, exists w, (run_proc (use se) y).2 = with_world y w) ->
  armed x -> armed (run_proc (with_stored l f use) x).2.
Proof.
  intros Hu Hx. unfold with_stored. rewrite run_bind. unfold mbind at 1, M_bind.
  destruct (session_slot x) as [s|] eqn:Es.
  - destruct (Z.lt_ge_cases (lockAt s) (now_of x)) as [Hl|Hl].
    + rewrite readStored_locked by (unfold is_locked; by rewrite Es). by intros s'.
    + rewrite (readStored_open x s) by done. rewrite run_catch. unfold catch.
      rewrite run_bind. unfold mbind at 1, M_bind. rewrite touch_run. set (y := Extension _ _ _ _).
      assert (Hy : armed y) by by intros s' [= <-].
      destruct (toSession s) as [se|e]; [|exact Hy].
      change (run_proc (Done (inl se) ≫= fun sess => use sess) y) with (run_proc (use se) y). destruct (Hu se y) as [w Hw].
      destruct (run_proc (use se) y) as [[r|e] y']; cbn in Hw; subst y'; exact Hy.
  - rewrite readStored_locked by (unfold is_locked; by rewrite Es). by intros s'.
Qed.

(** The answer a message is declared to have in utils/protocol.ts. *)
Definition answers_type (msg : BgRequest) (r : Response) : Prop :=
  match msg, r with
  | msg_getState, RState _ | msg_unlock _ _ _, RUnlock _ | msg_getItems, RItems _
  | (msg_addItem _ | msg_updateItem _ | msg_deleteItem _), RMutation _ | msg_getPending, RPending _
  | (msg_lock | msg_dismissPending | msg_captureLogin _ _ _), ROk => True
  | _, _ => False
  end.

Lemma readStored_total (x : X) : exists o y, run_proc readStored x = (inl o, y) /\ pending_slot y = pending_slot x.
Proof.
  destruct x as [w [s|] p a]; [|by eexists _, _]. cbn. destruct (_ <? _); by eexists _, _.
Qed.

(** A vault handler answers whatever happens, and leaves the pending login alone. *)
Lemma stored_total {A} (m : Session -> M W A) (f : A -> Response) l g (x : X) :
  exists r y, run_proc (with_stored l g (fun se => a ← api (m se); mret (f a))) x = (inl r, y) /\
    pending_slot y = pending_slot x /\ (r = l \/ (exists e, r = g e) \/ exists a, r = f a).
Proof.
  unfold with_stored. destruct (readStored_total x) as ([s|] & y & Hr & Hp);
    rewrite (run_step _ _ _ _ _ _ Hr eq_refl); [|eexists _, y; by split_and!; [..|left]].
  rewrite run_catch. unfold catch. rewrite (run_step _ _ _ _ _ _ (touch_run s y) eq_refl).
  destruct (toSession s) as [se|e]; [|eexists _, _; split_and!; [reflexivity|exact Hp|right; left; by eexists]].
  change (run_proc (Done (inl se) ≫= ?k) ?z) with (run_proc (k se) z). cbv beta. rewrite run_api.
  destruct (m se _) as [[a|e] w]; eexists _, _; (split_and!; [reflexivity|exact Hp|right]);
    [right|left]; by eexists.
Qed.

Lemma serve_total msg (x : X) : exists r y, serve msg x = (inl r, y) /\ answers_type msg r /\
  (match msg with msg_captureLogin _ _ _ | msg_getPending | msg_dismissPending => True
   | _ => pending_slot y = pending_slot x end).
Proof.
  unfold serve. destruct msg as [|i pw code| | |fields|item|id| | |u n p]; cbn [onMessage].
  - destruct (readStored_total x) as (o & y & Hr & Hp). rewrite (run_step _ _ _ _ _ _ Hr eq_refl).
    by eexists _, y.
  - rewrite run_catch. unfold catch. rewrite run_api.
    destruct (loginAccount i pw code (world_of x)) as [[se|e] w]; by eexists _, _.
  - by eexists _, _.
  - destruct (stored_total loadVault (fun items => RItems (items_answer items)) (RItems items_locked)
      (fun e => RItems (items_failed e)) x) as (r & y & Hr & Hp & Hs). rewrite Hr.
    exists r, y. split_and!; [done| |done]. by destruct Hs as [->|[[e ->]|[a ->]]].
  - destruct (stored_total (fun se => addItem se fields) (fun it => RMutation (mutation_done (Some it)))
      (RMutation mutation_locked) (fun e => RMutation (mutation_failed e)) x) as (r & y & Hr & Hp & Hs). rewrite Hr.
    exists r, y. split_and!; [done| |done]. by destruct Hs as [->|[[e ->]|[a ->]]].
  - destruct (stored_total (fun se => saveItem se item) (fun _ => RMutation (mutation_done None))
      (RMutation mutation_locked) (fun e => RMutation (mutation_failed e)) x) as (r & y & Hr & Hp & Hs). rewrite Hr.
    exists r, y. split_and!; [done| |done]. by destruct Hs as [->|[[e ->]|[a ->]]].
  - destruct (stored_total (fun se => removeItem se id) (fun _ => RMutation (mutation_done None))
      (RMutation mutation_locked) (fun e => RMutation (mutation_failed e)) x) as (r & y & Hr & Hp & Hs). rewrite Hr.
    exists r, y. split_and!; [done| |done]. by destruct Hs as [->|[[e ->]|[a ->]]].
  - destruct x as [w ss [p|] al]; [|by eexists _, _]. cbn. destruct (_ <? _); by eexists _, _.
  - by eexists _, _.
  - destruct (bool_decide _); by eexists _, _.
Qed.

(** The message protocol is kept on every path: each message is answered, never
    rejected, with the response type declared for it, whatever the network, the
    server's answers and the stored session are. *)
Theorem protocol_typed msg (x : X) : exists r y, returns (serve msg) x r y /\ answers_type msg r.
Proof. destruct (serve_total msg x) as (r & y & Hr & Ht & _). by exists r, y. Qed.

(** An open session is always under a timer: handled one at a time, no message
    leaves a session in storage without the lock alarm set at exactly its
    deadline, and when the alarm fires the session is gone. *)
Theorem alarm_armed msg (x : X) (Ha : armed x) :
  armed (serve msg x).2 /\ returns (run_proc onAlarm) x ROk (with_alarm (with_session x None) None).
Proof.
  split; [|done]. destruct msg as [|i pw code| | |fields|item|id| | |u n p]; unfold serve; cbn [onMessage].
  - rewrite run_bind. unfold mbind, M_bind. destruct (session_slot x) as [s|] eqn:Es.
    + destruct (Z.lt_ge_cases (lockAt s) (now_of x)) as [Hl|Hl].
      * rewrite readStored_locked by (unfold is_locked; by rewrite Es). by intros s'.
      * by rewrite (readStored_open x s).
    + rewrite readStored_locked by (unfold is_locked; by rewrite Es). by intros s'.
  - rewrite run_catch. unfold catch. rewrite run_api.
    destruct (loginAccount i pw code (world_of x)) as [[sess|e] w]; [by intros s' [= <-]|exact Ha].
  - by intros s'.
  - apply armed_stored; [intros se y; apply run_api_world|done].
  - apply armed_stored; [intros se y; apply run_api_world|done].
  - apply armed_stored; [intros se y; apply run_api_world|done].
  - apply armed_stored; [intros se y; apply run_api_world|done].
  - destruct x as [w ss [p|] al]; cbn; [|exact Ha]. by destruct (_ <? _); cbn.
  - exact Ha.
  - destruct (bool_decide _); exact Ha.
Qed.

(** The idle lock: when there is no session, or its deadline has passed, every
    message that needs it is refused as locked without a single request, and an
    expired session is wiped from storage together with its alarm. *)
Theorem idle_lock msg r (x : X) (Hm : refusal msg = Some r) (Hl : is_locked x) :
  returns (serve msg) x r (wiped x) /\ session_slot (wiped x) = None.
Proof. split; [by apply serve_locked|done]. Qed.

Lemma serve_unlock i pw code (x : X) :
  serve (msg_unlock i pw code) x =
    match loginAccount i pw code (world_of x) with
    | (inl sess, w) => (inl (RUnlock unlock_done), touched (with_world x w) sess)
    | (inr (TwoFactorRequiredError methods), w) =>
        (inl (RUnlock (unlock_challenge methods)), with_world x w)
    | (inr e, w) => (inl (RUnlock (unlock_failed (message e))), with_world x w)
    end.
Proof.
  unfold serve. cbn [onMessage]. rewrite run_catch. unfold catch. rewrite run_api.
  destruct (loginAccount i pw code (world_of x)) as [[sess|e] w]; [done|]. by destruct e.
Qed.

(** Unlocking, on every branch: a successful login is stored with its key,
    expires 15 minutes after the login returned and sets the alarm at that time;
    a second factor is answered with its methods, any other error with its
    message, and neither touches the stored session. *)
Theorem unlock_spec i pw code (x : X) :
  serve (msg_unlock i pw code) x =
    match loginAccount i pw code (world_of x) with
    | (inl sess, w) => (inl (RUnlock unlock_done), touched (with_world x w) sess)
    | (inr (TwoFactorRequiredError methods), w) =>
        (inl (RUnlock (unlock_challenge methods)), with_world x w)
    | (inr e, w) => (inl (RUnlock (unlock_failed (message e))), with_world x w)
    end.
Proof. apply serve_unlock. Qed.

(** While the session is open, the four vault messages do exactly what the
    API client does with the session that logged in (the stored copy loses
    nothing they use), extend the deadline to 15 minutes from now, and answer any
    error as its message without losing the session. *)
Theorem unlocked_requests msg sess t (x : X) call
  (Hc : vault_call msg sess = Some call) (Hk : bytes_ok (ss_userKey sess))
  (Hs : session_slot x = Some (stored_of sess t)) (Ht : now_of x <= t) :
  serve msg x = match call (world_of x) with
                | (inl r, w) => (inl r, with_world (touched x sess) w)
                | (inr e, w) => (inl (failure msg e), with_world (touched x sess) w)
                end.
Proof. by apply (serve_open msg sess t). Qed.

(** A captured login is offered for five minutes and not longer: asked within
    the window the worker answers it, asked later it answers null and forgets it;
    a capture without a password changes nothing. *)
Theorem pending_window url username password (x : X) :
  exists x1, returns (serve (msg_captureLogin url username password)) x ROk x1 /\
    (password = [] -> x1 = x) /\
    (password <> [] -> forall x2 : X, pending_slot x2 = pending_slot x1 ->
       serve msg_getPending x2 =
         if PENDING_TTL_MS <? now_of x2 - now_of x
         then (inl (RPending {| pending := None |}), with_pending x2 None)
         else (inl (RPending {| pending := Some {| pe_url := url; pe_username := username;
                                                   pe_password := password |} |}), x2)).
Proof.
  unfold returns, serve. cbn [onMessage]. destruct (bool_decide_reflect (password = [])) as [->|Hp].
  - exists x. by split_and!.
  - eexists. split; [reflexivity|]. split; [done|]. intros _ [w ss p a]. cbn. intros ->.
    unfold now_of. cbn. by destruct (_ <? _).
Qed.
End Spec.

(** ** Concrete inputs: a clock and no network *)

#[local] Instance offline : Environment Z := {|
  handle r n := (None, n);
  startAuthentication _ n := (inr LibraryError, n);
  startRegistration _ n := (inr LibraryError, n);
|}.
#[local] Instance offline_clock : Clock Z := {| clock n := n |}.
#[local] Instance plain_engine : EngineText := {| engine_message _ := js "Failed to fetch" |}.
#[local] Existing Instances latin1_unicode model_crypto lcg_entropy.

Definition demo_session : Session :=
  {| ss_identifier := js "alice@example.org"; ss_accessToken := str (js "token");
     ss_refreshToken := None; ss_userKey := sample_key; ss_protectedPrivateKey := str [] |}.
Definition demo_at (now deadline : Z) : extension Z Z :=
  Extension (World (js "http://localhost:8080") now 1) (Some (stored_of demo_session deadline)) None (Some deadline).

Lemma alarm_armed_witness :
  armed (serve msg_getItems (demo_at 1000 2000)).2 /\
  returns (run_proc onAlarm) (demo_at 1000 2000) ROk (with_alarm (with_session (demo_at 1000 2000) None) None).
Proof. apply (alarm_armed msg_getItems (demo_at 1000 2000)). by intros s [= <-]. Defined.

Lemma idle_lock_witness :
  returns (serve msg_getItems) (demo_at 2001 2000) (RItems items_locked) (wiped (demo_at 2001 2000)) /\
  session_slot (wiped (demo_at 2001 2000)) = None.
Proof. apply (idle_lock msg_getItems (RItems items_locked) (demo_at 2001 2000)); [done|]. cbn. unfold now_of. cbn. lia. Defined.

Lemma unlocked_requests_witness :
  serve msg_getItems (demo_at 1000 2000) =
    (inl (RItems (items_failed (js "Failed to fetch"))), demo_at 1000 901000).
Proof.
  rewrite (unlocked_requests msg_getItems demo_session 2000 (demo_at 1000 2000) _ eq_refl);
    [reflexivity|apply sample_key_ok|done|cbn; unfold now_of; cbn; lia].
Defined.
