(* ===== verification/Worker.v ===== *)
(** The background worker under interleaving: what holds when its handlers, the
    alarm and the clock take turns at every await. *)
From stdpp Require Import relations.
From S2P Require Import Prelude Text Numeral Json JsonFacts Encoding Effects Platform Primitives.
From S2P Require Import EncString Kdf Account Items Api Session Process Protocol Background.

(** Time does not run backwards while the network is awaited. *)
Class ForwardClock (N : Type) `{Environment N} `{Clock N} : Prop :=
  clock_forward : forall r n, clock n <= clock (handle r n).2.

(** ** The API client never turns the clock back *)
Section Client.
Context {N E : Type} `{Unicode} `{WebCrypto} `{Environment N} `{Entropy E} `{!Clock N} `{!ForwardClock N}.
Abbreviation W := (world N E).

Definition since (t : Z) (w : W) : Prop := t <= clock (net w).

#[local] Instance since_undrawn t : Undrawn (since t).
Proof. intros k w Hw. exact Hw. Qed.
#[local] Instance fetch_since t r : Keeps (since t) (fetch r).
Proof.
  intros w Hw. unfold fetch. pose proof (clock_forward r (net w)) as Hc.
  destruct (handle r (net w)) as [o n]. cbn in Hc. unfold since in *. destruct o; cbn; lia.
Qed.
#[local] Instance gets_since {A} t (f : W -> A) : Keeps (since t) (gets f).
Proof. by intros w. Qed.
#[local] Instance call_since t m p b k : Keeps (since t) (call m p b k).
Proof. unfold call, error_of, text_of_value, member. keeps. Qed.
#[local] Instance login_since t i h c : Keeps (since t) (login i h c).
Proof. unfold login, error_of, text_of_value, member. keeps. Qed.

Lemma collect_since t f l : (forall v, Keeps (since t) (f v)) -> Keeps (since t) (collect f l).
Proof. intros Hf. induction l as [|v l IH]; cbn [collect]; unfold try_item; keeps. Qed.

Lemma loadVault_since t s : Keeps (since t) (loadVault s).
Proof.
  unfold loadVault, sync, member, elements. keeps; apply collect_since; intros v; unfold open_cipher, read_fields, member; keeps.
Qed.
Lemma addItem_since t s f : Keeps (since t) (addItem s f).
Proof. unfold addItem, createCipher, member. keeps. Qed.
Lemma saveItem_since t s f : Keeps (since t) (saveItem s f).
Proof. unfold saveItem, updateCipher, text_of_value. keeps. Qed.
Lemma removeItem_since t s i : Keeps (since t) (removeItem s i).
Proof. unfold removeItem, deleteCipher. keeps. Qed.
Lemma loginAccount_since t i pw c : Keeps (since t) (loginAccount i pw c).
Proof. unfold loginAccount, prelogin, member, challenged, unwrapUserKey. keeps. Qed.
End Client.

(** ** The idle deadline *)
Section Deadline.
Context {N E : Type} `{Unicode} `{WebCrypto} `{Environment N} `{Entropy E} `{!Clock N} `{!ForwardClock N} `{EngineText}.
Abbreviation X := (extension N E).

Definition bounded (x : X) : Prop := forall s, session_slot x = Some s -> lockAt s <= now_of x + IDLE_MS.
Definition later : relation X := fun x y => now_of x <= now_of y.
#[local] Instance later_preorder : PreOrder later.
Proof. split; [intros x; unfold later; lia|intros x y z; unfold later; lia]. Qed.

Abbreviation kept p x := (safe bounded later p x (fun _ _ => True)).

(** Whatever a process does, others may go on. *)
Lemma kept_bind {A B} (p : proc X A) (k : A -> proc X B) x :
  kept p x -> (forall a y, later x y -> kept (k a) y) -> kept (p ≫= k) x.
Proof. intros Hp Hk. eapply (safe_bind bounded later); [exact Hp|by intros; apply Hk|done]. Qed.

Lemma kept_gets {A} (f : X -> A) x : kept (act (gets f)) x.
Proof. apply safe_act. intros y _ Hy. split_and!; [done|unfold later; cbn; lia|done]. Qed.

Lemma kept_api {A} (m : M (world N E) A) x : (forall t, Keeps (since t) m) -> kept (api m) x.
Proof.
  intros Hm. apply safe_act. intros y _ Hy. unfold on_world.
  pose proof (Hm (now_of y) (world_of y) (Z.le_refl _)) as Ht. destruct (m (world_of y)) as [r w]. cbn in Ht |- *.
  assert (Hl : now_of y <= clock (net w)) by exact Ht.
  split_and!; [|exact Hl|done]. intros s Hs. specialize (Hy s Hs).
  change (now_of (with_world y w)) with (clock (net w)). lia.
Qed.

Lemma kept_wipe x : kept (session_set None) x.
Proof. apply safe_act. intros y _ Hy. split_and!; [done|unfold later; cbn; apply Z.le_refl|done]. Qed.

Lemma kept_slot (f : X -> X) x : (forall y, session_slot (f y) = session_slot y) ->
  (forall y, now_of (f y) = now_of y) -> kept (act (modify f)) x.
Proof.
  intros Hs Ht. apply safe_act. intros y _ Hy. cbn.
  split_and!; [|unfold later; by rewrite Ht|done]. intros s. by rewrite Hs, Ht; apply Hy.
Qed.

Lemma kept_clear x : kept clearStored x.
Proof. apply kept_bind; [apply kept_wipe|intros _ y _; by apply kept_slot]. Qed.

Lemma kept_read x : kept readStored x.
Proof.
  apply kept_bind; [apply kept_gets|]. intros [s|] y _; [|done].
  apply kept_bind; [apply kept_gets|]. intros t z _. destruct (_ <? _); [|done].
  apply kept_bind; [apply kept_clear|done].
Qed.

(** Writing a session whose deadline is within the bound. *)
Lemma kept_write s x : lockAt s <= now_of x + IDLE_MS -> kept (writeStored s) x.
Proof.
  intros Hs. apply kept_bind; [|intros _ y _; by apply kept_slot].
  apply safe_act. intros y Hy _. unfold later in *. cbn.
  change (now_of (with_session y (Some s))) with (now_of y).
  split_and!; [|lia|done]. intros s' [= <-]. change (now_of (with_session y (Some s))) with (now_of y). lia.
Qed.

Lemma kept_now {B} (k : Z -> proc X B) x :
  (forall t y, later x y -> t <= now_of y -> kept (k t) y) -> kept (t ← dateNow; k t) x.
Proof.
  intros Hk. eapply (safe_bind bounded later _ _ _ (fun r y => match r with inl t => t <= now_of y | inr _ => True end)).
  - apply safe_act. intros y _ Hy. split_and!; [done|unfold later; cbn; lia|cbn; lia].
  - intros t y Hy Ht. by apply Hk.
  - done.
Qed.

Lemma kept_catch {A} (p : proc X A) h x :
  kept p x -> (forall e y, later x y -> kept (h e) y) -> kept (catchp p h) x.
Proof.
  intros Hp Hh. apply safe_catch. eapply (safe_impl bounded later); [|exact Hp]. intros [a|e] y Hy _; [done|by apply Hh].
Qed.

Lemma kept_stored l f (use : Session -> proc X Response) x :
  (forall s y, kept (use s) y) -> kept (with_stored l f use) x.
Proof.
  intros Hu. apply kept_bind; [apply kept_read|]. intros [s|] y _; [|done].
  apply kept_catch; [|done]. apply kept_bind.
  - unfold touch. apply kept_now. intros t z _ Ht. apply kept_write. cbn. lia.
  - intros _ z _. destruct (toSession s) as [se|e]; [apply Hu|done].
Qed.

Lemma kept_message msg x : kept (onMessage msg) x.
Proof.
  destruct msg as [|i pw code| | |fields|item|id| | |u n p]; cbn [onMessage].
  - apply kept_bind; [apply kept_read|done].
  - apply kept_catch; [|done]. apply kept_bind; [apply kept_api; intros t; apply loginAccount_since|].
    intros se y _. apply kept_now. intros t z _ Ht. apply kept_bind; [apply kept_write; cbn; lia|done].
  - apply kept_bind; [apply kept_clear|done].
  - apply kept_stored. intros s y. apply kept_bind; [apply kept_api; intros t; apply loadVault_since|done].
  - apply kept_stored. intros s y. apply kept_bind; [apply kept_api; intros t; apply addItem_since|done].
  - apply kept_stored. intros s y. apply kept_bind; [apply kept_api; intros t; apply saveItem_since|done].
  - apply kept_stored. intros s y. apply kept_bind; [apply kept_api; intros t; apply removeItem_since|done].
  - apply kept_bind; [|done]. apply kept_bind; [apply kept_gets|]. intros [p|] y _; [|done].
    apply kept_now. intros t z _ _. destruct (_ <? _); [|done].
    apply kept_bind; [by apply kept_slot|done].
  - apply kept_bind; [by apply kept_slot|done].
  - destruct (bool_decide _); [done|]. apply kept_now. intros t y _ _.
    apply kept_bind; [by apply kept_slot|done].
Qed.

Lemma kept_alarm x : kept onAlarm x.
Proof. apply kept_bind; [apply kept_clear|done]. Qed.

Lemma worker_kept allowed s s' : worker_step allowed s s' ->
  bounded s.1 -> Forall (fun p => kept p s.1) s.2 -> bounded s'.1 /\ Forall (fun p => kept p s'.1) s'.2.
Proof.
  intros Hst Hb Hps.
  assert (Hstab : stable later (fun (_ : Response + exn) (_ : X) => True)) by done.
  destruct Hst as [x ps msg _|s s' Hst|x ps t _ _|x ps n Hn|x ps|x ps]; cbn [fst snd] in *.
  - split; [done|]. apply Forall_app. split; [done|]. constructor; [apply kept_message|done].
  - pose proof (pool_safe bounded later _ _ _ Hstab Hst Hb Hps). tauto.
  - split; [intros s; apply Hb|]. apply Forall_app. split; [|constructor; [apply kept_alarm|done]].
    eapply Forall_impl; [exact Hps|]. intros p. apply (safe_stable bounded later); [done|]. exact (Z.le_refl _).
  - set (y := with_world _ _). assert (Hl : later x y) by exact Hn. split.
    + intros s Hs. specialize (Hb s Hs). unfold later in Hl. lia.
    + eapply Forall_impl; [exact Hps|]. intros p. by apply (safe_stable bounded later).
  - split; [done|constructor].
  - split; [by intros s|constructor].
Qed.
End Deadline.

(** ** No session appears without an unlock *)
Section Locked.
Context {N E : Type} `{Unicode} `{WebCrypto} `{Environment N} `{Entropy E} `{!Clock N} `{EngineText}.
Abbreviation X := (extension N E).

Definition sessionless (x : X) : Prop := session_slot x = None.
Definition anything : relation X := fun _ _ => True.
#[local] Instance anything_preorder : PreOrder anything.
Proof. by split. Qed.

(** An answer that carries nothing of the vault. *)
Definition discreet (r : Response) : Prop :=
  match r with
  | RState s => st_locked s = true
  | RItems i => i = items_locked
  | RMutation m => m = mutation_locked
  | RUnlock _ => False
  | RPending _ | ROk => True
  end.
Definition answer_discreet (r : Response + exn) (_ : X) : Prop :=
  match r with inl r => discreet r | inr _ => True end.
Definition not_unlock (m : BgRequest) : Prop := forall i pw code, m <> msg_unlock i pw code.

Abbreviation idle p x := (safe sessionless anything p x (fun _ _ => True)).

Lemma idle_step {A} (m : M X A) x :
  (forall y, sessionless y -> sessionless (m y).2) -> idle (act m) x.
Proof. intros Hm. apply safe_act. intros y _ Hy. split; [exact (Hm y Hy)|done]. Qed.

Lemma idle_then {A} (p : proc X A) (k : A -> proc X Response) x :
  idle p x -> (forall a y, safe sessionless anything (k a) y answer_discreet) ->
  safe sessionless anything (p ≫= k) x answer_discreet.
Proof. intros Hp Hk. eapply (safe_bind sessionless anything); [exact Hp|by intros; apply Hk|done]. Qed.

Lemma idle_bind {A B} (p : proc X A) (k : A -> proc X B) x :
  idle p x -> (forall a y, idle (k a) y) -> idle (p ≫= k) x.
Proof. intros Hp Hk. eapply (safe_bind sessionless anything); [exact Hp|by intros; apply Hk|done]. Qed.

Lemma idle_clear x : idle clearStored x.
Proof. apply idle_bind; [|intros _ y]; by apply idle_step. Qed.

(** Without a session there is nothing to read. *)
Lemma idle_read x : safe sessionless anything (A := option StoredSession) readStored x
  (fun r _ => r = inl None).
Proof.
  eapply (safe_bind sessionless anything _ _ _ (fun r _ => r = inl None)).
  - apply safe_act. intros y _ Hy. split_and!; [done|done|]. cbn. by rewrite Hy.
  - by intros a y _ [= ->].
  - done.
Qed.

Lemma idle_stored l f (use : Session -> proc X Response) x : discreet l ->
  safe sessionless anything (with_stored l f use) x answer_discreet.
Proof.
  intros Hl. eapply (safe_bind sessionless anything); [apply idle_read| |done]. by intros a y _ [= ->].
Qed.

Lemma idle_message msg x : not_unlock msg ->
  safe sessionless anything (onMessage msg) x answer_discreet.
Proof.
  intros Hm. destruct msg as [|i pw code| | |fields|item|id| | |u n p]; cbn [onMessage].
  - eapply (safe_bind sessionless anything); [apply idle_read| |done]. by intros a y _ [= ->].
  - by destruct (Hm i pw code).
  - by apply idle_then; [apply idle_clear|].
  - by apply idle_stored.
  - by apply idle_stored.
  - by apply idle_stored.
  - by apply idle_stored.
  - apply idle_then; [|done]. apply idle_bind; [by apply idle_step|]. intros [p|] y; [|done].
    apply idle_bind; [by apply idle_step|]. intros t z. destruct (_ <? _); [|done].
    by apply idle_bind; [apply idle_step|].
  - by apply idle_then; [apply idle_step|].
  - destruct (bool_decide _); [done|]. apply idle_then; [by apply idle_step|]. intros t y.
    by apply idle_then; [apply idle_step|].
Qed.

Lemma worker_idle s s' : worker_step not_unlock s s' ->
  sessionless s.1 -> Forall (fun p => safe sessionless anything p s.1 answer_discreet) s.2 ->
  sessionless s'.1 /\ Forall (fun p => safe sessionless anything p s'.1 answer_discreet) s'.2.
Proof.
  intros Hst Hb Hps.
  assert (Hstab : stable anything answer_discreet) by (intros a x x' _ Hq; exact Hq).
  assert (Hmove : forall x y ps, Forall (fun p => safe sessionless anything p x answer_discreet) ps ->
    Forall (fun p => safe sessionless anything p y answer_discreet) ps).
  { intros x y ps Hx. eapply Forall_impl; [exact Hx|]. intros p. by apply (safe_stable sessionless anything). }
  destruct Hst as [x ps msg Hmsg|s s' Hst|x ps t _ _|x ps n Hn|x ps|x ps]; cbn [fst snd] in *.
  - split; [done|]. apply Forall_app. split; [done|]. constructor; [by apply idle_message|done].
  - pose proof (pool_safe sessionless anything _ _ _ Hstab Hst Hb Hps). tauto.
  - split; [done|]. apply Forall_app. split; [by eapply Hmove|constructor; [|done]].
    by apply idle_then; [apply idle_clear|].
  - split; [done|by eapply Hmove].
  - split; [done|constructor].
  - split; [done|constructor].
Qed.
End Locked.

(** One step of a run: a message arrives, or process [i] acts. *)
Ltac message m := eapply rtc_l; [apply (step_message _ _ _ m); auto|cbn [app]].
Ltac action i := eapply rtc_l; [eapply step_action, (pool_act _ _ i); reflexivity|cbn].

(** ** Theorems *)
Section Theorems.
Context {N E : Type} `{Unicode} `{WebCrypto} `{Environment N} `{Entropy E} `{!Clock N} `{EngineText}.
Abbreviation X := (extension N E).

(** C11: the vault never stays open for more than 15 idle minutes, however messages,
    alarm and network interleave: in every reachable state a stored session
    expires within 15 minutes of the clock, so once that much time has passed with
    no message, whatever needs the session is refused and the session is wiped. *)
Theorem idle_bound `{!ForwardClock N} allowed (x0 x : X) ps
  (Hr : rtc (worker_step allowed) (x0, []) (x, ps))
  (Hlocked : session_slot x0 = None) :
  (forall s, session_slot x = Some s -> lockAt s <= now_of x + IDLE_MS) /\
  forall n msg r, now_of x + IDLE_MS < clock n -> refusal msg = Some r ->
    let x' := with_world x (World (baseUrl (world_of x)) n (rng (world_of x))) in
    exists x'', returns (serve msg) x' r x'' /\ session_slot x'' = None.
Proof.
  assert (Hb : bounded x).
  { enough (Hg : bounded x /\ Forall (fun p => safe bounded later p x (fun _ _ => True)) ps) by apply Hg.
    apply (rtc_invariant (worker_step allowed)
      (fun s => bounded s.1 /\ Forall (fun p => safe bounded later p s.1 (fun _ _ => True)) s.2) _ _) in Hr;
      [exact Hr| |split; [intros s; cbn; by rewrite Hlocked|constructor]].
    intros s s' Hst [Hs Hps]. by eapply worker_kept. }
  split; [exact Hb|]. intros n msg r Hn Hm x'. exists (wiped x'). split; [|done].
  apply serve_locked; [done|]. unfold is_locked. change (session_slot x') with (session_slot x).
  destruct (session_slot x) as [s|] eqn:Es; [|done]. specialize (Hb s Es).
  change (now_of x') with (clock n). lia.
Qed.

(** C12: locking is final as long as nobody unlocks: from a worker without a session
    and with nothing in flight, no interleaving of any other messages makes one
    appear, and no answer carries anything of the vault. *)
Theorem locked_stays_locked (x0 x : X) ps
  (Hr : rtc (worker_step not_unlock) (x0, []) (x, ps))
  (Hlocked : session_slot x0 = None) :
  session_slot x = None /\ Forall (fun p => forall r, p = Done (inl r) -> discreet r) ps.
Proof.
  apply (rtc_invariant (worker_step not_unlock)
    (fun s => sessionless s.1 /\ Forall (fun p => safe sessionless anything p s.1 answer_discreet) s.2) _ _) in Hr;
    [|intros s s' Hst [Hs Hps]; by eapply worker_idle|by split].
  destruct Hr as [Hx Hps]. split; [exact Hx|].
  eapply Forall_impl; [exact Hps|]. intros p Hp r ->. exact Hp.
Qed.

(** Without that proviso locking is not final: a lock that arrives while
    another handler is between reading the session and extending its deadline
    completes, and the extension then writes the session back, so that the worker
    is unlocked again without any unlock. *)
Theorem lock_race (x : X) s
  (Hs : session_slot x = Some s) (Ht : now_of x <= lockAt s) :
  exists x' ps, rtc (worker_step (fun m => m = msg_getItems \/ m = msg_lock)) (x, []) (x', ps) /\
    ps !! 1%nat = Some (Done (inl ROk)) /\
    returns (serve msg_getState) x'
      (RState {| st_locked := false; st_identifier := Some (identifier s) |}) x'.
Proof.
  destruct x as [w ss p a]. cbn in Hs. subst ss. unfold now_of in Ht. cbn in Ht.
  assert (El : (lockAt s <? clock (net w)) = false) by by apply Z.ltb_ge.
  assert (Et : (clock (net w) + IDLE_MS <? clock (net w)) = false) by (apply Z.ltb_ge; unfold IDLE_MS; lia).
  set (s' := set_lockAt s (clock (net w) + IDLE_MS)).
  exists (Extension w (Some s') p (Some (lockAt s'))). eexists. split; [|split].
  - message (msg_getItems). action 0%nat. (* reads the session *)
    action 0%nat. unfold now_of. cbn. rewrite El. cbn. (* not expired *)
    action 0%nat. (* the new deadline *)
    message (msg_lock). action 1%nat. action 1%nat. (* the session and the alarm are gone *)
    action 0%nat. action 0%nat. apply rtc_refl.
  - reflexivity.
  - unfold returns, serve. cbn. unfold now_of. cbn. rewrite Et. reflexivity.
Qed.
End Theorems.

(** ** Concrete inputs: a clock and no network *)

#[local] Instance offline : Environment Z := {|
  handle r n := (None, n);
  startAuthentication _ n := (inr LibraryError, n);
  startRegistration _ n := (inr LibraryError, n);
|}.
#[local] Instance offline_clock : Clock Z := {| clock n := n |}.
#[local] Instance offline_forward : ForwardClock Z.
Proof. intros r n. apply Z.le_refl. Qed.
#[local] Instance plain_engine : EngineText := {| engine_message _ := js "Failed to fetch" |}.
#[local] Existing Instances latin1_unicode model_crypto lcg_entropy.

Definition worker_at (now : Z) (s : option StoredSession) : extension Z Z :=
  Extension (World (js "http://localhost:8080") now 1) s None (lockAt <$> s).
Definition open_until (t : Z) : StoredSession :=
  {| identifier := js "alice@example.org"; accessToken := str (js "token"); refreshToken := None;
     userKeyB64 := toBase64 sample_key; lockAt := t |}.

Lemma idle_bound_witness :
  exists x'', returns (serve msg_getItems) (worker_at 1000000 None) (RItems items_locked) x'' /\
    session_slot x'' = None.
Proof.
  destruct (idle_bound (fun _ => True) (worker_at 1000 None) (worker_at 2000 None) [onMessage msg_getState])
    as [_ Hi].
  - eapply rtc_l; [by apply (step_message _ _ _ msg_getState)|]. cbn [app].
    apply rtc_once. apply (step_elapse _ (worker_at 1000 None) [onMessage msg_getState] 2000).
    unfold now_of. cbn. lia.
  - done.
  - apply (Hi 1000000 msg_getItems (RItems items_locked)); [|done]. unfold now_of, IDLE_MS. cbn. lia.
Defined.

Lemma locked_stays_locked_witness :
  exists x ps, rtc (worker_step not_unlock) (worker_at 0 None, []) (x, ps) /\ length ps = 2%nat /\
    session_slot x = None /\ Forall (fun p => forall r, p = Done (inl r) -> discreet r) ps.
Proof.
  eassert (Hr : rtc (worker_step not_unlock) (worker_at 0 None, []) (worker_at 0 None, _)).
  { message msg_getItems; [done|]. action 0%nat. message (msg_deleteItem (js "id")); [done|]. action 1%nat.
    apply rtc_refl. }
  eexists _, _. split; [exact Hr|]. split; [done|]. by apply (locked_stays_locked (worker_at 0 None)).
Defined.

Lemma lock_race_witness :
  exists x' ps, rtc (worker_step (fun m => m = msg_getItems \/ m = msg_lock)) (worker_at 0 (Some (open_until 5)), []) (x', ps) /\
    ps !! 1%nat = Some (Done (inl ROk)) /\
    returns (serve msg_getState) x'
      (RState {| st_locked := false; st_identifier := Some (js "alice@example.org") |}) x'.
Proof. apply (lock_race (worker_at 0 (Some (open_until 5))) (open_until 5)); [done|]. unfold now_of. cbn. lia. Defined.
