(* ===== verification/Health.v ===== *)
(** apps/web/src/health.ts: password health (weakness, reuse) and the
    k-anonymous breach check. *)
From S2P Require Import Prelude Text Numeral Json JsonFacts Encoding Effects Platform Items Api.

(** [crypto.subtle.digest("SHA-1", ...)] *)
Class Sha1 := {
  sha1 : bytes -> bytes;
  sha1_length : forall b, length (sha1 b) = 20%nat;
  sha1_bytes : forall b, bytes_ok (sha1 b);
}.

(** [normalizeItemFields] makes the password a string, the id is the server's. *)
Definition password_of (it : obj) : jsstr := text_at (js "password") it.
Definition id_of (it : obj) : jsstr := text_at (js "id") it.

(** ** Weakness *)

Definition classes (pw : jsstr) : nat :=
  length (List.filter (fun re : Z -> bool => existsb re pw)
    [is_lower; is_upper; is_digit; fun u => negb (is_alnum u)]).

Definition passwordWeakness (pw : jsstr) : option jsstr :=
  if bool_decide (pw = []) then None
  else if (length pw <? 10)%nat then Some (js "Short (under 10 characters)")
  else if (length pw <? 14)%nat && (classes pw <? 3)%nat then Some (js "Low complexity")
  else None.

(** ** Reuse: Map and Set in insertion order *)

Fixpoint map_push (k id : jsstr) (m : list (jsstr * list jsstr)) : list (jsstr * list jsstr) :=
  match m with
  | [] => [(k, [id])]
  | (k', ids) :: m' => if str_eqb k k' then (k', ids ++ [id]) :: m' else (k', ids) :: map_push k id m'
  end.

(** The loop both checks share: the ids of each non-empty password. *)
Definition byPassword (items : list obj) : list (jsstr * list jsstr) :=
  foldl (fun m it => if bool_decide (password_of it = []) then m
                     else map_push (password_of it) (id_of it) m) [] items.

Definition set_add (l : list jsstr) (id : jsstr) : list jsstr := if decide (id ∈ l) then l else l ++ [id].

Definition reusedItemIds (items : list obj) : list jsstr :=
  foldl (fun reused (g : jsstr * list jsstr) =>
    if (1 <? length g.2)%nat then foldl set_add reused g.2 else reused) [] (byPassword items).

(** ** Breaches *)

(** [b.toString(16).padStart(2, "0")] of a byte. *)
Definition byte_hex (b : Z) : jsstr := [hex_digit (b / 16); hex_digit (b mod 16)].

Fixpoint scan_lines (suffix : jsstr) (lines : list jsstr) : Z :=
  match lines with
  | [] => 0
  | line :: rest =>
      match index_of c_colon line with
      | None => scan_lines suffix rest
      | Some idx =>
          if str_eqb (take idx line) suffix then default 0 (parse_int (drop (S idx) line))
          else scan_lines suffix rest
      end
  end.

Section Breaches.
Context {N E : Type} `{Unicode} `{Sha1} `{Environment N}.
Abbreviation W := (world N E).

Definition sha1Hex (s : jsstr) : jsstr := to_upper (sha1 (utf8 s) ≫= byte_hex).

Definition range_request (prefix : jsstr) (headers : list (jsstr * jsstr)) : request :=
  {| rq_method := GET; rq_url := js "https://api.pwnedpasswords.com/range/" ++ prefix;
     rq_headers := headers; rq_body := None |}.

Definition breachCount (pw : jsstr) : M W Z :=
  let hash := sha1Hex pw in
  let prefix := take 5 hash in
  let suffix := drop 5 hash in
  res ← catch (fetch (range_request prefix [(js "Add-Padding", js "true")]))
              (fun _ => fetch (range_request prefix []));
  _ ← throw_if (negb (rs_ok res)) (JsError (js "breach service returned " ++ dec (rs_status res)));
  mret (scan_lines suffix (split_on c_lf (rs_text res))).

Fixpoint breached_loop (unique : list (jsstr * list jsstr)) (out : gmap jsstr Z) : M W (gmap jsstr Z) :=
  match unique with
  | [] => mret out
  | (pw, ids) :: unique' =>
      out' ← catch (n ← breachCount pw;
                    mret (if 0 <? n then foldl (fun m id => <[id := n]> m) out ids else out))
                   (fun _ => mret out);
      breached_loop unique' out'
  end.

Definition breachedItemIds (items : list obj) : M W (gmap jsstr Z) := breached_loop (byPassword items) ∅.
End Breaches.

(** ** The grouping *)

Fixpoint ids_at (k : jsstr) (m : list (jsstr * list jsstr)) : list jsstr :=
  match m with
  | [] => []
  | (k', ids) :: m' => if str_eqb k k' then ids else ids_at k m'
  end.

Lemma ids_at_push k k' id m :
  ids_at k (map_push k' id m) = if str_eqb k k' then ids_at k m ++ [id] else ids_at k m.
Proof.
  unfold str_eqb. induction m as [|[j ids] m IH]; cbn; unfold str_eqb in *; [by repeat case_bool_decide|].
  repeat case_bool_decide; cbn; unfold str_eqb; simplify_eq; repeat case_bool_decide; simplify_eq; done.
Qed.

Lemma keys_push k id m : (map_push k id m).*1 = if decide (k ∈ m.*1) then m.*1 else m.*1 ++ [k].
Proof.
  induction m as [|[j ids] m IH]; [done|]. cbn. unfold str_eqb. destruct (bool_decide_reflect (k = j)) as [->|Hj].
  - cbn. by rewrite decide_True by by left.
  - cbn. rewrite IH. destruct (decide (k ∈ m.*1)) as [Hi|Hi].
    + by rewrite decide_True by by right.
    + by rewrite decide_False by (intros [?|?]%elem_of_cons; auto).
Qed.

Lemma groups_at m k ids : NoDup m.*1 -> (k, ids) ∈ m -> ids_at k m = ids.
Proof.
  induction m as [|[j js] m IH]; cbn; [by intros _ ?%not_elem_of_nil|]. intros [Hj Hm]%NoDup_cons Hin.
  unfold str_eqb. apply elem_of_cons in Hin as [[= -> ->]|Hin]; [by rewrite bool_decide_eq_true_2|].
  rewrite bool_decide_eq_false_2; [by apply IH|]. intros ->. apply Hj. apply list_elem_of_fmap. by exists (j, ids).
Qed.

(** What each group holds: the ids of the items with that password, in order. *)
Lemma byPassword_spec items :
  NoDup (byPassword items).*1 /\
  (forall k, k ∈ (byPassword items).*1 <-> k <> [] /\ exists it, it ∈ items /\ password_of it = k) /\
  forall k, k <> [] -> ids_at k (byPassword items) = map id_of (filter (fun it => password_of it = k) items).
Proof.
  induction items as [|it items IH] using rev_ind.
  { split_and!; [constructor| |done]. intros k. split; [by intros ?%not_elem_of_nil|].
    by intros (_ & it & ?%not_elem_of_nil & _). }
  destruct IH as (Hnd & Hk & Hids). unfold byPassword in *. rewrite foldl_app. cbn [foldl].
  set (m := foldl _ _ _) in *. destruct (bool_decide_reflect (password_of it = [])) as [He|He].
  - split_and!; [done| |].
    + intros k. rewrite Hk. split; intros [Hne (jt & Hj & E)]; (split; [done|]).
      * exists jt. split; [apply elem_of_app; by left|done].
      * apply elem_of_app in Hj as [Hj|Hj]; [by exists jt|]. apply list_elem_of_singleton in Hj. congruence.
    + intros k Hne. rewrite Hids, filter_app, map_app by done. rewrite filter_cons_False by congruence.
      by rewrite app_nil_r.
  - split_and!.
    + rewrite keys_push. destruct (decide _) as [Hd|Hd]; [done|].
      apply NoDup_app. split_and!; [done| |apply NoDup_singleton]. intros k Hin ->%list_elem_of_singleton. done.
    + intros k. rewrite keys_push. split.
      * intros Hin. assert (Hc : k ∈ m.*1 \/ k = password_of it).
        { destruct (decide _); [by left|]. apply elem_of_app in Hin as [?|?%list_elem_of_singleton]; auto. }
        destruct Hc as [Hc| ->].
        -- apply Hk in Hc as [Hne (jt & Hj & E)]. split; [done|]. exists jt. split; [apply elem_of_app; by left|done].
        -- split; [done|]. exists it. split; [apply elem_of_app; right; by apply list_elem_of_singleton|done].
      * intros [Hne (jt & Hj & E)]. apply elem_of_app in Hj as [Hj|Hj].
        -- assert (Hm : k ∈ m.*1) by (apply Hk; eauto). destruct (decide _); [done|]. apply elem_of_app. by left.
        -- apply list_elem_of_singleton in Hj. subst jt k. destruct (decide _); [done|].
           apply elem_of_app. right. by apply list_elem_of_singleton.
    + intros k Hne. rewrite ids_at_push, filter_app, map_app, Hids by done. unfold str_eqb.
      destruct (bool_decide_reflect (k = password_of it)) as [->|Hd].
      * by rewrite filter_cons_True.
      * rewrite filter_cons_False by congruence. by rewrite app_nil_r.
Qed.

Lemma set_add_elem l id j : j ∈ set_add l id <-> j ∈ l \/ j = id.
Proof.
  unfold set_add. destruct (decide _) as [Hd|Hd]; [split; [by left|by intros [Hj| ->]]|].
  rewrite elem_of_app, list_elem_of_singleton. done.
Qed.

Lemma set_add_all ids : forall l j, j ∈ foldl set_add l ids <-> j ∈ l \/ j ∈ ids.
Proof.
  induction ids as [|id ids IH]; intros l j; cbn [foldl].
  - split; [by left|]. by intros [?|?%not_elem_of_nil].
  - rewrite IH, set_add_elem, elem_of_cons. tauto.
Qed.

Lemma set_add_NoDup ids : forall l, NoDup l -> NoDup (foldl set_add l ids).
Proof.
  induction ids as [|id ids IH]; intros l Hl; [done|]. cbn. apply IH. unfold set_add.
  destruct (decide _) as [|Hd]; [done|]. apply NoDup_app. split_and!; [done| |apply NoDup_singleton].
  by intros j Hj ->%list_elem_of_singleton.
Qed.

Lemma reused_fold gs : forall l,
  (NoDup l -> NoDup (foldl (fun reused (g : jsstr * list jsstr) =>
    if (1 <? length g.2)%nat then foldl set_add reused g.2 else reused) l gs)) /\
  forall j, j ∈ foldl (fun reused (g : jsstr * list jsstr) =>
    if (1 <? length g.2)%nat then foldl set_add reused g.2 else reused) l gs <->
    j ∈ l \/ exists g, g ∈ gs /\ (1 < length g.2)%nat /\ j ∈ g.2.
Proof.
  induction gs as [|g gs IH]; intros l; cbn [foldl].
  - split; [done|]. intros j. split; [by left|]. by intros [?|(g & ?%not_elem_of_nil & _)].
  - destruct (Nat.ltb_spec 1 (length g.2)) as [Hg|Hg]; destruct (IH (foldl set_add l g.2)) as [Hn Hj];
      destruct (IH l) as [Hn' Hj']; (split; [intros Hl|intros j]).
    + by apply Hn, set_add_NoDup.
    + rewrite Hj, set_add_all. split.
      * intros [[?|?]|(g' & Hi & ?)]; [by left|right|right; exists g'; split; [by right|done]].
        exists g. split; [by left|done].
      * intros [?|(g' & [->|Hi]%elem_of_cons & Hl & Hin)]; [by left; left|left; by right|right; by exists g'].
    + by apply Hn'.
    + rewrite Hj'. split; intros [?|(g' & Hi & Hl & Hin)]; [by left|right|by left|right].
      * exists g'. split; [by right|done].
      * apply elem_of_cons in Hi as [->|Hi]; [lia|]. by exists g'.
Qed.

(** The report holds the ids of the items whose non-empty password two items have. *)
Lemma reusedItemIds_items items :
  NoDup (reusedItemIds items) /\
  forall id, id ∈ reusedItemIds items <->
    exists it, it ∈ items /\ id_of it = id /\ password_of it <> [] /\
      (2 <= length (filter (fun jt => password_of jt = password_of it) items))%nat.
Proof.
  destruct (byPassword_spec items) as (Hnd & Hk & Hids). unfold reusedItemIds.
  destruct (reused_fold (byPassword items) []) as [Hn Hj]. split; [apply Hn; constructor|].
  intros id. rewrite Hj. split.
  - intros [?%not_elem_of_nil|([k ids] & Hg & Hl & Hin)]; [done|]. cbn in Hl, Hin.
    assert (Hkin : k ∈ (byPassword items).*1) by (apply list_elem_of_fmap; by exists (k, ids)).
    apply Hk in Hkin as [Hne _]. rewrite <- (groups_at _ _ _ Hnd Hg), Hids in Hl, Hin by done.
    apply list_elem_of_fmap in Hin as (it & -> & [Hit Hin]%list_elem_of_filter). subst k.
    exists it. split_and!; [done..|]. by rewrite length_map in Hl.
  - intros (it & Hin & <- & Hne & Hl). right.
    assert (Hkin : password_of it ∈ (byPassword items).*1) by (apply Hk; eauto).
    apply list_elem_of_fmap in Hkin as ([k ids] & Ek & Hg). cbn in Ek. subst k.
    exists (password_of it, ids). split; [done|]. cbn.
    rewrite <- (groups_at _ _ _ Hnd Hg), Hids by done. rewrite length_map. split; [lia|].
    apply list_elem_of_fmap. exists it. split; [done|]. by apply list_elem_of_filter.
Qed.

(** The scan passes over lines of other suffixes. *)
Lemma index_of_Some c s i : index_of c s = Some i -> s = take i s ++ c :: drop (S i) s.
Proof.
  revert i. induction s as [|u s IH]; intros i; cbn [index_of]; [done|].
  destruct (Z.eqb_spec u c) as [->|Hu]; [by intros [= <-]|].
  destruct (index_of c s) as [j|]; cbn; [|done]. intros [= <-]. cbn. f_equal. by apply IH.
Qed.

Lemma scan_lines_skip suffix before lines :
  Forall (fun l => ~ suffix ++ [c_colon] `prefix_of` l) before ->
  scan_lines suffix (before ++ lines) = scan_lines suffix lines.
Proof.
  induction 1 as [|l before Hl _ IH]; [done|]. cbn [app scan_lines].
  destruct (index_of c_colon l) as [i|] eqn:Ei; [|done]. unfold str_eqb.
  destruct (bool_decide_reflect (take i l = suffix)) as [Et|]; [|done]. destruct Hl.
  apply index_of_Some in Ei. rewrite Et in Ei. exists (drop (S i) l). by rewrite <- app_assoc.
Qed.

Lemma parse_int_dec n tail : 0 <= n -> stop_digit tail -> parse_int (dec n ++ tail) = Some n.
Proof.
  intros Hn Ht. destruct (dec_spec n Hn) as [Hd Hh].
  pose proof (dec_digits_ok n Hn) as Hok. destruct (dec n) as [|u ds] eqn:Ed; [by destruct (dec_nonempty n Hn)|].
  assert (Hu : is_digit u = true) by (by apply Forall_cons in Hok as [? _]).
  assert (Hw : is_ws u = false) by (unfold is_ws, is_digit in *; bool_prop; zcases).
  unfold parse_int. cbn [app]. rewrite trim_start_nows by done.
  assert (Hs : scan_sign (u :: ds ++ tail) = (false, u :: ds ++ tail))
    by (unfold is_digit in Hu; bool_prop; unfold scan_sign; repeat zcase; done).
  rewrite Hs. change (u :: ds ++ tail) with ((u :: ds) ++ tail). rewrite span_digits_app by done.
  cbn [fst]. by rewrite (proj1 Hh).
Qed.

Section Facts.
Context {N E : Type} `{Unicode} `{Sha1} `{Environment N}.
Abbreviation W := (world N E).

(** Everything before the suffix is looked up depends on the prefix only. *)
Lemma breachCount_suffix pw (w : W) : exists f w', forall pw',
  take 5 (sha1Hex pw') = take 5 (sha1Hex pw) ->
  breachCount pw' w = (match f with
                       | inl lines => inl (scan_lines (drop 5 (sha1Hex pw')) lines)
                       | inr e => inr e
                       end, w').
Proof.
  set (m := catch (fetch (range_request (take 5 (sha1Hex pw)) [(js "Add-Padding", js "true")]))
                  (fun _ => fetch (range_request (take 5 (sha1Hex pw)) [])) : M W response).
  destruct (m w) as [r w'] eqn:Em.
  exists (match r with
          | inl res => if rs_ok res then inl (split_on c_lf (rs_text res))
                       else inr (JsError (js "breach service returned " ++ dec (rs_status res)))
          | inr e => inr e
          end), w'.
  intros pw' E'. unfold breachCount. rewrite E'. cbv zeta. fold m.
  change ((m ≫= ?k) w) with (match m w with (inl a, s') => k a s' | (inr e, s') => (inr e, s') end). rewrite Em.
  destruct r as [res|e]; [|done]. rewrite bind_throw_if. by destruct (rs_ok res).
Qed.

Lemma breached_loop_returns unique : forall out (w : W), exists m w', returns (breached_loop unique out) w m w' /\
  forall id n, m !! id = Some n -> out !! id = Some n \/ 0 < n /\ exists g, g ∈ unique /\ id ∈ g.2.
Proof.
  induction unique as [|[pw ids] unique IH]; intros out w; cbn [breached_loop].
  { exists out, w. split; [done|]. auto. }
  assert (Hc : exists out1 w1, returns (catch (n ← breachCount pw;
      mret (if 0 <? n then foldl (fun m id => <[id := n]> m) out ids else out)) (fun _ => mret out)) w out1 w1 /\
    forall id n, out1 !! id = Some n -> out !! id = Some n \/ 0 < n /\ id ∈ ids).
  { unfold returns, catch, mbind, M_bind. destruct (breachCount pw w) as [[n|e] w1]; eexists _, w1; (split; [reflexivity|]);
      [|by left]. intros id c. destruct (Z.ltb_spec 0 n) as [Hn|]; [|by left]. clear IH.
    revert out. induction ids as [|j ids IH] using rev_ind; intros out; [by left|].
    rewrite foldl_app. cbn [foldl]. destruct (decide (j = id)) as [->|Hj].
    - rewrite lookup_insert_eq. intros [= <-]. right. split; [done|]. apply elem_of_app. right. by apply list_elem_of_singleton.
    - rewrite lookup_insert_ne by done. intros [?|[? ?]]%IH; [by left|right]. split; [done|]. apply elem_of_app. by left. }
  destruct Hc as (out1 & w1 & Hc & Hsub). destruct (IH out1 w1) as (m & w' & Hr & Hm). exists m, w'. split.
  - unfold returns. run Hc. exact Hr.
  - intros id n [Hi|(Hn & g & Hg & Hin)]%Hm.
    + apply Hsub in Hi as [?|[Hn Hin]]; [by left|right]. split; [done|]. exists (pw, ids). split; [by left|done].
    + right. split; [done|]. exists g. split; [by right|done].
Qed.
End Facts.

(** ** Theorems *)
Section Theorems.
Context {N E : Type} `{Unicode} `{Sha1} `{Environment N}.
Abbreviation W := (world N E).

(** The strength heuristic: a password is accepted exactly when it is empty, or
    has at least 14 characters, or at least 10 of three of the four classes. *)
Theorem passwordWeakness_spec pw :
  passwordWeakness pw = None <->
  pw = [] \/ (14 <= length pw)%nat \/ (10 <= length pw)%nat /\ (3 <= classes pw)%nat.
Proof.
  unfold passwordWeakness. destruct (bool_decide_reflect (pw = [])) as [->|Hp]; [by split; auto|].
  destruct (Nat.ltb_spec (length pw) 10) as [Hl|Hl]; [split; [done|intros [?|[?|?]]; [done|lia..]]|].
  destruct (Nat.ltb_spec (length pw) 14) as [Hm|Hm]; [|split; auto]. cbn [andb].
  destruct (Nat.ltb_spec (classes pw) 3) as [Hc|Hc]; (split; [|auto]); [done|intros [?|[?|?]]; [done|lia..]|].
  intros _. right. right. by split.
Qed.

(** Reuse detection is exact: an id is reported exactly when it belongs to an
    item whose non-empty password at least two items of the list have, and no id
    is reported twice. *)
Theorem reusedItemIds_spec items :
  NoDup (reusedItemIds items) /\
  forall id, id ∈ reusedItemIds items <->
    exists it, it ∈ items /\ id_of it = id /\ password_of it <> [] /\
      (2 <= length (filter (fun jt => password_of jt = password_of it) items))%nat.
Proof. exact (reusedItemIds_items items). Qed.

(** C39: the k-anonymity claim: what the network sees of a breach check is decided by
    the first five hex characters of the SHA-1 alone; checking any two passwords
    that share them makes the same requests, and fails in the same cases. *)
Theorem breach_privacy pw pw' (w : W)
  (Hp : take 5 (sha1Hex pw) = take 5 (sha1Hex pw')) :
  (breachCount pw w).2 = (breachCount pw' w).2 /\
  forall e, (breachCount pw w).1 = inr e <-> (breachCount pw' w).1 = inr e.
Proof.
  destruct (breachCount_suffix pw w) as (f & w' & Hf). rewrite (Hf pw), (Hf pw') by done.
  split; [done|]. intros e. by destruct f.
Qed.

(** The count is the one of the line whose suffix is the password's, however
    many other lines precede it, with or without a carriage return at its end. *)
Theorem breachCount_finds pw (w : W) n1 before count after tail
  (Hres : handle (range_request (take 5 (sha1Hex pw)) [(js "Add-Padding", js "true")]) (net w)
     = (Some {| rs_status := 200;
                rs_text := join [c_lf] (before ++ (drop 5 (sha1Hex pw) ++ c_colon :: dec count ++ tail) :: after) |}, n1))
  (Hb : Forall (fun l => Forall (fun u => u <> c_lf) l /\ ~ drop 5 (sha1Hex pw) ++ [c_colon] `prefix_of` l) before)
  (Ha : Forall (fun l => Forall (fun u => u <> c_lf) l) after)
  (Hs : Forall (fun u => u <> c_lf /\ u <> c_colon) (drop 5 (sha1Hex pw)))
  (Ht : tail = [] \/ tail = [c_cr]) (Hc : 0 <= count) :
  returns (breachCount pw) w count (World (baseUrl w) n1 (rng w)).
Proof.
  unfold returns, breachCount. cbv zeta.
  eapply bind_returns; [apply catch_returns; unfold returns, fetch; rewrite Hres; reflexivity|cbv beta].
  rewrite bind_throw_if. cbn [rs_ok rs_status negb rs_text]. change (rs_ok _) with true. cbn [negb].
  set (suffix := drop 5 (sha1Hex pw)) in *. set (line := suffix ++ c_colon :: dec count ++ tail).
  assert (Htl : Forall (fun u => u <> c_lf) tail) by (destruct Ht as [->| ->]; repeat constructor; done).
  assert (Hl : Forall (fun u => u <> c_lf) line).
  { apply Forall_app. split; [eapply Forall_impl; [exact Hs|]; by intros u []|]. constructor; [done|].
    apply Forall_app. split; [|done]. eapply Forall_impl; [by apply dec_digits_ok|].
    intros u Hu ->. by compute in Hu. }
  rewrite split_on_joined; [|by destruct before|].
  - rewrite scan_lines_skip by (eapply Forall_impl; [exact Hb|]; by intros l []). cbn [scan_lines].
    unfold line. rewrite index_of_app by (eapply Forall_impl; [exact Hs|]; by intros u []).
    rewrite take_app_exact by done. unfold str_eqb. rewrite bool_decide_eq_true_2 by done.
    rewrite (cons_middle c_colon suffix), app_assoc, drop_app_exact by (rewrite length_app; cbn; lia).
    rewrite parse_int_dec; [done|done|]. by destruct Ht as [->| ->].
  - apply Forall_app. split; [eapply Forall_impl; [exact Hb|]; by intros l []|by constructor].
Qed.

(** The report never fails: errors of single checks are swallowed, and an item
    is only marked with a positive count, and only if it has a password. *)
Theorem breachedItemIds_total items (w : W) :
  exists m w', returns (breachedItemIds items) w m w' /\
    forall id n, m !! id = Some n -> 0 < n /\ exists it, it ∈ items /\ id_of it = id /\ password_of it <> [].
Proof.
  destruct (breached_loop_returns (byPassword items) ∅ w) as (m & w' & Hr & Hm). exists m, w'. split; [exact Hr|].
  intros id n [Hi|(Hn & [k ids] & Hg & Hin)]%Hm; [by rewrite lookup_empty in Hi|]. split; [done|].
  destruct (byPassword_spec items) as (Hnd & Hk & Hids).
  assert (Hkin : k ∈ (byPassword items).*1) by (apply list_elem_of_fmap; by exists (k, ids)).
  apply Hk in Hkin as [Hne _]. cbn in Hin. rewrite <- (groups_at _ _ _ Hnd Hg), Hids in Hin by done.
  apply list_elem_of_fmap in Hin as (it & -> & [Hit Hin]%list_elem_of_filter). subst k. by exists it.
Qed.
End Theorems.

(** ** Concrete inputs *)

(** A stand-in digest: the first twenty bytes, padded. *)
Definition prefix_digest (b : bytes) : bytes := take 20 (map (fun x => x mod 256) b ++ replicate 20 0).
Lemma prefix_digest_length b : length (prefix_digest b) = 20%nat.
Proof. unfold prefix_digest. rewrite length_take, length_app, length_replicate. lia. Qed.
Lemma prefix_digest_bytes b : bytes_ok (prefix_digest b).
Proof.
  apply Forall_take, Forall_app. split; [|by apply Forall_replicate; unfold byte_ok].
  apply Forall_map, Forall_forall. intros x _. cbn. unfold byte_ok. by apply Z.mod_pos_bound.
Qed.
#[local] Instance demo_sha1 : Sha1 :=
  {| sha1 := prefix_digest; sha1_length := prefix_digest_length; sha1_bytes := prefix_digest_bytes |}.

#[local] Existing Instance latin1_unicode.

Definition demo_suffix : jsstr := drop 5 (sha1Hex (js "password1")).
Definition demo_body : jsstr :=
  join [c_lf] ([js "0018A45C4D1DEF81644B54AB7F969B88D65:1" ++ [c_cr]] ++
    (demo_suffix ++ c_colon :: dec 2427158 ++ [c_cr]) :: [js "FFFF:3"]).
#[local] Instance demo_service : Environment unit := {|
  handle r n := (Some {| rs_status := 200; rs_text := demo_body |}, n);
  startAuthentication _ n := (inr LibraryError, n);
  startRegistration _ n := (inr LibraryError, n);
|}.
Definition demo_world : world unit Z := World [] tt 1.

Lemma breach_privacy_witness :
  (breachCount (js "password1") demo_world).2 = (breachCount (js "password2") demo_world).2 /\
  forall e, (breachCount (js "password1") demo_world).1 = inr e <-> (breachCount (js "password2") demo_world).1 = inr e.
Proof. apply (breach_privacy (js "password1") (js "password2") demo_world). vm_compute. reflexivity. Defined.

Lemma breachCount_finds_witness : returns (breachCount (js "password1")) demo_world 2427158 demo_world.
Proof.
  apply (breachCount_finds (js "password1") demo_world tt
    [js "0018A45C4D1DEF81644B54AB7F969B88D65:1" ++ [c_cr]] 2427158 [js "FFFF:3"] [c_cr]).
  - reflexivity.
  - constructor; [split; [decide_forall|]|constructor]. intros [k Hk]. revert Hk. vm_compute. discriminate.
  - constructor; [decide_forall|constructor].
  - decide_forall.
  - by right.
  - lia.
Defined.
