(* ===== verification/Views.v ===== *)
(** What the clients list: the ordering, searching and labelling of items in the
    extension popup (apps/extension/entrypoints/popup/App.tsx), the web vault
    (apps/web/src/VaultScreen.tsx) and the desktop app
    (apps/desktop/src/VaultScreen.tsx). *)
From Stdlib Require Import Sorted.
From S2P Require Import Prelude Text Numeral Json Effects Platform Items Api Session Protocol Health.

(** [String.prototype.localeCompare] of the engine's default locale: a total
    preorder, which the code relies on as a comparator. *)
Class Collation := {
  localeCompare : jsstr -> jsstr -> Z;
  compare_total : forall a b, localeCompare a b <= 0 \/ localeCompare b a <= 0;
  compare_trans : forall a b c, localeCompare a b <= 0 -> localeCompare b c <= 0 -> localeCompare a c <= 0;
}.

(** ** [Array.prototype.sort]: stable, by a comparator *)
Section Sort.
Context {A : Type}.

Fixpoint sort_insert (cmp : A -> A -> Z) (x : A) (l : list A) : list A :=
  match l with
  | [] => [x]
  | y :: l' => if cmp x y <=? 0 then x :: l else y :: sort_insert cmp x l'
  end.
Definition stable_sort (cmp : A -> A -> Z) (l : list A) : list A := foldr (sort_insert cmp) [] l.

(** The ranks from [n] down, each in the original order. *)
Fixpoint by_rank (rank : A -> nat) (n : nat) (l : list A) : list A :=
  filter (fun x => rank x = n) l ++ match n with O => [] | S m => by_rank rank m l end.
End Sort.

(** [Number(b)] *)
Definition bool_num (b : bool) : Z := if b then 1 else 0.
Definition or_num (a b : Z) : Z := if a =? 0 then b else a.

(** [a || b] on strings. *)
Definition or_text (a b : jsstr) : jsstr := match a with [] => b | _ => a end.

(** The ending after [n] of something. *)
Definition plural (n : Z) : jsstr := if n =? 1 then [] else js "s".

Definition bullet : Z := 8226.

(** A text member of a nested object of an item. *)
Definition nested_at (o k : jsstr) (it : obj) : jsstr :=
  match obj_get o it with Some (JObj m) => text_at k m | _ => [] end.

Definition ends_of (n : nat) (s : jsstr) : jsstr := drop (length s - n) s.

(** The subtitle both clients compute, up to the cut of a note and the default. *)
Definition subtitle (cut : nat) (fallback : jsstr) (it : obj) : jsstr :=
  let type := text_at (js "type") it in
  if str_eqb type (js "note") then
    or_text (take cut (default [] (head (split_on c_lf (text_at (js "notes") it))))) (js "secure note")
  else if str_eqb type (js "card") then
    let digits := List.filter is_digit (nested_at (js "card") (js "number") it) in
    match digits with
    | [] => js "card"
    | _ => replicate 4 bullet ++ [c_space] ++ ends_of 4 digits
    end
  else if str_eqb type (js "identity") then
    or_text (or_text (nested_at (js "identity") (js "email") it) (nested_at (js "identity") (js "fullName") it))
            (js "identity")
  else or_text (or_text (text_at (js "username") it) (text_at (js "url") it)) fallback.

Definition itemSub (it : obj) : jsstr := subtitle 50 [] it.
Definition itemSubtitle (it : obj) : jsstr := subtitle 80 (js "no details") it.

Inductive list_filter := FAll | FFavorites | FFolder (folder : jsstr).

Section Views.
Context `{Unicode} `{UrlParser}.

(** The popup's own [safeHost]. *)
Definition popupHost (url : jsstr) : jsstr :=
  match url with
  | [] => []
  | _ => match parse_url (if includes (js "://") url then url else js "https://" ++ url) with
         | Some u => strip_www (hostname u)
         | None => []
         end
  end.

(** [h = (h * 31 + ch.charCodeAt(0)) >>> 0] over the code points. *)
Definition avatar_hash (key : jsstr) : Z :=
  foldl (fun h ch => (h * 31 + default 0 (head ch)) mod 2 ^ 32) 0 (code_points key).

Definition avatar_key (it : obj) : jsstr :=
  to_lower (or_text (or_text (popupHost (text_at (js "url") it)) (text_at (js "name") it)) (js "?")).
Definition avatar_initial (it : obj) : jsstr :=
  or_text (to_upper (take 1 (trim (or_text (or_text (text_at (js "name") it) (popupHost (text_at (js "url") it))) (js "?")))))
          (js "?").
Definition avatar_hue (it : obj) : Z := avatar_hash (avatar_key it) mod 360.

(** Items of the tab's site first, then favorites, then vault order. *)
Definition matches (tabHost : jsstr) (it : obj) : bool :=
  match tabHost with [] => false | _ => hostMatches (text_at (js "url") it) tabHost end.
Definition sorted (tabHost : jsstr) (items : list obj) : list obj :=
  stable_sort (fun a b => or_num (bool_num (matches tabHost b) - bool_num (matches tabHost a))
                                 (bool_num (favorite_of b) - bool_num (favorite_of a))) items.

Definition found (query : jsstr) (it : obj) : bool :=
  match query with
  | [] => true
  | _ => includes (to_lower query) (to_lower (text_at (js "name") it))
         || includes (to_lower query) (to_lower (text_at (js "username") it))
         || includes (to_lower query) (to_lower (text_at (js "url") it))
  end.
Definition popup_list (tabHost query : jsstr) (items : list obj) : list obj :=
  List.filter (found query) (sorted tabHost items).

(** ** The web vault *)

Definition searchHaystack (it : obj) : jsstr :=
  to_lower (join [c_lf] [text_at (js "name") it; text_at (js "username") it; text_at (js "url") it;
    text_at (js "folder") it; nested_at (js "identity") (js "fullName") it;
    nested_at (js "identity") (js "email") it; nested_at (js "card") (js "cardholder") it]).

Definition inFilter (f : list_filter) (it : obj) : bool :=
  match f with
  | FAll => true
  | FFavorites => favorite_of it
  | FFolder folder => str_eqb (text_at (js "folder") it) folder
  end.

Definition vault_list (f : list_filter) (query : jsstr) (items : list obj) : list obj :=
  stable_sort (fun a b => bool_num (favorite_of b) - bool_num (favorite_of a))
    (List.filter (fun it => inFilter f it
       && match query with [] => true | _ => includes (to_lower query) (searchHaystack it) end) items).

(** [[...new Set(items.map((i) => i.folder).filter(Boolean))].sort(localeCompare)] *)
Definition folders `{Collation} (items : list obj) : list jsstr :=
  stable_sort localeCompare (foldl set_add []
    (List.filter (fun f => negb (bool_decide (f = []))) (map (text_at (js "folder")) items))).

(** ** The desktop app *)

Definition name_or_url (it : obj) : jsstr := or_text (text_at (js "name") it) (text_at (js "url") it).
Definition desktop_match (q : jsstr) (it : obj) : bool :=
  bool_decide (q = []) || existsb (fun k => includes q (to_lower (text_at k it))) [js "name"; js "username"; js "url"].
Definition desktop_list `{Collation} (query : jsstr) (items : list obj) : list obj :=
  stable_sort (fun a b => localeCompare (name_or_url a) (name_or_url b)) (List.filter (desktop_match (to_lower query)) items).

(** [/^https?:\/\//i.test(url) ? url : `https://${url}`] *)
Definition normalizeUrl (url : jsstr) : jsstr :=
  if starts_with (js "http://") (map ascii_lower url) || starts_with (js "https://") (map ascii_lower url)
  then url else js "https://" ++ url.
End Views.

(** ** The stable sort *)
Section Ranks.
Context {A : Type} (rank : A -> nat) (cmp : A -> A -> Z).
Context (Hcmp : forall a b, cmp a b <= 0 <-> (rank b <= rank a)%nat).

Lemma by_rank_le n l x : x ∈ by_rank rank n l -> (rank x <= n)%nat.
Proof.
  induction n as [|n IH]; cbn [by_rank]; intros [[Hx _]%list_elem_of_filter|Hx]%elem_of_app; try lia.
  - by apply not_elem_of_nil in Hx.
  - apply IH in Hx. lia.
Qed.

Lemma by_rank_skip n x l : (n < rank x)%nat -> by_rank rank n (x :: l) = by_rank rank n l.
Proof.
  induction n as [|n IH]; intros Hn; cbn [by_rank]; rewrite filter_cons_False by lia; [done|].
  by rewrite IH by lia.
Qed.

Lemma insert_first x l : Forall (fun y => (rank y <= rank x)%nat) l -> sort_insert cmp x l = x :: l.
Proof.
  intros Hl. destruct Hl as [|y l Hy _]; [done|]. cbn. by rewrite (proj2 (Z.leb_le _ _)) by by apply Hcmp.
Qed.

Lemma insert_after x pre l : Forall (fun y => (rank x < rank y)%nat) pre ->
  sort_insert cmp x (pre ++ l) = pre ++ sort_insert cmp x l.
Proof.
  induction 1 as [|y pre Hy _ IH]; [done|]. cbn. destruct (Z.leb_spec (cmp x y) 0) as [Hc|Hc]; [|by rewrite IH].
  apply Hcmp in Hc. lia.
Qed.

Lemma insert_by_rank n x l : (rank x <= n)%nat ->
  sort_insert cmp x (by_rank rank n l) = by_rank rank n (x :: l).
Proof.
  induction n as [|n IH]; intros Hx; cbn [by_rank].
  - rewrite filter_cons_True by lia. apply insert_first. apply Forall_app. split; [|constructor].
    apply Forall_forall. intros y [Hy _]%list_elem_of_filter. cbn in Hy. lia.
  - destruct (decide (rank x = S n)) as [E|E].
    + rewrite filter_cons_True by done. rewrite by_rank_skip by lia. apply insert_first, Forall_app. split.
      * apply Forall_forall. intros y [Hy _]%list_elem_of_filter. cbn in Hy. lia.
      * apply Forall_forall. intros y Hy%by_rank_le. lia.
    + rewrite filter_cons_False by done. rewrite insert_after; [by rewrite IH by lia|].
      apply Forall_forall. intros y [Hy _]%list_elem_of_filter. cbn in Hy. lia.
Qed.

Lemma sort_by_rank n l : Forall (fun x => (rank x <= n)%nat) l -> stable_sort cmp l = by_rank rank n l.
Proof.
  induction 1 as [|x l Hx _ IH]; [by induction n as [|n IH]; [|cbn [by_rank]; rewrite <- IH]|].
  cbn [stable_sort foldr]. fold (stable_sort cmp l). by rewrite IH, insert_by_rank.
Qed.
End Ranks.

(** Sorting by any total preorder gives the same elements in its order. *)
Section Order.
Context {A : Type} (cmp : A -> A -> Z).
Context (cmp_total : forall a b, cmp a b <= 0 \/ cmp b a <= 0).
Context (cmp_trans : forall a b c, cmp a b <= 0 -> cmp b c <= 0 -> cmp a c <= 0).
Abbreviation le := (fun a b => cmp a b <= 0).

Lemma insert_permutation x l : sort_insert cmp x l ≡ₚ x :: l.
Proof.
  induction l as [|y l IH]; [done|]. cbn. destruct (cmp x y <=? 0); [done|]. rewrite IH. apply Permutation_swap.
Qed.

Lemma sort_permutation l : stable_sort cmp l ≡ₚ l.
Proof. induction l as [|x l IH]; [done|]. cbn. fold (stable_sort cmp l). by rewrite insert_permutation, IH. Qed.

Lemma insert_sorted x l : StronglySorted le l -> StronglySorted le (sort_insert cmp x l).
Proof.
  induction 1 as [|y l Hl IH Hy]; cbn; [repeat constructor|]. destruct (Z.leb_spec (cmp x y) 0) as [Hxy|Hxy].
  - constructor; [by constructor|]. constructor; [done|]. eapply Forall_impl; [exact Hy|]. intros z. by apply cmp_trans.
  - constructor; [done|]. rewrite insert_permutation. constructor; [|done]. by destruct (cmp_total x y); [lia|].
Qed.

Lemma sort_sorted l : StronglySorted le (stable_sort cmp l).
Proof. induction l as [|x l IH]; [constructor|]. by apply insert_sorted. Qed.
End Order.

(** ** Theorems *)
Section Theorems.
Context `{Unicode} `{UrlParser}.

Definition popup_rank (tabHost : jsstr) (it : obj) : nat :=
  match matches tabHost it, favorite_of it with
  | true, true => 3 | true, false => 2 | false, true => 1 | false, false => 0
  end.

(** The popup lists the items of the page's site first, within them and within
    the rest the favorites first, and otherwise keeps the order of the vault; the
    search only removes items. *)
Theorem popup_list_order tabHost query items :
  popup_list tabHost query items =
    List.filter (found query)
      (filter (fun it => popup_rank tabHost it = 3%nat) items ++ filter (fun it => popup_rank tabHost it = 2%nat) items ++
       filter (fun it => popup_rank tabHost it = 1%nat) items ++ filter (fun it => popup_rank tabHost it = 0%nat) items).
Proof.
  unfold popup_list, sorted. f_equal. rewrite (sort_by_rank (popup_rank tabHost) _) with (n := 3%nat).
  - cbn [by_rank]. by rewrite app_nil_r.
  - intros a b. unfold popup_rank. destruct (matches tabHost a), (matches tabHost b), (favorite_of a), (favorite_of b);
      unfold or_num, bool_num; repeat zcase; split; lia.
  - apply Forall_forall. intros it _. unfold popup_rank. destruct (matches tabHost it), (favorite_of it); lia.
Qed.

(** The web vault's list shows exactly the items of the chosen filter that match
    the search, favorites first, each group in vault order. *)
Theorem vault_list_order f query items :
  let shown := List.filter (fun it => inFilter f it
       && match query with [] => true | _ => includes (to_lower query) (searchHaystack it) end) items in
  vault_list f query items =
    filter (fun it => favorite_of it = true) shown ++ filter (fun it => favorite_of it = false) shown.
Proof.
  intros shown. unfold vault_list. fold shown.
  set (rank it := if favorite_of it then 1%nat else 0%nat).
  rewrite (sort_by_rank rank _) with (n := 1%nat).
  - cbn [by_rank]. rewrite app_nil_r. unfold rank. f_equal; apply list_filter_iff; intros it; by destruct (favorite_of it).
  - intros a b. unfold rank. destruct (favorite_of a), (favorite_of b); cbn; split; lia.
  - apply Forall_forall. intros it _. unfold rank. destruct (favorite_of it); lia.
Qed.

(** The desktop app's list shows exactly the items the search matches, in the
    order of their names, or of their addresses where there is no name. *)
Theorem desktop_list_order `{Collation} query items :
  desktop_list query items ≡ₚ List.filter (desktop_match (to_lower query)) items /\
  StronglySorted (fun a b => localeCompare (name_or_url a) (name_or_url b) <= 0) (desktop_list query items).
Proof.
  split; [apply sort_permutation|]. apply sort_sorted; [intros a b; apply compare_total|intros a b c; apply compare_trans].
Qed.

(** The sidebar names each folder in use once, in order, and no other. *)
Theorem folders_exact `{Collation} items :
  NoDup (folders items) /\ StronglySorted (fun a b => localeCompare a b <= 0) (folders items) /\
  forall f, f ∈ folders items <-> f <> [] /\ exists it, it ∈ items /\ text_at (js "folder") it = f.
Proof.
  split_and!.
  - unfold folders. rewrite sort_permutation. apply set_add_NoDup. constructor.
  - apply sort_sorted; [apply compare_total|apply compare_trans].
  - intros f. unfold folders. rewrite sort_permutation, set_add_all.
    rewrite (list_elem_of_In (List.filter _ _)), filter_In, <- list_elem_of_In, negb_true_iff, bool_decide_eq_false, list_elem_of_fmap. split.
    + intros [?%not_elem_of_nil|[(it & -> & Hi) Hf]]; [done|]. split; [done|]. by exists it.
    + intros [Hf (it & Hi & <-)]. right. split; [|done]. by exists it.
Qed.

(** Opening an item's address always navigates to the web: the link of an item
    without a scheme gets https, and one with http or https in any letter case is
    kept. *)
Theorem normalizeUrl_web url :
  (starts_with (js "http://") (map ascii_lower (normalizeUrl url)) = true \/
   starts_with (js "https://") (map ascii_lower (normalizeUrl url)) = true) /\
  normalizeUrl (normalizeUrl url) = normalizeUrl url.
Proof.
  unfold normalizeUrl. destruct (starts_with (js "http://") (map ascii_lower url)) eqn:E1;
    [cbn [orb]; by rewrite E1; auto|].
  destruct (starts_with (js "https://") (map ascii_lower url)) eqn:E2; cbn [orb]; [by rewrite E1, E2; auto|].
  assert (E3 : starts_with (js "https://") (map ascii_lower (js "https://" ++ url)) = true).
  { rewrite map_app. apply starts_with_spec. by eexists. }
  split; [by right|]. by rewrite E3, orb_true_r.
Qed.
End Theorems.
