(* ===== verification/Popup.v ===== *)
(** apps/extension/entrypoints/popup/App.tsx: the popup's state and its actions,
    over the background worker it talks to by messages. *)
From S2P Require Import Prelude Text Numeral Json JsonFacts Encoding Effects Platform Primitives.
From S2P Require Import Kdf Account Totp Items Api Session Process Protocol Background Views.

(** The React state of the Vault component; [pp_closed] is [props.onLock]. *)
Record popup := {
  pp_closed : bool;
  pp_items : list obj;
  pp_error : option jsstr;
  pp_toast : option jsstr;
  pp_editing : option obj;
  pp_fromPending : bool;
  pp_pending : option PendingSave;
}.

Definition stripId (it : obj) : obj := obj_delete (js "id") it.

(** [{ id: "", ...fields }] *)
Definition with_blank_id (fields : obj) : obj := with_member (js "id") (str []) fields.

Section Popup.
Context {N E : Type} `{Unicode} `{UrlParser} `{WebCrypto} `{Environment N} `{Entropy E} `{Clock N} `{EngineText}.
Abbreviation X := (extension N E).
Abbreviation S := (popup * extension N E)%type.

(** A message to the worker, answered before anything else happens. *)
Definition sendBackground (msg : BgRequest) : M S Response := fun s =>
  let '(r, x) := serve msg s.2 in (r, (s.1, x)).
Definition update (f : popup -> popup) : M S unit := modify (fun s => (f s.1, s.2)).
Definition state : M S popup := gets fst.

Definition setItems l (p : popup) : popup :=
  {| pp_closed := pp_closed p; pp_items := l; pp_error := pp_error p; pp_toast := pp_toast p;
     pp_editing := pp_editing p; pp_fromPending := pp_fromPending p; pp_pending := pp_pending p |}.
Definition setError e (p : popup) : popup :=
  {| pp_closed := pp_closed p; pp_items := pp_items p; pp_error := e; pp_toast := pp_toast p;
     pp_editing := pp_editing p; pp_fromPending := pp_fromPending p; pp_pending := pp_pending p |}.
Definition flash t (p : popup) : popup :=
  {| pp_closed := pp_closed p; pp_items := pp_items p; pp_error := pp_error p; pp_toast := Some t;
     pp_editing := pp_editing p; pp_fromPending := pp_fromPending p; pp_pending := pp_pending p |}.
Definition setEditing e (p : popup) : popup :=
  {| pp_closed := pp_closed p; pp_items := pp_items p; pp_error := pp_error p; pp_toast := pp_toast p;
     pp_editing := e; pp_fromPending := pp_fromPending p; pp_pending := pp_pending p |}.
Definition setFromPending b (p : popup) : popup :=
  {| pp_closed := pp_closed p; pp_items := pp_items p; pp_error := pp_error p; pp_toast := pp_toast p;
     pp_editing := pp_editing p; pp_fromPending := b; pp_pending := pp_pending p |}.
Definition setPending q (p : popup) : popup :=
  {| pp_closed := pp_closed p; pp_items := pp_items p; pp_error := pp_error p; pp_toast := pp_toast p;
     pp_editing := pp_editing p; pp_fromPending := pp_fromPending p; pp_pending := q |}.
Definition onLock (p : popup) : popup :=
  {| pp_closed := true; pp_items := pp_items p; pp_error := pp_error p; pp_toast := pp_toast p;
     pp_editing := pp_editing p; pp_fromPending := pp_fromPending p; pp_pending := pp_pending p |}.

(** [if (res.locked) ...], [if (res.error) ...] *)
Definition is_true (b : option bool) : bool := default false b.
Definition nonblank (e : option jsstr) : option jsstr :=
  match e with Some [] => None | _ => e end.

Definition reload : M S unit :=
  res ← sendBackground msg_getItems;
  match res with
  | RItems r =>
      if is_true (it_locked r) then update onLock
      else match nonblank (it_error r) with
           | Some e => update (setError (Some e))
           | None => update (setItems (default [] (it_items r)))
           end
  | _ => raise JsTypeError      (* the worker answers getItems with an ItemsResponse *)
  end.

(** The effect that runs when the popup opens. *)
Definition opened : M S unit :=
  _ ← reload;
  res ← sendBackground msg_getPending;
  match res with RPending r => update (setPending (pending r)) | _ => raise JsTypeError end.

Definition copyTotp (it : obj) (nowMs : Z) : M S (option jsstr) :=
  r ← totpFromString (text_at (js "totp") it) nowMs;
  match r with
  | None => _ ← update (flash (js "Invalid 2FA secret")); mret None
  | Some (code, secondsLeft, _) =>
      _ ← update (flash (js "Copied 2FA code (" ++ dec secondsLeft ++ js "s left)")); mret (Some code)
  end.

Definition lock : M S unit := _ ← sendBackground msg_lock; update onLock.

Definition startAdd : M S unit :=
  update (fun p => setEditing (Some (with_blank_id (blankFields (js "login")))) (setFromPending false p)).

Definition review_item (p : PendingSave) : obj :=
  obj_assign (with_blank_id (blankFields (js "login")))
    [(js "name", JStr (or_text (popupHost (pe_url p)) (js "New login"))); (js "username", JStr (pe_username p));
     (js "password", JStr (pe_password p)); (js "url", JStr (pe_url p))].

Definition reviewPending : M S unit :=
  p ← state;
  match pp_pending p with
  | None => mret tt
  | Some q => update (fun p => setEditing (Some (review_item q)) (setFromPending true p))
  end.

Definition dismissPending : M S unit :=
  _ ← update (setPending None);
  _ ← sendBackground msg_dismissPending;
  mret tt.

Definition saveEditing (item : obj) : M S (option jsstr) :=
  res ← (match text_at (js "id") item with
         | [] => sendBackground (msg_addItem (stripId item))
         | _ => sendBackground (msg_updateItem item)
         end);
  match res with
  | RMutation r =>
      if is_true (mu_locked r) then _ ← update onLock; mret None
      else match nonblank (mu_error r) with
           | Some e => mret (Some e)
           | None =>
               p ← state;
               _ ← (if pp_fromPending p then dismissPending else mret tt);
               _ ← update (fun p => setFromPending false (setEditing None p));
               _ ← reload;
               _ ← update (flash (match text_at (js "id") item with [] => js "Added" | _ => js "Saved" end));
               mret None
           end
  | _ => raise JsTypeError
  end.

Definition deleteEditing (item : obj) : M S (option jsstr) :=
  res ← sendBackground (msg_deleteItem (text_at (js "id") item));
  match res with
  | RMutation r =>
      if is_true (mu_locked r) then _ ← update onLock; mret None
      else match nonblank (mu_error r) with
           | Some e => mret (Some e)
           | None =>
               _ ← update (setEditing None);
               _ ← reload;
               _ ← update (flash (js "Deleted"));
               mret None
           end
  | _ => raise JsTypeError
  end.

(** The Editor's save: its own check, then [onSave]; the result is its error. *)
Definition editorSave (item : obj) : M S (option jsstr) :=
  if nameless item then mret (Some editor_error) else saveEditing item.

(** The Unlock form's submit: [inl tt] is [onUnlocked]. *)
Inductive unlock_view := Unlocked | AskFactor (methods : jsv) | UnlockError (e : jsstr).
Definition submitUnlock (identifier password : jsstr) (totp : option jsstr) : M X unlock_view :=
  catch
    (res ← serve (msg_unlock identifier password totp);
     match res with
     | RUnlock r =>
         mret (if is_true (un_ok r) then Unlocked
               else if is_true (un_twoFactorRequired r) then AskFactor (Some (coalesce (un_methods r) (JArr [])))
               else UnlockError (default (js "Unlock failed.") (nonblank (un_error r))))
     | _ => raise JsTypeError
     end)
    (fun _ => mret (UnlockError (js "Unlock failed."))).
End Popup.

(** ** Laws *)
Section Laws.
Context {N E : Type} `{Unicode} `{UrlParser} `{WebCrypto} `{Environment N} `{Entropy E} `{Clock N} `{EngineText}.
Abbreviation S := (popup * extension N E)%type.

(** What reloading leaves alone. *)
Definition same_form (p q : popup) : Prop :=
  pp_editing q = pp_editing p /\ pp_fromPending q = pp_fromPending p /\ pp_pending q = pp_pending p.

Lemma reload_returns (s : S) : exists s', returns reload s tt s' /\ same_form s.1 s'.1 /\
  pending_slot s'.2 = pending_slot s.2.
Proof.
  destruct s as [p x]. destruct (serve_total msg_getItems x) as (r & y & Hr & Ht & Hp). destruct r; try done.
  assert (Hs : returns (sendBackground msg_getItems) (p, x) (RItems r) (p, y)).
  { unfold returns, sendBackground. cbn [fst snd]. by rewrite Hr. }
  unfold returns, reload. destruct (is_true (it_locked r)) eqn:El.
  { eexists. split; [run Hs; cbv iota; rewrite El; reflexivity|]. by split_and!. }
  destruct (nonblank (it_error r)) as [e|] eqn:Ee;
    (eexists; split; [run Hs; cbv iota; rewrite El, Ee; reflexivity|]; by split_and!).
Qed.

Lemma send_mutation msg (s : S) : (forall r, answers_type msg r -> exists m, r = RMutation m) ->
  match msg with msg_captureLogin _ _ _ | msg_getPending | msg_dismissPending => False | _ => True end ->
  exists m y, returns (sendBackground msg) s (RMutation m) (s.1, y) /\ pending_slot y = pending_slot s.2.
Proof.
  intros Hm Hk. destruct (serve_total msg s.2) as (r & y & Hr & Ht & Hp). destruct (Hm r Ht) as [m ->].
  exists m, y. split; [unfold returns, sendBackground; by rewrite Hr|]. by destruct msg.
Qed.

Lemma dismiss_returns (s : S) : exists s', returns dismissPending s tt s' /\ pp_pending s'.1 = None /\
  pp_editing s'.1 = pp_editing s.1 /\ pending_slot s'.2 = None.
Proof. destruct s as [p x]. eexists. split; [reflexivity|]. done. Qed.
End Laws.

(** ** Theorems *)
Section Theorems.
Context {N E : Type} `{Unicode} `{UrlParser} `{WebCrypto} `{Environment N} `{Entropy E} `{Clock N} `{EngineText}.
Abbreviation S := (popup * extension N E)%type.

(** Saving in the popup never loses what was typed: it always completes; with
    an error the form stays exactly as it was, captured login included; a locked
    worker closes the vault view; otherwise the form is closed and a login being
    saved from a capture is no longer offered, neither here nor by the worker. *)
Theorem saveEditing_outcomes item (s : S) :
  exists r s', returns (saveEditing item) s r s' /\
    match r with
    | Some e => s'.1 = s.1 /\ e <> []
    | None =>
        s'.1 = onLock s.1 \/
        pp_editing s'.1 = None /\ pp_fromPending s'.1 = false /\
        (if pp_fromPending s.1 then pp_pending s'.1 = None /\ pending_slot s'.2 = None
         else pp_pending s'.1 = pp_pending s.1)
    end.
Proof.
  set (msg := match text_at (js "id") item with [] => msg_addItem (stripId item) | _ => msg_updateItem item end).
  destruct (send_mutation msg s) as (m & y & Hm & Hp).
  { unfold msg. destruct (text_at (js "id") item); intros []; try done; intros _; by eexists. }
  { unfold msg. by destruct (text_at (js "id") item). }
  assert (Hsend : returns (match text_at (js "id") item with
         | [] => sendBackground (msg_addItem (stripId item))
         | _ => sendBackground (msg_updateItem item)
         end) s (RMutation m) (s.1, y)).
  { unfold msg in Hm. by destruct (text_at (js "id") item). }
  unfold returns, saveEditing. destruct (is_true (mu_locked m)) eqn:El.
  { eexists _, _. split; [run Hsend; cbv iota; rewrite El; reflexivity|]. by left. }
  destruct (nonblank (mu_error m)) as [e|] eqn:Ee.
  { eexists _, _. split; [run Hsend; cbv iota; rewrite El, Ee; reflexivity|]. split; [done|].
    intros ->. unfold nonblank in Ee. by destruct (mu_error m) as [[|]|]. }
  assert (Hd : exists s1 : S, returns (if pp_fromPending s.1 then dismissPending else mret tt) (s.1, y) tt s1 /\
    if pp_fromPending s.1 then pp_pending s1.1 = None /\ pending_slot s1.2 = None else pp_pending s1.1 = pp_pending s.1).
  { destruct (pp_fromPending s.1); [|by eexists].
    destruct (dismiss_returns (s.1, y)) as (s1 & Hr & Hq1 & _ & Hq2). by exists s1. }
  destruct Hd as (s1 & Hd & Hs1).
  set (s2 := (setFromPending false (setEditing None s1.1), s1.2) : S).
  destruct (reload_returns s2) as (s3 & Hl & (He1 & He2 & He3) & He4).
  eexists None, _. split.
  { run Hsend. cbv iota. rewrite El, Ee. eapply bind_returns; [reflexivity|cbv beta]. run Hd.
    eapply (bind_returns _ _ _ tt s2); [reflexivity|cbv beta]. run Hl. reflexivity. }
  right. cbn. split_and!; [done|done|]. destruct (pp_fromPending s.1); [|by rewrite He3].
  split; [by rewrite He3; apply Hs1|by rewrite He4; apply Hs1].
Qed.

(** Unlocking from the popup has three outcomes and no other: the vault opens
    exactly when the login succeeded, a second factor is asked for exactly when
    the login asked for it, and everything else is a message that is never
    empty. *)
Theorem submitUnlock_outcomes i pw code (x : extension N E) :
  exists v x', returns (submitUnlock i pw code) x v x' /\
    match loginAccount i pw code (world_of x) with
    | (inl sess, w) => v = Unlocked /\ x' = touched (with_world x w) sess
    | (inr (TwoFactorRequiredError m), w) => v = AskFactor (Some (coalesce m (JArr []))) /\ x' = with_world x w
    | (inr _, w) => x' = with_world x w /\ exists t, v = UnlockError t /\ t <> []
    end.
Proof.
  assert (Hu := serve_unlock i pw code x). unfold returns, submitUnlock, catch.
  unfold mbind, M_bind. rewrite Hu. destruct (loginAccount i pw code (world_of x)) as [[sess|e] w];
    [by eexists _, _|].
  destruct e; eexists _, _; (split; [reflexivity|]); try done; (split; [done|]); eexists; (split; [reflexivity|]);
    cbn; try (destruct (engine_message _); done). by destruct msg.
Qed.
End Theorems.
