(* ===== verification/Transfer.v ===== *)
(** apps/web/src/ImportExport.tsx: the import and export dialog as a state machine
    over files, passphrases and the API client. *)
From S2P Require Import Prelude Text Numeral Json JsonFacts Encoding JsonText Effects Platform Primitives.
From S2P Require Import Kdf Account Backup Objects Items Portable Api Session Background Views.

Record download_file := { df_name : jsstr; df_text : jsstr; df_mime : jsstr }.

Inductive export_kind := PlainJSON | PlainCSV.

(** The React state of the component, and the files handed to the browser. *)
Record transfer := {
  exportPass : jsstr;
  exportErr : option jsstr;
  encrypted : option jsstr;
  importPass : jsstr;
  parsed : option (list obj);
  importErr : option jsstr;
  result : option jsstr;
  progress : option (Z * Z);
  downloads : list download_file;
  imported : nat;                    (* calls of [props.onImported] *)
}.

Definition json_mime := js "application/json".
Definition short_passphrase := js "Use a backup passphrase of at least 8 characters.".

Section Transfer.
Context {N E : Type} `{Unicode} `{WebCrypto} `{Environment N} `{Entropy E} `{EngineText}.
Abbreviation W := (world N E).
Abbreviation S := (transfer * world N E)%type.
(* The component's props, and the date [today()] formats. *)
Context (session : Session) (items : list obj) (today : jsstr).

Definition upd (f : transfer -> transfer) : M S unit := modify (fun s => (f s.1, s.2)).
Definition current : M S transfer := gets fst.

(** A call outside the component: cryptography or the API. *)
Definition outside {A} (m : M W A) : M S A := fun s => let '(r, w) := m s.2 in (r, (s.1, w)).

Definition set_export pass err t :=
  {| exportPass := pass; exportErr := err; encrypted := encrypted t; importPass := importPass t;
     parsed := parsed t; importErr := importErr t; result := result t; progress := progress t;
     downloads := downloads t; imported := imported t |}.
Definition set_import enc pass par err t :=
  {| exportPass := exportPass t; exportErr := exportErr t; encrypted := enc; importPass := pass;
     parsed := par; importErr := err; result := result t; progress := progress t;
     downloads := downloads t; imported := imported t |}.
Definition set_result par res prog t :=
  {| exportPass := exportPass t; exportErr := exportErr t; encrypted := encrypted t; importPass := importPass t;
     parsed := par; importErr := importErr t; result := res; progress := prog;
     downloads := downloads t; imported := imported t |}.
Definition add_download f t :=
  {| exportPass := exportPass t; exportErr := exportErr t; encrypted := encrypted t; importPass := importPass t;
     parsed := parsed t; importErr := importErr t; result := result t; progress := progress t;
     downloads := downloads t ++ [f]; imported := imported t |}.
Definition count_import t :=
  {| exportPass := exportPass t; exportErr := exportErr t; encrypted := encrypted t; importPass := importPass t;
     parsed := parsed t; importErr := importErr t; result := result t; progress := progress t;
     downloads := downloads t; imported := Datatypes.S (imported t) |}.

Definition download (name text mime : jsstr) : M S unit :=
  upd (add_download {| df_name := name; df_text := text; df_mime := mime |}).

Definition resetImport : M S unit :=
  upd (fun t => set_result None None None (set_import None [] None None t)).

Definition exportPlain (kind : export_kind) : M S unit :=
  text ← of_option JsTypeError (match kind with PlainCSV => toCSV items | PlainJSON => toPlaintextJSON items end);
  match kind with
  | PlainCSV => download (js "passwd-export-" ++ today ++ js ".csv") text (js "text/csv")
  | PlainJSON => download (js "passwd-export-" ++ today ++ js ".json") text json_mime
  end.

Definition exportEncrypted : M S bool :=
  _ ← upd (fun t => set_export (exportPass t) None t);
  t ← current;
  if (length (exportPass t) <? 8)%nat then
    _ ← upd (fun t => set_export (exportPass t) (Some short_passphrase) t); mret false
  else
    plain ← of_option JsTypeError (toPlaintextJSON items);
    text ← outside (encryptBackup plain (exportPass t) (Some DEFAULT_KDF));
    _ ← download (js "passwd-backup-" ++ today ++ js ".json") text json_mime;
    _ ← upd (fun t => set_export [] (exportErr t) t);
    mret true.

Definition tryParse (text : jsstr) : M S unit :=
  match parseVaultImport text with
  | inl l => upd (fun t => set_import (encrypted t) (importPass t) (Some l) None t)
  | inr e => upd (fun t => set_import (encrypted t) (importPass t) None (Some (message e)) t)
  end.

(** [None]: the file dialog was dismissed. *)
Definition onFile (file : option jsstr) : M S unit :=
  _ ← resetImport;
  match file with
  | None => mret tt
  | Some text =>
      if isBackupEnvelope text
      then upd (fun t => set_import (Some text) (importPass t) (parsed t) (importErr t) t)
      else tryParse text
  end.

Definition typePassphrase (pass : jsstr) : M S unit :=
  upd (fun t => set_import (encrypted t) pass (parsed t) (importErr t) t).

Definition decrypt : M S unit :=
  t ← current;
  match encrypted t with
  | None | Some [] => mret tt
  | Some envelope =>
      _ ← upd (fun t => set_import (encrypted t) (importPass t) (parsed t) None t);
      catch (text ← outside (decryptBackup envelope (importPass t)); tryParse text)
            (fun e => upd (fun t => set_import (encrypted t) (importPass t) (parsed t) (Some (message e)) t))
  end.

Definition import_summary (added failed : Z) : jsstr :=
  js "Imported " ++ dec added ++ js " item" ++ plural added ++
  (if failed =? 0 then [] else js ", " ++ dec failed ++ js " failed") ++ js ".".

(** The progress callback only sets state, so the loop runs outside and the last
    progress is what it leaves; it is cleared at once. *)
Definition runImport : M S unit :=
  t ← current;
  match parsed t with
  | None => mret tt
  | Some l =>
      r ← outside (importItems session l (fun _ _ => mret tt));
      _ ← upd (set_result None (Some (import_summary r.1 r.2)) None);
      upd count_import
  end.

(** ** Laws *)

Lemma dialog_returns {A} (m : M W A) (t : transfer) w a w' :
  returns m w a w' -> returns (outside m) (t, w) a (t, w').
Proof. unfold returns, outside. cbn. by intros ->. Qed.

Lemma tryParse_outcomes text (t : transfer) (w : W) : exists t', returns (tryParse text) (t, w) tt (t', w) /\
  encrypted t' = encrypted t /\
  ((exists l, parsed t' = Some l /\ l <> [] /\ importErr t' = None) \/
   (exists e, parsed t' = None /\ importErr t' = Some e)).
Proof.
  pose proof (parseVaultImport_cases text) as Hc. unfold returns, tryParse.
  destruct (parseVaultImport text) as [l|e]; (eexists; split; [reflexivity|]; split; [done|]).
  - left. exists l. by destruct Hc.
  - right. by eexists.
Qed.

(** Exporting with a passphrase: the file is one that decrypts to the plain export. *)
Lemma exportEncrypted_file (t : transfer) (w : W) text :
  (8 <= length (exportPass t))%nat -> toPlaintextJSON items = Some text -> text_ok text ->
  exists file t' w', returns exportEncrypted (t, w) true (t', w') /\
    downloads t' = downloads t ++ [{| df_name := js "passwd-backup-" ++ today ++ js ".json"; df_text := file;
                                      df_mime := json_mime |}] /\
    exportPass t' = [] /\ exportErr t' = None /\ isBackupEnvelope file = true /\
    forall w2 : W, returns (decryptBackup file (exportPass t)) w2 text w2.
Proof.
  intros Hl Ht Hx.
  destruct (encryptBackup_opens text (exportPass t) DEFAULT_KDF w Hx) as (file & w1 & He & Hb & Hd);
    [intros E0; rewrite E0 in Hl; cbn in Hl; lia|apply default_kdf_ok|by apply json_okb_ok; vm_compute|].
  exists file. eexists _, w1. split.
  { unfold returns, exportEncrypted. eapply bind_returns; [reflexivity|cbv beta].
    eapply bind_returns; [reflexivity|cbv beta]. cbn [fst set_export exportPass].
    rewrite (proj2 (Nat.ltb_ge _ _) Hl), Ht, bind_some. run (dialog_returns _ _ _ _ _ He). reflexivity. }
  by split_and!.
Qed.

(** Reading such a file back, in a state of any history. *)
Lemma restore_file file pass text l (t : transfer) (w : W) :
  isBackupEnvelope file = true -> file <> [] ->
  (forall w2 : W, returns (decryptBackup file pass) w2 text w2) -> parseVaultImport text = inl l ->
  exists t', returns (_ ← onFile (Some file); _ ← typePassphrase pass; decrypt) (t, w) tt (t', w) /\
    parsed t' = Some l /\ importErr t' = None.
Proof.
  intros Hb Hne Hd Hp. destruct file as [|u file]; [done|]. eexists. split.
  { unfold returns, onFile. rewrite Hb. eapply bind_returns; [reflexivity|cbv beta].
    eapply bind_returns; [reflexivity|cbv beta]. unfold decrypt. eapply bind_returns; [reflexivity|cbv beta].
    cbn [fst set_import encrypted importPass].
    eapply bind_returns; [reflexivity|cbv beta]. apply catch_returns. unfold returns.
    run (dialog_returns _ _ _ _ _ (Hd w)). unfold tryParse. rewrite Hp. reflexivity. }
  done.
Qed.
End Transfer.

(** ** Theorems *)
Section Theorems.
Context {N E : Type} `{Unicode} `{WebCrypto} `{Environment N} `{Entropy E} `{EngineText}.
Abbreviation W := (world N E).

(** C33: backup and restore through the dialog: exporting the items of a vault,
    with the identifiers the list gives them, under a passphrase of eight
    characters downloads a file and clears the passphrase, and choosing that file
    later, in a dialog of any vault and any history, and typing the passphrase
    previews every item that was exported, in order, with all the members of an
    item as they were and without the identifier, ready to import.  Each item has
    some content, as all that the editors save have ([Portable.has_content],
    [Portable.named_has_text]). *)
Theorem backup_restore items today (t t2 : transfer) (w w2 : W)
  (Hp : Forall exportable items) (Hj : Forall (fun it => json_ok (JObj it)) items)
  (Hc : Forall has_content items) (Hne : items <> [])
  (Hpass : (8 <= length (exportPass t))%nat) :
  exists file t1 w1, returns (exportEncrypted items today) (t, w) true (t1, w1) /\
    map df_text (downloads t1) = map df_text (downloads t) ++ [file] /\ exportPass t1 = [] /\
    exists t3, returns (_ ← onFile (Some file); _ ← typePassphrase (exportPass t); decrypt) (t2, w2) tt (t3, w2) /\
      parsed t3 = Some (map own_fields items) /\ importErr t3 = None.
Proof.
  destruct (toPlaintextJSON_reads items Hp Hj Hc Hne) as (text & Ht & Hx & Hr).
  destruct (exportEncrypted_file items today t w text Hpass Ht Hx) as (file & t1 & w1 & He & Hdl & Hclear & _ & Hb & Hd).
  exists file, t1, w1. split_and!; [exact He|by rewrite Hdl, map_app|done|].
  destruct (restore_file file (exportPass t) text (map own_fields items) t2 w2) as (t3 & Hres & Hend); [done| |done..|].
  - intros ->. by vm_compute in Hb.
  - by exists t3.
Qed.

(** The import preview never hides a failure: whatever file is chosen and
    whatever passphrase is typed, reading it completes, and shows items, an error
    message, or the request for a passphrase, but never items and an error. *)
Theorem import_preview file pass (t : transfer) (w : W) :
  exists t' w', returns (_ ← onFile (Some file); _ ← typePassphrase pass; decrypt) (t, w) tt (t', w') /\
    ((exists l, parsed t' = Some l /\ l <> [] /\ importErr t' = None) \/
     (exists e, parsed t' = None /\ importErr t' = Some e)).
Proof.
  assert (Hparse : forall t0 : transfer, exists t', returns (tryParse file : M (transfer * W) unit) (t0, w) tt (t', w) /\
    encrypted t' = encrypted t0 /\
    ((exists l, parsed t' = Some l /\ l <> [] /\ importErr t' = None) \/
     (exists e, parsed t' = None /\ importErr t' = Some e))).
  { intros t0. by apply tryParse_outcomes. }
  destruct (isBackupEnvelope file) eqn:Hb.
  - destruct file as [|u file]; [by vm_compute in Hb|]. set (f := u :: file) in *.
    set (t1 := set_import (Some f) pass None None
                 (set_result None None None (set_import None [] None None t))).
    assert (Hpick : forall k : unit -> M (transfer * W) unit,
      (_ ← onFile (Some f); _ ← typePassphrase pass; k tt) (t, w) = k tt (t1, w)).
    { intros k. unfold onFile. rewrite Hb. reflexivity. }
    enough (Hg : exists t' w', returns decrypt (t1, w) tt (t', w') /\
      ((exists l, parsed t' = Some l /\ l <> [] /\ importErr t' = None) \/
       (exists e, parsed t' = None /\ importErr t' = Some e))).
    { destruct Hg as (t' & w' & Hg & Ho). exists t', w'. split; [|exact Ho].
      unfold returns. rewrite (Hpick (fun _ => decrypt)). exact Hg. }
    unfold decrypt.
    destruct (decryptBackup_constant (St := W) f pass) as [[text|e] Hd].
    + destruct (tryParse_outcomes text t1 w) as (t' & Hr & _ & Ho). exists t', w. split; [|exact Ho].
      unfold returns. eapply bind_returns; [reflexivity|cbv beta]. cbn [fst t1 set_import encrypted].
      eapply bind_returns; [reflexivity|cbv beta]. apply catch_returns. unfold returns.
      eapply bind_returns; [|cbv beta; exact Hr]. unfold returns, outside. cbn [snd]. by rewrite Hd.
    + exists (set_import (Some f) pass None (Some (message e)) (set_import (Some f) pass None None t1)), w.
      split; [|by right; exists (message e)].
      unfold returns. eapply bind_returns; [reflexivity|cbv beta]. cbn [fst t1 set_import encrypted].
      eapply bind_returns; [reflexivity|cbv beta].
      eapply (catch_throws _ _ _ e (set_import (Some f) pass None None t1, w)); [|reflexivity]. unfold throws, mbind, M_bind, outside. cbn [snd]. by rewrite Hd.
  - destruct (Hparse (set_result None None None (set_import None [] None None t))) as (t' & Hr & He & Ho).
    exists (set_import (encrypted t') pass (parsed t') (importErr t') t'), w. split; [|exact Ho].
    unfold returns, onFile. rewrite Hb. eapply bind_returns; [eapply bind_returns; [reflexivity|exact Hr]|cbv beta].
    eapply bind_returns; [reflexivity|cbv beta]. unfold decrypt. eapply bind_returns; [reflexivity|cbv beta].
    cbn [fst set_import encrypted]. rewrite He. reflexivity.
Qed.
End Theorems.

(** ** Concrete inputs *)

#[local] Instance no_network : Environment unit := {|
  handle r n := (None, n);
  startAuthentication _ n := (inr LibraryError, n);
  startRegistration _ n := (inr LibraryError, n);
|}.
#[local] Instance plain_text : EngineText := {| engine_message _ := js "error" |}.
#[local] Existing Instances latin1_unicode model_crypto lcg_entropy.

Definition dialog (pass : jsstr) : transfer :=
  {| exportPass := pass; exportErr := None; encrypted := None; importPass := []; parsed := None;
     importErr := None; result := None; progress := None; downloads := []; imported := 0 |}.
Definition laptop : world unit Z := World [] tt 1.
Definition phone : world unit Z := World [] tt 99.

Lemma backup_restore_witness :
  exists file t1 w1, returns (exportEncrypted [listed_login; titled_note] (js "2024-05-01")) (dialog (js "long enough"), laptop) true (t1, w1) /\
    map df_text (downloads t1) = [file] /\ exportPass t1 = [] /\
    exists t3, returns (_ ← onFile (Some file); _ ← typePassphrase (js "long enough"); decrypt) (dialog [], phone) tt (t3, phone) /\
      parsed t3 = Some [sample_login; titled_note] /\ importErr t3 = None.
Proof.
  apply (backup_restore [listed_login; titled_note] (js "2024-05-01") (dialog (js "long enough")) (dialog []) laptop phone).
  - exact listed_exportable_ok.
  - exact listed_json_ok.
  - eapply Forall_impl; [exact listed_has_text|]. intros it Ht. by left.
  - discriminate.
  - cbn. lia.
Defined.
