(* ===== verification/Content.v ===== *)
(** apps/extension/entrypoints/content.ts: filling a login form and capturing a
    submitted one; and the popup's [fill] (entrypoints/popup/App.tsx), which asks
    it to.  The page's document is a parameter. *)
From S2P Require Import Prelude Text Json Effects Platform Items Protocol Popup.

(** What the script asks of the DOM: the first descendant a selector matches, the
    form around an element, values, and the events the page listens to. *)
Class Dom (D Node : Type) := {
  document : Node;
  query : Node -> jsstr -> D -> option Node;
  closest_form : Node -> D -> option Node;
  value : Node -> D -> jsstr;
  set_native : Node -> jsstr -> D -> D;
  dispatch : Node -> jsstr -> D -> D;
  href : D -> jsstr;
}.

Definition password_selector := jq "input[type='password']".
Definition user_selector :=
  jq "input[type='email'], input[autocomplete='username'], input[name*='user' i], input[id*='user' i], input[name*='email' i], input[type='text']".
Definition capture_selector := user_selector ++ jq ", input[type='tel']".

Section Content.
Context {D Node : Type} `{Dom D Node}.

Definition setValue (el : Node) (v : jsstr) (d : D) : D :=
  dispatch el (js "change") (dispatch el (js "input") (set_native el v d)).

Definition fillLoginForm (username password : jsstr) (d : D) : bool * D :=
  match query document password_selector d with
  | None => (false, d)
  | Some pw =>
      let scope := default document (closest_form pw d) in
      let user := query scope user_selector d in
      let d := match user, username with
               | Some u, _ :: _ => setValue u username d
               | _, _ => d
               end in
      (true, setValue pw password d)
  end.

(** [target]: the element the submit event names, if it is one. *)
Definition captureFrom (target : option Node) (d : D) : option BgRequest :=
  let scope := default document target in
  match query scope password_selector d with
  | None => None
  | Some pw =>
      match value pw d with
      | [] => None
      | password =>
          let username := match query scope capture_selector d with Some u => value u d | None => [] end in
          Some (msg_captureLogin (href d) username password)
      end
  end.

(** The message listener: [None] is [undefined], no answer. *)
Definition onFill (msg : option FillMessage) (d : D) : option bool * D :=
  match msg with
  | Some m => let '(ok, d) := fillLoginForm (fi_username m) (fi_password m) d in (Some ok, d)
  | None => (None, d)
  end.

(** The popup's [fill], with the active tab as it finds it: none, one without the
    script (the message is rejected), or a page.  The last component says whether
    the popup closes itself; the answer to the message is not looked at. *)
Inductive tab := NoTab | NoScript | Page (d : D).
Definition fill_message (item : obj) : FillMessage :=
  {| fi_username := text_at (js "username") item; fi_password := text_at (js "password") item |}.
Definition fill (item : obj) (t : tab) (p : popup) : popup * tab * bool :=
  match t with
  | NoTab => (p, t, false)
  | NoScript => (Popup.flash (js "No login form found") p, t, false)
  | Page d => (Popup.flash (js "Filled") p, Page (onFill (Some (fill_message item)) d).2, true)
  end.
End Content.

(** ** Theorems *)
Section Theorems.
Context {D Node : Type} `{Dom D Node}.

(** Filling touches nothing but the two fields: a page without a password field
    is left alone and reported; otherwise the document changes only by setting the
    password field and, when there is a user name and a field for it in the same
    form, that field before it. *)
Theorem fillLoginForm_spec username password (d : D) :
  match query document password_selector d with
  | None => fillLoginForm username password d = (false, d)
  | Some pw =>
      fillLoginForm username password d = (true, setValue pw password d) \/
      username <> [] /\ exists u, query (default document (closest_form pw d)) user_selector d = Some u /\
        fillLoginForm username password d = (true, setValue pw password (setValue u username d))
  end.
Proof.
  unfold fillLoginForm. destruct (query document password_selector d) as [pw|]; [|done].
  destruct (query _ user_selector d) as [u|]; [|by left]. destruct username as [|c username]; [by left|].
  right. split; [done|]. by exists u.
Qed.

(** The popup says Filled, and closes, whatever the page answered: a page without
    a password field is left as it was, and reported as filled. *)
Theorem fill_claims_success item (d : D) (p : popup) (Hd : query document password_selector d = None) :
  (onFill (Some (fill_message item)) d).1 = Some false /\
  fill item (Page d) p = (Popup.flash (js "Filled") p, Page d, true).
Proof. unfold fill, onFill, fillLoginForm. by rewrite Hd. Qed.

(** A capture always carries a password: a submitted form without a password
    typed in it sends nothing, and what is sent is the page's own address and the
    values of its fields. *)
Theorem captureFrom_spec target (d : D) :
  match captureFrom target d with
  | Some m => exists user password pw, m = msg_captureLogin (href d) user password /\
      query (default document target) password_selector d = Some pw /\ value pw d = password /\ password <> []
  | None => query (default document target) password_selector d = None \/
      exists pw, query (default document target) password_selector d = Some pw /\ value pw d = []
  end.
Proof.
  unfold captureFrom. destruct (query _ password_selector d) as [pw|]; [|by left].
  destruct (value pw d) as [|c v] eqn:Ev; [right; by exists pw|]. by eexists _, _, pw.
Qed.
End Theorems.
