(* ===== verification/Biometric.v ===== *)
(** apps/web/src/biometric.ts: the wrapper over the device's biometric store, a
    no-op in the browser. *)
From S2P Require Import Prelude Text Json Effects.

Record stored_credentials := { cr_username : jsstr; cr_password : jsstr }.

(** The native plugin; [None] is a rejected promise. *)
Class Biometric (D : Type) := {
  isNativePlatform : bool;
  isAvailable : D -> option bool * D;
  getCredentials : jsstr -> D -> option (option stored_credentials) * D;
  setCredentials : jsstr -> stored_credentials -> D -> bool * D;
  verifyIdentity : D -> bool * D;
  deleteCredentials : jsstr -> D -> bool * D;
}.

Definition SERVER : jsstr := js "app.passwd.vault".

Section Biometric.
Context {D : Type} `{Biometric D}.

Definition isNative : bool := isNativePlatform.

(** A plugin call as a promise. *)
Definition promise {A} (f : D -> option A * D) : M D A := fun d =>
  let '(o, d) := f d in (match o with Some a => inl a | None => inr LibraryError end, d).
Definition promise_bool (f : D -> bool * D) : M D unit := fun d =>
  let '(ok, d) := f d in (if ok : bool then inl tt else inr LibraryError, d).

Definition biometricAvailable : M D bool :=
  if negb isNative then mret false else catch (promise isAvailable) (fun _ => mret false).

(** [c?.password] is truthy. *)
Definition has_password (c : option stored_credentials) : bool :=
  match c with Some c => negb (bool_decide (cr_password c = [])) | None => false end.

Definition biometricEnrolled : M D bool :=
  if negb isNative then mret false
  else catch (c ← promise (getCredentials SERVER); mret (has_password c)) (fun _ => mret false).

Definition enableBiometric (identifier masterPassword : jsstr) : M D unit :=
  if negb isNative then mret tt
  else promise_bool (setCredentials SERVER {| cr_username := identifier; cr_password := masterPassword |}).

Definition unlockWithBiometric : M D (option (jsstr * jsstr)) :=
  if negb isNative then mret None
  else catch
    (_ ← promise_bool verifyIdentity;
     c ← promise (getCredentials SERVER);
     mret (match c with
           | Some c => if has_password (Some c) then Some (cr_username c, cr_password c) else None
           | None => None
           end))
    (fun _ => mret None).

Definition disableBiometric : M D unit :=
  if negb isNative then mret tt
  else catch (promise_bool (deleteCredentials SERVER)) (fun _ => mret tt).
End Biometric.

(** ** Theorems *)
Section Theorems.
Context {D : Type} `{Biometric D}.

Lemma unlockWithBiometric_run (d : D) :
  exists o d', returns unlockWithBiometric d o d' /\
    match o with
    | Some (i, p) => isNativePlatform = true /\ (verifyIdentity d).1 = true /\ p <> [] /\
        (getCredentials SERVER (verifyIdentity d).2).1 = Some (Some {| cr_username := i; cr_password := p |})
    | None => True
    end.
Proof.
  unfold returns, unlockWithBiometric, isNative. destruct isNativePlatform eqn:En; [|by eexists _, _].
  cbn [negb]. unfold catch, promise_bool, promise, mbind, M_bind.
  destruct (verifyIdentity d) as [[|] d1] eqn:Ev; [|by eexists _, _].
  destruct (getCredentials SERVER d1) as [[c|] d2] eqn:Ec; [|by eexists _, _].
  eexists _, _. split; [reflexivity|]. destruct c as [[i p]|]; [|done]. unfold has_password. cbn [cr_password].
  destruct (bool_decide_reflect (p = [])) as [|Hp]; cbn [negb]; [done|].
  split_and!; [done|done|exact Hp|]. cbn [snd]. by rewrite Ec.
Qed.

(** The stored master password is released only after the device verified the
    user: unlocking never fails, and credentials come out only from a run in which
    the biometric check succeeded first. *)
Theorem unlockWithBiometric_verified (d : D) :
  exists o d', returns unlockWithBiometric d o d' /\
    match o with
    | Some (i, p) => isNativePlatform = true /\ (verifyIdentity d).1 = true /\ p <> [] /\
        (getCredentials SERVER (verifyIdentity d).2).1 = Some (Some {| cr_username := i; cr_password := p |})
    | None => True
    end.
Proof. apply unlockWithBiometric_run. Qed.

(** In a browser the module touches nothing: every function returns at once
    with the answer of a device without biometrics. *)
Theorem biometric_browser (d : D) (Hn : isNativePlatform (D := D) = false) :
  returns biometricAvailable d false d /\ returns biometricEnrolled d false d /\
  (forall i p, returns (enableBiometric i p) d tt d) /\ returns unlockWithBiometric d None d /\
  returns disableBiometric d tt d.
Proof.
  unfold returns, biometricAvailable, biometricEnrolled, enableBiometric, unlockWithBiometric, disableBiometric, isNative.
  by rewrite Hn.
Qed.
End Theorems.

#[local] Instance browser : Biometric unit := {|
  isNativePlatform := false;
  isAvailable d := (None, d);
  getCredentials _ d := (None, d);
  setCredentials _ _ d := (false, d);
  verifyIdentity d := (false, d);
  deleteCredentials _ d := (false, d);
|}.

Lemma biometric_browser_witness :
  returns biometricAvailable tt false tt /\ returns biometricEnrolled tt false tt /\
  (forall i p, returns (enableBiometric i p) tt tt tt) /\ returns unlockWithBiometric tt None tt /\
  returns disableBiometric tt tt tt.
Proof. apply (biometric_browser tt). reflexivity. Defined.
