(* ===== verification/WebVault.v ===== *)
(** apps/web/src/VaultScreen.tsx: the actions of the vault screen on items, and the
    notice about sign-in attempts since the last visit. *)
From S2P Require Import Prelude Text Numeral Json JsonFacts Encoding JsonText Effects Platform Primitives.
From S2P Require Import Identifier Account Backup Objects Items Api Session VaultStore Background Health.

(** SHA-256 of [crypto.subtle.digest]. *)
Class Sha256 := {
  sha256 : bytes -> bytes;
  sha256_length : forall b, length (sha256 b) = 32%nat;
  sha256_bytes : forall b, bytes_ok (sha256 b);
}.

(** [new Date(v).getTime()]; [None] is NaN. *)
Class Dates := { date_ms : jsv -> option Z }.

(** [localStorage]: a write can be refused, and then throws. *)
Class LocalStorage (L : Type) := {
  get_local : jsstr -> L -> option jsstr;
  set_local : jsstr -> jsstr -> L -> bool * L;
  get_set_local : forall k v l, (set_local k v l).1 = true -> get_local k (set_local k v l).2 = Some v;
}.

(** The state of the VaultScreen component that these actions read or write. *)
Record screen := {
  sc_items : list obj;
  sc_loading : bool;
  sc_error : option jsstr;
  sc_toast : option jsstr;
  sc_selected : option jsstr;
  sc_alert : option jsstr;
}.
Definition mounted : screen :=
  {| sc_items := []; sc_loading := true; sc_error := None; sc_toast := None; sc_selected := None; sc_alert := None |}.

Definition setItems x c : screen :=
  {| sc_items := x; sc_loading := sc_loading c; sc_error := sc_error c; sc_toast := sc_toast c;
     sc_selected := sc_selected c; sc_alert := sc_alert c |}.
Definition setLoading x c : screen :=
  {| sc_items := sc_items c; sc_loading := x; sc_error := sc_error c; sc_toast := sc_toast c;
     sc_selected := sc_selected c; sc_alert := sc_alert c |}.
Definition setError x c : screen :=
  {| sc_items := sc_items c; sc_loading := sc_loading c; sc_error := x; sc_toast := sc_toast c;
     sc_selected := sc_selected c; sc_alert := sc_alert c |}.
Definition flash x c : screen :=
  {| sc_items := sc_items c; sc_loading := sc_loading c; sc_error := sc_error c; sc_toast := Some x;
     sc_selected := sc_selected c; sc_alert := sc_alert c |}.
Definition setSelectedId x c : screen :=
  {| sc_items := sc_items c; sc_loading := sc_loading c; sc_error := sc_error c; sc_toast := sc_toast c;
     sc_selected := x; sc_alert := sc_alert c |}.
Definition setLoginAlert x c : screen :=
  {| sc_items := sc_items c; sc_loading := sc_loading c; sc_error := sc_error c; sc_toast := sc_toast c;
     sc_selected := sc_selected c; sc_alert := x |}.

(** ** The notice *)

Definition lastSeenKey `{Unicode} `{Sha256} (identifier : jsstr) : jsstr :=
  js "passwd:lastSeenActivity:" ++ (sha256 (utf8 (normalizeIdentifier identifier)) ≫= byte_hex).

Definition buildLoginAlert (failures : Z) (reuse : bool) : jsstr :=
  let parts :=
    (if 0 <? failures
     then [num_to_string (NInt failures) ++ js " failed sign-in attempt" ++ (if failures =? 1 then [] else js "s")]
     else []) ++ (if reuse then [js "session token reuse"] else []) in
  js "Since your last visit: " ++ join (js " and ") parts
    ++ js ". If that wasn't you, review your activity.".

(** [t > n] *)
Definition later_than (t : option Z) (n : jsnum) : bool :=
  match t, n with
  | Some t, NInt z => z <? t
  | Some t, NDec m d => m <? t * 10 ^ Z.of_nat d
  | Some _, NInf neg => neg
  | _, _ => false
  end.

Definition login_failure := js "login.failure".
Definition token_reuse := js "token.reuse_detected".

Section Notice.
Context `{Dates}.

(** [new Date(e.createdAt).getTime()] and [e.event]: a TypeError on null. *)
Definition created (e : json) : option (option Z) := date_ms <$> json_member (js "createdAt") e.
Definition is_event (k : jsstr) (e : json) : bool := is_string k (get_prop (js "event") e).

(** [events.filter((e) => ... > lastSeen && (...))] *)
Fixpoint since (lastSeen : jsnum) (l : list json) : option (list json) :=
  match l with
  | [] => Some []
  | e :: l' =>
      t ← created e;
      rest ← since lastSeen l';
      Some (if later_than t lastSeen && (is_event login_failure e || is_event token_reuse e) then e :: rest else rest)
  end.

Definition failures_of (l : list json) : Z := Z.of_nat (length (List.filter (is_event login_failure) l)).
Definition reuse_of (l : list json) : bool := existsb (is_event token_reuse) l.

(** [String(t)] of a time. *)
Definition time_text (t : option Z) : jsstr := num_to_string (match t with Some t => NInt t | None => NNaN end).
End Notice.

Section Screen.
Context {N E L : Type} `{Unicode} `{WebCrypto} `{Environment N} `{Entropy E} `{Clock N} `{LocalStorage L}
  `{Sha256} `{Dates} `{EngineText}.
Abbreviation W := (world N E).
Abbreviation S := (screen * (world N E * L))%type.

Definition api {A} (m : M W A) : M S A := fun s => let '(r, w) := m s.2.1 in (r, (s.1, (w, s.2.2))).
Definition upd (f : screen -> screen) : M S unit := modify (fun s => (f s.1, s.2)).
Definition setItem (k v : jsstr) : M S unit := fun s =>
  let r := set_local k v s.2.2 in
  (if r.1 : bool then inl tt else inr (DomException (js "QuotaExceededError")), (s.1, (s.2.1, r.2))).

(** The effect on opening the vault.  Whatever goes wrong is swallowed; a log that
    is not an array, which the server does not send, raises like one of null. *)
Definition notice (session : Session) : M S unit :=
  catch
    (answer ← api (getActivity session);
     events ← (match answer with Some (JArr l) => mret l | _ => raise JsTypeError end);
     let key := lastSeenKey (ss_identifier session) in
     lastSeenRaw ← gets (fun s => get_local key s.2.2);
     _ ← (match lastSeenRaw with
          | None => mret tt
          | Some raw =>
              l ← of_option JsTypeError (since (js_number raw) events);
              if (0 <? failures_of l) || reuse_of l
              then upd (setLoginAlert (Some (buildLoginAlert (failures_of l) (reuse_of l))))
              else mret tt
          end);
     newest ← (match events with
               | e :: _ => of_option JsTypeError (created e)
               | [] => gets (fun s => Some (clock (net s.2.1)))
               end);
     setItem key (time_text newest))
    (fun _ => mret tt).

(** ** Items *)

Definition reload (session : Session) : M S unit :=
  _ ← upd (setLoading true);
  _ ← upd (setError None);
  _ ← catch (items ← api (loadVault session); upd (setItems items))
            (fun e => upd (setError (Some (message e))));
  upd (setLoading false).

Definition handleSave (session : Session) (item : obj) : M S bool :=
  catch
    (_ ← (match text_at (js "id") item with
          | [] => _ ← api (addItem session (obj_delete (js "id") item)); mret tt
          | _ => api (saveItem session item)
          end);
     _ ← reload session;
     _ ← upd (flash (js "Saved"));
     mret true)
    (fun e => _ ← upd (setError (Some (message e))); mret false).

Definition saveNotes (session : Session) (item : obj) (notes : jsstr) : M S unit :=
  if str_eqb notes (text_at (js "notes") item) then mret tt
  else catch
    (_ ← api (saveItem session (obj_assign item [(js "notes", JStr notes)]));
     _ ← reload session;
     upd (flash (js "Notes saved")))
    (fun e => upd (setError (Some (message e)))).

Definition handleDelete (session : Session) (item : obj) (confirmed : bool) : M S unit :=
  if confirmed then
    let id := text_at (js "id") item in
    catch
      (_ ← api (removeItem session id);
       _ ← upd (fun c => if bool_decide (sc_selected c = Some id) then setSelectedId None c else c);
       _ ← reload session;
       upd (flash (js "Deleted")))
      (fun e => upd (setError (Some (message e))))
  else mret tt.

Definition toggleFavorite (session : Session) (item : obj) : M S unit :=
  catch
    (_ ← api (saveItem session (obj_assign item [(js "favorite", JBool (negb (favorite_of item)))]));
     reload session)
    (fun e => upd (setError (Some (message e)))).
End Screen.

(** ** Laws of the notice *)

Section NoticeLaws.
Context `{Dates}.

Definition time_of (e : json) : Z := default 0 (default None (created e)).
Definition suspicious (e : json) : bool := is_event login_failure e || is_event token_reuse e.

(** Events whose times are times (of ECMAScript: at most 8.64e15 in magnitude). *)
Definition dated (e : json) : Prop := created e = Some (Some (time_of e)) /\ 0 <= time_of e < 10 ^ 21.

(** What a visit reports of a log: suspicious events after the marker. *)
Definition reported (marker : jsnum) (l : list json) : list json :=
  filter (fun e => later_than (Some (time_of e)) marker && suspicious e = true) l.

Definition alerted (l : list json) (c : screen) : screen :=
  if (0 <? failures_of l) || reuse_of l
  then setLoginAlert (Some (buildLoginAlert (failures_of l) (reuse_of l))) c else c.

Lemma since_reported n l : Forall dated l -> since n l = Some (reported n l).
Proof.
  induction 1 as [|e l [He _] _ IH]; [done|]. cbn [since]. rewrite He, IH. cbn [mbind option_bind].
  unfold reported. destruct (later_than (Some (time_of e)) n && suspicious e) eqn:Ee.
  - rewrite filter_cons_True by done. unfold suspicious in Ee. by rewrite Ee.
  - rewrite filter_cons_False by congruence. unfold suspicious in Ee. by rewrite Ee.
Qed.

(** An alert is raised exactly when something is reported. *)
Lemma alert_iff l : Forall (fun e => suspicious e = true) l ->
  ((0 <? failures_of l) || reuse_of l) = negb (bool_decide (l = [])).
Proof.
  intros Hs. destruct Hs as [|e l He _]; [done|]. rewrite bool_decide_eq_false_2 by done. cbn [negb].
  unfold failures_of, reuse_of. cbn [List.filter existsb]. unfold suspicious in He. apply orb_true_iff in He as [He|He].
  - rewrite He. cbn [length]. apply orb_true_iff. left. apply Z.ltb_lt. lia.
  - rewrite He. by rewrite orb_true_r.
Qed.

Lemma reported_suspicious n l : Forall (fun e => suspicious e = true) (reported n l).
Proof.
  apply Forall_forall. intros e [He _]%list_elem_of_filter. by apply andb_true_iff in He as [_ He].
Qed.

Lemma time_text_marker t : 0 <= t < 10 ^ 21 -> js_number (time_text (Some t)) = NInt t.
Proof.
  intros Ht. unfold time_text. cbn [num_to_string]. rewrite (proj2 (Z.ltb_ge t 0)) by lia.
  rewrite Z.abs_eq by lia. rewrite (proj2 (Z.ltb_lt t _)) by lia. cbn [with_sign]. apply js_number_dec; lia.
Qed.

(** Of a log that grew, only the new part can be reported. *)
Lemma reported_again (e : json) l l' : Forall (fun e' => time_of e' <= time_of e) l ->
  reported (NInt (time_of e)) (l' ++ l) = reported (NInt (time_of e)) l'.
Proof.
  intros Hl. unfold reported. rewrite filter_app.
  assert (filter (fun e0 => later_than (Some (time_of e0)) (NInt (time_of e)) && suspicious e0 = true) l = []) as ->;
    [|by rewrite app_nil_r].
  induction Hl as [|x l Hx _ IH]; [done|]. rewrite filter_cons_False; [done|].
  cbn [later_than]. by rewrite (proj2 (Z.ltb_ge _ _) Hx).
Qed.
End NoticeLaws.

Section Laws.
Context {N E L : Type} `{Unicode} `{WebCrypto} `{Environment N} `{Entropy E} `{Clock N} `{LocalStorage L}
  `{Sha256} `{Dates} `{EngineText}.
Abbreviation W := (world N E).
Abbreviation S := (screen * (world N E * L))%type.

Lemma api_returns {A} (m : M W A) c w l x w' : returns m w x w' -> returns (api m : M S A) (c, (w, l)) x (c, (w', l)).
Proof. unfold returns, api. cbn [fst snd]. by intros ->. Qed.

Lemma api_throws {A} (m : M W A) c w l e w' : throws m w e w' -> throws (api m : M S A) (c, (w, l)) e (c, (w', l)).
Proof. unfold throws, api. cbn [fst snd]. by intros ->. Qed.

Lemma upd_returns f c (o : W * L) : returns (upd f : M S unit) (c, o) tt (f c, o).
Proof. done. Qed.

(** The newest time a visit leaves behind. *)
Definition newest (l : list json) (w : W) : option Z :=
  match l with e :: _ => Some (time_of e) | [] => Some (clock (net w)) end.

Lemma notice_returns s c (w w' : W) st l :
  returns (getActivity s) w (Some (JArr l)) w' -> Forall dated l ->
  (forall v, (set_local (lastSeenKey (ss_identifier s)) v st).1 = true) ->
  exists st', returns (notice s : M S unit) (c, (w, st)) tt
    (match get_local (lastSeenKey (ss_identifier s)) st with
     | None => c
     | Some raw => alerted (reported (js_number raw) l) c
     end, (w', st')) /\
    get_local (lastSeenKey (ss_identifier s)) st' = Some (time_text (newest l w')).
Proof.
  intros Hg Hl Hset. set (key := lastSeenKey (ss_identifier s)). eexists. split.
  - apply catch_returns. unfold returns. run (api_returns _ c w st _ w' Hg). eapply (bind_returns _ _ _ l (c, (w', st))); [reflexivity|cbv beta zeta]. fold key.
    eapply (bind_returns (gets (fun s : S => get_local key s.2.2)) _ _ _ (c, (w', st))); [reflexivity|cbv beta].
    eapply (bind_returns _ _ _ tt (match get_local key st with
      | None => c | Some raw => alerted (reported (js_number raw) l) c end, (w', st))).
    { cbn [fst snd]. destruct (get_local key st) as [raw|]; [|done]. unfold returns. rewrite since_reported, bind_some by done.
      unfold alerted. by destruct (_ || _). }
    eapply (bind_returns _ _ _ (newest l w')).
    { destruct l as [|e l]; [done|]. apply Forall_cons in Hl as [[He _] _]. unfold returns, newest. by rewrite He. }
    unfold setItem. cbn [fst snd]. rewrite Hset. reflexivity.
  - apply get_set_local, Hset.
Qed.
End Laws.

(** ** Laws of the actions *)

(** What the user can do to an item of the vault. *)
Inductive web_action :=
| Save (item : obj)                        (* from the editor: new when it has no id *)
| Notes (item : obj) (notes : jsstr)
| Delete (item : obj) (confirmed : bool)
| Star (item : obj).

(** An item as the screen has it: under an id the server gave out. *)
Definition identified (item : obj) : Prop := exists id, id_ok id /\ obj_get (js "id") item = Some (JStr id).

Definition with_notes (item : obj) (notes : jsstr) : obj := obj_assign item [(js "notes", JStr notes)].
Definition starred (item : obj) : obj := obj_assign item [(js "favorite", JBool (negb (favorite_of item)))].
Definition fields_of (item : obj) : obj := obj_delete (js "id") item.

(** What the screen lets the user do. *)
Definition legal `{Unicode} (a : web_action) : Prop :=
  match a with
  | Save item => savable (fields_of item) /\ (text_at (js "id") item <> [] -> identified item)
  | Notes item notes => identified item /\ savable (fields_of (with_notes item notes))
  | Delete item _ => identified item
  | Star item => identified item /\ savable (fields_of (starred item))
  end.

(** What the action means for the vault as a map. *)
Definition means `{Unicode} (a : web_action) (V V' : gmap jsstr obj) : Prop :=
  match a with
  | Save item =>
      match text_at (js "id") item with
      | [] => exists id, V !! id = None /\ id_ok id /\ V' = <[id := settled (fields_of item)]> V
      | id => V' = <[id := settled (fields_of item)]> V
      end
  | Notes item notes =>
      V' = if str_eqb notes (text_at (js "notes") item) then V
           else <[text_at (js "id") item := settled (fields_of (with_notes item notes))]> V
  | Delete item confirmed => V' = if confirmed then delete (text_at (js "id") item) V else V
  | Star item => V' = <[text_at (js "id") item := settled (fields_of (starred item))]> V
  end.

(** What became of the gestures of a user, each in the state it found: done, in
    order, or refused there by the server. *)
Section Replay.
Context `{Unicode} {X : Type} (refused_at : X -> web_action -> Prop).

Inductive replay : list (X * web_action) -> gmap jsstr obj -> gmap jsstr obj -> Prop :=
| replay_end V : replay [] V V
| replay_done x a log V V1 V2 : legal a -> means a V V1 -> replay log V1 V2 -> replay ((x, a) :: log) V V2
| replay_refused x a log V V2 : refused_at x a -> replay log V V2 -> replay ((x, a) :: log) V V2.

Lemma replay_app log log' V V1 V2 : replay log V V1 -> replay log' V1 V2 -> replay (log ++ log') V V2.
Proof. induction 1; cbn [app]; [done|by econstructor; eauto|intros; apply replay_refused; eauto]. Qed.

(** What one gesture may do to the vault. *)
Definition effect_of (x : X) (o : option web_action) (V V' : gmap jsstr obj) : Prop :=
  match o with
  | None => V' = V
  | Some a => legal a /\ means a V V' \/ V' = V /\ refused_at x a
  end.

Lemma effect_imp {Y} (refused_at' : Y -> web_action -> Prop) (x : X) (y : Y) o V V' :
  (forall a, refused_at x a -> refused_at' y a) -> effect_of x o V V' ->
  match o with None => V' = V | Some a => legal a /\ means a V V' \/ V' = V /\ refused_at' y a end.
Proof. intros Hi. destruct o; cbn [effect_of]; [|done]. intros [Ha|[-> Ha]]; [by left|right; by auto]. Qed.

(** A run of a machine whose steps are gestures, and other steps. *)
Context (does : X -> option web_action -> X -> Prop).
Inductive logged : X -> list (X * web_action) -> X -> Prop :=
| logged_end x : logged x [] x
| logged_act x a y log z : does x (Some a) y -> logged y log z -> logged x ((x, a) :: log) z
| logged_still x y log z : does x None y -> logged y log z -> logged x log z.

Lemma logged_step x o y log z : does x o y -> logged y log z ->
  logged x (match o with Some a => (x, a) :: log | None => log end) z.
Proof. destruct o; [apply logged_act|apply logged_still]. Qed.

Lemma logged_app x log y log' z : logged x log y -> logged y log' z -> logged x (log ++ log') z.
Proof. induction 1; cbn [app]; [done|intros; by eapply logged_act; eauto|intros; by eapply logged_still; eauto]. Qed.

Lemma logged_replays (P : gmap jsstr obj -> X -> Prop) V x log z :
  (forall V x o y, P V x -> does x o y -> exists V', P V' y /\ effect_of x o V V') ->
  P V x -> logged x log z -> exists V', replay log V V' /\ P V' z.
Proof.
  intros Hstep HP Hl. revert V HP. induction Hl as [x|x a y log z Hd _ IH|x y log z Hd _ IH]; intros V HP.
  - exists V. by split; [constructor|].
  - destruct (Hstep V x _ y HP Hd) as (V1 & HP1 & Ha). destruct (IH V1 HP1) as (V2 & Hr & HP2). exists V2. split; [|done].
    destruct Ha as [[Hlg Hm]|[-> Hrf]]; [by eapply replay_done|by apply replay_refused].
  - destruct (Hstep V x _ y HP Hd) as (V1 & HP1 & ->). by apply IH.
Qed.
End Replay.

Lemma identified_text item : identified item -> exists id,
  text_at (js "id") item = id /\ id_ok id /\ obj_get (js "id") item = Some (JStr id).
Proof. intros (id & Hn & Hg). exists id. split_and!; [unfold text_at; by rewrite Hg|done..]. Qed.

Lemma get_id_assign item k v : js "id" <> k -> obj_get (js "id") (obj_assign item [(k, v)]) = obj_get (js "id") item.
Proof.
  intros Hk. rewrite obj_get_assign by apply NoDup_singleton. cbn [obj_get]. by rewrite str_eqb_ne.
Qed.

Section Actions.
Context {N E L : Type} `{Unicode} `{WebCrypto} `{Environment N} `{Entropy E} `{Clock N} `{LocalStorage L} `{EngineText}.
Context (base token : jsstr) `{!CipherServer N base token}.
Hypothesis Htoken : token <> [].
Abbreviation W := (world N E).
Abbreviation S := (screen * (world N E * L))%type.

Definition perform (s : Session) (a : web_action) : M S unit :=
  match a with
  | Save item => _ ← handleSave s item; mret tt
  | Notes item notes => saveNotes s item notes
  | Delete item confirmed => handleDelete s item confirmed
  | Star item => toggleFavorite s item
  end.

(** The request an action on an item sends first. *)
Definition asks (s : Session) (a : web_action) (method path : jsstr) (body : jsv) : Prop :=
  let puts item := method = PUT /\ path = js "/api/ciphers/" ++ text_at (js "id") item /\
    exists data, carries s (fields_of item) data /\ body = Some (data_body data) in
  match a with
  | Save item =>
      match text_at (js "id") item with
      | [] => method = POST /\ path = js "/api/ciphers" /\
          exists data, carries s (fields_of item) data /\ body = Some (data_body data)
      | _ => puts item
      end
  | Notes item notes => puts (with_notes item notes)
  | Star item => puts (starred item)
  | Delete item _ => method = DELETE /\ path = js "/api/ciphers/" ++ text_at (js "id") item /\ body = None
  end.
(** The server, as it is at [n], does not accept it. *)
Definition rejected (s : Session) (n : N) (a : web_action) : Prop :=
  exists method path body, asks s a method path body /\ accepts n (auth_request base token method path body) = false.
Definition unread (n : N) : Prop := accepts n (auth_request base token GET (js "/api/sync") None) = false.

(** The screen lists the vault, and complains about nothing. *)
Definition shows (c : screen) (V : gmap jsstr obj) : Prop :=
  sc_items c ≡ₚ map shown (map_to_list V) /\ sc_error c = None /\ sc_loading c = false.
Definition complains (c : screen) : Prop := exists m, sc_error c = Some m /\ m <> [].
(** The screen says that something went wrong, over the list it had. *)
Definition stuck (c c' : screen) : Prop :=
  sc_items c' = sc_items c /\ complains c' /\ (sc_loading c = false -> sc_loading c' = false).
(** The list after a change: the vault, or the old one when reading it was refused
    by the server as it was after the change. *)
Definition relisted (n' : N) (c c' : screen) (V' : gmap jsstr obj) : Prop :=
  shows c' V' \/ stuck c c' /\ exists n1, store n1 = store n' /\ unread n1.

Hypothesis Hsay : engine_message JsTypeError <> [] /\ engine_message JsSyntaxError <> [].

Lemma refused_message e : refused_exn e -> message e <> [].
Proof. intros [->|[->|(m & -> & Hm)]]; [apply Hsay|apply Hsay|done]. Qed.

Lemma stuck_error e c : refused_exn e -> stuck c (setError (Some (message e)) c).
Proof. intros He. split_and!; [done| |done]. exists (message e). split; [done|by apply refused_message]. Qed.

Lemma reload_outcomes s c (w : W) (l : L) V : linked base token s w V ->
  exists c' w', returns (reload s : M S unit) (c, (w, l)) tt (c', (w', l)) /\ linked base token s w' V /\
    store (net w') = store (net w) /\
    (shows c' V \/ sc_items c' = sc_items c /\ complains c' /\ sc_loading c' = false /\ unread (net w)).
Proof.
  intros Hl. set (c0 := setError None (setLoading true c)).
  assert (Hrun : forall r c1 w1, catch (items ← api (loadVault s); upd (setItems items))
      (fun e => upd (setError (Some (message e)))) (c0, (w, l)) = (inl r, (c1, (w1, l))) ->
    returns (reload s : M S unit) (c, (w, l)) tt (setLoading false c1, (w1, l))).
  { intros [] c1 w1 Hc. unfold returns, reload. run (upd_returns (setLoading true) c (w, l)).
    run (upd_returns (setError None) (setLoading true c) (w, l)).
    by eapply (bind_returns _ _ _ tt (c1, (w1, l))). }
  destruct (loadVault_outcomes base token Htoken s V w Hl) as [(its & w' & Hr & Hl' & Hp & Hst)|(e & w' & He & Ha & Hx & Hl' & Hst)].
  - exists (setLoading false (setItems its c0)), w'. split; [|split; [done|split; [done|left; by split_and!]]].
    apply (Hrun tt). apply catch_returns. unfold returns. run (api_returns _ c0 w l its w' Hr). reflexivity.
  - exists (setLoading false (setError (Some (message e)) c0)), w'.
    split; [|split; [done|split; [done|right; split_and!; [done| |done|done]]]].
    + apply (Hrun tt). eapply catch_throws; [apply bind_throws; exact (api_throws _ c0 w l e w' He)|reflexivity].
    + exists (message e). split; [done|by apply refused_message].
Qed.

(** Reading the list again after a change. *)
Lemma reload_relists s c0 c (w : W) (l : L) V : linked base token s w V -> sc_items c = sc_items c0 ->
  exists c' w', returns (reload s : M S unit) (c, (w, l)) tt (c', (w', l)) /\ linked base token s w' V /\
    relisted (net w') c0 c' V.
Proof.
  intros Hl Hc. destruct (reload_outcomes s c w l V Hl) as (c' & w' & Hr & Hl' & Hst & Ho). exists c', w'.
  split_and!; [done|done|]. destruct Ho as [Hs|(Hi & Hm & Hld & Hu)]; [by left|right]. split; [by split_and!; [congruence| |]|].
  by exists (net w).
Qed.

Lemma relisted_flash n t c c' V : relisted n c c' V -> relisted n c (flash t c') V.
Proof. intros [Hs|[Hs Hn]]; [by left|by right]. Qed.

(** Sending an item that has an identifier, and what follows in three of the actions. *)
Lemma put_outcomes s V item c (w : W) (l : L) : linked base token s w V -> identified item ->
  savable (fields_of item) -> let id := text_at (js "id") item in
  (exists w1 c' w2, returns (api (saveItem s item) : M S unit) (c, (w, l)) tt (c, (w1, l)) /\
    returns (reload s : M S unit) (c, (w1, l)) tt (c', (w2, l)) /\
    linked base token s w2 (<[id := settled (fields_of item)]> V) /\
    relisted (net w2) c c' (<[id := settled (fields_of item)]> V)) \/
  (exists data e w', carries s (fields_of item) data /\
    accepts (net w) (auth_request base token PUT (js "/api/ciphers/" ++ id) (Some (data_body data))) = false /\
    throws (api (saveItem s item) : M S unit) (c, (w, l)) e (c, (w', l)) /\ refused_exn e /\ linked base token s w' V).
Proof.
  intros Hl Hst Hg id0. destruct (identified_text item Hst) as (id & Ht & Hi & Hid). subst id0. rewrite Ht.
  destruct (saveItem_outcomes base token Htoken s V id item w Hl Hid Hg) as [(w1 & Hs & _ & Hl1)|(data & e & w1 & Hd & He & Ha & Hx & Hl1 & _)].
  - left. destruct (reload_relists s c c w1 l _ Hl1 eq_refl) as (c' & w2 & Hr & Hl2 & Hc).
    exists w1, c', w2. split_and!; [by apply api_returns|done..].
  - right. exists data, e, w1. split_and!; [done|done|by apply api_throws|done|done].
Qed.

Lemma save_outcomes s V item c (w : W) (l : L) : linked base token s w V -> legal (Save item) ->
  exists b c' w' V', returns (handleSave s item : M S bool) (c, (w, l)) b (c', (w', l)) /\
    linked base token s w' V' /\
    (b = true /\ means (Save item) V V' /\ relisted (net w') c c' V' \/
     b = false /\ V' = V /\ rejected s (net w) (Save item) /\ stuck c c').
Proof.
  intros Hl [Hg Hst]. unfold handleSave. cbn [means]. unfold rejected. cbn [asks].
  destruct (text_at (js "id") item) as [|u t] eqn:Ht.
  - destruct (addItem_outcomes base token Htoken s V _ w Hl Hg) as [(id & w1 & Hadd & Hf & Hl1 & Hi)|(data & e & w1 & Hd & He & Ha & Hx & Hl1 & _)].
    + destruct (reload_relists s c c w1 l _ Hl1 eq_refl) as (c' & w2 & Hr & Hl2 & Hc).
      exists true, (flash (js "Saved") c'), w2, (<[id := settled (fields_of item)]> V). split_and!; [|done|].
      * apply catch_returns. unfold returns.
        eapply (bind_returns _ _ _ tt (c, (w1, l))); [unfold returns; by run (api_returns _ c w l _ w1 Hadd)|cbv beta].
        run Hr. reflexivity.
      * left. split_and!; [done|by exists id|by apply relisted_flash].
    + exists false, (setError (Some (message e)) c), w1, V. split_and!; [|done|].
      * eapply catch_throws; [apply bind_throws; apply bind_throws; exact (api_throws _ c w l e w1 He)|reflexivity].
      * right. split_and!; [done|done| |by apply stuck_error]. eexists _, _, _. split; [split_and!; [reflexivity|reflexivity|by exists data]|done].
  - destruct (put_outcomes s V item c w l Hl (Hst ltac:(done)) Hg) as [(w1 & c' & w2 & Hs & Hr & Hl2 & Hc)|(data & e & w1 & Hd & Ha & He & Hx & Hl1)];
      rewrite Ht in *.
    + exists true, (flash (js "Saved") c'), w2, (<[u :: t := settled (fields_of item)]> V). split_and!; [|done|].
      * apply catch_returns. unfold returns. run Hs. run Hr. reflexivity.
      * left. split_and!; [done|done|by apply relisted_flash].
    + exists false, (setError (Some (message e)) c), w1, V. split_and!; [|done|].
      * eapply catch_throws; [by apply bind_throws|reflexivity].
      * right. split_and!; [done|done| |by apply stuck_error]. eexists _, _, _. split; [split_and!; [reflexivity|reflexivity|by exists data]|done].
Qed.

(** Saving an item with one member changed. *)
Lemma assign_identified item k v : js "id" <> k -> identified item ->
  identified (obj_assign item [(k, v)]) /\ text_at (js "id") (obj_assign item [(k, v)]) = text_at (js "id") item.
Proof.
  intros Hk (id & Hne & Hg). split; [exists id; by rewrite get_id_assign|]. unfold text_at. by rewrite get_id_assign.
Qed.

(** Every action ends, done or refused, and says so. *)
Lemma action_outcomes s V a c (w : W) (l : L) : linked base token s w V -> legal a ->
  exists c' w' V', returns (perform s a : M S unit) (c, (w, l)) tt (c', (w', l)) /\ linked base token s w' V' /\
    (means a V V' /\ (relisted (net w') c c' V' \/ V' = V /\ c' = c) \/
     V' = V /\ rejected s (net w) a /\ stuck c c').
Proof.
  intros Hl Ha. destruct a as [item|item notes|item [|]|item]; cbn [perform].
  - destruct (save_outcomes s V item c w l Hl Ha) as (b & c' & w' & V' & Hr & Hl' & Ho). exists c', w', V'.
    split_and!; [unfold returns; by run Hr|done|]. destruct Ho as [(_ & Hm & Hc)|(_ & -> & Hrj & Hc)]; [left; split; [done|by left]|by right].
  - destruct Ha as [Hst Hg]. unfold saveNotes. cbn [means].
    destruct (str_eqb notes (text_at (js "notes") item)); [exists c, w, V; split_and!; [done|done|left; split; [done|by right]]|].
    destruct (assign_identified item (js "notes") (JStr notes)) as [Hst' Ht]; [done|done|].
    destruct (put_outcomes s V _ c w l Hl Hst' Hg) as [(w1 & c' & w2 & Hs & Hr & Hl2 & Hc)|(data & e & w1 & Hd & Hacc & He & Hx & Hl1)].
    + rewrite Ht in Hl2, Hc. exists (flash (js "Notes saved") c'), w2, (<[text_at (js "id") item := settled (fields_of (with_notes item notes))]> V).
      split_and!; [|done|left; split; [done|left; by apply relisted_flash]]. apply catch_returns. unfold returns. run Hs. run Hr. reflexivity.
    + exists (setError (Some (message e)) c), w1, V. split_and!; [|done|right; split_and!; [done| |by apply stuck_error]].
      * eapply catch_throws; [by apply bind_throws|reflexivity].
      * eexists _, _, _. split; [split_and!; [reflexivity|reflexivity|by exists data]|exact Hacc].
  - destruct (identified_text item Ha) as (id & Ht & Hi & Hid). cbn [means]. unfold rejected, handleDelete. cbn [asks]. rewrite Ht.
    destruct (removeItem_outcomes base token Htoken s V id w Hl) as [(w1 & Hd & _ & Hl1)|(e & w1 & He & Hacc & Hx & Hl1 & _)].
    + set (c1 := if bool_decide (sc_selected c = Some id) then setSelectedId None c else c).
      destruct (reload_relists s c c1 w1 l _ Hl1) as (c' & w2 & Hr & Hl2 & Hc); [unfold c1; by case_bool_decide|].
      exists (flash (js "Deleted") c'), w2, (delete id V). split_and!; [|done|left; split; [done|left; by apply relisted_flash]].
      apply catch_returns. unfold returns. run (api_returns _ c w l tt w1 Hd).
      eapply (bind_returns _ _ _ tt (c1, (w1, l))); [reflexivity|cbv beta]. run Hr. reflexivity.
    + exists (setError (Some (message e)) c), w1, V. split_and!; [|done|right; split_and!; [done| |by apply stuck_error]].
      * eapply catch_throws; [apply bind_throws; exact (api_throws _ c w l e w1 He)|reflexivity].
      * by eexists _, _, _.
  - exists c, w, V. split_and!; [done|done|left; split; [done|by right]].
  - destruct Ha as [Hst Hg]. unfold toggleFavorite. cbn [means].
    destruct (assign_identified item (js "favorite") (JBool (negb (favorite_of item)))) as [Hst' Ht]; [done|done|].
    destruct (put_outcomes s V _ c w l Hl Hst' Hg) as [(w1 & c' & w2 & Hs & Hr & Hl2 & Hc)|(data & e & w1 & Hd & Hacc & He & Hx & Hl1)].
    + rewrite Ht in Hl2, Hc. exists c', w2, (<[text_at (js "id") item := settled (fields_of (starred item))]> V).
      split_and!; [|done|left; split; [done|by left]]. apply catch_returns. unfold returns. run Hs. exact Hr.
    + exists (setError (Some (message e)) c), w1, V. split_and!; [|done|right; split_and!; [done| |by apply stuck_error]].
      * eapply catch_throws; [by apply bind_throws|reflexivity].
      * eexists _, _, _. split; [split_and!; [reflexivity|reflexivity|by exists data]|exact Hacc].
Qed.
End Actions.

(** ** Theorems *)
Section Theorems.
Context {N E L : Type} `{Unicode} `{WebCrypto} `{Environment N} `{Entropy E} `{!Clock N} `{LocalStorage L}
  `{!Sha256} `{!Dates} `{EngineText}.
Abbreviation W := (world N E).
Abbreviation S := (screen * (world N E * L))%type.

(** The web vault is a map the user looks at: saving a new or an edited item,
    changing its notes, starring and deleting it each change the vault, on the
    server and on the screen, by exactly that update of a map, and then the screen
    lists the vault and shows no error, or shows an error over the list it had when
    the server refused to read it out.  An action the server refuses changes
    nothing and shows an error. *)
Theorem web_actions_refine (base token : jsstr) `{!CipherServer N base token} (s : Session)
  (V : gmap jsstr obj) a c (w : W) (l : L)
  (Htoken : token <> []) (Hsay : engine_message JsTypeError <> [] /\ engine_message JsSyntaxError <> [])
  (Hl : linked base token s w V) (Hc : shows c V) (Ha : legal a) :
  exists c' w' V', returns (perform s a : M S unit) (c, (w, l)) tt (c', (w', l)) /\ linked base token s w' V' /\
    (means a V V' /\ relisted base token (net w') c c' V' \/
     V' = V /\ rejected base token s (net w) a /\ stuck c c').
Proof.
  destruct (action_outcomes base token Htoken Hsay s V a c w l Hl Ha) as (c' & w' & V' & Hr & Hl' & Ho).
  exists c', w', V'. split_and!; [done|done|]. destruct Ho as [[Hm [Hc'|[-> ->]]]|Ho]; [by left| |by right].
  left. split; [done|by left].
Qed.

(** The notice about the last visit, over two visits: the second one reports
    exactly the failed sign-ins and token reuses that the log has gained since and
    whose time is past the newest of the first visit; nothing is reported twice,
    and the marker moves to the newest event. *)
Theorem notice_visits s c c2 (w w1 w2 w3 : W) (st : L) e old new
  (Hfirst : returns (getActivity s) w (Some (JArr (e :: old))) w1)
  (Hd : Forall dated (new ++ e :: old))
  (Hnewest : Forall (fun e' => time_of e' <= time_of e) old)
  (Hset : forall v st, (set_local (lastSeenKey (ss_identifier s)) v st).1 = true)
  (Hsecond : returns (getActivity s) w2 (Some (JArr (new ++ e :: old))) w3) :
  exists c1 st1 st2, returns (notice s : M S unit) (c, (w, st)) tt (c1, (w1, st1)) /\
    returns (notice s : M S unit) (c2, (w2, st1)) tt (alerted (reported (NInt (time_of e)) new) c2, (w3, st2)) /\
    get_local (lastSeenKey (ss_identifier s)) st2 = Some (time_text (newest (new ++ e :: old) w3)).
Proof.
  pose proof Hd as [_ Hd1]%Forall_app.
  destruct (notice_returns s c w w1 st (e :: old) Hfirst Hd1 (fun v => Hset v st)) as (st1 & Hr1 & Hk1).
  destruct (notice_returns s c2 w2 w3 st1 (new ++ e :: old) Hsecond Hd (fun v => Hset v st1)) as (st2 & Hr2 & Hk2).
  rewrite Hk1 in Hr2. apply Forall_cons in Hd1 as [[_ Ht] _]. cbn [newest] in Hr2. rewrite time_text_marker in Hr2 by done.
  rewrite reported_again in Hr2 by (constructor; [lia|done]).
  eexists _, st1, st2. split_and!; [exact Hr1|exact Hr2|exact Hk2].
Qed.

(** The log's times have whole seconds: an attack in the same second as the newest
    event already seen is never reported. *)
Theorem notice_misses_ties s c (w w' : W) (st : L) e old new
  (Hget : returns (getActivity s) w (Some (JArr (new :: e :: old))) w')
  (Hd : Forall dated (new :: e :: old)) (Hold : Forall (fun e' => time_of e' <= time_of e) old)
  (Hset : forall v, (set_local (lastSeenKey (ss_identifier s)) v st).1 = true)
  (Hseen : get_local (lastSeenKey (ss_identifier s)) st = Some (time_text (Some (time_of e))))
  (Htie : time_of new = time_of e) :
  exists st', returns (notice s : M S unit) (c, (w, st)) tt (c, (w', st')).
Proof.
  destruct (notice_returns s c w w' st _ Hget Hd Hset) as (st' & Hr & _). exists st'.
  rewrite Hseen in Hr. apply Forall_cons in Hd as [_ [[_ Ht] _]%Forall_cons].
  rewrite time_text_marker in Hr by done.
  change (new :: e :: old) with ([] ++ (new :: e :: old)) in Hr.
  rewrite reported_again in Hr by (constructor; [lia|constructor; [lia|done]]). exact Hr.
Qed.
End Theorems.

(** ** A concrete screen *)

#[local] Instance map_storage : LocalStorage (gmap jsstr jsstr) := {|
  get_local k m := m !! k;
  set_local k v m := (true, <[k := v]> m);
  get_set_local k v m _ := lookup_insert_eq m k v;
|}.
#[local] Instance mixed_sha256 : Sha256 := {|
  sha256 := mix 32;
  sha256_length := mix_length 32;
  sha256_bytes := mix_bytes 32;
|}.
(** Times given as numbers. *)
#[local] Instance numeric_dates : Dates := {| date_ms v := match v with Some (JNum (NInt t)) => Some t | _ => None end |}.
#[local] Instance web_errors : EngineText := {| engine_message _ := js "Failed to fetch" |}.
#[local] Existing Instances latin1_unicode model_crypto lcg_entropy map_environment map_cipher_server.
#[local] Instance no_clock : Clock (gmap jsstr jsstr) := {| clock _ := 0 |}.

Lemma web_actions_refine_witness : exists c' w' id,
  returns (perform sample_session (Save (blankFields (js "card")))) (setLoading false mounted, (empty_world, ∅ : gmap jsstr jsstr))
    tt (c', (w', ∅)) /\
  sc_items c' = [with_member (js "id") (str id) (blankFields (js "card"))] /\ sc_error c' = None.
Proof.
  destruct (web_actions_refine [] (js "token") sample_session ∅ (Save (blankFields (js "card"))) (setLoading false mounted)
    empty_world (∅ : gmap jsstr jsstr)) as (c' & w' & V' & Hr & _ & Ho).
  - done.
  - done.
  - apply sample_linked.
  - by split_and!.
  - split; [apply good_savable, blank_good; set_solver|done].
  - assert (Hfine : sc_error (perform sample_session (Save (blankFields (js "card")))
      (setLoading false mounted, (empty_world, ∅ : gmap jsstr jsstr))).2.1 = None) by (vm_compute; reflexivity).
    rewrite Hr in Hfine. cbn [fst snd] in Hfine.
    assert (Hno : forall c, stuck c c' -> False) by (intros c (_ & (m & Hm & _) & _); congruence).
    destruct Ho as [((id & _ & _ & ->) & [(Hp & He & _)|[Hs _]])|(_ & _ & Hs)]; [|by destruct (Hno _ Hs)..].
    exists c', w', id. split; [exact Hr|]. split; [|exact He].
    rewrite map_to_list_insert in Hp by done. rewrite map_to_list_empty in Hp.
    apply Permutation_singleton_r in Hp. exact Hp.
Defined.

(** A server whose whole state is the log it answers with. *)
Definition log_server (r : request) (l : list json) : option response * list json :=
  (Some {| rs_status := 200; rs_text := stringify (JObj [(js "events", JArr l)]) |}, l).
#[local] Instance log_environment : Environment (list json) := {|
  handle := log_server;
  startAuthentication _ n := (inr LibraryError, n);
  startRegistration _ n := (inr LibraryError, n);
|}.
#[local] Instance log_clock : Clock (list json) := {| clock _ := 0 |}.

Definition event_at (kind : jsstr) (t : Z) : json :=
  JObj [(js "event", JStr kind); (js "createdAt", JNum (NInt t))].
Definition first_log := [event_at (js "login.success") 1000; event_at login_failure 500].
Definition later_events := [event_at login_failure 3000; event_at (js "login.success") 2000; event_at login_failure 1500].
Definition log_world (l : list json) : world (list json) Z := World [] l 1.

Lemma notice_visits_witness : exists c1 st1 st2,
  returns (notice sample_session) (mounted, (log_world first_log, ∅ : gmap jsstr jsstr)) tt (c1, (log_world first_log, st1)) /\
  returns (notice sample_session) (mounted, (log_world (later_events ++ first_log), st1)) tt
    (setLoginAlert (Some (js "Since your last visit: 2 failed sign-in attempts. If that wasn't you, review your activity.")) mounted,
     (log_world (later_events ++ first_log), st2)).
Proof.
  assert (E : alerted (reported (NInt (time_of (event_at (js "login.success") 1000))) later_events) mounted =
    setLoginAlert (Some (js "Since your last visit: 2 failed sign-in attempts. If that wasn't you, review your activity.")) mounted)
    by (vm_compute; reflexivity).
  destruct (notice_visits sample_session mounted mounted (log_world first_log) (log_world first_log)
    (log_world (later_events ++ first_log)) (log_world (later_events ++ first_log)) (∅ : gmap jsstr jsstr)
    (event_at (js "login.success") 1000) [event_at login_failure 500] later_events) as (c1 & st1 & st2 & Hr1 & Hr2 & _).
  - unfold returns. vm_compute. reflexivity.
  - repeat (constructor; [split; [vm_compute; reflexivity|vm_compute; split; [discriminate|reflexivity]]|]). constructor.
  - constructor; [vm_compute; discriminate|constructor].
  - done.
  - unfold returns. vm_compute. reflexivity.
  - exists c1, st1, st2. split; [exact Hr1|]. rewrite E in Hr2. exact Hr2.
Defined.
