(* ===== verification/WebPanels.v ===== *)
(** apps/web/src/VaultScreen.tsx: the panels of the vault screen (two-factor,
    passkeys, recovery code, account, sharing, security check), each a small state
    over the API client. *)
From S2P Require Import Prelude Text Numeral Json JsonFacts Encoding JsonText Effects Platform Primitives.
From S2P Require Import Kdf Identifier Account Totp Items Api Session Background Views Health.

(** ** The panels' states *)

Record two_factor := TwoFactor {
  tf_enabled : jsv;                       (* what the server said; then true or false *)
  tf_setup : option (jsv * jsstr);        (* the secret and its otpauth URI *)
  tf_code : jsstr;
  tf_error : option jsstr;
}.
Record passkeys := Passkeys { pk_creds : jsv; pk_name : jsstr; pk_error : option jsstr }.
Record recovery := Recovery { rc_enabled : jsv; rc_code : option jsstr; rc_error : option jsstr }.
Record account_panel := AccountPanel {
  ap_locked : bool;                       (* onDeleted was called: the app is locked *)
  ap_confirm : jsstr;
  ap_busy : bool;
  ap_signingOut : bool;
  ap_sessions : jsv;
  ap_error : option jsstr;
}.
Record activity := Activity { ac_events : jsv; ac_error : option jsstr }.
Record share_dialog := ShareDialog { sd_recipient : jsstr; sd_shared : bool; sd_error : option jsstr }.
Record shared_list := SharedWithMe { sw_items : option (list obj); sw_error : option jsstr }.
Record security := SecurityCheck { sec_breaches : option (gmap jsstr Z); sec_error : option jsstr }.

Definition empty_recipient := js "Enter a recipient identifier.".
Definition em_dash : Z := 8212.
Definition could_not_share :=
  js "Could not share " ++ em_dash :: js " check the recipient identifier.".

Section Panels.
Context {N E : Type} `{Unicode} `{WebCrypto} `{Environment N} `{Entropy E} `{EngineText}.
Abbreviation W := (world N E).

Section State.
Context {P : Type}.
Abbreviation S := (P * world N E)%type.

Definition api {A} (m : M W A) : M S A := fun s => let '(r, w) := m s.2 in (r, (s.1, w)).
Definition upd (f : P -> P) : M S unit := modify (fun s => (f s.1, s.2)).
Definition current : M S P := gets fst.

(** The shape of every button: clear the error, try, and report. *)
Definition button (setError : option jsstr -> P -> P) (m : M S unit) : M S bool :=
  _ ← upd (setError None);
  catch (_ ← m; mret true) (fun e => _ ← upd (setError (Some (message e))); mret false).
End State.

(** ** Two-factor authentication *)

Definition setTfError e p := TwoFactor (tf_enabled p) (tf_setup p) (tf_code p) e.
Definition typeCode c p := TwoFactor (tf_enabled p) (tf_setup p) c (tf_error p).

Definition openTwoFactor (s : Session) : M (two_factor * W) unit :=
  catch (r ← api (getTwoFactorStatus s);
         e ← api (member (js "enabled") (Some r));
         upd (fun p => TwoFactor e (tf_setup p) (tf_code p) (tf_error p)))
        (fun e => upd (setTfError (Some (message e)))).

Definition startSetup (s : Session) : M (two_factor * W) bool :=
  button setTfError (r ← api (setupTwoFactor s);
                     upd (fun p => TwoFactor (tf_enabled p) (Some r) (tf_code p) (tf_error p))).

Definition enable (s : Session) : M (two_factor * W) bool :=
  p ← current;
  button setTfError (_ ← api (enableTwoFactor s (tf_code p));
                     upd (fun p => TwoFactor (Some (JBool true)) None [] (tf_error p))).

Definition disable (s : Session) : M (two_factor * W) bool :=
  p ← current;
  button setTfError (_ ← api (disableTwoFactor s (tf_code p));
                     upd (fun p => TwoFactor (Some (JBool false)) (tf_setup p) [] (tf_error p))).

(** ** Passkeys *)

Definition setPkError e p := Passkeys (pk_creds p) (pk_name p) e.

(** [refresh] reports its own errors. *)
Definition refresh (s : Session) : M (passkeys * W) unit :=
  catch (c ← api (listPasskeys s); upd (fun p => Passkeys c (pk_name p) (pk_error p)))
        (fun e => upd (setPkError (Some (message e)))).

Definition removePasskeyButton (s : Session) (id : jsstr) : M (passkeys * W) bool :=
  button setPkError (_ ← api (removePasskey s id); refresh s).

(** [supported]: whether the browser has passkeys at all. *)
Definition addPasskey (supported : bool) (s : Session) : M (passkeys * W) bool :=
  if supported then
    p ← current;
    button setPkError (_ ← api (enrollPasskey s (or_text (trim (pk_name p)) (js "Passkey")));
                       _ ← upd (fun p => Passkeys (pk_creds p) [] (pk_error p));
                       refresh s)
  else _ ← upd (setPkError None); mret false.

(** ** Recovery code *)

Definition setRcError e p := Recovery (rc_enabled p) (rc_code p) e.

Definition openRecovery (s : Session) : M (recovery * W) unit :=
  catch (r ← api (getRecoveryStatus s);
         e ← api (member (js "enabled") (Some r));
         upd (fun p => Recovery e (rc_code p) (rc_error p)))
        (fun e => upd (setRcError (Some (message e)))).

Definition generate (s : Session) : M (recovery * W) bool :=
  button setRcError (c ← api (enableRecovery s);
                     upd (fun p => Recovery (Some (JBool true)) (Some c) (rc_error p))).

Definition removeRecovery (s : Session) : M (recovery * W) bool :=
  button setRcError (_ ← api (disableRecovery s);
                     upd (fun p => Recovery (Some (JBool false)) (rc_code p) (rc_error p))).

(** ** The account: both buttons lock the app once the server has agreed *)

Definition setApError e p := AccountPanel (ap_locked p) (ap_confirm p) (ap_busy p) (ap_signingOut p) (ap_sessions p) e.
Definition setBusy b p := AccountPanel (ap_locked p) (ap_confirm p) b (ap_signingOut p) (ap_sessions p) (ap_error p).
Definition setSigningOut b p := AccountPanel (ap_locked p) (ap_confirm p) (ap_busy p) b (ap_sessions p) (ap_error p).
Definition setSessions v p := AccountPanel (ap_locked p) (ap_confirm p) (ap_busy p) (ap_signingOut p) v (ap_error p).
Definition onDeleted p := AccountPanel true (ap_confirm p) (ap_busy p) (ap_signingOut p) (ap_sessions p) (ap_error p).

Definition openAccount (s : Session) : M (account_panel * W) unit :=
  catch (v ← api (getSessions s); upd (setSessions v)) (fun _ => upd (setSessions (Some (JArr [])))).

(** What the two buttons share: the flag stays set when the server agreed. *)
Definition leave (flag : bool -> account_panel -> account_panel) (call : M W json) : M (account_panel * W) unit :=
  _ ← upd (fun p => flag true (setApError None p));
  catch (_ ← api call; upd onDeleted)
        (fun e => upd (fun p => flag false (setApError (Some (message e)) p))).
Definition signOutAll (s : Session) : M (account_panel * W) unit := leave setSigningOut (signOutEverywhere s).
Definition del (s : Session) : M (account_panel * W) unit := leave setBusy (deleteAccount s).

(** The delete button works once DELETE is typed, and not while it is running. *)
Definition del_enabled (p : account_panel) : bool := str_eqb (ap_confirm p) (js "DELETE") && negb (ap_busy p).
Definition pressDelete (s : Session) : M (account_panel * W) unit :=
  p ← current; if del_enabled p then del s else mret tt.

(** ** Activity *)

Definition openActivity (s : Session) : M (activity * W) unit :=
  catch (v ← api (getActivity s); upd (fun p => Activity v (ac_error p)))
        (fun e => upd (fun p => Activity (ac_events p) (Some (message e)))).

(** ** Sharing *)

Definition setSdError e p := ShareDialog (sd_recipient p) (sd_shared p) e.
Definition share (s : Session) (item : obj) : M (share_dialog * W) bool :=
  _ ← upd (setSdError None);
  p ← current;
  match trim (sd_recipient p) with
  | [] => _ ← upd (setSdError (Some empty_recipient)); mret false
  | to =>
      catch (_ ← api (shareItem s to item);
             _ ← upd (fun p => ShareDialog (sd_recipient p) true (sd_error p));
             mret true)
            (fun e => _ ← upd (setSdError (Some (or_text (message e) could_not_share))); mret false)
  end.

Definition setSwError e p := SharedWithMe (sw_items p) e.
Definition reloadShared (s : Session) : M (shared_list * W) unit :=
  catch (l ← api (listSharedWithMe s); upd (fun p => SharedWithMe (Some l) (sw_error p)))
        (fun e => upd (setSwError (Some (message e)))).
(** The source does not wait for [reload]; here it runs to its end. *)
Definition removeShare (s : Session) (shareId : jsstr) : M (shared_list * W) bool :=
  catch (_ ← api (removeSharedItem s shareId); _ ← reloadShared s; mret true)
        (fun e => _ ← upd (setSwError (Some (message e))); mret false).
End Panels.

(** ** Security check *)

(** A Map from ids to complaints, the last item of an id winning. *)
Definition weakById (items : list obj) : gmap jsstr jsstr :=
  foldl (fun m it => match passwordWeakness (password_of it) with
                     | Some w => <[id_of it := w]> m
                     | None => m
                     end) ∅ items.

Definition withPasswords (items : list obj) : nat :=
  length (List.filter (fun it => negb (bool_decide (password_of it = []))) items).

Definition flagged (items : list obj) (breaches : option (gmap jsstr Z)) : list obj :=
  List.filter (fun it =>
    bool_decide (is_Some (weakById items !! id_of it)) || bool_decide (id_of it ∈ reusedItemIds items)
    || (0 <? default 0 (breaches ≫= fun m => m !! id_of it))) items.

(** What the panel says when nothing is flagged. *)
Definition all_clear (items : list obj) (breaches : option (gmap jsstr Z)) : jsstr :=
  (if (withPasswords items =? 0)%nat then js "No stored passwords to check yet." else js "No weak or reused passwords found.")
  ++ (if bool_decide (is_Some breaches) && (0 <? withPasswords items)%nat then js " No breached passwords either." else []).

Section Check.
Context {N E : Type} `{Unicode} `{Sha1} `{Environment N} `{EngineText}.
Abbreviation W := (world N E).

Definition runBreachCheck (items : list obj) : M (security * W) unit :=
  _ ← upd (fun p => SecurityCheck (sec_breaches p) None);
  catch (m ← api (breachedItemIds items); upd (fun p => SecurityCheck (Some m) (sec_error p)))
        (fun e => upd (fun p => SecurityCheck (sec_breaches p) (Some (message e)))).
End Check.

(** ** Laws *)

Section Laws.
Context {N E : Type} `{Unicode} `{WebCrypto} `{Environment N} `{Entropy E} `{EngineText}.
Abbreviation W := (world N E).

Section State.
Context {P : Type}.
Abbreviation S := (P * world N E)%type.

Lemma api_run {A} (m : M W A) (p : P) w :
  (api m : M S A) (p, w) = match m w with (r, w') => (r, (p, w')) end.
Proof. unfold api. cbn [fst snd]. by destruct (m w). Qed.

(** A button whose work is one call and an update of the panel. *)
Lemma button_call {A} setError (m : M W A) (f : A -> P -> P) (p : P) w :
  (button setError (a ← api m; upd (f a)) : M S bool) (p, w) =
    match m w with
    | (inl a, w') => (inl true, (f a (setError None p), w'))
    | (inr e, w') => (inl false, (setError (Some (message e)) (setError None p), w'))
    end.
Proof.
  unfold button, catch, mbind, M_bind, upd, modify. cbn [fst snd]. rewrite api_run. by destruct (m w) as [[a|e] w'].
Qed.
End State.

Lemma leave_run flag (m : M W json) (p : account_panel) (w : W) :
  leave flag m (p, w) =
    match m w with
    | (inl _, w') => (inl tt, (onDeleted (flag true (setApError None p)), w'))
    | (inr e, w') => (inl tt, (flag false (setApError (Some (message e)) (flag true (setApError None p))), w'))
    end.
Proof.
  unfold leave, catch, mbind, M_bind, upd, modify. cbn [fst snd]. rewrite api_run. by destruct (m w) as [[a|e] w'].
Qed.

Lemma enableRecovery_inv (s : Session) (w w' : W) code :
  user_key_ok (ss_userKey s) -> returns (enableRecovery s) w code w' ->
  exists ids sealedKey rk w1 v w2, code = phrase ids /\ length ids = 24%nat /\ ids_ok ids /\
    returns (recoveryEnable (N := N) (E := E) (ss_accessToken s) sealedKey (recoveryAuthHash rk)) w1 v w2 /\
    (forall x : W, returns (deriveRecoveryKeys (phrase ids)) x rk x) /\
    aes_key_ok (recoveryEncKey rk) = true /\ sealed (recoveryEncKey rk) (ss_userKey s) sealedKey.
Proof.
  intros Hk Hr. destruct (enrollRecovery_returns (ss_userKey s) w Hk) as (ids & sk & rk & w1 & He & Hl & Hid & Hrk & Hok & Hs).
  unfold enableRecovery in Hr. apply bind_inv in Hr as (r & w1' & He' & Hr).
  unfold returns in He, He'. rewrite He in He'. injection He' as <- <-. cbn in Hr.
  apply bind_inv in Hr as (v & w2 & Hv & Hr). apply ret_inv in Hr as [-> _].
  by exists ids, sk, rk, w1, v, w2.
Qed.
End Laws.

Section Flags.

Lemma weakById_snoc items it :
  weakById (items ++ [it]) = match passwordWeakness (password_of it) with
                             | Some w => <[id_of it := w]> (weakById items)
                             | None => weakById items
                             end.
Proof. unfold weakById. by rewrite foldl_app. Qed.

Lemma weakById_ids items id : is_Some (weakById items !! id) -> id ∈ map id_of items.
Proof.
  induction items as [|it items IH] using rev_ind; [by intros []|]. rewrite weakById_snoc, map_app, elem_of_app.
  destruct (passwordWeakness (password_of it)) as [w|]; [|by auto].
  destruct (decide (id = id_of it)) as [->|Hne]; [right; by left|]. rewrite lookup_insert_ne by done. by auto.
Qed.

Lemma weakById_lookup items it : NoDup (map id_of items) -> it ∈ items ->
  weakById items !! id_of it = passwordWeakness (password_of it).
Proof.
  induction items as [|x items IH] using rev_ind; [by intros _ ?%not_elem_of_nil|].
  rewrite map_app, weakById_snoc. intros (Hd & Hx & _)%NoDup_app Hin.
  assert (Hfresh : weakById items !! id_of x = None).
  { apply eq_None_not_Some. intros Hs%weakById_ids. by apply (Hx _ Hs), list_elem_of_here. }
  apply elem_of_app in Hin as [Hin|Hin].
  - assert (Hne : id_of x <> id_of it).
    { intros Heq. apply (Hx (id_of it)); [by apply list_elem_of_fmap_2|]. apply list_elem_of_singleton. by symmetry. }
    destruct (passwordWeakness (password_of x)); [rewrite lookup_insert_ne by done|]; by apply IH.
  - apply list_elem_of_singleton in Hin as ->. destruct (passwordWeakness (password_of x)) eqn:Ex; [by rewrite lookup_insert_eq|done].
Qed.
End Flags.

(** A check whose requests fail marks nothing and reports nothing. *)
Section Offline.
Context {N E : Type} `{Unicode} `{Sha1} `{Environment N} `{EngineText}.
Hypothesis offline : forall r (n : N), (handle r n).1 = None.

Lemma fetch_offline r (w : world N E) : exists w', fetch r w = (inr JsTypeError, w').
Proof. unfold fetch. specialize (offline r (net w)). destruct (handle r (net w)) as [o n]. cbn in offline. subst o. by eexists. Qed.

Lemma breached_loop_offline unique out : forall w : world N E, exists w', returns (breached_loop unique out) w out w'.
Proof.
  induction unique as [|[pw ids] unique IH]; intros w; [by exists w|].
  destruct (fetch_offline (range_request (take 5 (sha1Hex pw)) [(js "Add-Padding", js "true")]) w) as [w1 Hw1].
  destruct (fetch_offline (range_request (take 5 (sha1Hex pw)) []) w1) as [w2 Hw2].
  destruct (IH w2) as [w' Hr]. exists w'. unfold returns. cbn [breached_loop].
  eapply bind_returns; [|exact Hr]. unfold returns, catch at 1, breachCount, mbind, M_bind. cbv zeta.
  unfold catch. by rewrite Hw1, Hw2.
Qed.
End Offline.

(** With distinct ids an id stands for its item. *)
Lemma id_of_item items it jt : NoDup (map id_of items) -> it ∈ items -> jt ∈ items -> id_of jt = id_of it -> jt = it.
Proof.
  intros Hn (i & Hi)%list_elem_of_lookup (j & Hj)%list_elem_of_lookup E.
  assert (i = j) as ->; [|congruence].
  eapply (NoDup_lookup (map id_of items)); [done|by rewrite list_lookup_fmap, Hi|].
  by rewrite list_lookup_fmap, Hj; cbn; rewrite E.
Qed.

(** ** Theorems *)
Section Theorems.
Context {N E : Type} `{Unicode} `{WebCrypto} `{Environment N} `{Entropy E} `{EngineText}.
Abbreviation W := (world N E).

(** C28: a recovery code is shown only once the server has accepted its enrolment,
    and the shown code then works: typed in any case and spacing, with what the
    server was sent, it gives back the session's user key under a new password,
    and the verifier the server has.  When enrolling fails an error is shown and
    the code on the screen is left alone. *)
Theorem shown_code_recovers (s : Session) (p p' : recovery) (w w' : W) b
  (Hk : user_key_ok (ss_userKey s)) (Hg : returns (generate s) (p, w) b (p', w')) :
  if b then
    exists code sealedKey hash w1 v w2, p' = Recovery (Some (JBool true)) (Some code) None /\
      returns (recoveryEnable (N := N) (E := E) (ss_accessToken s) sealedKey hash) w1 v w2 /\
      length (fields code) = 24%nat /\
      forall typed i pw prm (x : W), ascii typed -> map (map ascii_lower) (fields typed) = fields code ->
        pw <> [] -> identifier_ok i -> params_ok prm ->
        exists r x', returns (completeRecovery typed (Some (JStr sealedKey)) i pw (Some prm)) x r x' /\
          rr_userKey r = ss_userKey s /\ rr_recoveryAuthHash r = hash
  else exists e, p' = Recovery (rc_enabled p) (rc_code p) (Some e).
Proof.
  unfold returns, generate in Hg. rewrite button_call in Hg.
  destruct (enableRecovery s w) as [[code|e] w2] eqn:Ee; injection Hg as <- <- <-; [|by eexists].
  apply enableRecovery_inv in Ee as (ids & sk & rk & w1 & v & w3 & -> & Hl & Hid & Hv & Hrk & Hok & Hs); [|done].
  exists (phrase ids), sk, (recoveryAuthHash rk), w1, v, w3. split_and!; [done..|by rewrite phrase_fields, length_map|].
  intros typed i pw prm x Ht Hf Hp Hi Hprm.
  rewrite <- (deriveRecoveryKeys_normal _ _ (phrase_spelled ids typed Hid Ht Hf)) in Hrk.
  destruct (completeRecovery_returns typed i pw prm (ss_userKey s) sk rk x Hp Hi Hprm Hk Hrk Hok Hs)
    as (r & mk & st & x' & Hr & Hu & _ & Ha & _). by exists r, x'.
Qed.

(** The account is deleted, and the app locked, only with DELETE typed and
    after the server agreed; when it refuses, the panel is usable again and says
    why, and nothing else of it changes. *)
Theorem pressDelete_outcomes (s : Session) (p : account_panel) (w : W) :
  exists p' w', returns (pressDelete s) (p, w) tt (p', w') /\
    if del_enabled p then
      ap_confirm p = js "DELETE" /\
      match deleteAccount s w with
      | (inl _, w1) => w' = w1 /\ p' = onDeleted (setBusy true (setApError None p))
      | (inr e, w1) => w' = w1 /\ p' = setApError (Some (message e)) p
      end
    else p' = p /\ w' = w.
Proof.
  unfold returns, pressDelete, mbind, M_bind, current, gets. cbn [fst snd].
  destruct (del_enabled p) eqn:Ed; [|by exists p, w]. unfold del. rewrite leave_run.
  unfold del_enabled, str_eqb in Ed. apply andb_true_iff in Ed as [Hc%bool_decide_eq_true Hb%negb_true_iff].
  destruct p as [l c b so v e]. cbn in Hc, Hb. subst c b.
  destruct (deleteAccount s w) as [[a|x] w1]; eexists _, _; (split; [reflexivity|]); done.
Qed.

(** Nothing is sent to a blank recipient; the dialog says so. *)
Theorem blank_recipient_unsent (s : Session) item (p : share_dialog) (w : W) (Hb : trim (sd_recipient p) = []) :
  share s item (p, w) = (inl false, (ShareDialog (sd_recipient p) (sd_shared p) (Some empty_recipient), w)).
Proof. unfold share, mbind, M_bind, upd, modify, current, gets. cbn [fst snd sd_recipient sd_shared setSdError]. by rewrite Hb. Qed.
End Theorems.

(** With distinct ids, an item is in the report exactly when its password is
    weak, or shared by two items, or was found breached. *)
Theorem flagged_exact items breaches it (Hids : NoDup (map id_of items)) (Hit : it ∈ items) :
  it ∈ flagged items breaches <->
    is_Some (passwordWeakness (password_of it))
    \/ password_of it <> [] /\ (2 <= length (filter (fun jt => password_of jt = password_of it) items))%nat
    \/ exists m n, breaches = Some m /\ m !! id_of it = Some n /\ 0 < n.
Proof.
  unfold flagged. rewrite list_elem_of_In, filter_In, <- list_elem_of_In.
  rewrite !orb_true_iff, !bool_decide_eq_true, Z.ltb_lt, weakById_lookup by done.
  destruct (reusedItemIds_items items) as [_ Hr]. rewrite Hr.
  assert (Hc : 0 < default 0 (breaches ≫= fun m => m !! id_of it) <->
    exists m n, breaches = Some m /\ m !! id_of it = Some n /\ 0 < n).
  { destruct breaches as [m|]; cbn; [|split; [lia|by intros (?&?&?&_)]].
    destruct (m !! id_of it) as [n|] eqn:En; cbn; (split; [|intros (m' & n' & [= <-] & En' & Hn'); naive_solver]); [|lia].
    intros Hn. by exists m, n. }
  rewrite Hc. split; [|naive_solver]. intros (_ & [[Hw|(jt & Hj & Ej & Hne & Hl)]|Hb]); [by left| |by right; right].
  assert (jt = it) as -> by (by eapply id_of_item). by right; left.
Qed.

(** When no request gets through, the breach check still reports success: nothing
    is marked, no error is shown, and with nothing else flagged the panel says
    that no breached passwords were found. *)
Theorem offline_all_clear {N E} `{Unicode} `{Sha1} `{Environment N} `{EngineText} items (p : security) (w : world N E)
  (Hoff : forall r (n : N), (handle r n).1 = None) (Hpw : (0 < withPasswords items)%nat) :
  exists w', returns (runBreachCheck items) (p, w) tt (SecurityCheck (Some ∅) None, w') /\
    all_clear items (Some ∅) = js "No weak or reused passwords found. No breached passwords either.".
Proof.
  destruct (breached_loop_offline Hoff (byPassword items) ∅ w) as [w' Hr]. exists w'. split.
  - unfold returns, runBreachCheck, breachedItemIds, catch, mbind, M_bind, upd, modify. cbn [fst snd].
    rewrite api_run. unfold returns in Hr. by rewrite Hr.
  - unfold all_clear. rewrite bool_decide_eq_true_2 by done. destruct (withPasswords items); [lia|done].
Qed.

(** ** Concrete inputs *)
#[local] Existing Instances latin1_unicode model_crypto lcg_entropy.
#[local] Instance agreeing : Environment unit := {|
  handle r n := (Some {| rs_status := 200; rs_text := js "{}" |}, n);
  startAuthentication _ n := (inr LibraryError, n);
  startRegistration _ n := (inr LibraryError, n);
|}.
#[local] Instance panel_errors : EngineText := {| engine_message _ := js "Failed to fetch" |}.

Definition panel_world : world unit Z := World [] tt 5.
Definition panel_session : Session :=
  {| ss_identifier := js "alice@example.org"; ss_accessToken := Some (JStr (js "token"));
     ss_refreshToken := None; ss_userKey := sample_key; ss_protectedPrivateKey := None |}.

Lemma shown_code_recovers_witness : exists p' w', returns (generate panel_session) (Recovery None None None, panel_world) true (p', w') /\
  exists code sealedKey hash w1 v w2, p' = Recovery (Some (JBool true)) (Some code) None /\
    returns (recoveryEnable (N := unit) (E := Z) (ss_accessToken panel_session) sealedKey hash) w1 v w2 /\
    length (fields code) = 24%nat /\
    forall typed i pw prm (x : world unit Z), ascii typed -> map (map ascii_lower) (fields typed) = fields code ->
      pw <> [] -> identifier_ok i -> params_ok prm ->
      exists r x', returns (completeRecovery typed (Some (JStr sealedKey)) i pw (Some prm)) x r x' /\
        rr_userKey r = ss_userKey panel_session /\ rr_recoveryAuthHash r = hash.
Proof.
  assert (Hb : (generate panel_session (Recovery None None None, panel_world)).1 = inl true) by (vm_compute; reflexivity).
  destruct (generate panel_session (Recovery None None None, panel_world)) as [r [p' w']] eqn:Eg.
  cbn [fst] in Hb. subst r.
  exists p', w'. split; [exact Eg|].
  exact (shown_code_recovers panel_session _ p' _ w' true sample_key_ok Eg).
Defined.

Definition stored_login (id password : jsstr) : obj := [(js "id", JStr id); (js "password", JStr password)].
Definition stored_logins : list obj :=
  [stored_login (js "a") (js "hunter2"); stored_login (js "b") (js "Tr0ub4dor&3x"); stored_login (js "c") (js "Tr0ub4dor&3x")].

Lemma flagged_exact_witness :
  let it := stored_login (js "b") (js "Tr0ub4dor&3x") in
  it ∈ flagged stored_logins None <->
    is_Some (passwordWeakness (password_of it))
    \/ password_of it <> [] /\ (2 <= length (filter (fun jt => password_of jt = password_of it) stored_logins))%nat
    \/ exists (m : gmap jsstr Z) n, None = Some m /\ m !! id_of it = Some n /\ 0 < n.
Proof.
  apply (flagged_exact stored_logins None); [|right; left].
  apply (bool_decide_unpack _). vm_compute. exact I.
Defined.

Lemma blank_recipient_unsent_witness :
  share panel_session [] (ShareDialog (js "  ") false None, panel_world)
    = (inl false, (ShareDialog (js "  ") false (Some empty_recipient), panel_world)).
Proof. apply (blank_recipient_unsent panel_session [] (ShareDialog (js "  ") false None)). reflexivity. Defined.
