(* ===== verification/Editor.v ===== *)
(** apps/web/src/VaultScreen.tsx: the item editor, and the detail pane with its
    notes.  The editors of the popup and of the desktop app are the part of it
    that sets texts. *)
From S2P Require Import Prelude Text Numeral Json JsonFacts Encoding JsonText Objects Effects Platform Primitives.
From S2P Require Import Kdf Account Items Api Session Background Views VaultStore WebVault.

(** ** Editing *)

(** What the form can do to the item in it. *)
Inductive edit :=
| SetText (k v : jsstr)            (* set: name, url, username, password, totp, notes, folder *)
| SetType (t : jsstr)
| SetCard (k v : jsstr)
| SetIdentity (k v : jsstr)
| SetLabel (i : nat) (v : jsstr)   (* setField *)
| SetValue (i : nat) (v : jsstr)
| ToggleHidden (i : nat)
| DropField (i : nat)
| AddField
| SetFavorite (b : bool).

(** [...v] in an object literal *)
Definition spread (v : jsv) : obj := match v with Some w => own_props w | None => [] end.

(** [{ ...prev, [k]: v }] *)
Definition set (k v : jsstr) (prev : obj) : obj := obj_put k (JStr v) prev.
(** [{ ...prev, [part]: { ...prev[part], [k]: v } }] *)
Definition setPart (part k v : jsstr) (prev : obj) : obj :=
  obj_put part (JObj (obj_put k (JStr v) (spread (obj_get part prev)))) prev.
Definition setCard := setPart (js "card").
Definition setIdentity := setPart (js "identity").

(** [prev.fields]; what is not an array has no [map] or [filter]. *)
Definition fields_in (prev : obj) : option (list json) :=
  match obj_get (js "fields") prev with Some (JArr l) => Some l | _ => None end.
Definition put_fields (l : list json) (prev : obj) : obj := obj_put (js "fields") (JArr l) prev.

Definition patch_at (i : nat) (patch : json -> obj) (l : list json) : list json :=
  imap (fun j f => if (j =? i)%nat then JObj (obj_assign (own_props f) (patch f)) else f) l.
Definition setField (i : nat) (patch : json -> obj) (prev : obj) : option obj :=
  l ← fields_in prev; Some (put_fields (patch_at i patch l) prev).
Definition without (i : nat) (l : list json) : list json := take i l ++ drop (S i) l.
Definition blankField : json := JObj [(js "label", JStr []); (js "value", JStr [])].

Definition edit_item (e : edit) (prev : obj) : option obj :=
  match e with
  | SetText k v => Some (set k v prev)
  | SetType t => Some (obj_put (js "type") (JStr t) prev)
  | SetCard k v => Some (setCard k v prev)
  | SetIdentity k v => Some (setIdentity k v prev)
  | SetLabel i v => setField i (fun _ => [(js "label", JStr v)]) prev
  | SetValue i v => setField i (fun _ => [(js "value", JStr v)]) prev
  | ToggleHidden i => setField i (fun f => [(js "hidden", JBool (negb (truthy (get_prop (js "hidden") f))))]) prev
  | DropField i => l ← fields_in prev; Some (put_fields (without i l) prev)
  | AddField => l ← fields_in prev; Some (put_fields (l ++ [blankField]) prev)
  | SetFavorite b => Some (obj_put (js "favorite") (JBool b) prev)
  end.

Fixpoint edits (es : list edit) (prev : obj) : option obj :=
  match es with [] => Some prev | e :: es' => next ← edit_item e prev; edits es' next end.

(** A new item: [{ id: "", ...blankFields() }]. *)
Definition new_item : obj := with_member (js "id") (str []) (blankFields (js "login")).

(** The keys and texts the form's inputs give. *)
Definition edit_ok (e : edit) : Prop :=
  match e with
  | SetText k v => k ∈ TEXT_KEYS /\ units_ok v
  | SetType t => t ∈ item_types
  | SetCard k v => k ∈ keys blankCard /\ units_ok v
  | SetIdentity k v => k ∈ keys blankIdentity /\ units_ok v
  | SetLabel _ v | SetValue _ v => units_ok v
  | _ => True
  end.

(** ** The draft in the form *)

(** A custom field as the form holds it: unmasking leaves [hidden: false]. *)
Definition custom_draft (f : json) : Prop :=
  exists label value hidden, f = JObj ([(js "label", JStr label); (js "value", JStr value)] ++ hidden) /\
    (hidden = [] \/ exists b, hidden = [(js "hidden", JBool b)]).
Definition settle_custom (f : json) : json :=
  match f with
  | JObj (l :: v :: _) => JObj ([l; v] ++ if truthy (get_prop (js "hidden") f) then [(js "hidden", JBool true)] else [])
  | _ => f
  end.

Definition covers (b o : obj) : Prop := forall k, k ∈ keys b -> is_Some (obj_get k o).
Definition member_shape (k : jsstr) (v : json) : Prop :=
  if str_eqb k (js "type") then exists t, v = JStr t /\ t ∈ item_types
  else if str_eqb k (js "card") then exists c, v = JObj c /\ covers blankCard c
  else if str_eqb k (js "identity") then exists c, v = JObj c /\ covers blankIdentity c
  else if str_eqb k (js "fields") then exists l, v = JArr l /\ Forall custom_draft l
  else if str_eqb k (js "favorite") then exists b, v = JBool b
  else k ∈ TEXT_KEYS -> exists s, v = JStr s.

(** The draft is printable and has every member of an item, in its shape. *)
Definition draft_ok (d : obj) : Prop :=
  json_ok (JObj d) /\
  forall k, k ∈ keys (blankFields (js "login")) -> exists v, obj_get k d = Some v /\ member_shape k v.

Definition part_of (part : jsstr) (d : obj) : obj := match obj_get part d with Some (JObj c) => c | _ => [] end.
Definition customs_of (d : obj) : list json := default [] (fields_in d).

(** The item [it] holds everything the draft [d] says. *)
Record reads_as (d it : obj) : Prop := {
  ra_plain : forall k, k ∈ js "type" :: js "favorite" :: TEXT_KEYS -> obj_get k it = obj_get k d;
  ra_card : forall k, k ∈ keys blankCard -> obj_get k (part_of (js "card") it) = obj_get k (part_of (js "card") d);
  ra_identity : forall k, k ∈ keys blankIdentity -> obj_get k (part_of (js "identity") it) = obj_get k (part_of (js "identity") d);
  ra_fields : customs_of it = map settle_custom (customs_of d);
}.

(** What was last typed into a text input. *)
Fixpoint typed (k : jsstr) (es : list edit) (old : jsstr) : jsstr :=
  match es with
  | [] => old
  | SetText k' v :: es' => typed k es' (if str_eqb k k' then v else old)
  | _ :: es' => typed k es' old
  end.

(** Membership in a list of keys, computed. *)
Ltac in_keys := apply (bool_decide_unpack _); vm_compute; exact I.

Lemma text_set k v o : text_at k (set k v o) = v.
Proof. unfold text_at, set. by rewrite obj_get_put_eq. Qed.
Lemma text_set_ne k v o k' : k' <> k -> text_at k' (set k v o) = text_at k' o.
Proof. intros Hk. unfold text_at, set. by rewrite obj_get_put_ne. Qed.

(** ** Objects *)

Lemma json_ok_put k v o : units_ok k -> json_ok v -> json_ok (JObj o) -> json_ok (JObj (obj_put k v o)).
Proof.
  intros Hk Hv [Ho Hf]%json_ok_obj. apply json_ok_obj. split; [by apply keys_ok_put|]. by apply Forall_put.
Qed.

Lemma json_ok_assign o es : json_ok (JObj o) -> Forall member_ok es -> json_ok (JObj (obj_assign o es)).
Proof. intros [Ho Hf]%json_ok_obj He. apply json_ok_obj. split; [by apply keys_ok_assign|by apply Forall_assign]. Qed.

Lemma obj_get_delete k j o : k <> j -> obj_get k (obj_delete j o) = obj_get k o.
Proof.
  intros Hn. induction o as [|[i v] o IH]; [done|]. unfold obj_delete. cbn [List.filter].
  destruct (str_eqb (i, v).1 j) eqn:Ei; cbn [negb]; fold (obj_delete j o); cbn [obj_get]; rewrite IH; [|done].
  apply str_eqb_spec in Ei. cbn [fst] in Ei. subst i. by rewrite str_eqb_ne.
Qed.

Lemma obj_get_delete_eq j o : obj_get j (obj_delete j o) = None.
Proof.
  induction o as [|[i v] o IH]; [done|]. unfold obj_delete. cbn [List.filter fst]. fold (obj_delete j o).
  destruct (str_eqb i j) eqn:Ei; cbn [negb]; [exact IH|]. cbn [obj_get].
  rewrite str_eqb_ne; [exact IH|]. intros ->. by rewrite str_eqb_refl in Ei.
Qed.

Lemma json_ok_delete j o : json_ok (JObj o) -> json_ok (JObj (obj_delete j o)).
Proof.
  intros [Ho Hf]%json_ok_obj. apply json_ok_obj.
  assert (Hsub : forall P : jsstr * json -> Prop, Forall P o -> Forall P (obj_delete j o)).
  { intros P HP. apply Forall_forall. intros x [Hx _]%list_elem_of_In%filter_In.
    rewrite Forall_forall in HP. by apply HP, list_elem_of_In. }
  split; [|by apply Hsub]. clear Hf Hsub. induction o as [|[i v] o IH]; [done|].
  apply keys_ok_cons in Ho as [Hi Ho]. unfold obj_delete. cbn [List.filter].
  destruct (negb _); fold (obj_delete j o); [|by apply IH]. apply keys_ok_cons. split; [|by apply IH].
  apply Forall_forall. intros x (e & -> & He)%list_elem_of_fmap. rewrite Forall_forall in Hi.
  apply list_elem_of_In, filter_In in He as [He%list_elem_of_In _]. apply Hi. by apply list_elem_of_fmap_2.
Qed.

(** ** Drafts *)

Lemma blank_key_units k : k ∈ keys (blankFields (js "login")) -> units_ok k.
Proof.
  revert k. apply Forall_forall. assert (Hj : forall k, units_ok (js k)) by (intros; auto with passwd).
  repeat (constructor; [apply Hj|]). constructor.
Qed.

Lemma draft_put d k v : draft_ok d -> k ∈ keys (blankFields (js "login")) -> json_ok v -> member_shape k v ->
  draft_ok (obj_put k v d).
Proof.
  intros [Hj Hd] Hk Hv Hs. split; [apply json_ok_put; [by apply blank_key_units|done..]|].
  intros j Hjk. destruct (decide (j = k)) as [->|Hn].
  - exists v. by rewrite obj_get_put_eq.
  - rewrite obj_get_put_ne by done. by apply Hd.
Qed.

Lemma draft_get d k : draft_ok d -> k ∈ keys (blankFields (js "login")) ->
  exists v, obj_get k d = Some v /\ json_ok v /\ member_shape k v.
Proof. intros [Hj Hd] Hk. destruct (Hd k Hk) as (v & Hv & Hs). exists v. split_and!; [done|by eapply obj_get_ok|done]. Qed.

Lemma text_key_shape k v : k ∈ TEXT_KEYS -> (member_shape k v <-> exists s, v = JStr s).
Proof.
  intros Hk. assert (Hb : member_shape k v = (k ∈ TEXT_KEYS -> exists s, v = JStr s)); [|rewrite Hb; tauto].
  unfold TEXT_KEYS in Hk. repeat (apply elem_of_cons in Hk as [->|Hk]; [reflexivity|]). by apply not_elem_of_nil in Hk.
Qed.

Lemma text_key_blank k : k ∈ TEXT_KEYS -> k ∈ keys (blankFields (js "login")).
Proof. revert k. apply Forall_forall. apply (bool_decide_unpack _). vm_compute. exact I. Qed.

(** A patch of one custom field. *)
Definition field_patch (p : obj) : Prop :=
  (exists k v, (k = js "label" \/ k = js "value") /\ units_ok v /\ p = [(k, JStr v)]) \/ exists b, p = [(js "hidden", JBool b)].

Lemma patched_field f p : field_patch p -> json_ok f -> custom_draft f ->
  json_ok (JObj (obj_assign (own_props f) p)) /\ custom_draft (JObj (obj_assign (own_props f) p)).
Proof.
  intros Hp Hf (l & v & h & -> & Hh). cbn [own_props]. split.
  - apply json_ok_assign; [done|].
    destruct Hp as [(k & x & [-> | ->] & Hx & ->)|[b ->]]; (constructor; [split; [decide_forall|done]|constructor]).
  - destruct Hp as [(k & x & [-> | ->] & _ & ->)|[b ->]]; destruct Hh as [->|[b' ->]];
      eexists _, _, _; (split; [reflexivity|]); eauto.
Qed.

Lemma patch_at_ok i patch l : (forall f, field_patch (patch f)) -> json_ok (JArr l) -> Forall custom_draft l ->
  json_ok (JArr (patch_at i patch l)) /\ Forall custom_draft (patch_at i patch l).
Proof.
  intros Hp Hj%json_ok_arr Hl.
  assert (Hall : Forall (fun f => json_ok f /\ custom_draft f) (patch_at i patch l)).
  { apply Forall_lookup. intros j f Hf. unfold patch_at in Hf. rewrite list_lookup_imap in Hf.
    apply fmap_Some in Hf as (g & Hg & ->). rewrite Forall_lookup in Hj, Hl.
    destruct (j =? i)%nat; [|by eauto]. by apply patched_field; eauto. }
  apply Forall_and in Hall as [Ha Hb]. by split; [apply json_ok_arr|].
Qed.

Lemma sublist_ok l l' : (forall f, f ∈ l' -> f ∈ l \/ f = blankField) -> json_ok (JArr l) -> Forall custom_draft l ->
  json_ok (JArr l') /\ Forall custom_draft l'.
Proof.
  intros Hs Hj%json_ok_arr Hl. rewrite Forall_forall in Hj, Hl. split.
  - apply json_ok_arr, Forall_forall. intros f [?| ->]%Hs; [by apply Hj|]. by apply json_okb_ok.
  - apply Forall_forall. intros f [?| ->]%Hs; [by apply Hl|]. exists [], [], []. split; [done|by left].
Qed.

Lemma fields_put_ok d l l' : draft_ok d -> fields_in d = Some l ->
  (json_ok (JArr l) -> Forall custom_draft l -> json_ok (JArr l') /\ Forall custom_draft l') ->
  draft_ok (put_fields l' d).
Proof.
  intros Hd Hl Hp. destruct (draft_get d (js "fields") Hd) as (v & Hv & Hj & (l0 & -> & Hc)); [in_keys|].
  unfold fields_in in Hl. rewrite Hv in Hl. injection Hl as ->. destruct (Hp Hj Hc) as [Hj' Hc'].
  apply draft_put; [done|in_keys|done|]. by exists l'.
Qed.

Lemma fields_of_draft d : draft_ok d -> exists l, fields_in d = Some l.
Proof.
  intros Hd. destruct (draft_get d (js "fields") Hd) as (v & Hv & _ & (l & -> & _)); [in_keys|].
  exists l. unfold fields_in. by rewrite Hv.
Qed.

Lemma part_ok (b : obj) part k v d : Forall (fun k => units_ok k) (keys b) -> part ∈ keys (blankFields (js "login")) ->
  (forall w, member_shape part w <-> exists c, w = JObj c /\ covers b c) ->
  k ∈ keys b -> units_ok v -> draft_ok d -> draft_ok (setPart part k v d).
Proof.
  intros Hb Hp Hs Hk Hv Hd. destruct (draft_get d part Hd Hp) as (w & Hw & Hj & (c & -> & Hc)%Hs).
  unfold setPart. rewrite Hw. cbn [spread own_props]. rewrite Forall_forall in Hb. apply draft_put; [done|done| |].
  - apply json_ok_put; [by apply Hb|done|done].
  - apply Hs. eexists. split; [done|]. intros j Hj'. rewrite obj_get_put. destruct (str_eqb j k); [by eexists|by apply Hc].
Qed.

Lemma edit_draft e d : draft_ok d -> edit_ok e -> exists d', edit_item e d = Some d' /\ draft_ok d'.
Proof.
  intros Hd He. destruct (fields_of_draft d Hd) as [l Hl].
  assert (Hf : forall i patch, (forall f, field_patch (patch f)) ->
    exists d', setField i patch d = Some d' /\ draft_ok d').
  { intros i patch Hp. unfold setField. rewrite Hl. eexists. split; [reflexivity|].
    apply (fields_put_ok d l); [done..|]. by apply patch_at_ok. }
  destruct e as [k v|t|k v|k v|i v|i v|i|i| |b]; cbn [edit_item edit_ok] in *.
  - destruct He as [Hk Hv]. eexists. split; [reflexivity|]. apply draft_put; [done|by apply text_key_blank|done|].
    apply text_key_shape; [done|]. by exists v.
  - eexists. split; [reflexivity|]. apply draft_put; [done|in_keys| |by exists t].
    unfold item_types in He. repeat (apply elem_of_cons in He as [->|He]; [by apply json_okb_ok|]).
    by apply not_elem_of_nil in He.
  - destruct He as [Hk Hv]. eexists. split; [reflexivity|]. apply (part_ok blankCard); [|in_keys|done..].
    repeat (constructor; [decide_forall|]). constructor.
  - destruct He as [Hk Hv]. eexists. split; [reflexivity|]. apply (part_ok blankIdentity); [|in_keys|done..].
    repeat (constructor; [decide_forall|]). constructor.
  - apply Hf. intros _. left. exists (js "label"), v. auto.
  - apply Hf. intros _. left. exists (js "value"), v. auto.
  - apply Hf. intros f. right. by eexists.
  - rewrite Hl. eexists. split; [reflexivity|]. apply (fields_put_ok d l); [done..|]. apply sublist_ok.
    unfold without. intros f [Hf'%elem_of_take|Hf']%elem_of_app; left; [by destruct Hf' as (?&?%list_elem_of_lookup_2&_)|].
    by eapply elem_of_submseteq; [|apply sublist_submseteq, sublist_drop].
  - rewrite Hl. eexists. split; [reflexivity|]. apply (fields_put_ok d l); [done..|]. apply sublist_ok.
    intros f [?|?%list_elem_of_singleton]%elem_of_app; auto.
  - eexists. split; [reflexivity|]. apply draft_put; [done|in_keys|done|by exists b].
Qed.

Lemma setField_get i patch d d' k : setField i patch d = Some d' -> k <> js "fields" -> obj_get k d' = obj_get k d.
Proof. unfold setField. intros (l & _ & [= <-])%bind_Some Hk. by apply obj_get_put_ne. Qed.

(** An edit leaves the other members alone. *)
Lemma edit_get e d d' k : edit_item e d = Some d' -> k ∉ [js "type"; js "card"; js "identity"; js "fields"; js "favorite"] ->
  obj_get k d' = match e with SetText k' v => if str_eqb k k' then Some (JStr v) else obj_get k d | _ => obj_get k d end.
Proof.
  intros He Hk. repeat (apply not_elem_of_cons in Hk as [? Hk]).
  destruct e; cbn [edit_item] in He; try (injection He as <-; first [apply obj_get_put|by apply obj_get_put_ne]);
    try (by eapply setField_get); apply bind_Some in He as (l & _ & [= <-]); by apply obj_get_put_ne.
Qed.

Lemma edits_draft es : forall d, draft_ok d -> Forall edit_ok es ->
  exists d', edits es d = Some d' /\ draft_ok d' /\ obj_get (js "id") d' = obj_get (js "id") d /\
    forall k, k ∈ TEXT_KEYS -> text_at k d' = typed k es (text_at k d).
Proof.
  induction es as [|e es IH]; intros d Hd Hes; [by exists d|]. apply Forall_cons in Hes as [He Hes].
  destruct (edit_draft e d Hd He) as (d1 & E1 & Hd1). destruct (IH d1 Hd1 Hes) as (d2 & E2 & Hd2 & Hid & Ht).
  exists d2. cbn [edits]. rewrite E1. split_and!; [done|done| |].
  - rewrite Hid, (edit_get e d d1) by (done || (apply (bool_decide_unpack _); by vm_compute)).
    destruct e as [k v| | | | | | | | |]; try done. destruct He as [Hk _]. rewrite str_eqb_ne; [done|].
    intros <-. revert Hk. apply (bool_decide_unpack (js "id" ∉ TEXT_KEYS)). by vm_compute.
  - intros k Hk. rewrite Ht by done. assert (Hk' : k ∉ [js "type"; js "card"; js "identity"; js "fields"; js "favorite"]).
    { revert k Hk. apply Forall_forall. apply (bool_decide_unpack _). by vm_compute. }
    unfold text_at. rewrite (edit_get e d d1) by done. destruct e; cbn [typed]; try done.
    by destruct (str_eqb k k0).
Qed.

Section Settling.
Context `{Unicode}.

Lemma norm_custom_draft f : custom_draft f -> is_object f = true /\ norm_custom f = Some (settle_custom f).
Proof. by intros (l & v & h & -> & [-> | [[|] ->]]). Qed.

Lemma norm_customs_draft l : Forall custom_draft l -> norm_customs (Some (JArr l)) = Some (JArr (map settle_custom l)).
Proof.
  intros Hl. cbn. assert (List.filter is_object l = l) as ->.
  { induction Hl as [|f l [Hf _]%norm_custom_draft _ IH]; [done|]. cbn. by rewrite Hf, IH. }
  assert (mapM norm_custom l = Some (map settle_custom l)) as ->; [|done].
  induction Hl as [|f l [_ Hf]%norm_custom_draft _ IH]; [done|]. cbn. by rewrite Hf, IH.
Qed.

Lemma covers_assign b c k : NoDup (keys c) -> covers b c -> k ∈ keys b -> obj_get k (obj_assign b c) = obj_get k c.
Proof. intros Hn Hc Hk. rewrite obj_get_assign by done. by destruct (Hc k Hk) as [v ->]. Qed.

Lemma json_ok_NoDup o : json_ok (JObj o) -> NoDup (keys o).
Proof. intros [Ho _]%json_ok_obj. by apply keys_ok_NoDup. Qed.

(** A draft without its id is an item to store, and reads back as what it says. *)
Lemma draft_reads d : draft_ok d -> savable (fields_of d) /\ reads_as d (settled (fields_of d)).
Proof.
  intros Hd. assert (Hg : forall k, k ∈ keys (blankFields (js "login")) -> obj_get k (fields_of d) = obj_get k d).
  { intros k Hk. apply obj_get_delete. intros ->. revert Hk.
    apply (bool_decide_unpack (js "id" ∉ keys (blankFields (js "login")))). by vm_compute. }
  assert (Ht : forall k, k ∈ TEXT_KEYS -> exists s, obj_get k (fields_of d) = Some (JStr s)).
  { intros k Hk. destruct (draft_get d k Hd) as (v & Hv & _ & Hs); [by apply text_key_blank|].
    apply text_key_shape in Hs as [s ->]; [|done]. exists s. by rewrite Hg by by apply text_key_blank. }
  destruct (draft_get d (js "fields") Hd) as (vf & Hf & _ & (l & -> & Hl)); [in_keys|].
  destruct (draft_get d (js "favorite") Hd) as (vb & Hb & _ & (b & ->)); [in_keys|].
  destruct (draft_get d (js "type") Hd) as (vt & Hty & _ & (t & -> & Htin)); [in_keys|].
  destruct (draft_get d (js "card") Hd) as (vc & Hc & Hcj & (c & -> & Hcc)); [in_keys|].
  destruct (draft_get d (js "identity") Hd) as (vi & Hi & Hij & (i & -> & Hic)); [in_keys|].
  assert (Hs : savable (fields_of d)).
  { split; [apply json_ok_delete, Hd|]. eapply normalize_some; [exact Ht| |].
    - rewrite Hg, Hf by in_keys. by apply norm_customs_draft.
    - rewrite Hg, Hb by in_keys. apply norm_favorite_same. }
  split; [done|]. apply savable_some in Hs.
  destruct (normalize_members _ _ Hs) as (_ & Nt & Nc & Ni & (c' & Nf & Gf) & (f' & Nb & Gb) & Nx & _).
  cbn [get_prop] in *. rewrite Hg in Nt, Nc, Ni, Nf, Nb by in_keys.
  rewrite Hty, norm_type_same in Nt by done. rewrite Hc in Nc. rewrite Hi in Ni.
  rewrite Hf, norm_customs_draft in Nf by done. injection Nf as <-. rewrite Hb, norm_favorite_same in Nb. injection Nb as <-.
  split.
  - intros k Hk. apply elem_of_cons in Hk as [->|Hk]; [by rewrite Nt, Hty|].
    apply elem_of_cons in Hk as [->|Hk]; [by rewrite Gb, Hb|]. destruct (Nx k Hk) as (v & Hv & ->).
    destruct (Ht k Hk) as [s E]. rewrite E in Hv. injection Hv as <-. by rewrite <- Hg, E by by apply text_key_blank.
  - intros k Hk. unfold part_of. rewrite Nc, Hc. by apply covers_assign; [apply json_ok_NoDup| |].
  - intros k Hk. unfold part_of. rewrite Ni, Hi. by apply covers_assign; [apply json_ok_NoDup| |].
  - unfold customs_of, fields_in. by rewrite Gf, Hf.
Qed.

Lemma nested_part part k it : nested_at part k it = text_at k (part_of part it).
Proof. unfold nested_at, part_of. by destruct (obj_get part it) as [[]|]. Qed.

(** An item of the vault, as the screen shows it, is a draft. *)
Lemma shown_get id it k : NoDup (keys it) -> k <> js "id" -> obj_get k (shown (id, it)) = obj_get k it.
Proof.
  intros Hn Hk. unfold shown, with_member. cbn [str fst snd]. rewrite obj_get_assign by done. cbn [obj_get].
  rewrite str_eqb_ne by done. by destruct (obj_get k it).
Qed.

Lemma shown_id id it : obj_get (js "id") it = None -> NoDup (keys it) -> obj_get (js "id") (shown (id, it)) = Some (JStr id).
Proof. intros Hi Hn. unfold shown, with_member. cbn [str fst snd]. rewrite obj_get_assign by done. by rewrite Hi. Qed.

Lemma wf_draft it : item_wf it -> json_ok (JObj it) -> draft_ok it.
Proof.
  intros [_ (t & Ht & Htin) Hx (c & Hc & Hco) (i & Hi & Hio) (l & Hf & Hl) (b & Hb)] Hj. split; [done|].
  assert (Hov : forall b' o, over b' o -> covers b' o).
  { intros b' o (I & B & X & -> & Hk & _) k Hkb. apply obj_get_Some_keys. rewrite !keys_app, Hk, !elem_of_app. by right; left. }
  assert (Hcu : Forall custom_draft l).
  { eapply Forall_impl; [exact Hl|]. intros f (la & v & h & -> & Hh). exists la, v, h. split; [done|].
    destruct Hh as [-> | ->]; [by left|right; by eexists]. }
  assert (Htx : forall k, k ∈ TEXT_KEYS -> exists v, obj_get k it = Some v /\ member_shape k v).
  { intros k Hk. destruct (Hx k Hk) as [s Hs]. exists (JStr s). split; [done|]. apply text_key_shape; [done|by eexists]. }
  apply Forall_forall.
  repeat (constructor; [first [apply Htx; in_keys|eexists; split; [eassumption|eexists; split; [reflexivity|by eauto]]
    |eexists; split; [eassumption|by eexists]]|]). constructor.
Qed.

Lemma shown_draft id it : item_wf it -> json_ok (JObj it) -> units_ok id -> draft_ok (shown (id, it)).
Proof.
  intros Hw Hj Hi. split.
  - apply json_ok_assign; [|by apply json_ok_obj in Hj as [_ ?]]. apply json_ok_obj. split; [done|].
    constructor; [split; [decide_forall|done]|constructor].
  - intros k Hk. rewrite shown_get; [by apply wf_draft|by apply json_ok_NoDup|].
    intros ->. revert Hk. apply (bool_decide_unpack (js "id" ∉ keys (blankFields (js "login")))). by vm_compute.
Qed.
End Settling.

(** ** The notes of the detail pane *)

(** ItemDetail keeps the notes it was mounted with; its key is the item's id, so
    it is kept as long as the same item stays selected. *)
Record pane := Pane { pn_id : jsstr; pn_notes : jsstr }.
Definition mount (item : obj) : pane := Pane (text_at (js "id") item) (text_at (js "notes") item).
Definition render (p : option pane) (item : obj) : pane :=
  match p with
  | Some q => if str_eqb (pn_id q) (text_at (js "id") item) then q else mount item
  | None => mount item
  end.
Definition typeNotes (v : jsstr) (p : pane) : pane := Pane (pn_id p) v.

(** ** The fields of the detail pane *)

(** A row is there when its text is not empty; that of the 2FA secret then shows
    the current code. *)
Definition row (label v : jsstr) : list (jsstr * jsstr) := match v with [] => [] | _ => [(label, v)] end.

Definition cardExpiry (it : obj) : jsstr :=
  join (js " / ") (List.filter (fun t => negb (bool_decide (t = [])))
    [nested_at (js "card") (js "expMonth") it; nested_at (js "card") (js "expYear") it]).

(** The rows of the section of each type, and the hint that it is empty. *)
Definition login_rows (it : obj) : list (jsstr * jsstr) :=
  row (js "Website") (text_at (js "url") it) ++ row (js "Username") (text_at (js "username") it)
  ++ row (js "Password") (text_at (js "password") it) ++ row (js "2FA code") (text_at (js "totp") it).
Definition loginEmpty (it : obj) : bool :=
  forallb (fun k => bool_decide (text_at k it = [])) [js "url"; js "username"; js "password"; js "totp"].
Definition card_rows (it : obj) : list (jsstr * jsstr) :=
  row (js "Cardholder") (nested_at (js "card") (js "cardholder") it)
  ++ row (js "Card number") (nested_at (js "card") (js "number") it)
  ++ row (js "Expires") (cardExpiry it) ++ row (js "CVV") (nested_at (js "card") (js "cvv") it).
Definition cardEmpty (it : obj) : bool :=
  forallb (fun k => bool_decide (nested_at (js "card") k it = [])) [js "cardholder"; js "number"].
Definition identity_rows (it : obj) : list (jsstr * jsstr) :=
  let at_ k := nested_at (js "identity") k it in
  row (js "Full name") (at_ (js "fullName")) ++ row (js "Email") (at_ (js "email")) ++ row (js "Phone") (at_ (js "phone"))
  ++ row (js "Address") (at_ (js "address")) ++ row (js "Company") (at_ (js "company")).
Definition identityEmpty (it : obj) : bool :=
  forallb (fun k => bool_decide (nested_at (js "identity") k it = [])) [js "fullName"; js "email"].

(** The section that is shown, and whether its hint is. *)
Definition section (it : obj) : list (jsstr * jsstr) * bool :=
  if str_eqb (text_at (js "type") it) (js "login") then (login_rows it, loginEmpty it)
  else if str_eqb (text_at (js "type") it) (js "card") then (card_rows it, cardEmpty it)
  else if str_eqb (text_at (js "type") it) (js "identity") then (identity_rows it, identityEmpty it)
  else ([], false).

Section Saving.
Context {N E L : Type} `{Unicode} `{WebCrypto} `{Environment N} `{Entropy E} `{!Clock N} `{LocalStorage L} `{EngineText}.
Context (base token : jsstr) `{!CipherServer N base token}.
Hypothesis Htoken : token <> [].
Hypothesis Hsay : engine_message JsTypeError <> [] /\ engine_message JsSyntaxError <> [].
Abbreviation W := (world N E).
Abbreviation S := (screen * (world N E * L))%type.

(** Leaving the text area. *)
Definition onBlur (s : Session) (item : obj) (p : pane) : M S unit := saveNotes s item (pn_notes p).

(** What the editor opens on: an item of the vault, or a new one. *)
Definition opened_form (V : gmap jsstr obj) (target : option jsstr) : obj :=
  match target with Some id => shown (id, default [] (V !! id)) | None => new_item end.
Definition openable (V : gmap jsstr obj) (target : option jsstr) : Prop :=
  match target with
  | Some id => id <> [] /\ units_ok id /\ exists it, V !! id = Some it /\ obj_get (js "id") it = None
  | None => True
  end.

(** Clicking the star with the cursor in the notes: leaving the text area starts
    [saveNotes], the click starts [toggleFavorite], both for the item of the last
    rendering, and each waits for its request before it reloads.  This is the run in
    which the requests go out in that order. *)
Definition blur_and_star (s : Session) (item : obj) (notes : jsstr) : M S unit :=
  _ ← api (saveItem s (with_notes item notes));
  _ ← api (saveItem s (starred item));
  _ ← reload s;
  _ ← upd (flash (js "Notes saved"));
  reload s.

Lemma linked_item (s : Session) (w : W) (V : gmap jsstr obj) (id : jsstr) it : linked base token s w V -> V !! id = Some it ->
  item_wf it /\ json_ok (JObj it).
Proof.
  intros (_ & _ & Hr & _) Hv. specialize (Hr id). rewrite Hv in Hr.
  destruct (store (net w) !! id); [|done]. destruct Hr as (raw & Hs & -> & _). split; [by apply settled_wf|].
  eapply normalize_json_ok; [apply Hs|by apply savable_some].
Qed.

Lemma opened_draft (s : Session) (w : W) V target : linked base token s w V -> openable V target ->
  draft_ok (opened_form V target) /\
  obj_get (js "id") (opened_form V target) = Some (JStr (default [] target)).
Proof.
  intros Hl Ho. destruct target as [id|]; cbn [opened_form openable] in *.
  - destruct Ho as (_ & Hu & it & Hv & Hi). rewrite Hv. cbn [default].
    destruct (linked_item s w V id it Hl Hv) as [Hw Hj]. split; [by apply shown_draft|]. by apply shown_id, json_ok_NoDup.
  - split; [|done]. apply (shown_draft [] (blankFields (js "login"))); [apply blank_item_wf; in_keys|by apply json_okb_ok|constructor].
Qed.

(** A draft can be sent. *)
Lemma draft_legal d t : draft_ok d -> obj_get (js "id") d = Some (JStr t) -> (t <> [] -> id_ok t) -> legal (Save d).
Proof.
  intros Hd Hid Hi. split; [by apply draft_reads|]. unfold text_at. rewrite Hid. intros Ht. exists t. split; [by apply Hi|done].
Qed.

(** Saving a draft stores what it says, under its id or a fresh one, or is refused. *)
Lemma draft_saves (s : Session) (V : gmap jsstr obj) target d c (w : W) (l : L) : linked base token s w V -> openable V target ->
  draft_ok d -> obj_get (js "id") d = Some (JStr (default [] target)) ->
  (exists id c' w', returns (handleSave s d : M S bool) (c, (w, l)) true (c', (w', l)) /\
    match target with Some i => id = i | None => V !! id = None /\ id_ok id end /\
    linked base token s w' (<[id := settled (fields_of d)]> V) /\
    relisted base token (net w') c c' (<[id := settled (fields_of d)]> V)) \/
  (exists c' w', returns (handleSave s d : M S bool) (c, (w, l)) false (c', (w', l)) /\
    linked base token s w' V /\ rejected base token s (net w) (Save d) /\ stuck c c').
Proof.
  intros Hl Ho Hd Hid.
  assert (Ht : text_at (js "id") d = default [] target) by (unfold text_at; by rewrite Hid).
  assert (Hlg : legal (Save d)).
  { eapply draft_legal; [done|exact Hid|]. destruct target as [id|]; [|done]. by destruct Ho as (? & ? & _). }
  destruct (save_outcomes base token Htoken Hsay s V d c w l Hl Hlg) as (b & c' & w' & V' & Hr & Hl' & [(-> & Hm & Hc)|(-> & -> & Hrj & Hc)]);
    [left|by right; exists c', w'].
  cbn [means] in Hm. rewrite Ht in Hm. destruct target as [id|].
  - destruct Ho as (Hne & _). change (default [] (Some id)) with id in Hm. destruct id as [|u id]; [done|].
    rewrite Hm in *. by exists (u :: id), c', w'.
  - destruct Hm as (id & Hf & Hi & ->). by exists id, c', w'.
Qed.
End Saving.

(** ** Theorems *)
Section Theorems.
Context {N E L : Type} `{Unicode} `{WebCrypto} `{Environment N} `{Entropy E} `{!Clock N} `{LocalStorage L} `{EngineText}.
Abbreviation W := (world N E).
Abbreviation S := (screen * (world N E * L))%type.

(** C4: what is typed is what is stored: from a new item or one of the vault, any
    sequence of edits in the form gives a form that can be saved, and saving it
    changes the vault on the server at exactly that item, to a well-formed item
    that says what the form said when it was saved; each of its texts is what was
    typed into it last, or what it was when nothing was typed.  The screen then
    lists the changed vault, or shows an error if the server refuses to read it
    out.  A save that the server does not accept changes nothing and shows an error
    too. *)
Theorem editor_saves (base token : jsstr) `{!CipherServer N base token} (s : Session)
  (V : gmap jsstr obj) target es c (w : W) (l : L)
  (Htoken : token <> []) (Hsay : engine_message JsTypeError <> [] /\ engine_message JsSyntaxError <> [])
  (Hl : linked base token s w V) (Ho : openable V target) (Hes : Forall edit_ok es) :
  exists d it, edits es (opened_form V target) = Some d /\
    item_wf it /\ reads_as d it /\
    (forall k, k ∈ TEXT_KEYS -> text_at k it = typed k es (text_at k (opened_form V target))) /\
    ((exists id c' w', returns (handleSave s d : M S bool) (c, (w, l)) true (c', (w', l)) /\
        match target with Some i => id = i | None => V !! id = None end /\
        linked base token s w' (<[id := it]> V) /\ relisted base token (net w') c c' (<[id := it]> V)) \/
     (exists c' w', returns (handleSave s d : M S bool) (c, (w, l)) false (c', (w', l)) /\
        linked base token s w' V /\ rejected base token s (net w) (Save d) /\ stuck c c')).
Proof.
  destruct (opened_draft base token s w V target Hl Ho) as [Hd Hid].
  destruct (edits_draft es _ Hd Hes) as (d & Ed & Hd' & Hid' & Ht). rewrite Hid in Hid'.
  destruct (draft_reads d Hd') as [Hs Hra].
  exists d, (settled (fields_of d)). split_and!; [done|by apply settled_wf|done| |].
  - intros k Hk. rewrite <- Ht by done. unfold text_at. by rewrite (ra_plain _ _ Hra) by by do 2 right.
  - destruct (draft_saves base token Htoken Hsay s V target d c w l Hl Ho Hd' Hid') as [(id & c' & w' & Hr & Hi & Hl' & Hc)|Hrej];
      [left|by right]. exists id, c', w'. split_and!; [done|by destruct target; [|apply Hi]|done|done].
Qed.

(** The notes of the detail pane are those it was mounted with: when the notes of
    the selected item are then changed in the editor and saved, the pane still
    holds the old ones, and leaving its text area, nothing typed, stores them over
    the new ones. *)
Theorem stale_notes_overwrite (base token : jsstr) `{!CipherServer N base token} (s : Session)
  (V : gmap jsstr obj) id it it' c (w : W) (l : L)
  (Htoken : token <> []) (Hsay : engine_message JsTypeError <> [] /\ engine_message JsSyntaxError <> [])
  (Hne : id <> []) (Hu : units_ok id)
  (Hold : item_wf it /\ json_ok (JObj it) /\ obj_get (js "id") it = None)
  (Hl : linked base token s w V) (Hv : V !! id = Some it') (Hi : obj_get (js "id") it' = None)
  (Hedited : text_at (js "notes") it' <> text_at (js "notes") it) :
  let pane := render (Some (mount (shown (id, it)))) (shown (id, it')) in
  exists c' w' V', returns (onBlur s (shown (id, it')) pane : M S unit) (c, (w, l)) tt (c', (w', l)) /\
    linked base token s w' V' /\
    ((exists it'', V' = <[id := it'']> V /\ text_at (js "notes") it'' = text_at (js "notes") it) \/
     V' = V /\ rejected base token s (net w) (Notes (shown (id, it')) (text_at (js "notes") it))).
Proof.
  destruct Hold as (Hw & Hj & Hio). pose proof (json_ok_NoDup _ Hj) as Hn.
  destruct (linked_item base token s w V id it' Hl Hv) as [Hw' Hj']. pose proof (json_ok_NoDup _ Hj') as Hn'.
  set (item := shown (id, it')).
  assert (Hnotes : forall i x, NoDup (keys x) -> text_at (js "notes") (shown (i, x)) = text_at (js "notes") x).
  { intros i x Hx. unfold text_at. by rewrite shown_get. }
  assert (Hid : obj_get (js "id") item = Some (JStr id)) by by apply shown_id.
  assert (Et : text_at (js "id") (shown (id, it)) = id) by (unfold text_at; by rewrite shown_id).
  assert (Et' : text_at (js "id") item = id) by (unfold text_at; by rewrite Hid).
  unfold render, mount. cbn [pn_id pn_notes]. rewrite Et, Et', str_eqb_refl. rewrite Hnotes by done. cbv zeta.
  set (old := text_at (js "notes") it) in *. unfold onBlur. cbn [pn_notes].
  destruct (draft_get it (js "notes") (wf_draft it Hw Hj)) as (v & Hgv & Hvj & _); [in_keys|].
  assert (Hold : json_ok (JStr old)).
  { unfold old, text_at. rewrite Hgv. destruct v; [exact blank_ok..|exact Hvj|exact blank_ok|exact blank_ok]. }
  assert (Hd' : draft_ok (with_notes item old)).
  { apply (draft_put item (js "notes") (JStr old)); [by apply shown_draft|in_keys|done|].
    apply text_key_shape; [in_keys|by eexists]. }
  destruct (draft_reads _ Hd') as [Hs Hra].
  destruct (action_outcomes base token Htoken Hsay s V (Notes item old) c w l Hl) as (c' & w' & V' & Hr & Hl' & Hc).
  { split; [by exists id|done]. }
  exists c', w', V'. split_and!; [exact Hr|done|]. destruct Hc as [[Hm _]|(-> & Hrj & _)]; [left|by right].
  cbn [means] in Hm. rewrite Et', str_eqb_ne in Hm by (unfold item; rewrite Hnotes by done; auto).
  eexists. split; [exact Hm|]. unfold text_at at 1. rewrite (ra_plain _ _ Hra) by (do 2 right; in_keys).
  unfold with_notes, obj_assign. cbn [foldl fst snd]. by rewrite obj_get_put_eq.
Qed.
(** The star button saves the whole item as it was last rendered: clicked right
    after the notes were changed, it stores the item without the change, and when
    both requests have gone through, the notes that were typed are on neither the
    server nor the screen, although the screen said they were saved. *)
Theorem star_drops_notes (base token : jsstr) `{!CipherServer N base token} (s : Session)
  (V : gmap jsstr obj) id it notes c (w : W) (l : L) s'
  (Htoken : token <> []) (Hsay : engine_message JsTypeError <> [] /\ engine_message JsSyntaxError <> [])
  (Hne : id <> []) (Hu : units_ok id) (Hn : units_ok notes)
  (Hl : linked base token s w V) (Hv : V !! id = Some it) (Hi : obj_get (js "id") it = None)
  (Hr : returns (blur_and_star s (shown (id, it)) notes : M S unit) (c, (w, l)) tt s') :
  exists c' w' it', s' = (c', (w', l)) /\
    linked base token s w' (<[id := it']> V) /\ (sc_error c' = None -> shows c' (<[id := it']> V)) /\
    text_at (js "notes") it' = text_at (js "notes") it.
Proof.
  destruct (linked_item base token s w V id it Hl Hv) as [Hw Hj]. pose proof (json_ok_NoDup _ Hj) as Hnd.
  set (item := shown (id, it)) in *. assert (Hd : draft_ok item) by by apply shown_draft.
  assert (Hid : obj_get (js "id") item = Some (JStr id)) by by apply shown_id.
  assert (Hd1 : draft_ok (with_notes item notes)).
  { apply (draft_put item (js "notes") (JStr notes)); [done|in_keys|done|]. apply text_key_shape; [in_keys|by eexists]. }
  assert (Hd2 : draft_ok (starred item)).
  { apply (draft_put item (js "favorite")); [done|in_keys|done|by eexists]. }
  unfold blur_and_star in Hr.
  destruct (saveItem_outcomes base token Htoken s V id (with_notes item notes) w Hl) as [(w1 & Hs1 & _ & Hl1)|(data & e & w1 & _ & He & _)];
    [by unfold with_notes; rewrite get_id_assign|by apply draft_reads| |].
  2: { unfold returns in Hr. rewrite (bind_throws _ _ _ _ _ (api_throws _ c w l e w1 He)) in Hr. discriminate Hr. }
  unfold returns in Hr. rewrite (bind_returns _ _ _ _ _ _ (api_returns _ c w l _ w1 Hs1) eq_refl) in Hr.
  destruct (saveItem_outcomes base token Htoken s _ id (starred item) w1 Hl1) as [(w2 & Hs2 & _ & Hl2)|(data & e & w2 & _ & He & _)];
    [by unfold starred; rewrite get_id_assign|by apply draft_reads| |].
  2: { rewrite (bind_throws _ _ _ _ _ (api_throws _ c w1 l e w2 He)) in Hr. discriminate Hr. }
  rewrite (bind_returns _ _ _ _ _ _ (api_returns _ c w1 l _ w2 Hs2) eq_refl) in Hr.
  rewrite insert_insert_eq in Hl2.
  destruct (reload_outcomes base token Htoken Hsay s c w2 l _ Hl2) as (c1 & w3 & Hr1 & Hl3 & _).
  rewrite (bind_returns _ _ _ _ _ _ Hr1 eq_refl) in Hr.
  destruct (reload_outcomes base token Htoken Hsay s (flash (js "Notes saved") c1) w3 l _ Hl3) as (c2 & w4 & Hr2 & Hl4 & _ & Hc).
  rewrite (bind_returns _ _ _ _ _ _ (upd_returns (flash (js "Notes saved")) c1 (w3, l)) eq_refl) in Hr.
  unfold returns in Hr2. rewrite Hr2 in Hr. injection Hr as <-.
  eexists c2, w4, _. split; [done|]. split; [exact Hl4|]. split.
  - intros Hnone. destruct Hc as [Hc|(_ & (m & Hm & _) & _)]; [exact Hc|congruence].
  - destruct (draft_reads _ Hd2) as [_ Hra]. unfold text_at at 1.
    rewrite (ra_plain _ _ Hra) by (do 2 right; in_keys). unfold starred, obj_assign. cbn [foldl fst snd].
    rewrite obj_get_put_ne by done. unfold item. by rewrite shown_get.
Qed.
End Theorems.

(** The hint of a login says what the pane shows: no field. *)
Theorem login_hint_exact it : obj_get (js "type") it = Some (JStr (js "login")) ->
  (section it).2 = bool_decide ((section it).1 = []).
Proof.
  intros Ht. assert (section it = (login_rows it, loginEmpty it)) as ->; [|cbn [fst snd]].
  { unfold section. assert (text_at (js "type") it = js "login") as -> by (unfold text_at; by rewrite Ht). by rewrite str_eqb_refl. }
  unfold loginEmpty, login_rows. cbn [forallb].
  destruct (text_at (js "url") it), (text_at (js "username") it), (text_at (js "password") it), (text_at (js "totp") it);
    cbn [row app]; by repeat case_bool_decide.
Qed.

(** The hints of cards and identities look at two fields only: a card with nothing
    but its code shows the code, and that there are no details yet. *)
Theorem card_hint_wrong :
  section [(js "type", JStr (js "card")); (js "card", JObj [(js "cvv", JStr (js "123"))])]
    = ([(js "CVV", js "123")], true).
Proof. reflexivity. Qed.

(** ** Concrete inputs *)
#[local] Existing Instances latin1_unicode model_crypto lcg_entropy map_environment map_cipher_server map_storage.
#[local] Instance still_clock : Clock (gmap jsstr jsstr) := {| clock _ := 0 |}.
#[local] Instance editor_errors : EngineText := {| engine_message _ := js "Failed to fetch" |}.

Definition typing : list edit :=
  [SetText (js "name") (js "Ban"); SetText (js "name") (js "Bank"); SetType (js "card");
   SetCard (js "number") (js "4111"); AddField; SetLabel 0 (js "PIN"); ToggleHidden 0; ToggleHidden 0].

Lemma editor_saves_witness : exists id it c' w',
  returns (handleSave sample_session (default [] (edits typing new_item)) : M _ bool) (mounted, (empty_world, ∅ : gmap jsstr jsstr)) true (c', (w', ∅)) /\
  linked [] (js "token") sample_session w' {[id := it]} /\
  text_at (js "name") it = js "Bank" /\ text_at (js "type") it = js "card" /\
  nested_at (js "card") (js "number") it = js "4111" /\
  customs_of it = [JObj [(js "label", JStr (js "PIN")); (js "value", JStr [])]].
Proof.
  assert (Hes : Forall edit_ok typing).
  { repeat (constructor; [cbn; first [exact I|split; [in_keys|decide_forall]|decide_forall|in_keys]|]). constructor. }
  destruct (editor_saves [] (js "token") sample_session ∅ None typing mounted empty_world (∅ : gmap jsstr jsstr))
    as (d & it & Ed & Hw & Hra & Ht & Ho); [done|done|apply sample_linked|done|exact Hes|].
  cbn [opened_form] in Ed, Ht.
  assert (H1 : obj_get (js "type") (default [] (edits typing new_item)) = Some (JStr (js "card"))) by (vm_compute; reflexivity).
  assert (H2 : obj_get (js "number") (part_of (js "card") (default [] (edits typing new_item))) = Some (JStr (js "4111")))
    by (vm_compute; reflexivity).
  assert (H3 : map settle_custom (customs_of (default [] (edits typing new_item)))
    = [JObj [(js "label", JStr (js "PIN")); (js "value", JStr [])]]) by (vm_compute; reflexivity).
  assert (H4 : (handleSave sample_session (default [] (edits typing new_item)) (mounted, (empty_world, ∅ : gmap jsstr jsstr))).1 = inl true)
    by (vm_compute; reflexivity).
  rewrite Ed in *. cbn [default from_option] in H1, H2, H3, H4 |- *; unfold Datatypes.id in H1, H2, H3, H4 |- *.
  destruct Ho as [(id & c' & w' & Hr & _ & Hl & _)|(c' & w' & Hr & _)];
    [|unfold returns in Hr; rewrite Hr in H4; discriminate H4].
  exists id, it, c', w'. split_and!; [exact Hr|exact Hl|by rewrite Ht by in_keys| | |].
  - unfold text_at. by rewrite (ra_plain _ _ Hra), H1 by in_keys.
  - rewrite nested_part. unfold text_at. by rewrite (ra_card _ _ Hra), H2 by in_keys.
  - by rewrite (ra_fields _ _ Hra), H3.
Defined.
