(* ===== verification/AsyncButton.v ===== *)
(** apps/web/src/components/AsyncButton.tsx and its copy in apps/desktop: the
    button that runs an asynchronous action, and the editor it closes. *)
From stdpp Require Import relations.
From S2P Require Import Prelude Items Process Ui.

Inductive button_state := Idle | Loading | Success.
#[global] Instance button_state_eq_dec : EqDecision button_state.
Proof. solve_decision. Defined.

(** How [props.onClick()] settles. *)
Inductive outcome := ReturnedFalse | Returned | Threw.

(** The React state, with the runs of the action in flight, the pending timeouts,
    and how often the action succeeded and [onSuccess] was called. *)
Record button := Button {
  bt_state : button_state;
  bt_running : nat;
  bt_timers : nat;
  bt_succeeded : nat;
  bt_called : nat;
}.
Definition fresh_button : button := Button Idle 0 0 0 0.

(** [handle]: up to its [await], after it, and its timeout. *)
Definition handle (b : button) : button :=
  match bt_state b with
  | Idle => Button Loading (S (bt_running b)) (bt_timers b) (bt_succeeded b) (bt_called b)
  | _ => b
  end.
Definition settle (o : outcome) (b : button) : button :=
  match o with
  | ReturnedFalse | Threw => Button Idle (pred (bt_running b)) (bt_timers b) (bt_succeeded b) (bt_called b)
  | Returned => Button Success (pred (bt_running b)) (S (bt_timers b)) (S (bt_succeeded b)) (bt_called b)
  end.
Definition timeout (b : button) : button :=
  Button Idle (bt_running b) (pred (bt_timers b)) (bt_succeeded b) (S (bt_called b)).

Inductive button_step : button -> button -> Prop :=
| press b : button_step b (handle b)
| settles b o : (0 < bt_running b)%nat -> button_step b (settle o b)
| times_out b : (0 < bt_timers b)%nat -> button_step b (timeout b).

(** The button as it is rendered. *)
Definition render_button {A} (label loadingLabel successLabel : jsstr) (st : button_state) (onClick : A) : node A :=
  Ui.Button (match st with Idle => label | Loading => loadingLabel | Success => successLabel end)
         (negb (bool_decide (st = Loading))) onClick.

(** What the state says about the rest. *)
Definition consistent (b : button) : Prop :=
  (bt_called b + bt_timers b = bt_succeeded b)%nat /\
  match bt_state b with
  | Idle => bt_running b = 0%nat /\ bt_timers b = 0%nat
  | Loading => bt_running b = 1%nat /\ bt_timers b = 0%nat
  | Success => bt_running b = 0%nat /\ bt_timers b = 1%nat
  end.

Lemma step_consistent b b' : button_step b b' -> consistent b -> consistent b'.
Proof.
  intros Hs [Hc Hb]. destruct Hs as [b|b o Hr|b Ht]; unfold consistent in *;
    destruct b as [[| |] r t n c]; try destruct o; cbn in *; lia.
Qed.

(** ** The editor the button closes: [onSuccess] is the [onCancel] of the screen *)

(** The form that is open, and the pending timeouts of forms that saved. *)
Record page := Page { editing : option obj; closing : nat }.
Inductive page_step : page -> page -> Prop :=
| open p it : page_step p (Page (Some it) (closing p))
| cancel p : page_step p (Page None (closing p))
| saved p it : editing p = Some it -> page_step p (Page (Some it) (S (closing p)))
| closes p n : closing p = S n -> page_step p (Page None n).

(** ** Theorems *)

(** An action never runs twice at once, however often the button is pressed;
    every run that succeeds has [onSuccess] called once, and no other run has; and
    the button always gets back to idle, by the steps it waits for. *)
Theorem async_button_exact b (Hr : rtc button_step fresh_button b) :
  (bt_running b <= 1)%nat /\ (bt_called b + bt_timers b = bt_succeeded b)%nat /\
  (bt_state b = Idle -> bt_called b = bt_succeeded b) /\
  (bt_state b <> Idle -> handle b = b) /\
  exists b', rtc button_step b b' /\ bt_state b' = Idle.
Proof.
  apply (rtc_invariant button_step consistent) in Hr; [|apply step_consistent|done]. destruct Hr as [Hc Hb].
  split_and!; [destruct (bt_state b); lia|done|intros Hi; rewrite Hi in Hb; lia|by unfold handle; destruct (bt_state b)|].
  destruct (bt_state b) eqn:Es.
  - by exists b.
  - exists (settle ReturnedFalse b). split; [|done]. apply rtc_once, settles. lia.
  - exists (timeout b). split; [|done]. apply rtc_once, times_out. lia.
Qed.

(** The timeout outlives the form: when a form that saved is closed by hand, its
    timeout still closes whatever is edited by then. *)
Theorem late_close (a b : obj) : exists p, rtc page_step (Page None 0) p /\ editing p = Some b /\ page_step p (Page None 0) /\
  closing p = 1%nat.
Proof.
  exists (Page (Some b) 1). split_and!; [|done|by apply closes|done].
  eapply rtc_l; [apply (open _ a)|]. eapply rtc_l; [by apply (saved _ a)|].
  eapply rtc_l; [apply cancel|]. apply rtc_once, (open (Page None 1)).
Qed.

Lemma async_button_exact_witness : exists b, rtc button_step fresh_button b /\ bt_running b = 1%nat /\ (bt_running b <= 1)%nat /\
  handle b = b.
Proof.
  assert (Hr : rtc button_step fresh_button (handle fresh_button)) by apply rtc_once, press.
  exists (handle fresh_button). pose proof (async_button_exact _ Hr) as (H1 & _ & _ & H2 & _).
  split_and!; [exact Hr|reflexivity|exact H1|by apply H2].
Defined.
