(* ===== verification/ItemUi.v ===== *)
(** One item in the web vault as it is rendered: the detail pane with its masked
    values and its one-time code, and the form of the editor, of
    apps/web/src/VaultScreen.tsx, over the edits and sections of Editor.v. *)
From S2P Require Import Prelude Text Numeral Json JsonFacts Encoding JsonText Objects Effects Platform Primitives.
From S2P Require Import Kdf Account Totp Items Views Editor AsyncButton Ui.

(** ** Labels *)

(** The labels of [TYPE_META]; another type has none, and reading it throws. *)
Definition TYPE_META : list (jsstr * jsstr) :=
  [(js "login", js "Login"); (js "note", js "Note"); (js "card", js "Card"); (js "identity", js "Identity")].
Definition label_of (t : jsstr) : option jsstr := snd <$> List.find (fun e => str_eqb e.1 t) TYPE_META.
Definition ITEM_TYPES : list jsstr := [js "login"; js "note"; js "card"; js "identity"].

Definition item_type (it : obj) : jsstr := text_at (js "type") it.
Definition is_type (t : jsstr) (it : obj) : bool := str_eqb (item_type it) t.
Definition item_title (it : obj) : jsstr := or_text (text_at (js "name") it) (js "(unnamed)").

(** A custom field's own members. *)
Definition field_text (k : jsstr) (f : json) : jsstr := match get_prop k f with Some (JStr s) => s | _ => [] end.
Definition field_hidden (f : json) : bool := truthy (get_prop (js "hidden") f).

(** ** The detail pane *)

(** The places of a SecretValue; a custom field by its index, which is its key. *)
Inductive secret := SPassword | SNumber | SCvv | SCustom (i : nat).
#[global] Instance secret_eq_dec : EqDecision secret.
Proof. solve_decision. Defined.

(** TotpCode's state: null, invalid, or a code with the seconds it is good for. *)
Inductive code_view := NoCode | BadSecret | CodeFor (code : jsstr) (secondsLeft : Z).

(** What ItemDetail and its children keep: the notes typed, the secrets that are
    revealed, the code. *)
Record detail := Detail { dt_notes : jsstr; dt_shown : list secret; dt_code : code_view }.
Definition fresh_detail (it : obj) : detail := Detail (text_at (js "notes") it) [] NoCode.

Inductive detail_act :=
| CopyText (label value : jsstr) | Reveal (p : secret) | TypeNotes (t : jsstr)
| ToggleStar | EditItem | ShareItem | DeleteItem (yes : bool).

(** [Math.min(props.value.length, 16)] bullets, until it is revealed. *)
Definition SecretValue (d : detail) (p : secret) (v : jsstr) : screen detail_act :=
  let reveal := bool_decide (p ∈ dt_shown d) in
  [Say (if reveal then v else replicate (min (length v) 16) bullet);
   btn (if reveal then js "Hide" else js "Reveal") (Reveal p)].

Definition DetailField (label what v : jsstr) (children : screen detail_act) : screen detail_act :=
  Say label :: children ++ [btn (js "Copy " ++ label) (CopyText what v)].

(** [{v && <DetailField ...>}] *)
Definition field_if (label what v : jsstr) (children : screen detail_act) : screen detail_act :=
  when (negb (bool_decide (v = []))) (DetailField label what v children).

(** [code.replace(/^(\d{3})(\d{3})$/, "$1 $2")] *)
Definition spaced (code : jsstr) : jsstr :=
  if ((length code =? 6)%nat && forallb is_digit code)%bool then take 3 code ++ c_space :: drop 3 code else code.

Definition TotpCode (c : code_view) : screen detail_act :=
  match c with
  | NoCode => []
  | BadSecret => [Say (js "2FA code"); Say (js "The stored 2FA secret is not a valid TOTP secret.")]
  | CodeFor code secs =>
      DetailField (js "2FA code") (js "2FA code") code [Say (spaced code); Say (dec secs ++ js "s")]
  end.

Definition login_section (d : detail) (it : obj) : screen detail_act :=
  let at_ k := text_at k it in
  field_if (js "Website") (js "website") (at_ (js "url")) [Link (at_ (js "url")) (normalizeUrl (at_ (js "url")))]
  ++ field_if (js "Username") (js "username") (at_ (js "username")) [Say (at_ (js "username"))]
  ++ field_if (js "Password") (js "password") (at_ (js "password")) (SecretValue d SPassword (at_ (js "password")))
  ++ when (negb (bool_decide (at_ (js "totp") = []))) (TotpCode (dt_code d))
  ++ when (loginEmpty it) [Say (js "No login fields. Use Edit to add some.")].

Definition card_section (d : detail) (it : obj) : screen detail_act :=
  let at_ k := nested_at (js "card") k it in
  field_if (js "Cardholder") (js "cardholder") (at_ (js "cardholder")) [Say (at_ (js "cardholder"))]
  ++ field_if (js "Card number") (js "card number") (at_ (js "number")) (SecretValue d SNumber (at_ (js "number")))
  ++ field_if (js "Expires") (js "expiry") (cardExpiry it) [Say (cardExpiry it)]
  ++ field_if (js "CVV") (js "CVV") (at_ (js "cvv")) (SecretValue d SCvv (at_ (js "cvv")))
  ++ when (cardEmpty it) [Say (js "No card details yet. Use Edit to add them.")].

Definition identity_section (it : obj) : screen detail_act :=
  let at_ k := nested_at (js "identity") k it in
  let field label what k := field_if label what (at_ k) [Say (at_ k)] in
  field (js "Full name") (js "full name") (js "fullName") ++ field (js "Email") (js "email") (js "email")
  ++ field (js "Phone") (js "phone") (js "phone") ++ field (js "Address") (js "address") (js "address")
  ++ field (js "Company") (js "company") (js "company")
  ++ when (identityEmpty it) [Say (js "No identity details yet. Use Edit to add them.")].

Definition custom_row (d : detail) (i : nat) (f : json) : screen detail_act :=
  let label := field_text (js "label") f in let v := field_text (js "value") f in
  DetailField (or_text label (js "Field")) (or_text label (js "field")) v
    (if field_hidden f then SecretValue d (SCustom i) v else [Say v]).

(** [meta] is the label of the item's type. *)
Definition render_detail (meta : jsstr) (d : detail) (it : obj) : screen detail_act :=
  [Say (item_title it); Say meta] ++ say_some (Some (text_at (js "folder") it))
  ++ [btn (if favorite_of it then js "Remove from favorites" else js "Add to favorites") ToggleStar;
      btn (js "Edit") EditItem; btn (js "Share") ShareItem;
      Asks (js "Delete") (jq "Delete '" ++ or_text (text_at (js "name") it) (js "this item") ++ jq "'?") DeleteItem]
  ++ when (is_type (js "login") it) (login_section d it)
  ++ when (is_type (js "card") it) (card_section d it)
  ++ when (is_type (js "identity") it) (identity_section it)
  ++ concat (imap (custom_row d) (customs_of it))
  ++ [Say (js "Notes"); Field (js "Click to add notes...") false (dt_notes d) TypeNotes].
Definition ItemDetail (d : detail) (it : obj) : option (screen detail_act) :=
  meta ← label_of (item_type it); Some (render_detail meta d it).

(** A SecretValue that goes away forgets its reveal, and TotpCode its code. *)
Definition present (it : obj) (p : secret) : bool :=
  match p with
  | SPassword => is_type (js "login") it && negb (bool_decide (text_at (js "password") it = []))
  | SNumber => is_type (js "card") it && negb (bool_decide (nested_at (js "card") (js "number") it = []))
  | SCvv => is_type (js "card") it && negb (bool_decide (nested_at (js "card") (js "cvv") it = []))
  | SCustom i => match customs_of it !! i with Some f => field_hidden f | None => false end
  end.
Definition rerender (it : obj) (d : detail) : detail :=
  Detail (dt_notes d) (List.filter (present it) (dt_shown d))
    (if is_type (js "login") it && negb (bool_decide (text_at (js "totp") it = [])) then dt_code d else NoCode).

Definition flip (p : secret) (d : detail) : detail :=
  Detail (dt_notes d) (if bool_decide (p ∈ dt_shown d) then List.filter (fun q => negb (bool_decide (q = p))) (dt_shown d)
                       else p :: dt_shown d) (dt_code d).
Definition set_notes (t : jsstr) (d : detail) : detail := Detail t (dt_shown d) (dt_code d).

(** The second's tick: the code of the item on screen; an exception of
    totpFromString leaves the state as it was. *)
Definition tick `{Unicode} `{WebCrypto} `{UrlParser} {St} (it : obj) (nowMs : Z) (d : detail) : M St detail :=
  catch (r ← totpFromString (text_at (js "totp") it) nowMs;
         mret (Detail (dt_notes d) (dt_shown d)
           match r with Some (code, secs, _) => CodeFor code secs | None => BadSecret end))
        (fun _ => mret d).
Lemma tick_total `{Unicode} `{WebCrypto} `{UrlParser} {St} (it : obj) nowMs d :
  exists d', dt_notes d' = dt_notes d /\ forall s : St, tick it nowMs d s = (inl d', s).
Proof.
  assert (Hc : Constant (totpFromString (text_at (js "totp") it) nowMs : M St _))
    by (unfold totpFromString, totpCode, hotp; constant).
  destruct Hc as [r Hr]. destruct r as [r|e].
  - eexists. split; [|intros s; unfold tick, catch, mbind, M_bind; rewrite Hr; reflexivity]. done.
  - exists d. split; [done|]. intros s. unfold tick, catch, mbind, M_bind. by rewrite Hr.
Qed.

(** ** The form of the editor *)

(** The draft, and the reveal of its password. *)
Record form := Form { fo_item : obj; fo_plain : bool }.
Definition fresh_form (it : obj) : form := Form it false.

Inductive form_act := Do (e : edit) | PeekPassword | Generate | CancelEdit | SaveEdit.

Definition namePlaceholder (t : jsstr) : jsstr :=
  default [] (snd <$> List.find (fun e => str_eqb e.1 t)
    [(js "login", js "GitHub"); (js "note", js "Wifi password"); (js "card", js "Personal Visa"); (js "identity", js "Me")]).

Definition text_input (k hint : jsstr) (it : obj) : node form_act :=
  Field hint false (text_at k it) (fun v => Do (SetText k v)).
Definition card_input (k hint : jsstr) (it : obj) : node form_act :=
  Field hint false (nested_at (js "card") k it) (fun v => Do (SetCard k v)).
Definition identity_input (k : jsstr) (it : obj) : node form_act :=
  Field [] false (nested_at (js "identity") k it) (fun v => Do (SetIdentity k v)).

Definition field_inputs (i : nat) (f : json) : screen form_act :=
  [Field (js "Label") false (field_text (js "label") f) (fun v => Do (SetLabel i v));
   Field (js "Value") false (field_text (js "value") f) (fun v => Do (SetValue i v));
   btn (if field_hidden f then js "Unmask this field" else js "Mask this field") (Do (ToggleHidden i));
   btn (js "Remove field") (Do (DropField i))].

(** A type tab; [TYPE_META] has every type of ITEM_TYPES. *)
Definition type_tab (t : jsstr) : node form_act := btn (default [] (label_of t)) (Do (SetType t)).

Definition login_inputs (fo : form) : screen form_act :=
  let it := fo_item fo in
  [Say (js "URL"); text_input (js "url") (js "https://github.com") it;
   Say (js "Username"); text_input (js "username") (js "you@example.com") it; Say (js "Password")]
  ++ PasswordField [] (Entry (text_at (js "password") it) (fo_plain fo)) (fun v => Do (SetText (js "password") v)) PeekPassword
  ++ [btn (js "Generate") Generate; Say (js "2FA secret (TOTP)");
      text_input (js "totp") (js "base32 secret or otpauth:// URI from the site's 2FA setup") it].
Definition card_inputs (it : obj) : screen form_act :=
  [Say (js "Cardholder"); card_input (js "cardholder") (js "Name on the card") it;
   Say (js "Card number"); card_input (js "number") (js "4111 1111 1111 1111") it;
   Say (js "Expiry month"); card_input (js "expMonth") (js "MM") it; Say (js "Expiry year"); card_input (js "expYear") (js "YYYY") it;
   Say (js "CVV"); card_input (js "cvv") (js "123") it].
Definition identity_inputs (it : obj) : screen form_act :=
  [Say (js "Full name"); identity_input (js "fullName") it; Say (js "Email"); identity_input (js "email") it;
   Say (js "Phone"); identity_input (js "phone") it; Say (js "Address"); identity_input (js "address") it;
   Say (js "Company"); identity_input (js "company") it].

(** The suggestions of the folder input are left out. *)
Definition ItemEditor (st : button_state) (fo : form) : screen form_act :=
  let it := fo_item fo in
  let isNew := bool_decide (text_at (js "id") it = []) in
  let customs := customs_of it in
  [Say (if isNew then js "Add item" else js "Edit item")]
  ++ when isNew (map type_tab ITEM_TYPES)
  ++ [Say (js "Name"); text_input (js "name") (namePlaceholder (item_type it)) it]
  ++ when (is_type (js "login") it) (login_inputs fo)
  ++ when (is_type (js "card") it) (card_inputs it)
  ++ when (is_type (js "identity") it) (identity_inputs it)
  ++ when (negb (bool_decide (customs = []))) [Say (js "Custom fields")]
  ++ concat (imap field_inputs customs)
  ++ [btn (js "+ Add custom field") (Do AddField);
      Say (js "Notes"); text_input (js "notes") [] it; Say (js "Folder"); text_input (js "folder") (js "none") it;
      Tick (js "Favorite") (favorite_of it) (Do (SetFavorite (negb (favorite_of it))));
      btn (js "Cancel") CancelEdit; render_button (js "Save") (js "Saving") (js "Saved") st SaveEdit].

(** The reveal goes with the password's input. *)
Definition in_form (it : obj) (fo : form) : form := Form it (is_type (js "login") it && fo_plain fo).

(** ** Laws *)

Lemma label_types t : t ∈ item_types -> exists m, label_of t = Some m.
Proof. unfold item_types. intros Ht. repeat (apply elem_of_cons in Ht as [->|Ht]; [by eexists|]). by apply not_elem_of_nil in Ht. Qed.

Lemma offered_rows {A} (f : nat -> json -> screen A) (l : list json) a :
  offered (concat (imap f l)) a -> exists i x, l !! i = Some x /\ offered (f i x) a.
Proof.
  intros (s & Hs & Ho)%offered_concat. apply elem_of_lookup_imap in Hs as (i & x & -> & Hx). by eauto.
Qed.

(** What the form offers: edits with the keys of an item, and no change of the
    type of an item that is stored. *)
Lemma form_edit st fo e : offered (ItemEditor st fo) (Do e) ->
  (forall t, e = SetType t -> text_at (js "id") (fo_item fo) = []) /\
  ((match e with SetText _ v | SetCard _ v | SetIdentity _ v | SetLabel _ v | SetValue _ v => units_ok v | _ => True end) ->
   edit_ok e).
Proof.
  unfold ItemEditor, login_inputs, card_inputs, identity_inputs, text_input, card_input, identity_input, PasswordField, render_button.
  intros Ho. offers; try discriminate;
    try (injection Ho as <-; split; [by intros ? [=]|cbn [edit_ok]; intros ?; try exact I; try done; try (split; [in_keys|done])]).
  - apply bool_decide_eq_true in H. apply offered_map in Ho as (t & [] & Ht & Hu); try discriminate. injection Hu as <-.
    split; [by intros ? [= <-]|]. intros _. cbn. revert Ht. unfold ITEM_TYPES, item_types. set_solver.
  - apply offered_rows in Ho as (i & f & _ & Ho). unfold field_inputs in Ho. offers; try discriminate;
      injection Ho as <-; (split; [by intros ? [=]|by cbn [edit_ok]]).
  - by destruct st.
  - by destruct st.
  - by destruct st.
Qed.

(** ** Masking *)

Definition veiled (v w : jsstr) : Prop := min (length v) 16 = min (length w) 16.
#[global] Instance veiled_equivalence : Equivalence veiled.
Proof. split; unfold veiled; repeat intro; congruence. Qed.

(** Two items that say the same but for their secrets, and no secret is told by
    its length among those of at least sixteen characters. *)
Record same_but_secrets (a b : obj) : Prop := {
  sb_member : forall k, k ∉ [js "password"; js "card"; js "fields"] -> obj_get k a = obj_get k b;
  sb_password : veiled (text_at (js "password") a) (text_at (js "password") b);
  sb_card : forall k, k ∉ [js "number"; js "cvv"] -> nested_at (js "card") k a = nested_at (js "card") k b;
  sb_number : veiled (nested_at (js "card") (js "number") a) (nested_at (js "card") (js "number") b);
  sb_cvv : veiled (nested_at (js "card") (js "cvv") a) (nested_at (js "card") (js "cvv") b);
  sb_fields : Forall2 (fun f g => field_text (js "label") f = field_text (js "label") g /\ field_hidden f = field_hidden g /\
    if field_hidden f then veiled (field_text (js "value") f) (field_text (js "value") g)
    else field_text (js "value") f = field_text (js "value") g) (customs_of a) (customs_of b);
}.

Lemma veiled_nil v w : veiled v w -> bool_decide (v = []) = bool_decide (w = []).
Proof. unfold veiled. destruct v, w; cbn; intros Hv; try done; repeat case_bool_decide; congruence || lia. Qed.

Lemma secret_alike d p v w : p ∉ dt_shown d -> veiled v w -> alike (SecretValue d p v) (SecretValue d p w).
Proof.
  intros Hp Hv. unfold SecretValue. rewrite bool_decide_eq_false_2 by done. unfold veiled in Hv. by rewrite Hv.
Qed.

Lemma field_alike label what v w children children' : alike children children' ->
  alike (DetailField label what v children) (DetailField label what w children').
Proof.
  intros Hc. unfold DetailField. apply cons_alike. unfold alike, shown in *. by rewrite !map_app, Hc.
Qed.

Lemma veiled_field d p label what v w : p ∉ dt_shown d -> veiled v w ->
  alike (field_if label what v (SecretValue d p v)) (field_if label what w (SecretValue d p w)).
Proof.
  intros Hp Hv. unfold field_if. rewrite (veiled_nil _ _ Hv). apply when_alike, field_alike. by apply secret_alike.
Qed.

Section Masked.
Context (a b : obj) (Hs : same_but_secrets a b).

Lemma same_text k : k ∉ [js "password"; js "card"; js "fields"] -> text_at k a = text_at k b.
Proof. intros Hk. unfold text_at. by rewrite (sb_member _ _ Hs k Hk). Qed.

Lemma same_identity k : nested_at (js "identity") k a = nested_at (js "identity") k b.
Proof. unfold nested_at. by rewrite (sb_member _ _ Hs) by in_keys. Qed.

Lemma same_expiry : cardExpiry a = cardExpiry b.
Proof. unfold cardExpiry. by rewrite !(sb_card _ _ Hs) by in_keys. Qed.

Lemma login_alike d : dt_shown d = [] -> alike (login_section d a) (login_section d b).
Proof.
  intros Hd. unfold login_section, loginEmpty. cbn [forallb].
  rewrite !(same_text (js "url")), !(same_text (js "username")), !(same_text (js "totp")), (veiled_nil _ _ (sb_password _ _ Hs)) by in_keys.
  repeat (apply app_alike; [try reflexivity|]); [|reflexivity].
  apply veiled_field; [rewrite Hd; apply not_elem_of_nil|apply Hs].
Qed.

Lemma card_alike d : dt_shown d = [] -> alike (card_section d a) (card_section d b).
Proof.
  intros Hd. unfold card_section, cardEmpty. cbn [forallb].
  rewrite same_expiry, !(sb_card _ _ Hs (js "cardholder")), (veiled_nil _ _ (sb_number _ _ Hs)) by in_keys.
  do 2 (apply app_alike; [reflexivity|]; apply app_alike; [apply veiled_field; [rewrite Hd; apply not_elem_of_nil|apply Hs]|]).
  reflexivity.
Qed.

Lemma customs_alike d : dt_shown d = [] -> alike (concat (imap (custom_row d) (customs_of a))) (concat (imap (custom_row d) (customs_of b))).
Proof.
  intros Hd. refine (rows_alike _ _ _ _ _ (sb_fields _ _ Hs)). intros i f g (Hl & Hh & Hv).
  unfold custom_row. rewrite <- Hl, <- Hh. apply field_alike. destruct (field_hidden f).
  - apply secret_alike; [rewrite Hd; apply not_elem_of_nil|exact Hv].
  - by rewrite Hv.
Qed.
End Masked.

(** C16: The detail pane of the web vault shows no secret until it is asked to:
    with nothing revealed, two items that differ only in their password, card
    number, CVV and the values of their masked fields look alike, as long as those
    of fewer than sixteen characters have the same length; so of a secret of sixteen
    characters or more not even the length is shown. *)
Theorem detail_masks_secrets meta d a b (Hd : dt_shown d = []) (Hs : same_but_secrets a b) :
  alike (render_detail meta d a) (render_detail meta d b).
Proof.
  unfold render_detail, item_title, is_type, item_type, favorite_of.
  rewrite !(same_text a b Hs (js "name")), !(same_text a b Hs (js "folder")), !(same_text a b Hs (js "type")),
    !(sb_member a b Hs (js "favorite")) by in_keys.
  repeat (apply app_alike; [try reflexivity|]); [| | | |reflexivity].
  - by apply when_alike, login_alike.
  - by apply when_alike, card_alike.
  - apply when_alike. unfold identity_section, identityEmpty. cbn [forallb]. by rewrite !(same_identity a b Hs).
  - by apply customs_alike.
Qed.

Definition masked_login (pw : jsstr) : obj :=
  [(js "id", JStr (js "9")); (js "name", JStr (js "Mail")); (js "type", JStr (js "login")); (js "password", JStr pw)].

Lemma detail_masks_secrets_witness :
  alike (render_detail (js "Login") (fresh_detail []) (masked_login (js "correct horse battery staple")))
        (render_detail (js "Login") (fresh_detail []) (masked_login (js "Tr0ub4dor&3 and a half"))).
Proof.
  apply (detail_masks_secrets (js "Login") (fresh_detail [])); [reflexivity|]. split; try reflexivity; [|constructor].
  intros k Hk. unfold masked_login. cbn [obj_get].
  by rewrite (str_eqb_ne k (js "password")) by (intros ->; apply Hk; by left).
Defined.
