(* ===== verification/PanelsUi.v ===== *)
(** The panels of the web vault as they are rendered: two-factor, passkeys,
    recovery code, account, activity, security check and sharing, of
    apps/web/src/VaultScreen.tsx, over the states and actions of WebPanels.v. *)
From stdpp Require Import relations.
From S2P Require Import Prelude Text Numeral Json JsonFacts Encoding JsonText Effects Platform Primitives.
From S2P Require Import Kdf Identifier Account Totp Items Api Session Background Views Health Biometric WebPanels.
From S2P Require Import AsyncButton Ui.

(** ** Values of the server on the screen *)

(** The engine's locale: [new Date(v).toLocaleDateString()], [toLocaleString()] of
    a date and of a number. *)
Class Locale := {
  date_text : jsv -> jsstr;
  date_time_text : jsv -> jsstr;
  number_text : Z -> jsstr;
}.

(** [{v}] as a child: objects throw; arrays, which the server does not send there,
    are left out. *)
Definition child_text (v : jsv) : option jsstr :=
  match v with
  | Some (JStr s) => Some s
  | Some (JNum n) => Some (num_to_string n)
  | None | Some JNull | Some (JBool _) => Some []
  | Some (JArr _) | Some (JObj _) => None
  end.
(** [value={v}] *)
Definition value_text (v : jsv) : jsstr :=
  match v with None | Some JNull => [] | _ => default [] (js_to_string v) end.

Definition middle_dot : Z := 183.
Definition times_sign : Z := 215.

(** A card over its backdrop, which closes it when it is pressed. *)
Definition modal {A} (close : A) (card : screen A) : screen A := Button [] true close :: card.

(** An AsyncButton of a panel; its run is awaited, so it is drawn idle. *)
Abbreviation async label loading success act := (render_button (js label) (js loading) (js success) Idle act).

(** ** Two-factor *)

Inductive tf_act := TfCode (t : jsstr) | TfDisable | TfEnable | TfStart | TfClose.

Definition render_two_factor (loading : bool) (p : two_factor) : screen tf_act :=
  let code := Field (js "6-digit code") false (tf_code p) TfCode in
  modal TfClose (Say (js "Two-factor authentication") ::
  if loading then [Say (js "Loading...")]
  else if truthy (tf_enabled p) then
    [Say (js "2FA is enabled. Enter a current code to turn it off."); code]
    ++ say_some (tf_error p)
    ++ [btn (js "Close") TfClose; async "Disable 2FA" "Disabling" "Disabled" TfDisable]
  else match tf_setup p with
       | Some (secret, uri) =>
           [Say (js "Add this secret to your authenticator app (or paste the otpauth URI), then enter a code to confirm.");
            Say (js "Secret"); Say (value_text secret); Say (js "otpauth URI"); Say uri; Say (js "Code from your app"); code]
           ++ say_some (tf_error p)
           ++ [btn (js "Cancel") TfClose; async "Enable" "Enabling" "Enabled" TfEnable]
       | None =>
           [Say (js "Protect your account with a time-based one-time code (TOTP).")]
           ++ say_some (tf_error p)
           ++ [btn (js "Close") TfClose; async "Set up 2FA" "Starting" "Done" TfStart]
       end).

(** ** Passkeys *)

Inductive pk_act := PkRemove (id : jsstr) | PkName (t : jsstr) | PkAdd | PkClose.

(** [creds.length > 0] and [creds.map]: null and undefined throw, and so do the
    values with a length that are no arrays; the lengths an object may bring are
    left out. *)
Definition creds_list (v : jsv) : option (list json) :=
  match v with
  | Some (JArr l) => Some l
  | None | Some JNull | Some (JStr (_ :: _)) | Some (JObj _) => None
  | Some _ => Some []
  end.

Section Passkeys.
Context `{Locale}.

Definition passkey_row (c : json) : option (screen pk_act) :=
  name ← child_text (get_prop (js "name") c);
  Some [Say name; Say (js " " ++ middle_dot :: js " added " ++ date_text (get_prop (js "createdAt") c));
        async "Remove" "Removing" "Removed" (PkRemove (value_text (get_prop (js "id") c)))].

Definition render_passkeys (supported loading : bool) (p : passkeys) : option (screen pk_act) :=
  let head :=
    [Say (js "Passkeys");
     Say (js "A passkey is a phishing-resistant second factor: at sign-in you confirm with your device (Touch ID, Windows Hello, or a security key) instead of, or alongside, a code.")]
    ++ when (negb supported) [Say (js "This browser does not support passkeys.")] in
  modal PkClose <$>
  if loading then Some (head ++ [Say (js "Loading...")])
  else
    l ← creds_list (pk_creds p);
    rows ← mapM passkey_row l;
    Some (head
      ++ (match rows with [] => [Say (js "No passkeys yet.")] | _ => concat rows end)
      ++ [Say (js "Name a new passkey"); Field (js "e.g. MacBook Touch ID") false (pk_name p) PkName]
      ++ say_some (pk_error p)
      ++ [btn (js "Close") PkClose; async "Add passkey" "Waiting for device" "Added" PkAdd]).
End Passkeys.

(** ** Recovery code *)

Inductive rc_act := RcGenerate | RcRemove | RcCopy (code : jsstr) | RcClose.

Definition render_recovery (loading : bool) (p : recovery) : screen rc_act :=
  modal RcClose (Say (js "Recovery code") ::
  if loading then [Say (js "Loading...")]
  else match rc_code p with
  | Some ((_ :: _) as code) =>
      [Say (js "Write down these 24 words and keep them somewhere safe and offline. They are the only way back into your vault if you forget your master password, and they will not be shown again. Anyone with this code can reset your password, so guard it like the password itself.");
       Say code]
      ++ say_some (rc_error p)
      ++ [async "Copy" "Working" "Copied" (RcCopy code); btn (js "I've saved it") RcClose]
  | _ =>
      if truthy (rc_enabled p) then
        [Say (js "A recovery code is set up. You can generate a new one (which replaces the old) or remove it. Removing it means a forgotten master password cannot be recovered.")]
        ++ say_some (rc_error p)
        ++ [async "Remove" "Removing" "Removed" RcRemove; async "Generate new code" "Generating" "Done" RcGenerate]
      else
        [Say (js "Set up a recovery code so you can get back into your vault if you ever forget your master password. It is generated on this device and shown only once; we never see it.")]
        ++ say_some (rc_error p)
        ++ [btn (js "Close") RcClose; async "Set up recovery code" "Generating" "Done" RcGenerate]
  end).

(** ** Account *)

Inductive ac_act := AcCopy | AcConfirm (t : jsstr) | AcSignOut | AcDelete | AcNoBiometrics.

(** [sessions === null], then [sessions.length], which throws on undefined; the
    lengths an object may bring are left out. *)
Definition sessions_text (v : jsv) : option jsstr :=
  let signed n := js " device" ++ n ++ js " currently signed in." in
  let counted (n : Z) := dec n ++ signed (plural n) in
  match v with
  | Some JNull => Some (js "Loading sessions...")
  | Some (JArr l) => Some (counted (Z.of_nat (length l)))
  | Some (JStr t) => Some (counted (Z.of_nat (length t)))
  | Some _ => Some (js "undefined" ++ signed (js "s"))
  | None => None
  end.

Definition render_account (identifier : jsstr) (bioOn : bool) (p : account_panel) : option (screen ac_act) :=
  sessions ← sessions_text (ap_sessions p);
  Some (
    [Say (js "Account"); Say (js "Account identifier"); Say identifier; btn (js "Copy Account identifier") AcCopy;
     Say (js "This is your login handle (a private passphrase or email). It is blinded before it reaches the server, which never sees it in the clear.");
     Say (js "Active sessions");
     Say (sessions ++ js " Signing out everywhere revokes every session; each device has to sign in again.");
     Button (if ap_signingOut p then js "Signing out..." else js "Sign out of all devices") (negb (ap_signingOut p)) AcSignOut]
    ++ when bioOn
         [Say (js "Biometric unlock");
          Say (js "This device can unlock your vault with a fingerprint or face. Your master password is held in the device's secure hardware store, released only after a biometric check.");
          btn (js "Disable biometric unlock") AcNoBiometrics]
    ++ [Say (js "Delete account");
        Say (js "Permanently erases your account and every item, share, and security record. This cannot be undone: the server never held your master password, so there is nothing to recover afterward.");
        Say (js "Type DELETE to confirm"); Field (js "DELETE") false (ap_confirm p) AcConfirm]
    ++ say_some (ap_error p)
    ++ [Button (if ap_busy p then js "Deleting..." else js "Delete my account") (del_enabled p) AcDelete]).

(** ** Activity *)

Definition ACTIVITY_LABELS : list (jsstr * jsstr) :=
  [(js "account.register", js "Account created"); (js "login.success", js "Signed in");
   (js "login.failure", js "Failed sign-in attempt"); (js "totp.enable", js "Two-factor (TOTP) enabled");
   (js "totp.disable", js "Two-factor (TOTP) disabled"); (js "passkey.enroll", js "Passkey added");
   (js "passkey.remove", js "Passkey removed"); (js "recovery.enable", js "Recovery code set up");
   (js "recovery.disable", js "Recovery code removed"); (js "recovery.complete", js "Account recovered");
   (js "token.reuse_detected", js "Session token reuse detected"); (js "session.revoke_all", js "Signed out all devices");
   (js "cipher.create", js "Item added"); (js "cipher.update", js "Item edited"); (js "cipher.delete", js "Item deleted")].
(** [ACTIVITY_LABELS[k] ?? k]; the names of Object.prototype are left out. *)
Definition activity_label (k : jsstr) : jsstr :=
  default k (snd <$> List.find (fun e => str_eqb e.1 k) ACTIVITY_LABELS).

Inductive av_act := AvClose.
Section Activity.
Context `{Locale}.

(** [e.event.endsWith] throws on what is not a string. *)
Definition activity_row (e : json) : option (screen av_act) :=
  match get_prop (js "event") e with
  | Some (JStr k) => Some [Say (activity_label k); Say (date_time_text (get_prop (js "createdAt") e))]
  | _ => None
  end.
Definition render_activity (p : activity) : option (screen av_act) :=
  rows ← (if negb (truthy (ac_events p)) then Some [Say (js "Loading...")]
          else match ac_events p with
               | Some (JArr []) => Some [Say (js "No activity yet.")]
               | Some (JArr l) => (fun rows => concat rows) <$> mapM activity_row l
               | _ => None
               end);
  Some (modal AvClose ([Say (js "Account activity"); Say (js "Recent security events on your account, newest first.")]
    ++ say_some (ac_error p) ++ rows ++ [btn (js "Close") AvClose])).
End Activity.

(** ** Security check *)

Inductive sk_act := SkCheck | SkClose.
Section Security.
Context `{Locale}.

Definition health_row (items : list obj) (breaches : option (gmap jsstr Z)) (it : obj) : screen sk_act :=
  let n := default 0 (breaches ≫= fun m => m !! id_of it) in
  Say (or_text (text_at (js "name") it) (js "(unnamed)"))
  :: when (0 <? n) [Say (js "Breached " ++ times_sign :: number_text n)]
  ++ when (bool_decide (id_of it ∈ reusedItemIds items)) [Say (js "Reused")]
  ++ match weakById items !! id_of it with Some w => [Say w] | None => [] end.

Definition render_security (busy : bool) (items : list obj) (p : security) : screen sk_act :=
  let n := withPasswords items in
  let breaches := sec_breaches p in
  modal SkClose ([Say (js "Security check");
   Say (js "Weak and reused passwords are detected here on your device. The breach check compares each password against the HaveIBeenPwned database by sending only a short, unrecoverable fragment of its hash "
        ++ em_dash :: js " your passwords never leave this browser, and the passwd server is never involved.");
   Button (if busy then js "Checking..."
           else match breaches with
                | Some _ => js "Re-check breaches"
                | None => js "Check " ++ dec (Z.of_nat n) ++ js " password" ++ plural (Z.of_nat n) ++ js " for breaches"
                end) (negb (busy || (n =? 0)%nat)) SkCheck]
  ++ say_some (sec_error p)
  ++ (match flagged items breaches with
      | [] => [Say (all_clear items breaches)]
      | l => concat (map (health_row items breaches) l)
      end)
  ++ [btn (js "Close") SkClose]).
End Security.

(** ** Sharing *)

Inductive sd_act := SdRecipient (t : jsstr) | SdShare | SdClose.
Definition render_share (item : obj) (p : share_dialog) : screen sd_act :=
  modal SdClose ([Say (jq "Share '" ++ or_text (text_at (js "name") item) (js "(unnamed)") ++ jq "'");
   Say (js "Enter the recipient's account identifier (their passphrase or email). The item is encrypted to their public key "
        ++ em_dash :: js " only they can read it, and the server never can.");
   Say (js "Recipient identifier"); Field (js "their passphrase or email") false (sd_recipient p) SdRecipient]
  ++ say_some (sd_error p)
  ++ [btn (js "Cancel") SdClose; async "Share item" "Sharing" "Shared" SdShare]).

Inductive sw_act := SwCopy (label value : jsstr) | SwRemove (shareId : jsstr) | SwClose.
Definition shared_row (it : obj) : screen sw_act :=
  let user := text_at (js "username") it in
  let pass := text_at (js "password") it in
  [Say (or_text (text_at (js "name") it) (js "(unnamed)")); Say (itemSubtitle it)]
  ++ when (negb (bool_decide (user = []))) [btn (js "Copy user") (SwCopy (js "username") user)]
  ++ when (negb (bool_decide (pass = []))) [btn (js "Copy pass") (SwCopy (js "password") pass)]
  ++ [async "Remove" "Removing" "Done" (SwRemove (text_at (js "shareId") it))].
Definition render_shared (p : shared_list) : screen sw_act :=
  modal SwClose ([Say (js "Shared with me"); Say (js "Items other people have shared with you, decrypted on this device.")]
  ++ say_some (sw_error p)
  ++ (match sw_items p with
      | None => [Say (js "Loading...")]
      | Some [] => [Say (js "Nothing has been shared with you yet.")]
      | Some l => concat (map shared_row l)
      end)
  ++ [btn (js "Close") SwClose]).

(** ** The handlers *)
Section Handlers.
Context {N E : Type} `{Unicode} `{WebCrypto} `{Environment N} `{Entropy E} `{EngineText} (s : Session).
Abbreviation W := (world N E).

(** The effect of the mounting ends the loading; Close is the parent's. *)
Definition tf_do (a : tf_act) : M (two_factor * W) unit :=
  match a with
  | TfCode t => upd (typeCode t)
  | TfDisable => _ ← disable s; mret tt
  | TfEnable => _ ← enable s; mret tt
  | TfStart => _ ← startSetup s; mret tt
  | TfClose => mret tt
  end.
Definition pk_do (supported : bool) (a : pk_act) : M (passkeys * W) unit :=
  match a with
  | PkRemove id => _ ← removePasskeyButton s id; mret tt
  | PkName t => upd (fun p => Passkeys (pk_creds p) t (pk_error p))
  | PkAdd => _ ← addPasskey supported s; mret tt
  | PkClose => mret tt
  end.
(** A copy that the browser refuses leaves the panel alone. *)
Definition rc_do (a : rc_act) : M (recovery * W) unit :=
  match a with
  | RcGenerate => _ ← generate s; mret tt
  | RcRemove => _ ← removeRecovery s; mret tt
  | RcCopy _ | RcClose => mret tt
  end.
Definition sd_do (item : obj) (a : sd_act) : M (share_dialog * W) unit :=
  match a with
  | SdRecipient t => upd (fun p => ShareDialog t (sd_shared p) (sd_error p))
  | SdShare => _ ← share s item; mret tt
  | SdClose => mret tt
  end.
Definition sw_do (a : sw_act) : M (shared_list * W) unit :=
  match a with
  | SwRemove id => _ ← removeShare s id; mret tt
  | SwCopy _ _ | SwClose => mret tt
  end.
Definition sk_do `{Sha1} (items : list obj) (a : sk_act) : M (security * W) unit :=
  match a with SkCheck => runBreachCheck items | SkClose => mret tt end.
Definition ac_do (a : ac_act) : M (account_panel * W) unit :=
  match a with
  | AcConfirm t => upd (fun p => AccountPanel (ap_locked p) t (ap_busy p) (ap_signingOut p) (ap_sessions p) (ap_error p))
  | AcSignOut => signOutAll s
  | AcDelete => del s
  | AcCopy | AcNoBiometrics => mret tt
  end.
End Handlers.

(** ** Laws *)

Lemma offers_account i bio p sc a : render_account i bio p = Some sc -> offered sc a ->
  match a with
  | AcDelete => del_enabled p = true
  | AcSignOut => ap_signingOut p = false
  | AcNoBiometrics => bio = true
  | _ => True
  end.
Proof.
  unfold render_account. intros (t & _ & [= <-])%bind_Some Ho. offers; try discriminate; try (injection Ho as <-; done).
  all: destruct (ap_signingOut p), (del_enabled p); try discriminate; by injection Ho as <-.
Qed.

Lemma account_offers i bio p sc : render_account i bio p = Some sc ->
  (forall t, offered sc (AcConfirm t)) /\ (ap_signingOut p = false -> offered sc AcSignOut).
Proof.
  unfold render_account. intros (t & _ & [= <-])%bind_Some. split; [intros u|intros ->]; find_node fail.
Qed.

Lemma offers_two_factor loading p a : offered (render_two_factor loading p) a ->
  match a with
  | TfDisable => loading = false /\ truthy (tf_enabled p) = true
  | TfEnable => loading = false /\ truthy (tf_enabled p) = false /\ exists r, tf_setup p = Some r
  | TfStart => loading = false /\ truthy (tf_enabled p) = false /\ tf_setup p = None
  | _ => True
  end.
Proof.
  unfold render_two_factor, modal, render_button. intros Ho.
  destruct loading, (truthy (tf_enabled p)), (tf_setup p) as [[secret uri]|]; cbv iota zeta in Ho; offers; try discriminate;
    injection Ho as <-; by eauto.
Qed.

Lemma offers_recovery loading p a : offered (render_recovery loading p) a ->
  match a with
  | RcGenerate => loading = false /\ default [] (rc_code p) = []
  | RcRemove => loading = false /\ default [] (rc_code p) = [] /\ truthy (rc_enabled p) = true
  | RcCopy c => loading = false /\ rc_code p = Some c
  | RcClose => True
  end.
Proof.
  unfold render_recovery, modal, render_button. intros Ho.
  destruct loading, (truthy (rc_enabled p)), (rc_code p) as [[|u c]|]; cbv iota zeta in Ho; offers; try discriminate;
    injection Ho as <-; by eauto.
Qed.

(** A call changes the server by one request. *)
Lemma call_keeps {N E} `{Environment N} (P : N -> Prop) method path body token :
  (forall r n, rq_method r = method -> P n -> P (Api.handle r n).2) ->
  Keeps (S := world N E) (fun w => P (net w)) (call method path body token).
Proof.
  intros Hh. unfold call, error_of, text_of_value. apply bind_keeps; [destruct (truthy token); apply _|]. intros auth.
  apply bind_keeps; [by intros w Hw|]. intros base. apply bind_keeps.
  - intros w Hw. unfold fetch. match goal with |- context [Api.handle ?r _] => specialize (Hh r (net w) eq_refl Hw) end.
    by destruct (Api.handle _ _) as [[] ?].
  - intros res. apply bind_keeps; [destruct (rs_text res); apply _|]. intros v. destruct (rs_ok res); [apply _|].
    apply bind_keeps; [intros w Hw; by destruct v|]. intros err. apply bind_keeps; [|apply _]. destruct (truthy err); apply _.
Qed.

(** What is left of the server when no deletion is sent. *)
Definition spared {N} `{Environment N} (P : N -> Prop) : Prop :=
  forall r n, rq_method r <> DELETE -> P n -> P (Api.handle r n).2.

Definition account_screen (i : jsstr) (bio : bool) {N E} (x : account_panel * world N E) : screen ac_act :=
  default [] (render_account i bio x.1).

Lemma sign_out_keeps {N E} `{Environment N} `{EngineText} (s : Session) (P : N -> Prop) : spared P ->
  Keeps (S := account_panel * world N E) (fun x => P (net x.2) /\ ap_confirm x.1 <> js "DELETE") (signOutAll s).
Proof.
  intros HP [p w] [Hw Hc]. unfold signOutAll, leave, signOutEverywhere, logoutAll, upd, api.
  assert (Hk := call_keeps (E := E) P POST (js "/api/auth/logout-all") None (ss_accessToken s) (fun r n Hr => HP r n (ltac:(by rewrite Hr))) w Hw).
  unfold catch, mbind, M_bind, modify. cbn [fst snd]. by destruct (call _ _ _ _ w) as [[v|e] w'].
Qed.

Lemma account_spared {N E} `{Unicode} `{WebCrypto} `{Environment N} `{Entropy E} `{EngineText} (s : Session) i bio (P : N -> Prop)
  (x y : account_panel * world N E) log : spared P ->
  ui_run (account_screen i bio) (ac_do s) (fun _ _ => False) x log y ->
  Forall (fun g => g.1 <> AcConfirm (js "DELETE")) log -> P (net x.2) -> ap_confirm x.1 <> js "DELETE" -> P (net y.2).
Proof.
  intros HP. induction 1 as [x|x a r x1 log y Ho Ha _ IH|x x1 log y []]; [done|]. intros Hl Hx Hc.
  apply Forall_cons in Hl as [Ha' Hl]. unfold account_screen in Ho.
  enough (P (net x1.2) /\ ap_confirm x1.1 <> js "DELETE") as [? ?] by (by apply IH).
  destruct (render_account i bio x.1) as [sc|] eqn:Hr; [|by apply offered_nil in Ho].
  destruct a as [|t| | |].
  - injection Ha as <- <-. done.
  - injection Ha as <- <-. split; [done|]. cbn. intros ->. by apply Ha'.
  - pose proof (sign_out_keeps (E := E) s P HP x (conj Hx Hc)) as Hk. change (ac_do s AcSignOut x) with (signOutAll s x) in Ha.
    by rewrite Ha in Hk.
  - apply (offers_account _ _ _ _ _ Hr) in Ho. cbn in Ho. unfold del_enabled in Ho. apply andb_true_iff in Ho as [He _].
    by apply bool_decide_eq_true in He.
  - injection Ha as <- <-. done.
Qed.

Lemma recovery_final {N E} `{Unicode} `{WebCrypto} `{Environment N} `{Entropy E} `{EngineText} (s : Session) p c (w : world N E) st :
  rc_code p = Some c -> c <> [] ->
  rtc (ui_step (fun x : recovery * world N E => render_recovery false x.1) (rc_do s) (fun _ _ => False)) (p, w) st -> st = (p, w).
Proof.
  intros Hc Hne Hs. refine (ui_invariant _ _ _ (fun x => x = (p, w)) _ _ _ _ Hs eq_refl); [|done].
  intros x a r y -> Ho Ha. apply offers_recovery in Ho. cbn [fst] in Ho. rewrite Hc in Ho.
  destruct a; cbn in Ho; try tauto; by injection Ha as _ <-.
Qed.

(** ** Theorems *)

(** C17: What cannot be taken back is not done by accident.  In any session of
    gestures in the account panel in which DELETE is never typed, whatever else is
    typed and pressed, the server sees no request for a deletion: everything that
    all other requests leave true of it is still true.  And while a recovery code
    is on the screen nothing that is done in its panel, short of closing it,
    changes the code, the server or anything else, so that it cannot be replaced
    before it is written down. *)
Theorem panel_guards {N E} `{Unicode} `{WebCrypto} `{Environment N} `{Entropy E} `{EngineText} (s : Session) :
  (forall i bio (P : N -> Prop) p (w : world N E) log st, spared P -> P (net w) -> ap_confirm p <> js "DELETE" ->
     ui_run (account_screen i bio) (ac_do s) (fun _ _ => False) (p, w) log st ->
     Forall (fun g => g.1 <> AcConfirm (js "DELETE")) log -> P (net st.2)) /\
  (forall p c (w : world N E) st, rc_code p = Some c -> c <> [] ->
     rtc (ui_step (fun x : recovery * world N E => render_recovery false x.1) (rc_do s) (fun _ _ => False)) (p, w) st ->
     c ∈ shown (render_recovery false st.1) /\ st = (p, w)).
Proof.
  split.
  - intros i bio P p w log st HP Hw Hc Hr Hl. by eapply account_spared.
  - intros p c w st Hc Hne Hs. rewrite (recovery_final s p c w st Hc Hne Hs). split; [|done].
    apply say_shown. unfold render_recovery, modal. cbn [fst]. rewrite Hc. destruct c as [|u c]; [done|]. find_text.
Qed.

(** The error of SharedWithMe is never taken back: after a removal that failed, one
    that succeeds, and reads the list again, still shows it, over the new list. *)
Theorem shared_error_stays {N E} `{Unicode} `{WebCrypto} `{Environment N} `{Entropy E} `{EngineText} (s : Session)
  id x items l e (w w1 w2 : world N E)
  (Hr : returns (removeSharedItem s id) w x w1) (Hl : returns (listSharedWithMe s) w1 l w2) (He : e <> []) :
  let p := SharedWithMe items (Some e) in
  exists p', returns (sw_do s (SwRemove id)) (p, w) tt (p', w2) /\ sw_items p' = Some l /\ e ∈ shown (render_shared p').
Proof.
  intros p. exists (SharedWithMe (Some l) (Some e)). split; [|split; [done|]].
  - assert (Ha : forall {T} (m : M (world N E) T) (y : T) (v v' : world N E), returns m v y v' -> returns (api m) (p, v) y (p, v'))
      by (intros T m y v v' Hm; unfold returns, api in *; cbn [fst snd]; by rewrite Hm).
    assert (Hre : returns (reloadShared s) (p, w1) tt (SharedWithMe (Some l) (Some e), w2))
      by (apply catch_returns; unfold returns; by run (Ha _ _ _ _ _ Hl)).
    unfold returns, sw_do. assert (Hrm : returns (removeShare s id) (p, w) true (SharedWithMe (Some l) (Some e), w2))
      by (apply catch_returns; unfold returns; run (Ha _ _ _ _ _ Hr); by run Hre).
    by run Hrm.
  - apply say_shown. unfold render_shared, modal. cbn [sw_error]. rewrite say_some_text by done. find_text.
Qed.

(** ** Concrete inputs *)
#[local] Existing Instances latin1_unicode model_crypto lcg_entropy agreeing panel_errors.

(** A server where deleting and listing go well. *)
Definition sharing_server (r : request) (n : unit) : option response * unit :=
  (Some {| rs_status := 200; rs_text := stringify (JObj [(js "shares", JArr [])]) |}, n).
#[local] Instance sharing : Environment unit := {|
  Api.handle := sharing_server;
  startAuthentication _ n := (inr LibraryError, n);
  startRegistration _ n := (inr LibraryError, n);
|}.

Lemma shared_error_stays_witness : exists p',
  returns (sw_do panel_session (SwRemove (js "7")))
    (SharedWithMe None (Some (js "not found")), (World [] tt 1 : world unit Z)) tt (p', World [] tt 1) /\
  sw_items p' = Some [] /\ js "not found" ∈ shown (render_shared p').
Proof.
  apply (shared_error_stays panel_session (js "7") (JObj [(js "shares", JArr [])]) None [] (js "not found")
    (World [] tt 1 : world unit Z) (World [] tt 1) (World [] tt 1)); [vm_compute; reflexivity|vm_compute; reflexivity|discriminate].
Defined.

(** A server that counts the accounts it still has. *)
Definition counting_server (r : request) (n : nat) : option response * nat :=
  (Some {| rs_status := 500; rs_text := stringify (JObj [(js "error", JStr (js "try again"))]) |},
   if str_eqb (rq_method r) DELETE then pred n else n).
#[local] Instance counting : Environment nat := {|
  Api.handle := counting_server;
  startAuthentication _ n := (inr LibraryError, n);
  startRegistration _ n := (inr LibraryError, n);
|}.

Lemma counting_spared k : spared (fun n : nat => n = k).
Proof. intros r n Hr ->. cbn. unfold counting_server, str_eqb. by rewrite bool_decide_eq_false_2. Qed.

(** DELET is typed and every device signed out, in vain: the account is there. *)
Lemma panel_guards_witness : exists st, net st.2 = 1%nat /\
  ui_run (account_screen [] false) (ac_do panel_session) (fun _ _ => False)
    (AccountPanel false [] false false (Some (JArr [])) None, (World [] 1%nat 1 : world nat Z))
    [(AcConfirm (js "DELET"), (AccountPanel false (js "DELET") false false (Some (JArr [])) None, World [] 1%nat 1));
     (AcSignOut, st)] st.
Proof.
  exists (AccountPanel false (js "DELET") false false (Some (JArr [])) (Some (js "try again")), World [] 1%nat 1).
  assert (Hr : ui_run (account_screen [] false) (ac_do panel_session) (fun _ _ => False)
    (AccountPanel false [] false false (Some (JArr [])) None, (World [] 1%nat 1 : world nat Z))
    [(AcConfirm (js "DELET"), (AccountPanel false (js "DELET") false false (Some (JArr [])) None, World [] 1%nat 1));
     (AcSignOut, (AccountPanel false (js "DELET") false false (Some (JArr [])) (Some (js "try again")), World [] 1%nat 1))]
    (AccountPanel false (js "DELET") false false (Some (JArr [])) (Some (js "try again")), World [] 1%nat 1)).
  { eapply run_user; [|vm_compute; reflexivity|eapply run_user; [|vm_compute; reflexivity|constructor]].
    - by apply (account_offers [] false (AccountPanel false [] false false (Some (JArr [])) None)).
    - by apply (account_offers [] false (AccountPanel false (js "DELET") false false (Some (JArr [])) None)). }
  split; [|exact Hr].
  destruct (panel_guards (N := nat) (E := Z) panel_session) as [Hg _].
  refine (Hg [] false (fun n => n = 1%nat) (AccountPanel false [] false false (Some (JArr [])) None) (World [] 1%nat 1) _ _
    (counting_spared 1) eq_refl _ Hr _); [discriminate|].
  repeat (apply Forall_cons_2; [discriminate|]). apply Forall_nil_2.
Defined.
