(* ===== verification/IdleLock.v ===== *)
(** The idle lock of the two apps that hold a vault in memory: the effect on the
    session in apps/web/src/App.tsx and the one on the vault in
    apps/desktop/src/App.tsx.  Unlike the extension's worker (Background.v), which
    compares the clock with a stored deadline, they rely on a timer. *)
From stdpp Require Import relations.
From S2P Require Import Prelude Process.

(** The open session or vault, and when the pending timeout is due. *)
Record idle (A : Type) := Idle { shown : option A; timer : option Z }.
Arguments Idle {A}.
Arguments shown {A}.
Arguments timer {A}.

(** The state a client starts in. *)
Definition closed {A} : idle A := Idle None None.

Section Idle.
Context {A : Type} (limit : Z).

(** [setSession(v)] at a time: the cleanup clears the timeout and removes the
    listeners; the effect, when something is open, sets them up again. *)
Definition set_shown (now : Z) (v : option A) : idle A :=
  Idle v (match v with Some _ => Some (now + limit) | None => None end).

(** [reset]: an activity event, listened to only while something is open. *)
Definition reset (now : Z) (s : idle A) : idle A :=
  match shown s with Some _ => Idle (shown s) (Some (now + limit)) | None => s end.

(** [lock], called by the timeout. *)
Definition lock : idle A := Idle None None.

(** A run: the clock, the time of the last activity, and the state. *)
Record run_state := Run { now : Z; last_active : Z; idle_state : idle A }.

(** [late] says that timeouts may run late, as they do on a machine that slept:
    otherwise time does not pass the deadline of a pending one. *)
Inductive idle_step (late : bool) : run_state -> run_state -> Prop :=
| step_set s v : idle_step late s (Run (now s) (now s) (set_shown (now s) v))
| step_active s : idle_step late s (Run (now s) (now s) (reset (now s) (idle_state s)))
| step_fire s d : timer (idle_state s) = Some d -> d <= now s ->
    idle_step late s (Run (now s) (last_active s) lock)
| step_time s t : now s <= t ->
    (late = false -> forall d, timer (idle_state s) = Some d -> t <= d) ->
    idle_step late s (Run t (last_active s) (idle_state s)).

(** While something is open its timeout is set, [limit] after the last activity. *)
Definition timed (s : run_state) : Prop :=
  last_active s <= now s /\
  timer (idle_state s) = match shown (idle_state s) with Some _ => Some (last_active s + limit) | None => None end.

Lemma step_timed late s s' : idle_step late s s' -> timed s -> timed s'.
Proof.
  intros Hs [Hl Ht]. destruct Hs as [s v|s|s d Hd Hn|s t Hn _]; unfold timed; cbn [now last_active idle_state].
  - split; [lia|]. by destruct v.
  - split; [lia|]. unfold reset. destruct (shown (idle_state s)) eqn:E; cbn; [done|by rewrite E, Ht].
  - by split.
  - split; [lia|exact Ht].
Qed.

Lemma reachable_timed late t s : rtc (idle_step late) (Run t t closed) s -> timed s.
Proof.
  intros Hr. apply (rtc_invariant (idle_step late) timed) in Hr; [exact Hr|apply step_timed|]. split; [cbn; lia|done].
Qed.

Lemma punctual_step s s' : 0 <= limit -> idle_step false s s' -> timed s ->
  (is_Some (shown (idle_state s)) -> now s <= last_active s + limit) ->
  is_Some (shown (idle_state s')) -> now s' <= last_active s' + limit.
Proof.
  intros Hlim Hs [_ Ht] Hb Ho. destruct Hs as [s v|s|s d Hd Hn|s t Hn Hp]; cbn in *; [lia|lia|by destruct Ho|].
  destruct Ho as [a Ha]. rewrite Ha in Ht. by apply (Hp eq_refl).
Qed.
End Idle.

Arguments Run {A}.
Arguments now {A}.
Arguments last_active {A}.
Arguments idle_state {A}.

(** The two clients. *)
Definition WEB_IDLE_LOCK_MS : Z := 15 * 60 * 1000.
Definition DESKTOP_IDLE_LOCK_MS : Z := 10 * 60 * 1000.
Definition web_session {A} : Z -> option A -> idle A := set_shown WEB_IDLE_LOCK_MS.
Definition desktop_vault {A} : Z -> option A -> idle A := set_shown DESKTOP_IDLE_LOCK_MS.

(** ** Theorems *)
Section Theorems.
Context {A : Type} (limit : Z).

(** C23: as long as timeouts run on time, nothing stays open longer than the limit
    after the last activity, whatever is opened, changed, closed and touched in
    between; and a timeout is pending for exactly as long as something is open. *)
Theorem idle_lock_punctual t (s : run_state (A := A))
  (Hlim : 0 <= limit) (Hr : rtc (idle_step limit false) (Run t t closed) s) :
  (is_Some (shown (idle_state s)) <-> is_Some (timer (idle_state s))) /\
  (is_Some (shown (idle_state s)) -> now s <= last_active s + limit).
Proof.
  split.
  - destruct (reachable_timed limit false t s Hr) as [_ ->]. destruct (shown (idle_state s)); split; [intros _; by eexists..|by intros []|by intros []].
  - apply (rtc_invariant (idle_step limit false)
      (fun s => timed limit s /\ (is_Some (shown (idle_state s)) -> now s <= last_active s + limit))) in Hr;
      [exact (proj2 Hr)| |].
    + intros a b Hs [Ht Hb]. split; [by eapply step_timed|by eapply punctual_step].
    + split; [split; [cbn; lia|done]|by intros []].
Qed.

(** The lock depends on the timer alone: when timeouts run late, the first
    activity after any time away finds the vault open and keeps it open. *)
Theorem late_timer_keeps_open t (a : A) away (Ha : 0 <= away) :
  exists s, rtc (idle_step limit true) (Run t t closed) s /\
    now s = t + away /\ idle_state s = Idle (Some a) (Some (t + away + limit)).
Proof.
  exists (Run (t + away) (t + away) (Idle (Some a) (Some (t + away + limit)))). split; [|done].
  eapply rtc_l; [apply (step_set limit true _ (Some a))|].
  eapply rtc_l; [apply (step_time limit true _ (t + away)); [cbn; lia|done]|].
  apply rtc_once. apply (step_active limit true (Run (t + away) t (Idle (Some a) (Some (t + limit))))).
Qed.
End Theorems.

Lemma idle_lock_punctual_witness :
  exists s : run_state (A := unit), rtc (idle_step WEB_IDLE_LOCK_MS false) (Run 0 0 closed) s /\
    is_Some (shown (idle_state s)) /\ now s <= last_active s + WEB_IDLE_LOCK_MS.
Proof.
  exists (Run 600000 0 (web_session 0 (Some tt))).
  assert (Hr : rtc (idle_step WEB_IDLE_LOCK_MS false) (Run 0 0 closed) (Run 600000 0 (web_session 0 (Some tt)))).
  { eapply rtc_l; [apply (step_set WEB_IDLE_LOCK_MS false _ (Some tt))|]. apply rtc_once.
    apply (step_time WEB_IDLE_LOCK_MS false (Run 0 0 (web_session 0 (Some tt)))); [done|].
    intros _ d [= <-]. by vm_compute. }
  split; [exact Hr|]. split; [by eexists|].
  apply (idle_lock_punctual WEB_IDLE_LOCK_MS 0 _); [by vm_compute|exact Hr|by eexists].
Defined.
