(* ===== verification/Clipboard.v ===== *)
(** apps/desktop/src/VaultScreen.tsx, [copy]: a copied value, and the timer that
    takes it off the clipboard again. *)
From stdpp Require Import relations.
From S2P Require Import Prelude Text Process.

Definition CLIPBOARD_CLEAR_MS : Z := 20 * 1000.

(** The clipboard; when the app put there what is on it; when the pending timeouts
    are due. *)
Record board := Board { text : jsstr; copied_at : option Z; due : list Z }.
Definition empty_board : board := Board [] None [].

(** [copy(label, value)] when [writeText] succeeds or not; with the toast. *)
Definition copy (now : Z) (ok : bool) (label value : jsstr) (b : board) : board * option jsstr :=
  match value with
  | [] => (b, None)
  | _ => if ok then (Board value (Some now) (due b ++ [now + CLIPBOARD_CLEAR_MS]), Some (js "Copied " ++ label))
         else (b, Some (js "Copy failed"))
  end.

(** The timeout due at [d]: [writeText] of the empty text, its failure swallowed. *)
Definition clear (ok : bool) (pre post : list Z) (b : board) : board :=
  if ok then Board [] None (pre ++ post) else Board (text b) (copied_at b) (pre ++ post).

(** Another program copies something. *)
Definition other (v : jsstr) (b : board) : board := Board v None (due b).

Record run := Run { now : Z; clip : board }.

(** [fair] says that timeouts run on time and that clearing is not refused. *)
Inductive clip_step (fair : bool) : run -> run -> Prop :=
| step_copy s ok label v : clip_step fair s (Run (now s) (copy (now s) ok label v (clip s)).1)
| step_other s v : clip_step fair s (Run (now s) (other v (clip s)))
| step_clear s ok pre d post : due (clip s) = pre ++ d :: post -> d <= now s -> (fair = true -> ok = true) ->
    clip_step fair s (Run (now s) (clear ok pre post (clip s)))
| step_time s t : now s <= t -> (fair = true -> forall d, d ∈ due (clip s) -> t <= d) ->
    clip_step fair s (Run t (clip s)).

(** What the app copied still has its timeout, and that is not overdue. *)
Definition watched (s : run) : Prop :=
  (forall d, d ∈ due (clip s) -> now s <= d) /\
  forall t, copied_at (clip s) = Some t -> t <= now s /\ t + CLIPBOARD_CLEAR_MS ∈ due (clip s).

Lemma step_watched s s' : clip_step true s s' -> watched s -> watched s'.
Proof.
  intros Hs [Hd Hc]. destruct Hs as [s ok label v|s v|s ok pre d post Hdue Hn Hok|s t Hn Hp];
    unfold watched in *; cbn [now clip].
  - destruct v as [|u v]; [by split|]. destruct ok; [|by split]. cbn [copy fst due copied_at]. split.
    + intros d [?|Hl]%elem_of_app; [by apply Hd|]. apply list_elem_of_singleton in Hl. unfold CLIPBOARD_CLEAR_MS in Hl. lia.
    + intros t [= <-]. split; [lia|]. apply elem_of_app. right. by apply list_elem_of_singleton.
  - by split.
  - rewrite Hok by done. cbn [clear due copied_at]. split; [|done].
    intros e He. apply Hd. rewrite Hdue. set_solver.
  - split; [by apply Hp|]. intros x Hx. destruct (Hc x Hx). split; [lia|done].
Qed.

(** ** Theorems *)

(** C24: a value the app copied is off the clipboard at most [CLIPBOARD_CLEAR_MS]
    after it was copied, whatever is copied in between, by the app or by others,
    provided timeouts run on time and clearing is not refused. *)
Theorem copied_secret_cleared t (s : run) t0
  (Hr : rtc (clip_step true) (Run t empty_board) s) (Hc : copied_at (clip s) = Some t0) :
  t0 <= now s <= t0 + CLIPBOARD_CLEAR_MS.
Proof.
  apply (rtc_invariant (clip_step true) watched) in Hr; [|apply step_watched|by split; [intros d ?%not_elem_of_nil|]].
  destruct Hr as [Hd Hw]. destruct (Hw t0 Hc) as [Hle Hin]. split; [done|]. by apply Hd.
Qed.

(** A timeout clears whatever is there: a second secret, copied later, goes with
    the timeout of the first, and so does what another program copied. *)
Theorem early_clear t (label v w : jsstr) wait (Hv : v <> []) (Hw : w <> []) (Hwait : 0 <= wait <= CLIPBOARD_CLEAR_MS) :
  exists s s', rtc (clip_step true) (Run t empty_board) s /\ now s = t + CLIPBOARD_CLEAR_MS /\
    text (clip s) = w /\ copied_at (clip s) = Some (t + wait) /\ clip_step true s s' /\ text (clip s') = [].
Proof.
  set (c := CLIPBOARD_CLEAR_MS) in *. destruct v as [|u v]; [done|]. destruct w as [|x w]; [done|].
  set (b1 := (copy t true label (u :: v) empty_board).1). set (b2 := (copy (t + wait) true label (x :: w) b1).1).
  exists (Run (t + c) b2), (Run (t + c) (clear true [] [t + wait + c] b2)). split_and!; try done.
  - eapply rtc_l; [apply (step_copy true (Run t empty_board) true label (u :: v))|].
    eapply rtc_l; [apply (step_time true (Run t b1) (t + wait)); [cbn; lia|]|].
    { intros _ d Hd. apply list_elem_of_singleton in Hd. lia. }
    eapply rtc_l; [apply (step_copy true (Run (t + wait) b1) true label (x :: w))|]. apply rtc_once.
    apply (step_time true (Run (t + wait) b2)); [cbn; lia|]. intros _ d Hd. cbn in Hd.
    apply elem_of_cons in Hd as [->|Hd]; [fold c; lia|]. apply list_elem_of_singleton in Hd. fold c in Hd. lia.
  - by apply (step_clear true (Run (t + c) b2) true [] (t + c) [t + wait + c]).
Qed.

(** When the clearing is refused the secret stays, and nothing tries again. *)
Theorem refused_clear_lingers t (label v : jsstr) later (Hv : v <> []) (Hl : CLIPBOARD_CLEAR_MS <= later) :
  exists s, rtc (clip_step false) (Run t empty_board) s /\ now s = t + later /\
    clip s = Board v (Some t) [].
Proof.
  destruct v as [|u v]; [done|]. set (b := (copy t true label (u :: v) empty_board).1).
  exists (Run (t + later) (Board (u :: v) (Some t) [])). split; [|done].
  eapply rtc_l; [apply (step_copy false (Run t empty_board) true label (u :: v))|].
  eapply rtc_l; [apply (step_time false (Run t b) (t + later)); [cbn; unfold CLIPBOARD_CLEAR_MS in Hl; lia|done]|].
  apply rtc_once. apply (step_clear false (Run (t + later) b) false [] (t + CLIPBOARD_CLEAR_MS) []); [done|cbn; lia|done].
Qed.

Lemma copied_secret_cleared_witness : exists s : run,
  rtc (clip_step true) (Run 0 empty_board) s /\ text (clip s) = js "hunter2" /\ 0 <= now s <= 0 + CLIPBOARD_CLEAR_MS.
Proof.
  set (s := Run 15000 (copy 0 true (js "password") (js "hunter2") empty_board).1).
  assert (Hr : rtc (clip_step true) (Run 0 empty_board) s).
  { eapply rtc_l; [apply (step_copy true (Run 0 empty_board) true (js "password") (js "hunter2"))|]. apply rtc_once.
    apply (step_time true (Run 0 (clip s))); [done|]. intros _ d Hd. apply list_elem_of_singleton in Hd. subst d. by vm_compute. }
  exists s. split; [exact Hr|]. split; [reflexivity|]. by apply (copied_secret_cleared 0 s 0 Hr).
Defined.
