(* ===== verification/WebAuth.v ===== *)
(** apps/web/src/App.tsx: the sign-in page of the web vault (registering, signing
    in, the second factor, recovery, biometric unlock) and the shell around it. *)
From stdpp Require Import relations.
From S2P Require Import Prelude Text Numeral Json JsonFacts Encoding Effects Platform Primitives.
From S2P Require Import Kdf Policy Identifier Account Sharing Backup Objects Api Session Login Process Background Biometric.

(** The App component: the open session and the phrase to show after registering. *)
Record shell := Shell { sh_session : option Session; sh_recovery : option jsstr }.

Inductive auth_mode := Register | Login.
#[global] Instance auth_mode_eq_dec : EqDecision auth_mode.
Proof. solve_decision. Defined.

(** The AuthScreen component; [au_twoFactor] holds the methods of the challenge.
    The flags that only grey out buttons are left out. *)
Record auth := Auth {
  au_mode : auth_mode;
  au_identifier : jsstr;
  au_generated : bool;
  au_password : jsstr;
  au_confirm : jsstr;
  au_confirmId : jsstr;
  au_recover : bool;
  au_recoveryCode : jsstr;
  au_twoFactor : option jsv;
  au_totp : jsstr;
  au_error : option jsstr;
  au_bioRemember : bool;
  au_bioAvailable : bool;
  au_bioEnrolled : bool;
}.
Definition fresh_auth : auth :=
  Auth Register [] false [] [] [] false [] None [] None false false false.

Definition setMode x '(Auth _ i g p c d r k t o e b f n) := Auth x i g p c d r k t o e b f n.
Definition setIdentifier x '(Auth m _ g p c d r k t o e b f n) := Auth m x g p c d r k t o e b f n.
Definition setGenerated x '(Auth m i _ p c d r k t o e b f n) := Auth m i x p c d r k t o e b f n.
Definition setPassword x '(Auth m i g _ c d r k t o e b f n) := Auth m i g x c d r k t o e b f n.
Definition setConfirm x '(Auth m i g p _ d r k t o e b f n) := Auth m i g p x d r k t o e b f n.
Definition setConfirmId x '(Auth m i g p c _ r k t o e b f n) := Auth m i g p c x r k t o e b f n.
Definition setRecover x '(Auth m i g p c d _ k t o e b f n) := Auth m i g p c d x k t o e b f n.
Definition setRecoveryCode x '(Auth m i g p c d r _ t o e b f n) := Auth m i g p c d r x t o e b f n.
Definition setTwoFactor x '(Auth m i g p c d r k _ o e b f n) := Auth m i g p c d r k x o e b f n.
Definition setTotp x '(Auth m i g p c d r k t _ e b f n) := Auth m i g p c d r k t x e b f n.
Definition setError x '(Auth m i g p c d r k t o _ b f n) := Auth m i g p c d r k t o x b f n.
Definition setBioRemember x '(Auth m i g p c d r k t o e _ f n) := Auth m i g p c d r k t o e x f n.
Definition setBio x y '(Auth m i g p c d r k t o e b _ _) := Auth m i g p c d r k t o e b x y.

(** [methods.includes(k)]: of an array or a string; anything else has no such
    method. *)
Definition methods_include (k : jsstr) (methods : jsv) : option bool :=
  match methods with
  | Some (JArr l) => Some (existsb (fun v => is_string k (Some v)) l)
  | Some (JStr t) => Some (includes k t)
  | _ => None
  end.
Definition needTotp (a : auth) : option bool :=
  match au_twoFactor a with Some m => methods_include (js "totp") m | None => Some false end.

(** [/^[^\s@]+@[^\s@]+\.[^\s@]+$/.test(s)] *)
Definition mail_unit (u : Z) : bool := negb (is_ws u) && negb (u =? 64).
Definition email_ok (s : jsstr) : bool :=
  match split_on 64 s with
  | [user; host] =>
      negb (bool_decide (user = [])) && forallb mail_unit user && forallb mail_unit host &&
      existsb (Z.eqb c_dot) (drop 1 (take (length host - 1) host))
  | _ => false
  end.

Definition missing_recovery := js "Enter your identifier and recovery code.".
Definition missing_fields := js "Enter an account identifier and a master password.".
Definition missing_passkey_fields := js "Enter your identifier and master password first.".
Definition not_an_email :=
  js "That doesn't look like a valid email. Check it, or roll the dice for a private passphrase.".
Definition emails_differ := js "The email addresses don't match.".
Definition masters_differ := js "The master passwords don't match.".
Definition recovery_failed := js "Recovery failed. Double-check your identifier and recovery code.".

Section Page.
Context {N E D : Type} `{Unicode} `{WebCrypto} `{Environment N} `{Entropy E} `{Biometric D} `{EngineText}.
Abbreviation W := (world N E).
Abbreviation S := ((shell * auth) * (world N E * D))%type.

(** What the form refuses before anything is sent, in the order of the checks. *)
Definition password_issue (a : auth) : option jsstr :=
  match masterPasswordIssue (au_password a) with
  | Some weak => Some weak
  | None => if str_eqb (au_password a) (au_confirm a) then None else Some masters_differ
  end.

Definition email_issue (a : auth) : option jsstr :=
  if negb (au_generated a) && includes [64] (au_identifier a) then
    if negb (email_ok (trim (au_identifier a))) then Some not_an_email
    else if str_eqb (normalizeIdentifier (au_identifier a)) (normalizeIdentifier (au_confirmId a)) then None
    else Some emails_differ
  else None.

Definition form_issue (a : auth) : option jsstr :=
  if au_recover a then
    match trim (au_identifier a), trim (au_recoveryCode a) with
    | [], _ | _, [] => Some missing_recovery
    | _, _ => password_issue a
    end
  else
    match trim (au_identifier a), au_password a with
    | [], _ | _, [] => Some missing_fields
    | _, _ =>
        if bool_decide (au_mode a = Register)
        then match email_issue a with Some e => Some e | None => password_issue a end
        else None
    end.

Definition api {A} (m : M W A) : M S A := fun s => let '(r, w) := m s.2.1 in (r, (s.1, (w, s.2.2))).
Definition bio {A} (m : M D A) : M S A := fun s => let '(r, d) := m s.2.2 in (r, (s.1, (s.2.1, d))).
Definition upd (f : auth -> auth) : M S unit := modify (fun s => ((s.1.1, f s.1.2), s.2)).
Definition form : M S auth := gets (fun s => s.1.2).
Definition onAuthed (se : Session) : M S unit :=
  modify (fun s => ((Shell (Some se) (sh_recovery s.1.1), s.1.2), s.2)).
Definition onRecovery (phrase : option jsstr) : M S unit :=
  modify (fun s => ((Shell (sh_session s.1.1) phrase, s.1.2), s.2)).

Definition newAccountId : M W jsstr := generateAccountId 12.

(** The effect that runs when the page opens. *)
Definition probeBiometric : M S unit :=
  avail ← bio biometricAvailable;
  enrolled ← (if avail : bool then bio biometricEnrolled else mret false);
  upd (setBio avail enrolled).

Definition afterAuth (se : Session) : M S unit :=
  a ← form;
  _ ← (if au_bioRemember a && negb (bool_decide (trim (au_identifier a) = [])) && negb (bool_decide (au_password a = []))
       then catch (bio (enableBiometric (trim (au_identifier a)) (au_password a))) (fun _ => mret tt)
       else mret tt);
  onAuthed se.

Definition unlockBio : M S unit :=
  _ ← upd (setError None);
  creds ← bio unlockWithBiometric;
  match creds with
  | None => mret tt
  | Some (i, p) =>
      catch (se ← api (loginAccount i p None); onAuthed se)
        (fun e => match e with
                  | TwoFactorRequiredError m =>
                      upd (fun a => setTwoFactor (Some m) (setMode Login (setPassword p (setIdentifier i a))))
                  | _ => upd (setError (Some (message e)))
                  end)
  end.

Definition generate : M S unit :=
  i ← api newAccountId;
  upd (fun a => setConfirmId [] (setGenerated true (setIdentifier i a))).

Definition switchMode (next : auth_mode) : M S unit :=
  upd (fun a => setConfirmId [] (setRecoveryCode [] (setRecover false (setTotp [] (setTwoFactor None
    (setError None (setMode next a))))))).

(** A second-factor challenge is asked for in the form, anything else is shown. *)
Definition challenge_or_error (e : exn) : M S unit :=
  match e with
  | TwoFactorRequiredError m => upd (setTwoFactor (Some m))
  | _ => upd (setError (Some (message e)))
  end.

(** [needTotp] is computed when the form is drawn, before anything else. *)
Definition submit : M S unit :=
  a ← form;
  need ← of_option JsTypeError (needTotp a);
  _ ← upd (setError None);
  match form_issue a with
  | Some e => upd (setError (Some e))
  | None =>
      if au_recover a then
        catch (se ← api (recoverAccount (au_identifier a) (au_recoveryCode a) (au_password a)); afterAuth se)
              (fun _ => upd (setError (Some recovery_failed)))
      else if bool_decide (au_mode a = Register) then
        catch (se ← api (registerAccount (au_identifier a) (au_password a));
               _ ← onRecovery (if au_generated a then Some (to_lower (trim (au_identifier a))) else None);
               afterAuth se) challenge_or_error
      else
        catch (se ← api (loginAccount (au_identifier a) (au_password a) (if need : bool then Some (au_totp a) else None));
               afterAuth se) challenge_or_error
  end.

Definition usePasskey : M S unit :=
  _ ← upd (setError None);
  a ← form;
  match trim (au_identifier a), au_password a with
  | [], _ | _, [] => upd (setError (Some missing_passkey_fields))
  | _, _ =>
      catch (se ← api (loginWithPasskey (au_identifier a) (au_password a)); afterAuth se)
            (fun e => upd (setError (Some (message e))))
  end.

(** The inputs; typing an identifier makes it the user's own. *)
Inductive input :=
| Identifier (s : jsstr) | Password (s : jsstr) | Confirm (s : jsstr) | ConfirmId (s : jsstr)
| RecoveryCode (s : jsstr) | TotpCode (s : jsstr) | Remember (b : bool) | StartRecovery | BackToSignIn.
Definition type_in (i : input) : auth -> auth :=
  match i with
  | Identifier s => fun a => setGenerated false (setIdentifier s a)
  | Password s => setPassword s
  | Confirm s => setConfirm s
  | ConfirmId s => setConfirmId s
  | RecoveryCode s => setRecoveryCode s
  | TotpCode s => setTotp s
  | Remember b => setBioRemember b
  | StartRecovery => fun a => setConfirm [] (setError None (setRecover true a))
  | BackToSignIn => fun a => setRecoveryCode [] (setError None (setRecover false a))
  end.

(** Locking, from the button or the idle timer: back to a fresh page. *)
Definition lock : M S unit := modify (fun s => ((Shell None None, fresh_auth), s.2)).
Definition dismissRecovery : M S unit := onRecovery None.

(** What a user can do: on the page while no session is open, in the vault after. *)
Inductive action := Type_ (i : input) | Probe | Submit | Passkey | Bio | Dice | Switch (m : auth_mode) | Lock | Dismiss.
Definition on_page (x : action) : bool := match x with Lock | Dismiss => false | _ => true end.
Definition act (x : action) : M S unit :=
  match x with
  | Type_ i => upd (type_in i)
  | Probe => probeBiometric
  | Submit => submit
  | Passkey => usePasskey
  | Bio => unlockBio
  | Dice => generate
  | Switch m => switchMode m
  | Lock => lock
  | Dismiss => dismissRecovery
  end.

Inductive page_step : S -> S -> Prop :=
| page_act x s r s' : on_page x = bool_decide (sh_session s.1.1 = None) -> act x s = (r, s') -> page_step s s'.

(** Several actions in a row, as long as none of them raises. *)
Fixpoint acts (l : list action) : M S unit :=
  match l with [] => mret tt | x :: l' => _ ← act x; acts l' end.
End Page.

(** ** Laws *)

Lemma mail_unit_spec u : mail_unit u = true <-> is_ws u = false /\ u <> 64.
Proof. unfold mail_unit. rewrite andb_true_iff, !negb_true_iff, Z.eqb_neq. done. Qed.

(** What the expression matches, as a regular expression says it. *)
Definition email_shape (s : jsstr) : Prop :=
  exists user domain tld, s = user ++ 64 :: domain ++ c_dot :: tld /\
    user <> [] /\ domain <> [] /\ tld <> [] /\ Forall (fun u => mail_unit u = true) (user ++ domain ++ tld).

Lemma middle_of (x y : Z) m : drop 1 (take (length (x :: m ++ [y]) - 1) (x :: m ++ [y])) = m.
Proof.
  change (x :: m ++ [y]) with ((x :: m) ++ [y]). rewrite take_app_exact; [done|].
  rewrite length_app. cbn. lia.
Qed.

Lemma ends_cases {A} (h : list A) : length (drop 1 (take (length h - 1) h)) = 0%nat \/ exists x m y, h = x :: m ++ [y].
Proof.
  destruct h as [|x h]; [by left|]. destruct h as [|y m _] using rev_ind; [by left|]. right. by exists x, m, y.
Qed.

Lemma inner_dot h : existsb (Z.eqb c_dot) (drop 1 (take (length h - 1) h)) = true <->
  exists a b, h = a ++ c_dot :: b /\ a <> [] /\ b <> [].
Proof.
  rewrite existsb_exists. split.
  - intros (u & Hin%list_elem_of_In & <-%Z.eqb_eq).
    destruct (ends_cases h) as [E|(x & m & y & ->)]; [apply length_zero_iff_nil in E; rewrite E in Hin; by apply not_elem_of_nil in Hin|].
    rewrite middle_of in Hin. apply list_elem_of_split in Hin as (l1 & l2 & ->).
    exists (x :: l1), (l2 ++ [y]). split_and!; [cbn; by rewrite <- app_assoc|done|by destruct l2].
  - intros (a & b & -> & Ha & Hb). exists c_dot. split; [|apply Z.eqb_refl]. apply list_elem_of_In.
    destruct a as [|x a]; [done|]. destruct b as [|y b _] using rev_ind; [done|].
    replace ((x :: a) ++ c_dot :: b ++ [y]) with (x :: (a ++ c_dot :: b) ++ [y]) by (cbn; by rewrite <- app_assoc).
    rewrite middle_of. set_solver.
Qed.

Lemma no_at s : Forall (fun u => mail_unit u = true) s -> Forall (fun u => u <> 64) s.
Proof. intros Hs. eapply Forall_impl; [exact Hs|]. intros u Hu. by apply mail_unit_spec in Hu as [_ ?]. Qed.

Lemma forallb_units s : forallb mail_unit s = true <-> Forall (fun u => mail_unit u = true) s.
Proof. induction s as [|u s IH]; cbn; [split; [by constructor|done]|]. by rewrite andb_true_iff, IH, Forall_cons. Qed.

Lemma email_ok_shape s : email_ok s = true <-> email_shape s.
Proof.
  unfold email_ok, email_shape. split.
  - pose proof (split_on_join 64 s) as Hj. destruct (split_on 64 s) as [|user [|host [|]]]; try done.
    rewrite !andb_true_iff, negb_true_iff, bool_decide_eq_false, !forallb_units, inner_dot. cbn in Hj.
    intros [[[Hu Hfu] Hfh] (domain & tld & -> & Hd & Ht)]. exists user, domain, tld. split_and!; [by rewrite <- Hj|done..|].
    apply Forall_app in Hfh as [H1 [_ H2]%Forall_cons]. by rewrite !Forall_app.
  - intros (user & domain & tld & -> & Hu & Hd & Ht & Hf).
    apply Forall_app in Hf as [Hfu [Hfd Hft]%Forall_app].
    assert (Hfh : Forall (fun u => mail_unit u = true) (domain ++ c_dot :: tld))
      by (apply Forall_app; split; [done|by constructor]).
    rewrite split_on_app, split_on_nosep by (by apply no_at).
    rewrite !andb_true_iff, negb_true_iff, bool_decide_eq_false, !forallb_units, inner_dot. split_and!; try done.
    by exists domain, tld.
Qed.

Lemma includes_unit c s : includes [c] s = true <-> c ∈ s.
Proof.
  induction s as [|u s IH]; [cbn; split; [done|by intros ?%not_elem_of_nil]|].
  cbn [includes starts_with]. rewrite orb_true_iff, IH, andb_true_r, Z.eqb_eq, elem_of_cons. done.
Qed.

Section Checks.
Context `{Unicode}.

Definition strong_twice (a : auth) : Prop :=
  masterPasswordIssue (au_password a) = None /\ au_password a = au_confirm a.

(** What the page demands before it talks to the server. *)
Definition may_submit (a : auth) : Prop :=
  trim (au_identifier a) <> [] /\
  if au_recover a then trim (au_recoveryCode a) <> [] /\ strong_twice a
  else au_password a <> [] /\
    (au_mode a = Register -> strong_twice a /\
       (au_generated a = false -> 64 ∈ au_identifier a -> email_shape (trim (au_identifier a)) /\
          normalizeIdentifier (au_identifier a) = normalizeIdentifier (au_confirmId a))).

Lemma password_issue_none a : password_issue a = None <-> strong_twice a.
Proof.
  unfold password_issue, strong_twice. destruct (masterPasswordIssue (au_password a)); [naive_solver|].
  destruct (str_eqb (au_password a) (au_confirm a)) eqn:Es.
  - by apply str_eqb_spec in Es.
  - split; [done|]. intros [_ Hc]. rewrite Hc, str_eqb_refl in Es. done.
Qed.

Lemma email_issue_none a : email_issue a = None <->
  (au_generated a = false -> 64 ∈ au_identifier a -> email_shape (trim (au_identifier a)) /\
     normalizeIdentifier (au_identifier a) = normalizeIdentifier (au_confirmId a)).
Proof.
  unfold email_issue. destruct (au_generated a); [by split|]. cbn [negb andb].
  destruct (includes [64] (au_identifier a)) eqn:Ei.
  - apply includes_unit in Ei. destruct (email_ok (trim (au_identifier a))) eqn:Ee; cbn [negb].
    + apply email_ok_shape in Ee. destruct (str_eqb _ _) eqn:Es; [apply str_eqb_spec in Es; naive_solver|].
      split; [done|]. intros Hc. destruct (Hc eq_refl Ei) as [_ Hn]. by rewrite Hn, str_eqb_refl in Es.
    + split; [done|]. intros Hc. destruct (Hc eq_refl Ei) as [Hs _]. apply email_ok_shape in Hs. congruence.
  - split; [|done]. intros _ _ Hin. apply includes_unit in Hin. congruence.
Qed.

Lemma form_issue_none a : form_issue a = None <-> may_submit a.
Proof.
  pose proof (email_issue_none a) as Hm. pose proof (password_issue_none a) as Hw.
  unfold form_issue, may_submit. destruct (au_recover a).
  - destruct (trim (au_identifier a)); [naive_solver|]. destruct (trim (au_recoveryCode a)); naive_solver.
  - destruct (trim (au_identifier a)); [naive_solver|]. destruct (au_password a) as [|u pw]; [naive_solver|].
    case_bool_decide; [|naive_solver]. destruct (email_issue a); naive_solver.
Qed.

Lemma form_issue_message a e : form_issue a = Some e -> e <> [].
Proof.
  unfold form_issue, email_issue, password_issue, masterPasswordIssue. intros He. by repeat case_match; simplify_eq.
Qed.
End Checks.

Section Laws.
Context {N E D : Type} `{Unicode} `{WebCrypto} `{Environment N} `{Entropy E} `{Biometric D} `{EngineText}.
Abbreviation W := (world N E).
Abbreviation S := ((shell * auth) * (world N E * D))%type.

(** The flow behind the submit button. *)
Definition flow (a : auth) (need : bool) : M W Session :=
  if au_recover a then recoverAccount (au_identifier a) (au_recoveryCode a) (au_password a)
  else if bool_decide (au_mode a = Register) then registerAccount (au_identifier a) (au_password a)
  else loginAccount (au_identifier a) (au_password a) (if need then Some (au_totp a) else None).

(** What the page shows after a failed flow. *)
Definition failed (e : exn) (a : auth) : auth :=
  if au_recover a then setError (Some recovery_failed) a
  else match e with
       | TwoFactorRequiredError m => setTwoFactor (Some m) a
       | _ => setError (Some (message e)) a
       end.

(** The phrase to keep, after registering under a generated identifier. *)
Definition phrase_of (a : auth) : option jsstr :=
  if negb (au_recover a) && bool_decide (au_mode a = Register) && au_generated a
  then Some (to_lower (trim (au_identifier a))) else None.

Lemma page_api_returns {A} (m : M W A) t w d x w' :
  returns m w x w' -> returns (api m : M S A) (t, (w, d)) x (t, (w', d)).
Proof. unfold returns, api. cbn [fst snd]. by intros ->. Qed.

Lemma page_api_throws {A} (m : M W A) t w d e w' :
  throws m w e w' -> throws (api m : M S A) (t, (w, d)) e (t, (w', d)).
Proof. unfold throws, api. cbn [fst snd]. by intros ->. Qed.

Lemma afterAuth_returns se h a w d : exists d',
  returns (afterAuth se : M S unit) ((h, a), (w, d)) tt ((Shell (Some se) (sh_recovery h), a), (w, d')).
Proof.
  unfold returns, afterAuth, form, gets, mbind, M_bind. cbn [fst snd].
  destruct (_ && _); [|by exists d]. unfold catch, bio. cbn [fst snd].
  destruct (enableBiometric _ _ d) as [[[]|e] d']; by exists d'.
Qed.

Lemma form_returns h a (o : W * D) : returns (form : M S auth) ((h, a), o) a ((h, a), o).
Proof. done. Qed.

Lemma page_upd_returns f h a (o : W * D) : returns (upd f : M S unit) ((h, a), o) tt ((h, f a), o).
Proof. done. Qed.

Lemma submit_refused h a o need e : needTotp a = Some need -> form_issue a = Some e ->
  returns (submit : M S unit) ((h, a), o) tt ((h, setError (Some e) a), o).
Proof.
  intros Hn He. unfold returns, submit. run (form_returns h a o). rewrite Hn, bind_some, He.
  run (page_upd_returns (setError None) h a o). by destruct a.
Qed.

(** The submit button, once the checks passed. *)
Lemma submit_sent h a w d need : needTotp a = Some need -> form_issue a = None -> sh_recovery h = None ->
  match flow a need w with
  | (inl se, w') => exists d',
      returns (submit : M S unit) ((h, a), (w, d)) tt
        ((Shell (Some se) (phrase_of a), setError None a), (w', d'))
  | (inr e, w') =>
      returns (submit : M S unit) ((h, a), (w, d)) tt ((h, failed e (setError None a)), (w', d))
  end.
Proof.
  intros Hn He Hh.
  assert (Hs : (submit : M S unit) ((h, a), (w, d)) =
    (if au_recover a then
       catch (se ← api (flow a need); afterAuth se) (fun _ => upd (setError (Some recovery_failed)))
     else if bool_decide (au_mode a = Register) then
       catch (se ← api (flow a need); _ ← onRecovery (phrase_of a); afterAuth se) challenge_or_error
     else catch (se ← api (flow a need); afterAuth se) challenge_or_error) ((h, setError None a), (w, d))).
  { unfold submit. run (form_returns h a (w, d)). rewrite Hn, bind_some, He.
    run (page_upd_returns (setError None) h a (w, d)). unfold flow, phrase_of.
    destruct (au_recover a); [reflexivity|]. cbn [negb andb]. case_bool_decide; reflexivity. }
  unfold returns. destruct (flow a need w) as [[se|e] w'] eqn:Ef.
  - pose proof (page_api_returns (flow a need) (h, setError None a) w d se w' Ef) as Hf.
    assert (Hk : exists h', sh_recovery h' = phrase_of a /\ sh_session h' = sh_session h /\
      forall k : Session -> M S unit, ((if negb (au_recover a) && bool_decide (au_mode a = Register)
        then _ ← onRecovery (phrase_of a); k se else k se) : M S unit) ((h, setError None a), (w', d)) =
        k se ((h', setError None a), (w', d))).
    { unfold phrase_of. destruct (au_recover a); cbn [negb andb].
      - exists h. by rewrite Hh.
      - case_bool_decide; cbn [andb]; [|exists h; by rewrite Hh].
        by eexists (Shell (sh_session h) _). }
    destruct Hk as (h' & Hr & _ & Hk). destruct (afterAuth_returns se h' (setError None a) w' d) as [d' Ha].
    rewrite Hr in Ha. exists d'. rewrite Hs. specialize (Hk afterAuth).
    destruct (au_recover a); cbn [negb andb] in Hk; [|case_bool_decide; cbn [andb] in Hk];
      apply catch_returns; unfold returns; run Hf; by rewrite Hk.
  - pose proof (page_api_throws (flow a need) (h, setError None a) w d e w' Ef) as Hf. rewrite Hs.
    unfold failed. assert (Hrec : au_recover (setError None a) = au_recover a) by (by destruct a). rewrite Hrec.
    destruct (au_recover a); [eapply catch_throws; [by apply bind_throws|reflexivity]|].
    case_bool_decide; (eapply catch_throws; [by apply bind_throws|by destruct e]).
Qed.

(** ** What the page keeps true in the browser *)

Definition phrase_kept (h : shell) : Prop :=
  match sh_recovery h with
  | Some p => exists se, sh_session h = Some se /\ normalizeIdentifier p = ss_identifier se
  | None => True
  end.
Definition page_ok (s : S) : Prop :=
  (au_generated s.1.2 = true -> ascii (au_identifier s.1.2)) /\ phrase_kept s.1.1.

Lemma registered_identifier i pw (w : W) se w' :
  returns (registerAccount i pw) w se w' -> ss_identifier se = normalizeIdentifier i.
Proof.
  unfold registerAccount. intros ([b uk] & w1 & Hb & Hr)%bind_inv.
  apply bind_inv in Hr as (v & w2 & _ & Hr). apply bind_inv in Hr as (res & w3 & _ & Hr).
  apply bind_inv in Hr as (c & w4 & _ & Hr). apply bind_inv in Hr as (u & w5 & _ & Hr).
  apply ret_inv in Hr as [-> _]. cbn [ss_identifier]. unfold buildRegistration in Hb.
  do 6 (apply bind_inv in Hb as (? & ? & _ & Hb)). apply ret_inv in Hb as [[= -> _] _]. done.
Qed.

Lemma lower_trim_normalize s : ascii s -> normalizeIdentifier (to_lower (trim s)) = normalizeIdentifier s.
Proof.
  intros Hs. assert (Ht : ascii (trim s)) by (by apply trim_Forall). rewrite to_lower_ascii by done.
  assert (Hl : ascii (map ascii_lower (trim s))) by (by apply ascii_lower_ascii).
  rewrite !normalize_fields by done. f_equal. rewrite map_lower_fields, fields_trim, map_map.
  apply map_ext. intros w. rewrite map_map. apply map_ext, ascii_lower_idem.
Qed.

Lemma dice_ascii (w : W) : exists i w', returns newAccountId w i w' /\ ascii i.
Proof.
  destruct (generateAccountId_returns 12 w ltac:(lia)) as (ids & w' & Hr & _ & Hok).
  exists (phrase ids), w'. split; [exact Hr|]. by apply phrase_ascii.
Qed.

(** Actions of the page that keep the identifier and the flag. *)
Definition same_handle (f : auth -> auth) : Prop :=
  forall a, au_generated (f a) = au_generated a /\ au_identifier (f a) = au_identifier a.

Lemma upd_ok f (s : S) : same_handle f -> page_ok s -> page_ok (upd f s).2.
Proof. destruct s as [[h a] o]. intros Hf [Hg Hp]. split; [|exact Hp]. cbn. destruct (Hf a) as [-> ->]. exact Hg. Qed.

Lemma type_in_ok i (s : S) : page_ok s -> page_ok (upd (type_in i) s).2.
Proof.
  destruct s as [[h a] o]. intros [Hg Hp]. split; [|exact Hp]. destruct i, a; cbn in *; done.
Qed.

Lemma failed_handle e : same_handle (failed e).
Proof. intros a. unfold failed. destruct a, (au_recover _), e; done. Qed.

Lemma submit_ok h a w d : sh_session h = None -> sh_recovery h = None -> page_ok ((h, a), (w, d)) ->
  page_ok ((submit : M S unit) ((h, a), (w, d))).2.
Proof.
  intros Hs Hr Hok. destruct (needTotp a) as [need|] eqn:Hn.
  2: { unfold submit. rewrite (bind_returns _ _ _ _ _ _ (form_returns h a (w, d)) eq_refl). by rewrite Hn. }
  destruct (form_issue a) as [e|] eqn:He.
  { rewrite (submit_refused h a (w, d) need e Hn He). 
    apply (upd_ok (setError (Some e)) ((h, a), (w, d))); [by intros []|exact Hok]. }
  pose proof (submit_sent h a w d need Hn He Hr) as Hsent. destruct Hok as [Hg _]. cbn [fst snd] in Hg.
  destruct (flow a need w) as [[se|e] w'] eqn:Ef.
  - destruct Hsent as [d' Hsent]. rewrite Hsent. split; [by destruct a|]. unfold phrase_kept, phrase_of. cbn [fst snd sh_recovery].
    destruct (negb (au_recover a)) eqn:Ec; [|done]. destruct (bool_decide_reflect (au_mode a = Register)) as [Hm|]; [|done].
    destruct (au_generated a) eqn:Eg; [|done]. exists se. split; [done|]. rewrite lower_trim_normalize by (by apply Hg).
    apply negb_true_iff in Ec. unfold flow in Ef. rewrite Ec, bool_decide_eq_true_2 in Ef by done.
    by erewrite registered_identifier.
  - rewrite Hsent. split; [|unfold phrase_kept; cbn [fst snd]; by rewrite Hr]. cbn [fst snd].
    destruct (failed_handle e (setError None a)) as [-> ->]. by destruct a.
Qed.


(** Flows that open a session without showing a phrase. *)
Lemma opens_ok (m : M W Session) (fail : exn -> auth -> auth) h a w d :
  sh_recovery h = None -> (forall e, same_handle (fail e)) -> page_ok ((h, a), (w, d)) ->
  page_ok ((catch (se ← api m; afterAuth se) (fun e => upd (fail e)) : M S unit) ((h, a), (w, d))).2.
Proof.
  intros Hr Hf Hok. destruct (m w) as [[se|e] w'] eqn:Em.
  - destruct (afterAuth_returns se h a w' d) as [d' Ha].
    assert (Hc : returns (catch (se ← api m; afterAuth se) (fun e => upd (fail e)) : M S unit) ((h, a), (w, d)) tt
      ((Shell (Some se) (sh_recovery h), a), (w', d'))).
    { apply catch_returns. unfold returns. by run (page_api_returns m (h, a) w d se w' Em). }
    rewrite Hc. split; [apply Hok|]. unfold phrase_kept. cbn. by rewrite Hr.
  - erewrite catch_throws; [| |reflexivity]; [|apply bind_throws; exact (page_api_throws m (h, a) w d e w' Em)].
    apply (upd_ok (fail e) ((h, a), (w', d))); [apply Hf|exact Hok].
Qed.

Lemma passkey_ok h a w d : sh_recovery h = None -> page_ok ((h, a), (w, d)) ->
  page_ok ((usePasskey : M S unit) ((h, a), (w, d))).2.
Proof.
  intros Hr Hok. assert (Hok2 : page_ok ((h, setError None a), (w, d)))
    by (apply (upd_ok (setError None) ((h, a), (w, d))); [by intros []|exact Hok]).
  unfold usePasskey. rewrite (bind_returns _ _ _ _ _ _ (page_upd_returns (setError None) h a (w, d)) eq_refl).
  rewrite (bind_returns _ _ _ _ _ _ (form_returns h (setError None a) (w, d)) eq_refl).
  destruct (trim _); [|destruct (au_password _)];
    [apply (upd_ok (setError (Some missing_passkey_fields)) _); [by intros []|exact Hok2]..|].
  apply (opens_ok _ (fun e => setError (Some (message e)))); [done|by intros e []|exact Hok2].
Qed.

(** Off the native app there is no biometric store. *)
Lemma bio_browser h a (o : W * D) : isNativePlatform (D := D) = false ->
  returns (unlockBio : M S unit) ((h, a), o) tt ((h, setError None a), o).
Proof.
  intros Hn. unfold returns, unlockBio. run (page_upd_returns (setError None) h a o).
  eapply (bind_returns _ _ _ None ((h, setError None a), o)); [|done].
  unfold returns, bio, unlockWithBiometric, isNative. rewrite Hn. by destruct o.
Qed.

Lemma act_ok x (s : S) : isNativePlatform (D := D) = false ->
  on_page x = bool_decide (sh_session s.1.1 = None) -> page_ok s -> page_ok (act x s).2.
Proof.
  intros Hn Hx Hok. destruct s as [[h a] [w d]]. cbn [fst snd] in Hx.
  assert (Hr : sh_session h = None -> sh_recovery h = None).
  { destruct Hok as [_ Hp]. unfold phrase_kept in Hp. cbn [fst snd] in Hp. destruct (sh_recovery h); [|done].
    destruct Hp as (se & -> & _). done. }
  destruct x; cbn [on_page act] in *; try (symmetry in Hx; apply bool_decide_eq_true in Hx; specialize (Hr Hx)).
  - by apply type_in_ok.
  - unfold probeBiometric, bio, mbind, M_bind, biometricAvailable, isNative. rewrite Hn. cbn [negb fst snd].
    apply (upd_ok (setBio false false) ((h, a), (w, d))); [by intros []|exact Hok].
  - by apply submit_ok.
  - by apply passkey_ok.
  - rewrite bio_browser by done. apply (upd_ok (setError None) ((h, a), (w, d))); [by intros []|exact Hok].
  - destruct (dice_ascii w) as (i & w' & Hi & Ha). unfold generate.
    rewrite (bind_returns _ _ _ _ _ _ (page_api_returns _ (h, a) w d i w' Hi) eq_refl).
    split; [by destruct a|apply Hok].
  - apply (upd_ok _ ((h, a), (w, d))); [by intros []|exact Hok].
  - by split.
  - split; [apply Hok|done].
Qed.

Lemma trim_nonempty i : normalizeIdentifier i <> [] -> trim i <> [].
Proof. intros Hi Ht. apply Hi. unfold normalizeIdentifier. by rewrite Ht, to_lower_ascii by constructor. Qed.

Lemma strong_nonempty pw : masterPasswordIssue pw = None -> pw <> [].
Proof. by intros Hp ->. Qed.

(** A filled-in form, for registering and for signing in. *)
Definition filled m i pw : auth :=
  Auth m i false pw (if bool_decide (m = Register) then pw else [])
    (if bool_decide (m = Register) then i else []) false [] None [] None false false false.

Lemma filled_register i pw (o : W * D) :
  returns (acts [Type_ (Identifier i); Type_ (Password pw); Type_ (Confirm pw); Type_ (ConfirmId i)] : M S unit)
    ((Shell None None, fresh_auth), o) tt ((Shell None None, filled Register i pw), o).
Proof. reflexivity. Qed.

Lemma filled_login h a i pw (o : W * D) :
  returns (acts [Lock; Switch Login; Type_ (Identifier i); Type_ (Password pw)] : M S unit)
    ((h, a), o) tt ((Shell None None, filled Login i pw), o).
Proof. reflexivity. Qed.

Lemma acts_app l1 l2 (s s1 : S) r : returns (acts l1) s tt s1 -> acts l2 s1 = r -> acts (l1 ++ l2) s = r.
Proof.
  revert s. induction l1 as [|x l1 IH]; intros s Hl Hr; cbn [acts app] in *; [by apply ret_inv in Hl as [_ <-]|].
  apply bind_inv in Hl as (u & s2 & Hx & Hl). destruct u. by rewrite (bind_returns _ _ _ _ _ _ Hx (IH s2 Hl Hr)).
Qed.
End Laws.

(** ** Theorems *)
Section Theorems.
Context {N E D : Type} `{Unicode} `{WebCrypto} `{Environment N} `{Entropy E} `{Biometric D} `{EngineText}.
Abbreviation W := (world N E).
Abbreviation S := ((shell * auth) * (world N E * D))%type.

(** C21: the sign-in form.  What it must not send, it does not send: with a blank
    field, a weak or mistyped password, or an email that has not the shape of one
    or was not confirmed, nothing leaves the page and a message says why.
    Otherwise the flow of the form's mode runs once, and the vault opens exactly
    when it returns a session; a challenge turns into the request for a second
    factor, and any other failure into a message. *)
Theorem submit_outcomes h a (w : W) (d : D) need
  (Hn : needTotp a = Some need) (Hh : sh_session h = None) (Hr : sh_recovery h = None) :
  (~ may_submit a -> exists e, e <> [] /\
     returns (submit : M S unit) ((h, a), (w, d)) tt ((h, setError (Some e) a), (w, d))) /\
  (may_submit a -> exists s', returns (submit : M S unit) ((h, a), (w, d)) tt s' /\
     match flow a need w with
     | (inl se, w') => s'.1.1 = Shell (Some se) (phrase_of a) /\ s'.2.1 = w'
     | (inr e, w') => s' = ((h, failed e (setError None a)), (w', d))
     end).
Proof.
  split; intros Hm.
  - destruct (form_issue a) as [e|] eqn:He; [|by apply form_issue_none in He].
    exists e. split; [by eapply form_issue_message|by eapply submit_refused].
  - apply form_issue_none in Hm. pose proof (submit_sent h a w d need Hn Hm Hr) as Hs.
    destruct (flow a need w) as [[se|e] w']; [destruct Hs as [d' Hs]|]; (eexists; split; [exact Hs|done]).
Qed.

(** C22: in the browser, whatever is typed, generated, submitted, locked and
    dismissed in whatever order, the phrase shown after a registration is one under
    which the account can be found again: it normalizes to the identifier of the
    open account, and it is never shown without it. *)
Theorem phrase_is_identifier (o : W * D) (s : S)
  (Hweb : isNativePlatform (D := D) = false)
  (Hr : rtc page_step ((Shell None None, fresh_auth), o) s) : phrase_kept s.1.1.
Proof.
  enough (Hok : page_ok s) by apply Hok.
  apply (rtc_invariant page_step page_ok) in Hr; [exact Hr| |].
  - intros x y [k s1 r s2 Hp Ha] Hok. pose proof (act_ok k s1 Hweb Hp Hok) as Hk. by rewrite Ha in Hk.
  - split; [done|done].
Qed.

(** C20: the biometric button opens the vault only on the word of the device: when a
    session comes out of it, the device verified the user, the credentials are the
    ones it stored, and an ordinary login with them gave the session. *)
Theorem unlockBio_verified h a (w : W) (d : D) r s' se
  (Hrun : (unlockBio : M S unit) ((h, a), (w, d)) = (r, s')) (Hh : sh_session h = None)
  (Hse : sh_session s'.1.1 = Some se) :
  isNativePlatform (D := D) = true /\ (verifyIdentity d).1 = true /\
  exists i p, (getCredentials SERVER (verifyIdentity d).2).1 = Some (Some {| cr_username := i; cr_password := p |}) /\
    p <> [] /\ returns (loginAccount i p None) w se s'.2.1.
Proof.
  destruct (unlockWithBiometric_run d) as (o & d1 & Hu & Ho).
  assert (Hb : returns (bio unlockWithBiometric : M S _) ((h, setError None a), (w, d)) o ((h, setError None a), (w, d1)))
    by (unfold returns, bio; cbn [fst snd]; by rewrite Hu).
  unfold unlockBio in Hrun.
  rewrite (bind_returns _ _ _ _ _ _ (page_upd_returns (setError None) h a (w, d)) eq_refl) in Hrun.
  rewrite (bind_returns _ _ _ _ _ _ Hb eq_refl) in Hrun.
  destruct o as [[i p]|]; [|injection Hrun as _ <-; cbn in Hse; congruence].
  destruct Ho as (Hnat & Hv & Hp & Hc). split_and!; [done|done|]. exists i, p. split_and!; [done|done|].
  destruct (loginAccount i p None w) as [[se1|e] w1] eqn:El.
  - rewrite (catch_returns _ _ _ tt ((Shell (Some se1) (sh_recovery h), setError None a), (w1, d1))) in Hrun.
    + injection Hrun as _ <-. cbn in Hse. injection Hse as ->. exact El.
    + unfold returns. by run (page_api_returns _ (h, setError None a) w d1 se1 w1 El).
  - erewrite catch_throws in Hrun;
      [|apply bind_throws; exact (page_api_throws _ (h, setError None a) w d1 e w1 El)|reflexivity].
    destruct e; injection Hrun as _ <-; cbn in Hse; congruence.
Qed.

(** From the form to the form: whoever registers on the page with a password
    the policy accepts can lock the vault, type the identifier in any spelling that
    normalizes to the registered one, and be back in the vault with the same user
    key and the same sharing key, on a server that keeps what was registered. *)
Theorem page_register_login base `{!AccountServer N base} i j pw (w : W) (d : D)
  (Hb : baseUrl w = base) (Hok : acc_ok (net w)) (Hpw : masterPasswordIssue pw = None) (Hi : identifier_ok i)
  (Hmail : 64 ∈ i -> email_shape (trim i)) (Hnew : accounts (net w) !! normalizeIdentifier i = None)
  (Hj : ascii j) (Hij : normalizeIdentifier j = normalizeIdentifier i) :
  exists s1 s2 se1 se2,
    returns (acts [Type_ (Identifier i); Type_ (Password pw); Type_ (Confirm pw); Type_ (ConfirmId i); Submit] : M S unit)
      ((Shell None None, fresh_auth), (w, d)) tt s1 /\ sh_session s1.1.1 = Some se1 /\
    returns (acts [Lock; Switch Login; Type_ (Identifier j); Type_ (Password pw); Submit] : M S unit) s1 tt s2 /\
    sh_session s2.1.1 = Some se2 /\
    ss_userKey se2 = ss_userKey se1 /\ ss_protectedPrivateKey se2 = ss_protectedPrivateKey se1.
Proof.
  destruct (register_login_keys base i pw w Hb Hok (strong_nonempty pw Hpw) Hi Hnew) as (se1 & w1 & Hreg & _ & Hlog).
  destruct (Hlog j Hj Hij) as (se2 & w2 & Hl & Hk & Hpk).
  assert (Hne : normalizeIdentifier i <> []) by (intros E0; destruct Hi as [_ Hi]; by rewrite E0 in Hi; cbn in Hi; lia).
  assert (Hf1 : form_issue (filled Register i pw) = None).
  { apply form_issue_none. split; [by apply trim_nonempty|]. cbn. split; [by apply strong_nonempty|]. intros _.
    split; [done|]. intros _ Hin. by split; [apply Hmail|]. }
  assert (Hf2 : form_issue (filled Login j pw) = None).
  { apply form_issue_none. split; [apply trim_nonempty; cbn; by rewrite Hij|]. cbn. by split; [apply strong_nonempty|]. }
  pose proof (submit_sent (Shell None None) (filled Register i pw) w d false eq_refl Hf1 eq_refl) as Hs1.
  change (flow (filled Register i pw) false w) with (registerAccount i pw w) in Hs1. rewrite Hreg in Hs1. destruct Hs1 as [d1 Hs1].
  pose proof (submit_sent (Shell None None) (filled Login j pw) w1 d1 false eq_refl Hf2 eq_refl) as Hs2.
  change (flow (filled Login j pw) false w1) with (loginAccount j pw None w1) in Hs2. rewrite Hl in Hs2. destruct Hs2 as [d2 Hs2].
  exists ((Shell (Some se1) (phrase_of (filled Register i pw)), setError None (filled Register i pw)), (w1, d1)),
    ((Shell (Some se2) (phrase_of (filled Login j pw)), setError None (filled Login j pw)), (w2, d2)), se1, se2.
  split_and!; [|reflexivity| |reflexivity|done|done].
  - unfold returns. apply (acts_app [_; _; _; _] [Submit] _ _ _ (filled_register i pw (w, d))). cbn [acts act].
    by run Hs1.
  - unfold returns. apply (acts_app [_; _; _; _] [Submit] _ _ _ (filled_login _ _ j pw (w1, d1))). cbn [acts act].
    by run Hs2.
Qed.

(** A flag that outlives its meaning: after the dice were rolled, a biometric
    unlock that asks for a second factor fills in the stored identifier but leaves
    it marked as generated, so that registering from there skips the confirmation
    of an email. *)
Theorem dice_flag_stale h a (w : W) (d : D) i p m w' d'
  (Hd : au_generated a = true) (Hu : returns unlockWithBiometric d (Some (i, p)) d')
  (Hl : throws (loginAccount i p None) w (TwoFactorRequiredError m) w') :
  exists a', returns (acts [Bio; Switch Register] : M S unit) ((h, a), (w, d)) tt ((h, a'), (w', d')) /\
    au_mode a' = Register /\ au_identifier a' = i /\ au_generated a' = true /\ email_issue a' = None.
Proof.
  eexists. split.
  - unfold returns. cbn [acts act].
    eapply (bind_returns unlockBio _ _ tt).
    { unfold returns, unlockBio. run (page_upd_returns (setError None) h a (w, d)).
      eapply (bind_returns _ _ _ (Some (i, p)) ((h, setError None a), (w, d'))).
      { unfold returns, bio. cbn [fst snd]. by rewrite Hu. }
      eapply catch_throws; [apply bind_throws; exact (page_api_throws _ (h, setError None a) w d' _ w' Hl)|reflexivity]. }
    cbv beta. eapply (bind_returns (switchMode Register)); [reflexivity|reflexivity].
  - destruct a. cbn [au_generated] in Hd. subst. by split_and!.
Qed.
End Theorems.

(** ** A concrete page *)

(** A phone that verifies its user and remembers one account. *)
Definition phone_store : stored_credentials := {| cr_username := js "Alice@Example.org"; cr_password := js "Correct horse" |}.
#[local] Instance phone : Biometric bool := {|
  isNativePlatform := true;
  isAvailable d := (Some true, d);
  getCredentials _ d := (Some (Some phone_store), d);
  setCredentials _ _ d := (true, d);
  verifyIdentity d := (d, d);
  deleteCredentials _ d := (true, d);
|}.
#[local] Existing Instances latin1_unicode model_crypto lcg_entropy account_environment account_map_server browser.
#[local] Instance quiet_errors : EngineText := {| engine_message _ := js "Something went wrong." |}.

Definition open_page := ((Shell None None, fresh_auth), (new_world, tt)).

Lemma page_register_login_witness : exists s1 s2 se1 se2,
  returns (acts [Type_ (Identifier (js "Alice@Example.org")); Type_ (Password (js "Correct horse"));
      Type_ (Confirm (js "Correct horse")); Type_ (ConfirmId (js "Alice@Example.org")); Submit]) open_page tt s1 /\
  sh_session s1.1.1 = Some se1 /\
  returns (acts [Lock; Switch Login; Type_ (Identifier (js " alice@EXAMPLE.org")); Type_ (Password (js "Correct horse")); Submit])
    s1 tt s2 /\ sh_session s2.1.1 = Some se2 /\
  ss_userKey se2 = ss_userKey se1 /\ ss_protectedPrivateKey se2 = ss_protectedPrivateKey se1.
Proof.
  apply (page_register_login [] (js "Alice@Example.org") (js " alice@EXAMPLE.org") (js "Correct horse") new_world tt).
  - reflexivity.
  - apply map_Forall_empty.
  - vm_compute. reflexivity.
  - apply sample_identifier_ok.
  - intros _. apply email_ok_shape. vm_compute. reflexivity.
  - reflexivity.
  - decide_forall.
  - vm_compute. reflexivity.
Defined.

Lemma submit_outcomes_witness :
  (exists e, e <> [] /\ returns submit ((Shell None None, filled Register (js "alice@example") (js "Correct horse")), (new_world, tt)) tt
     ((Shell None None, setError (Some e) (filled Register (js "alice@example") (js "Correct horse"))), (new_world, tt))) /\
  exists s', returns submit ((Shell None None, filled Login (js "alice") (js "Correct horse")), (new_world, tt)) tt s' /\
    match loginAccount (js "alice") (js "Correct horse") None new_world with
    | (inl se, w') => s'.1.1 = Shell (Some se) None /\ s'.2.1 = w'
    | (inr e, w') => s' = ((Shell None None, failed e (filled Login (js "alice") (js "Correct horse"))), (w', tt))
    end.
Proof.
  split.
  - apply (submit_outcomes (Shell None None) (filled Register (js "alice@example") (js "Correct horse")) new_world tt false);
      [reflexivity..|]. rewrite <- form_issue_none. vm_compute. discriminate.
  - apply (submit_outcomes (Shell None None) (filled Login (js "alice") (js "Correct horse")) new_world tt false);
      [reflexivity..|]. rewrite <- form_issue_none. vm_compute. reflexivity.
Defined.

(** The dice, a password, and the button. *)
Definition after (x : action) (s : (shell * auth) * (world (gmap jsstr json) Z * unit)) := (act x s).2.

Lemma phrase_is_identifier_witness : exists s,
  rtc page_step open_page s /\ is_Some (sh_session s.1.1) /\ is_Some (sh_recovery s.1.1) /\ phrase_kept s.1.1.
Proof.
  set (s1 := after Dice open_page). set (s2 := after (Type_ (Password (js "Correct horse"))) s1).
  set (s3 := after (Type_ (Confirm (js "Correct horse"))) s2). set (s4 := after Submit s3).
  assert (Hr : rtc page_step open_page s4).
  { eapply (rtc_l _ _ s1); [eapply (page_act Dice); [reflexivity|apply surjective_pairing]|].
    eapply (rtc_l _ _ s2); [eapply (page_act (Type_ _)); [vm_compute; reflexivity|apply surjective_pairing]|].
    eapply (rtc_l _ _ s3); [eapply (page_act (Type_ _)); [vm_compute; reflexivity|apply surjective_pairing]|].
    apply rtc_once. eapply (page_act Submit); [vm_compute; reflexivity|apply surjective_pairing]. }
  exists s4. split; [exact Hr|]. split; [vm_compute; eexists; reflexivity|]. split; [vm_compute; eexists; reflexivity|].
  exact (phrase_is_identifier (new_world, tt) s4 eq_refl Hr).
Defined.

Lemma unlockBio_verified_witness : exists (w : world (gmap jsstr json) Z) s' se,
  unlockBio ((Shell None None, fresh_auth), (w, true)) = (inl tt, s') /\ sh_session s'.1.1 = Some se /\
  isNativePlatform (D := bool) = true /\
  exists i p, returns (loginAccount i p None) w se s'.2.1.
Proof.
  destruct (register_login_keys [] (js "Alice@Example.org") (js "Correct horse") new_world) as (se1 & w & _ & _ & Hlog);
    [done|apply map_Forall_empty|done|apply sample_identifier_ok|done|].
  destruct (Hlog (js "Alice@Example.org")) as (se & w2 & Hl & _); [decide_forall|done|].
  set (s' := ((Shell (Some se) None, fresh_auth), (w2, true))).
  assert (Hu : unlockBio ((Shell None None, fresh_auth), (w, true)) = (inl tt, s')).
  { unfold unlockBio. run (page_upd_returns (setError None) (Shell None None) fresh_auth (w, true)).
    eapply (bind_returns _ _ _ (Some (js "Alice@Example.org", js "Correct horse")) ((Shell None None, fresh_auth), (w, true)));
      [reflexivity|cbv beta]. apply catch_returns. unfold returns.
    run (page_api_returns _ (Shell None None, fresh_auth) w true se w2 Hl). reflexivity. }
  exists w, s', se. split; [exact Hu|]. split; [reflexivity|].
  destruct (unlockBio_verified (Shell None None) fresh_auth w true (inl tt) s' se Hu eq_refl eq_refl)
    as (Hn & _ & i & p & _ & _ & Hr).
  split; [exact Hn|]. by exists i, p.
Defined.
