(* ===== verification/AuthUi.v ===== *)
(** The sign-in page as it is rendered: apps/web/src/App.tsx, over the state and the
    handlers of WebAuth.v. *)
From stdpp Require Import relations.
From S2P Require Import Prelude Text Numeral Json JsonFacts Encoding Effects Platform Primitives.
From S2P Require Import Kdf Policy Identifier Account Sharing Backup Objects Api Session Login Process Background Biometric.
From S2P Require Import WebAuth Ui.

(** What only the screen keeps: the buttons that are busy, and the reveal of the
    two password fields. *)
Record look := Look { lk_busy : bool; lk_bioBusy : bool; lk_plain : bool; lk_plainConfirm : bool }.
Definition still : look := Look false false false false.

(** A handler of WebAuth, or a reveal. *)
Inductive page_use := Do (x : action) | PeekPassword | PeekConfirm.

Definition canPasskey (a : auth) : option bool :=
  match au_twoFactor a with Some m => methods_include (js "webauthn") m | None => Some false end.

Definition submitLabel (busy need : bool) (a : auth) : jsstr :=
  if busy then if au_recover a then js "Recovering" else js "Deriving keys"
  else if au_recover a then js "Recover and unlock"
  else if bool_decide (au_mode a = Register) then js "Create account"
  else if need then js "Verify and unlock" else js "Unlock vault".

Section Render.
Context (SITE_URL : jsstr).

Definition typing (hint v : jsstr) (i : jsstr -> input) : node page_use := Field hint false v (fun t => Do (Type_ (i t))).
Definition secret (hint v : jsstr) (plain : bool) (i : jsstr -> input) (peek : page_use) : screen page_use :=
  PasswordField hint (Entry v plain) (fun t => Do (Type_ (i t))) peek.
Definition press (label : jsstr) (x : action) : node page_use := btn label (Do x).

(** [need] and [pass] are needTotp and canPasskey. *)
Definition render_form (l : look) (need pass : bool) (a : auth) : screen page_use :=
  let reg := bool_decide (au_mode a = Register) in
  let login := bool_decide (au_mode a = Login) in
  let asked := match au_twoFactor a with Some _ => true | None => false end in
  [Link (js "Back to site") SITE_URL; Say (js "passwd"); Say (js "Zero-knowledge password manager");
   press (js "Create account") (Switch Register); press (js "Sign in") (Switch Login)]
  ++ when (au_bioEnrolled a && negb (au_recover a) && negb asked)
       [Button (if lk_bioBusy l then js "Unlocking..." else js "Unlock with biometrics") (negb (lk_bioBusy l)) (Do Bio);
        Say (js "or")]
  ++ [Say (js "Account identifier");
      typing (if reg then js "roll the dice, or use an email" else js "your passphrase or email") (au_identifier a) Identifier]
  ++ when reg
       [press (js "Generate a private passphrase") Dice;
        Say (js "Roll the dice for a private passphrase, or type your own email. No email needed.")]
  ++ when (reg && negb (au_generated a) && includes [64] (au_identifier a))
       [Say (js "Confirm email"); typing (js "type your email again") (au_confirmId a) ConfirmId;
        Say (js "There is no password reset, so a typo here locks the account out for good. We never send email or store it in the clear.")]
  ++ when (au_recover a)
       [Say (js "Recovery code"); typing (js "your 24-word recovery code") (au_recoveryCode a) RecoveryCode]
  ++ Say (if au_recover a then js "New master password" else js "Master password")
  :: secret (if au_recover a then js "choose a new master password" else js "never sent to the server")
       (au_password a) (lk_plain l) Password PeekPassword
  ++ when (reg || au_recover a)
       (Say (js "Confirm " ++ (if au_recover a then js "new " else []) ++ js "master password")
        :: secret (js "type it again") (au_confirm a) (lk_plainConfirm l) Confirm PeekConfirm)
  ++ when (login && negb asked && negb (au_recover a))
       [press (js "Forgot your master password? Recover with a recovery code") (Type_ StartRecovery)]
  ++ when (au_recover a) [press (js "Back to sign in") (Type_ BackToSignIn)]
  ++ when (login && asked)
       (Say (js "Finish signing in with your second factor.")
        :: when pass [Button (js "Use a passkey") (negb (lk_busy l)) (Do Passkey)]
        ++ when (pass && need) [Say (js "or")]
        ++ when need [Say (js "Two-factor code"); typing (js "6-digit code") (au_totp a) TotpCode])
  ++ when (au_bioAvailable a && negb (au_recover a) && negb asked)
       [Tick (js "Unlock with biometrics on this device next time") (au_bioRemember a)
          (Do (Type_ (Remember (negb (au_bioRemember a)))))]
  ++ say_some (au_error a)
  ++ when (reg || negb asked || need) [Button (submitLabel (lk_busy l) need a) (negb (lk_busy l)) (Do Submit)]
  ++ [Say (js "Your master password and identifier never leave this device in plaintext. There is no password reset; only a recovery code you set up yourself can get you back in, so keep it and your identifier safe.")].

(** [None]: [methods] is not a list, and drawing the form throws. *)
Definition render (l : look) (a : auth) : option (screen page_use) :=
  need ← needTotp a; pass ← canPasskey a; Some (render_form l need pass a).
End Render.

(** ** Laws *)

(** What a user can do without the server: type, tick, and choose a tab. *)
Definition by_hand (x : action) : option (auth -> auth) :=
  match x with
  | Type_ i => Some (WebAuth.type_in i)
  | Switch m => Some (fun a => WebAuth.setConfirmId [] (setRecoveryCode [] (setRecover false (setTotp [] (setTwoFactor None
      (WebAuth.setError None (setMode m a)))))))
  | _ => None
  end.

Section Laws.
Context `{Unicode} (SITE_URL : jsstr).

Inductive hand_step : auth -> auth -> Prop :=
| hand x f a sc : render SITE_URL still a = Some sc -> offered sc (Do x) -> by_hand x = Some f -> hand_step a (f a).

(** The page offers to submit, and would send what is on it. *)
Definition ready (a : auth) : Prop :=
  may_submit a /\ exists sc, render SITE_URL still a = Some sc /\ offered sc (Do Submit).

Definition asked (a : auth) : bool := match au_twoFactor a with Some _ => true | None => false end.

Lemma offers_tab l need pass a m : offered (render_form SITE_URL l need pass a) (Do (Switch m)).
Proof. unfold render_form. destruct m; find_node done. Qed.

Lemma offers_submit l need pass a :
  offered (render_form SITE_URL l need pass a) (Do Submit) <->
  lk_busy l = false /\ bool_decide (au_mode a = Register) || negb (asked a) || need = true.
Proof.
  split.
  - unfold render_form, secret, PasswordField, asked. intros Ho. offers; try discriminate; cbn [use_node] in Ho; try (by repeat case_match).
    by destruct (lk_busy l).
  - intros [Hb Hc]. unfold render_form. rewrite Hb. find_node ltac:(exact Hc).
Qed.
Lemma offers_passkey l need pass a :
  offered (render_form SITE_URL l need pass a) (Do Passkey) <->
  lk_busy l = false /\ au_mode a = Login /\ asked a = true /\ pass = true.
Proof.
  split.
  - unfold render_form, secret, PasswordField, asked. intros Ho. offers; try discriminate; cbn [use_node] in Ho; try (by repeat case_match).
    destruct (lk_busy l); [done|]. bool_prop. by split_and!.
  - intros (Hb & Hm & Ha & ->). unfold asked in Ha. unfold render_form. rewrite Hb, Hm.
    destruct (au_twoFactor a); [|done]. find_node done.
Qed.

(** The texts that fill the form in. *)
Definition anyone := js "someone".
Definition strong := js "Correct horse battery".
Definition fills (a : auth) : list input :=
  Identifier anyone :: (if au_recover a then [RecoveryCode anyone] else []) ++ [Password strong]
  ++ (if bool_decide (au_mode a = Register) || au_recover a then [Confirm strong] else []).

Lemma offers_input need pass a i :
  (forall b, i <> Remember b) -> i <> StartRecovery -> i <> BackToSignIn -> (forall t, i <> TotpCode t) -> (forall t, i <> ConfirmId t) ->
  (forall t, i = RecoveryCode t -> au_recover a = true) ->
  (forall t, i = Confirm t -> bool_decide (au_mode a = Register) || au_recover a = true) ->
  offered (render_form SITE_URL still need pass a) (Do (Type_ i)).
Proof.
  intros H1 H2 H3 H4 H5 H6 H7. unfold render_form, typing, secret, PasswordField.
  destruct i as [t|t|t|t|t|t|b| |]; try (by destruct (H1 b)); try (by destruct (H4 t)); try (by destruct (H5 t)); try done.
  - find_node done.
  - apply offered_app; right. apply offered_app; right. apply offered_app; right. apply offered_app; right. apply offered_app; right. find_node done.
  - specialize (H7 t eq_refl). find_node ltac:(exact H7).
  - specialize (H6 t eq_refl). find_node ltac:(exact H6).
Qed.

Lemma renders need pass a : needTotp a = Some need -> canPasskey a = Some pass ->
  render SITE_URL still a = Some (render_form SITE_URL still need pass a).
Proof. intros Hn Hp. unfold render. by rewrite Hn, Hp. Qed.

Lemma fills_typed need pass a : needTotp a = Some need -> canPasskey a = Some pass ->
  rtc hand_step a (foldl (fun a i => WebAuth.type_in i a) a (fills a)).
Proof.
  intros Hn Hp.
  assert (Hgo : forall l b, needTotp b = Some need -> canPasskey b = Some pass -> au_recover b = au_recover a -> au_mode b = au_mode a ->
    Forall (fun i => i ∈ fills a) l -> rtc hand_step b (foldl (fun a i => WebAuth.type_in i a) b l)).
  { induction l as [|i l IH]; intros b Hnb Hpb Hrb Hmb Hl; [done|]. apply Forall_cons in Hl as [Hi Hl]. cbn [foldl].
    unfold fills in Hi. rewrite <- Hrb, <- Hmb in Hi.
    assert (Hok : exists t, i = Identifier t \/ i = Password t \/ (i = RecoveryCode t /\ au_recover b = true) \/
        (i = Confirm t /\ bool_decide (au_mode b = Register) || au_recover b = true)).
    { destruct (au_recover b), (bool_decide (au_mode b = Register)); cbn in Hi; set_solver. }
    eapply rtc_l.
    - eapply (hand (Type_ i)); [by apply renders|apply offers_input; naive_solver|done].
    - apply IH; [..|exact Hl]; destruct Hok as (t & [->|[->|[[-> _]|[-> _]]]]); by destruct b. }
  apply Hgo; [done..|]. by apply Forall_forall.
Qed.

Lemma fills_ready need pass a : needTotp a = Some need -> canPasskey a = Some pass ->
  bool_decide (au_mode a = Register) || negb (asked a) || need = true ->
  ready (foldl (fun a i => WebAuth.type_in i a) a (fills a)).
Proof.
  intros Hn Hp Hc. split.
  - apply form_issue_none. destruct a as [m i g p c d r k t o e b f n], m, r; vm_compute; reflexivity.
  - exists (render_form SITE_URL still need pass (foldl (fun a i => WebAuth.type_in i a) a (fills a))).
    assert (Hkeep : au_twoFactor (foldl (fun a i => WebAuth.type_in i a) a (fills a)) = au_twoFactor a /\
      au_mode (foldl (fun a i => WebAuth.type_in i a) a (fills a)) = au_mode a) by (by destruct a as [[] ? ? ? ? ? [] ? ? ? ? ? ? ?]).
    destruct Hkeep as [Ht Hm]. split.
    + apply renders; [unfold needTotp|unfold canPasskey]; by rewrite Ht.
    + apply offers_submit. split; [done|]. unfold asked. by rewrite Ht, Hm.
Qed.
End Laws.

(** ** Theorems *)
Section Theorems.
Context `{Unicode} (SITE_URL : jsstr).

(** C18: The sign-in page never traps its user: from every state in which it can be
    drawn there is something to type into the fields it shows, after at most a
    change of tab, such that the submit button is offered and the form passes its
    own checks; and during a challenge that names an authenticator or a passkey the
    user can finish it there, without leaving the challenge. *)
Theorem page_never_stuck a need pass
  (Hn : needTotp a = Some need) (Hp : canPasskey a = Some pass) :
  (exists a', rtc (hand_step SITE_URL) a a' /\ ready SITE_URL a') /\
  (au_mode a = Login -> asked a = true ->
    (need = true -> exists a', rtc (hand_step SITE_URL) a a' /\ ready SITE_URL a' /\ au_twoFactor a' = au_twoFactor a /\
       forall t, exists sc, render SITE_URL still a' = Some sc /\ offered sc (Do (Type_ (TotpCode t)))) /\
    (pass = true -> exists sc, render SITE_URL still a = Some sc /\ offered sc (Do Passkey))).
Proof.
  split.
  - destruct (bool_decide (au_mode a = Register) || negb (asked a) || need) eqn:Hc.
    + eexists. split; [by eapply fills_typed|by eapply fills_ready].
    + set (b := WebAuth.setConfirmId [] (setRecoveryCode [] (setRecover false (setTotp [] (setTwoFactor None
        (WebAuth.setError None (setMode Login a))))))).
      assert (Hb : needTotp b = Some false /\ canPasskey b = Some false /\ asked b = false) by (by destruct a).
      destruct Hb as (Hnb & Hpb & Hab). eexists. split.
      * eapply (rtc_l _ _ b); [|exact (fills_typed SITE_URL false false b Hnb Hpb)].
        exact (hand SITE_URL (Switch Login) _ a _ (renders SITE_URL need pass a Hn Hp) (offers_tab SITE_URL still need pass a Login) eq_refl).
      * eapply fills_ready; [done|done|]. rewrite Hab. by rewrite orb_true_r.
  - intros Hm Ha. split.
    + intros ->. eexists. split; [by eapply fills_typed|]. split; [eapply fills_ready; [done|done|by rewrite orb_true_r]|].
      set (b := foldl _ _ _). assert (Hk : au_twoFactor b = au_twoFactor a /\ au_mode b = au_mode a)
        by (unfold b; by destruct a as [[] ? ? ? ? ? [] ? ? ? ? ? ? ?]).
      destruct Hk as [Ht Hmb]. split; [done|]. intros t. eexists. split.
      * apply renders; [unfold needTotp|unfold canPasskey]; by rewrite Ht.
      * unfold asked in Ha. unfold render_form, typing. rewrite Hmb, Hm, Ht. destruct (au_twoFactor a); [|done].
        repeat (apply offered_app; right). clear. find_node done.
    + intros ->. eexists. split; [by apply renders|]. by apply offers_passkey.
Qed.

(** Nobody reads the master password off the sign-in page: unless it is revealed,
    two states that differ in the passwords typed, but not in their lengths, look
    alike, in every mode of the page. *)
Theorem passwords_hidden l need pass a p c
  (Hl : lk_plain l = false) (Hc : lk_plainConfirm l = false)
  (Hp : length p = length (au_password a)) (Hlc : length c = length (au_confirm a)) :
  alike (render_form SITE_URL l need pass (WebAuth.setPassword p (WebAuth.setConfirm c a)))
        (render_form SITE_URL l need pass a).
Proof.
  destruct a as [m i g pw cf di r k t o e b f n]. cbn [WebAuth.setPassword WebAuth.setConfirm au_password au_confirm] in *.
  unfold render_form, secret. cbn [au_mode au_identifier au_generated au_password au_confirm au_confirmId au_recover au_recoveryCode
    au_twoFactor au_totp au_error au_bioRemember au_bioAvailable au_bioEnrolled].
  rewrite Hl, Hc. repeat (apply app_alike; [reflexivity|]). apply cons_alike.
  apply app_alike; [by apply password_field_hides|]. apply app_alike; [|reflexivity].
  apply when_alike, cons_alike. by apply password_field_hides.
Qed.
End Theorems.

Section Findings.
Context {N E D : Type} `{Unicode} `{WebCrypto} `{Environment N} `{Entropy E} `{Biometric D} `{EngineText} (SITE_URL : jsstr).
Abbreviation W := (world N E).
Abbreviation S := ((shell * auth) * (world N E * D))%type.

(** [by_hand] is what the handlers do. *)
Lemma by_hand_act x f (h : shell) a (o : W * D) : by_hand x = Some f ->
  returns (WebAuth.act x : M S unit) ((h, a), o) tt ((h, f a), o).
Proof. destruct x; try done; by intros [= <-]. Qed.

(** A challenge that names no method (what api.ts makes of an answer without
    [methods]), or none the page knows, hides the button without offering another
    one: the password was right, and the page has no way on but a tab. *)
Theorem unnamed_factor_dead_end h a (w w' : W) (d : D)
  (Hm : may_submit a) (Hr : au_recover a = false) (Hlog : au_mode a = Login)
  (Hn : needTotp a = Some false) (Hh : sh_recovery h = None)
  (Hl : throws (loginAccount (au_identifier a) (au_password a) None) w (TwoFactorRequiredError (Some (JArr []))) w') :
  exists a' sc, returns (submit : M S unit) ((h, a), (w, d)) tt ((h, a'), (w', d)) /\
    render SITE_URL still a' = Some sc /\ ~ offered sc (Do Submit) /\ ~ offered sc (Do Passkey).
Proof.
  apply form_issue_none in Hm. pose proof (submit_sent h a w d false Hn Hm Hh) as Hs.
  unfold flow in Hs. rewrite Hr, Hlog in Hs. cbn [bool_decide] in Hs. rewrite bool_decide_eq_false_2 in Hs by done.
  unfold throws in Hl. rewrite Hl in Hs.
  set (a' := failed _ _) in Hs. exists a', (render_form SITE_URL still false false a').
  assert (Hk : au_twoFactor a' = Some (Some (JArr [])) /\ au_mode a' = Login)
    by (unfold a', failed; destruct a; cbn in Hr, Hlog; by subst).
  destruct Hk as [Ht Hma]. split_and!; [exact Hs|apply renders; [unfold needTotp|unfold canPasskey]; by rewrite Ht|..].
  - intros [_ Ho]%offers_submit. unfold asked in Ho. by rewrite Ht, Hma in Ho.
  - by intros (_ & _ & _ & [=])%offers_passkey.
Qed.
End Findings.

(** ** Witnesses *)
#[local] Existing Instances latin1_unicode.

(** An account with an authenticator and a passkey, challenged. *)
Definition challenged : auth :=
  setTwoFactor (Some (Some (JArr [JStr (js "webauthn"); JStr (js "totp")]))) (filled Login (js "alice") (js "Correct horse")).

Lemma page_never_stuck_witness :
  (exists a', rtc (hand_step []) challenged a' /\ ready [] a') /\
  (exists a', rtc (hand_step []) challenged a' /\ ready [] a' /\ au_twoFactor a' = au_twoFactor challenged /\
     forall t, exists sc, render [] still a' = Some sc /\ offered sc (Do (Type_ (TotpCode t)))) /\
  exists sc, render [] still challenged = Some sc /\ offered sc (Do Passkey).
Proof.
  destruct (page_never_stuck [] challenged true true) as [Hgo Hasked]; [vm_compute; reflexivity..|].
  destruct Hasked as [Hcode Hpass]; [reflexivity..|]. split; [exact Hgo|]. split; [by apply Hcode|by apply Hpass].
Defined.

Lemma passwords_hidden_witness :
  alike (render_form [] still false false (filled Register (js "alice") (js "Correct horse")))
        (render_form [] still false false (filled Register (js "alice") (js "Battery stapl"))).
Proof.
  exact (passwords_hidden [] still false false (filled Register (js "alice") (js "Battery stapl"))
    (js "Correct horse") (js "Correct horse") eq_refl eq_refl eq_refl eq_refl).
Defined.
