(* ===== verification/Desktop.v ===== *)
(** The offline desktop app: apps/desktop/src/storage.ts (vault files and the list
    of recent vaults) and types.ts. *)
From S2P Require Import Prelude Text Numeral Json JsonFacts Encoding JsonText Effects Platform Primitives.
From S2P Require Import EncString Kdf Account Backup VaultFile Objects Items Session.

(** The Tauri side: its file commands and dialogs.  A rejected command throws;
    what a write that succeeded stored is what a read returns, and a failed write
    may leave anything. *)
Class Tauri (F : Type) := {
  read_vault : jsstr -> F -> option jsstr;
  write_vault : jsstr -> jsstr -> F -> bool * F;
  vault_exists : jsstr -> F -> option bool;
  read_recents : F -> option jsstr;
  write_recents : jsstr -> F -> bool * F;
  open_dialog : F -> option json * F;
  save_dialog : F -> option (option jsstr) * F;
  read_write : forall p c f, (write_vault p c f).1 = true -> read_vault p (write_vault p c f).2 = Some c;
  read_write_recents : forall c f, (write_recents c f).1 = true -> read_recents (write_recents c f).2 = Some c;
}.

(** The app's outside: the operating system and the entropy. *)
Record host (F E : Type) := Host { disk : F; entropy : E }.
Arguments Host {F E}.
Arguments disk {F E}.
Arguments entropy {F E}.

Definition host_draw {F E} `{Entropy E} (n : nat) (h : host F E) : bytes * host F E :=
  let r := draw n (entropy h) in (r.1, Host (disk h) r.2).
#[global] Instance host_entropy {F E} `{Entropy E} : Entropy (host F E) := {|
  draw := host_draw;
  draw_length n h := draw_length n (entropy h);
  draw_bytes n h := draw_bytes n (entropy h);
|}.

Record DesktopVault := { dv_path : jsstr; dv_state : VaultState; dv_items : list json }.

Definition PAYLOAD_VERSION : Z := 1.
Definition RECENTS_MAX : nat := 8.

Definition encodePayload (items : list json) : jsstr :=
  stringify (obj_of [(js "version", jint PAYLOAD_VERSION); (js "items", Some (JArr items))]).

Definition decodePayload (payload : jsstr) : list json + exn :=
  match json_parse payload with
  | None => inr JsSyntaxError
  | Some p =>
      match json_member (js "items") p with
      | None => inr JsTypeError
      | Some (Some (JArr l)) => inl l
      | Some _ => inl []
      end
  end.

(** [path.split(/[\\/]/).pop() || path] *)
Definition basename (path : jsstr) : jsstr :=
  match last (split_on c_slash (map (fun u => if u =? c_bslash then c_slash else u) path)) with
  | Some [] | None => path
  | Some s => s
  end.

Section Storage.
Context {F E : Type} `{Unicode} `{WebCrypto} `{Tauri F} `{Entropy E} `{Clock F}.
Abbreviation X := (host F E).

Definition readFile (path : jsstr) : M X jsstr := fun h =>
  (match read_vault path (disk h) with Some c => inl c | None => inr LibraryError end, h).
Definition writeFile (path contents : jsstr) : M X unit := fun h =>
  let r := write_vault path contents (disk h) in
  (if r.1 : bool then inl tt else inr LibraryError, Host r.2 (entropy h)).

Definition vaultExists (path : jsstr) : M X bool :=
  catch (fun h => (match vault_exists path (disk h) with Some b => inl b | None => inr LibraryError end, h))
        (fun _ => mret false).

Definition pickVaultToOpen : M X (option jsstr) := fun h =>
  let r := open_dialog (disk h) in
  (match r.1 with
   | Some (JStr s) => inl (Some s)
   | Some _ => inl None
   | None => inr LibraryError
   end, Host r.2 (entropy h)).

Definition pickVaultToCreate : M X (option jsstr) := fun h =>
  let r := save_dialog (disk h) in
  (match r.1 with Some res => inl res | None => inr LibraryError end, Host r.2 (entropy h)).

Definition decode (payload : jsstr) : M X (list json) := fun h => (decodePayload payload, h).

Definition createNewVault (path masterPassword : jsstr) : M X DesktopVault :=
  r ← createVault masterPassword (encodePayload []) (Some DEFAULT_KDF);
  _ ← writeFile path r.1;
  mret {| dv_path := path; dv_state := r.2; dv_items := [] |}.

Definition openExistingVault (path masterPassword : jsstr) : M X DesktopVault :=
  fileText ← readFile path;
  r ← openVault fileText masterPassword;
  items ← decode r.2;
  mret {| dv_path := path; dv_state := r.1; dv_items := items |}.

Definition persist (v : DesktopVault) : M X unit :=
  file ← saveVault (dv_state v) (encodePayload (dv_items v));
  writeFile (dv_path v) file.

Definition rekey (v : DesktopVault) (newPassword : jsstr) : M X DesktopVault :=
  r ← changeMasterPassword (dv_state v) newPassword (encodePayload (dv_items v)) (vs_kdf (dv_state v));
  _ ← writeFile (dv_path v) r.1;
  mret {| dv_path := dv_path v; dv_state := r.2; dv_items := dv_items v |}.

(** ** Recent vaults *)

Definition readRecents : M X (list json) :=
  catch (fun h => match read_recents (disk h) with
                  | None => (inr LibraryError, h)
                  | Some raw =>
                      match json_parse raw with
                      | Some (JArr l) => (inl l, h)
                      | Some _ => (inl [], h)
                      | None => (inr JsSyntaxError, h)
                      end
                  end)
        (fun _ => mret []).

Definition storeRecents (contents : jsstr) : M X unit := fun h =>
  let r := write_recents contents (disk h) in
  (if r.1 : bool then inl tt else inr LibraryError, Host r.2 (entropy h)).

Definition recent_entry (path : jsstr) (now : Z) : json :=
  JObj [(js "path", JStr path); (js "name", JStr (basename path)); (js "openedAt", JNum (NInt now))].

(** [list.filter((r) => r.path !== path)] *)
Fixpoint drop_path (path : jsstr) (l : list json) : option (list json) :=
  match l with
  | [] => Some []
  | r :: l' =>
      p ← json_member (js "path") r;
      rest ← drop_path path l';
      Some (if is_string path p then rest else r :: rest)
  end.

Definition rememberRecent (path : jsstr) : M X unit :=
  l ← readRecents;
  now ← gets (fun h => clock (disk h));
  rest ← of_option JsTypeError (drop_path path l);
  storeRecents (stringify (JArr (take RECENTS_MAX (recent_entry path now :: rest)))).

Definition clearRecents : M X unit := storeRecents (js "[]").
End Storage.

(** ** types.ts *)

Definition blankItem : obj :=
  [(js "id", JStr []); (js "name", JStr []); (js "username", JStr []); (js "password", JStr []);
   (js "url", JStr []); (js "notes", JStr [])].

Section Types.
Context {St : Type} `{Entropy St}.

Definition newItemId : M St jsstr :=
  b ← getRandomValues 16;
  mret (b ≫= fun x => [hex_digit (x / 16); hex_digit (x mod 16)]).

(** types.ts's [generatePassword]. *)
Definition desktopPassword (n : nat) : M St jsstr :=
  buf ← randomU32 n;
  mret (map (fun x => default 0
    (PASSWORD_ALPHABET !! Z.to_nat (x mod Z.of_nat (length PASSWORD_ALPHABET)))) buf).
End Types.

(** ** Laws *)

Lemma items_json_ok items : Forall json_ok items ->
  json_ok (obj_of [(js "version", jint PAYLOAD_VERSION); (js "items", Some (JArr items))]).
Proof.
  intros Hi. apply json_ok_obj. split; [vm_compute; reflexivity|].
  constructor; [split; [decide_forall|by apply json_okb_ok]|].
  constructor; [split; [decide_forall|by apply json_ok_arr]|constructor].
Qed.

Lemma payload_text_ok items : Forall json_ok items -> text_ok (encodePayload items).
Proof. intros Hi. by apply stringify_text_ok, items_json_ok. Qed.

Lemma decode_encode items : Forall json_ok items -> decodePayload (encodePayload items) = inl items.
Proof.
  intros Hi. unfold decodePayload, encodePayload. by rewrite json_parse_stringify by by apply items_json_ok.
Qed.

(** ** Sessions with one vault file *)

Inductive desk_op :=
| Edit (items : list json)          (* change the items and save *)
| NewPassword (password : jsstr)
| Relaunch.                         (* quit and unlock again with the password *)

Definition desk_op_ok (o : desk_op) : Prop :=
  match o with Edit items => Forall json_ok items | NewPassword pw => pw <> [] | Relaunch => True end.
Definition next_password (pw : jsstr) (o : desk_op) : jsstr :=
  match o with NewPassword pw' => pw' | _ => pw end.
Definition next_items (items : list json) (o : desk_op) : list json :=
  match o with Edit items' => items' | _ => items end.

Section Sessions.
Context {F E : Type} `{Unicode} `{WebCrypto} `{Tauri F} `{Entropy E}.
Abbreviation X := (host F E).

Definition desk_do (pw : jsstr) (v : DesktopVault) (o : desk_op) : M X DesktopVault :=
  match o with
  | Edit items =>
      let v' := {| dv_path := dv_path v; dv_state := dv_state v; dv_items := items |} in
      _ ← persist v'; mret v'
  | NewPassword pw' => rekey v pw'
  | Relaunch => openExistingVault (dv_path v) pw
  end.
Fixpoint desk_run (pw : jsstr) (v : DesktopVault) (ops : list desk_op) : M X DesktopVault :=
  match ops with
  | [] => mret v
  | o :: ops' => v' ← desk_do pw v o; desk_run (next_password pw o) v' ops'
  end.

(** What the app has in memory of a vault, under its password. *)
Definition held (pw : jsstr) (v : DesktopVault) : Prop :=
  vault_ok (St := X) pw (dv_state v) /\ vs_kdf (dv_state v) = Some DEFAULT_KDF /\ Forall json_ok (dv_items v).

(** Memory and disk agree under the password. *)
Definition in_sync (pw : jsstr) (v : DesktopVault) (h : X) : Prop :=
  vault_ok (St := X) pw (dv_state v) /\ vs_kdf (dv_state v) = Some DEFAULT_KDF /\
  Forall json_ok (dv_items v) /\
  exists file, read_vault (dv_path v) (disk h) = Some file /\
    forall h' : X, returns (openVault file pw) h' (dv_state v, encodePayload (dv_items v)) h'.

(** [h'] is [h] after a write to [path] that failed. *)
Definition spoiled (path : jsstr) (h h' : X) : Prop :=
  exists c, (write_vault path c (disk h)).1 = false /\ disk h' = (write_vault path c (disk h)).2.

#[global] Instance undrawn_disk d : Undrawn (fun h : X => disk h = d).
Proof. intros n h Hh. exact Hh. Qed.

Lemma keeps_disk {A} (m : M X A) (h : X) a h' :
  (forall d, Keeps (fun h : X => disk h = d) m) -> returns m h a h' -> disk h' = disk h.
Proof. intros Hk Hr. by apply (keeps_returns _ _ _ _ _ (Hk (disk h)) Hr). Qed.

Lemma saveVault_disk st p (h : X) f h' : returns (saveVault st p) h f h' -> disk h' = disk h.
Proof. apply keeps_disk. intros d. unfold saveVault, serialize. keeps. Qed.

Lemma changeMasterPassword_disk st pw p k (h : X) r h' :
  returns (changeMasterPassword st pw p k) h r h' -> disk h' = disk h.
Proof.
  apply keeps_disk. intros d. unfold changeMasterPassword, serialize, wrapUserKey. keeps.
Qed.

Lemma writeFile_outcomes path c (h : X) :
  (exists h', throws (writeFile path c) h LibraryError h' /\ spoiled path h h') \/
  (exists h', returns (writeFile path c) h tt h' /\ read_vault path (disk h') = Some c).
Proof.
  unfold returns, throws, writeFile. destruct (write_vault path c (disk h)).1 eqn:Ew; [right|left]; eexists.
  - split; [reflexivity|]. by apply read_write.
  - split; [reflexivity|]. by exists c.
Qed.

Lemma spoiled_disk path (h h1 h2 : X) : disk h1 = disk h -> spoiled path h1 h2 -> spoiled path h h2.
Proof. unfold spoiled. intros ->. done. Qed.

Lemma create_sync path pw (h : X) : pw <> [] ->
  (exists h', throws (createNewVault path pw) h LibraryError h') \/
  (exists v h', returns (createNewVault path pw) h v h' /\ in_sync pw v h' /\ dv_path v = path /\ dv_items v = []).
Proof.
  intros Hp. destruct (createVault_ok pw (encodePayload []) DEFAULT_KDF h Hp) as (file & st & h1 & Hc & Hv & Hk & _ & Ho);
    [by apply payload_text_ok|apply default_kdf_ok|by apply json_okb_ok; vm_compute|].
  destruct (writeFile_outcomes path file h1) as [(h2 & Hw & _)|(h2 & Hw & Hr)]; [left|right].
  - exists h2. unfold throws, createNewVault. run Hc. by rewrite (bind_throws _ _ _ _ _ Hw).
  - eexists _, h2. split_and!; [unfold returns, createNewVault; run Hc; run Hw; reflexivity| |done|done].
    split_and!; [done|done|constructor|]. by exists file.
Qed.

Lemma sync_held pw v (h : X) : in_sync pw v h -> held pw v.
Proof. by intros (Hv & Hk & Hi & _). Qed.

(** Writing needs nothing of what the file holds. *)
Lemma do_held pw v o (h : X) : held pw v -> desk_op_ok o -> o <> Relaunch ->
  (exists h', throws (desk_do pw v o) h LibraryError h' /\ spoiled (dv_path v) h h') \/
  (exists v' h', returns (desk_do pw v o) h v' h' /\ in_sync (next_password pw o) v' h' /\ dv_path v' = dv_path v /\ dv_items v' = next_items (dv_items v) o).
Proof.
  intros (Hv & Hk & Hi) Hok Hn. destruct o as [items|pw'|]; cbn [desk_do next_password next_items]; [| |done].
  - destruct (saveVault_opens pw (dv_state v) (encodePayload items) h Hv) as (f1 & h1 & Hs & _ & Ho1);
      [by apply payload_text_ok|].
    destruct (writeFile_outcomes (dv_path v) f1 h1) as [(h2 & Hw & Hsp)|(h2 & Hw & Hr2)]; [left|right].
    + exists h2. assert (Hp : throws (persist {| dv_path := dv_path v; dv_state := dv_state v; dv_items := items |}) h LibraryError h2)
        by (unfold throws, persist; by run Hs).
      split; [by apply bind_throws|]. exact (spoiled_disk _ _ _ _ (saveVault_disk _ _ _ _ _ Hs) Hsp).
    + assert (Hp : returns (persist {| dv_path := dv_path v; dv_state := dv_state v; dv_items := items |}) h tt h2)
        by (unfold returns, persist; by run Hs).
      eexists _, h2. split_and!; [unfold returns; run Hp; reflexivity| |done|done]. split_and!; [done..|].
      by exists f1.
  - destruct (changeMasterPassword_ok (dv_state v) pw' (encodePayload (dv_items v)) DEFAULT_KDF h)
      as (f1 & next & h1 & Hc & Hvn & Hun & Hkn & Ho1);
      [by eapply vault_ok_key|done|by apply payload_text_ok|apply default_kdf_ok|by apply json_okb_ok; vm_compute|].
    rewrite <- Hk in Hc.
    destruct (writeFile_outcomes (dv_path v) f1 h1) as [(h2 & Hw & Hsp)|(h2 & Hw & Hr2)]; [left|right].
    + exists h2. split; [unfold throws, rekey; run Hc; by rewrite (bind_throws _ _ _ _ _ Hw)|].
      exact (spoiled_disk _ _ _ _ (changeMasterPassword_disk _ _ _ _ _ _ _ Hc) Hsp).
    + eexists _, h2. split_and!; [unfold returns, rekey; run Hc; run Hw; reflexivity| |done|done].
      split_and!; [done..|]. by exists f1.
Qed.

Lemma do_sync pw v o (h : X) : in_sync pw v h -> desk_op_ok o ->
  (exists h', throws (desk_do pw v o) h LibraryError h' /\ spoiled (dv_path v) h h') \/
  (exists v' h', returns (desk_do pw v o) h v' h' /\ in_sync (next_password pw o) v' h' /\
     dv_path v' = dv_path v /\ dv_items v' = next_items (dv_items v) o).
Proof.
  intros Hs Hok. assert (Hdec : o = Relaunch \/ o <> Relaunch) by (destruct o; auto; by right).
  destruct Hdec as [->|Hn]; [|apply do_held; [by eapply sync_held|done|done]].
  destruct Hs as (Hv & Hk & Hi & file & Hr & Ho). right. cbn [desk_do next_password next_items].
  exists v, h. split_and!; [|split_and!; eauto|done|done]. unfold returns, openExistingVault.
  eapply bind_returns; [unfold returns, readFile; by rewrite Hr|cbv beta]. run Ho. cbn [fst snd].
  eapply bind_returns; [unfold returns, decode; by rewrite decode_encode|cbv beta]. by destruct v.
Qed.

Lemma run_sync ops : forall pw v (h : X), in_sync pw v h -> Forall desk_op_ok ops ->
  (exists h', throws (desk_run pw v ops) h LibraryError h') \/
  (exists v' h', returns (desk_run pw v ops) h v' h' /\ in_sync (foldl next_password pw ops) v' h' /\
     dv_path v' = dv_path v /\ dv_items v' = foldl next_items (dv_items v) ops).
Proof.
  induction ops as [|o ops IH]; intros pw v h Hs Hok; [right; by exists v, h|].
  apply Forall_cons in Hok as [Ho Hok]. cbn [desk_run foldl].
  destruct (do_sync pw v o h Hs Ho) as [(h1 & Ht & _)|(v1 & h1 & Hd & Hs1 & Hp1 & Hi1)].
  { left. exists h1. by apply bind_throws. }
  destruct (IH _ v1 h1 Hs1 Hok) as [[h2 Ht]|(v2 & h2 & Hr & Hs2 & Hp2 & Hi2)].
  - left. exists h2. unfold throws. run Hd. exact Ht.
  - right. exists v2, h2. split_and!; [unfold returns; run Hd; exact Hr|done|by rewrite Hp2, Hp1|by rewrite Hi2, Hi1].
Qed.
End Sessions.

(** ** Recent vaults *)

Definition entry_json (e : jsstr * Z) : json := recent_entry e.1 e.2.
Definition recents_text (l : list (jsstr * Z)) : jsstr := stringify (JArr (map entry_json l)).

(** What the app's own writes keep: distinct paths, at most eight. *)
Definition recents_ok (l : list (jsstr * Z)) : Prop :=
  NoDup l.*1 /\ (length l <= RECENTS_MAX)%nat /\
  Forall (fun e => units_ok e.1 /\ Z.abs e.2 < 10 ^ 21) l.

(** The list after opening [path]. *)
Definition remember (path : jsstr) (now : Z) (l : list (jsstr * Z)) : list (jsstr * Z) :=
  take RECENTS_MAX ((path, now) :: filter (fun e => e.1 <> path) l).

Lemma split_units c s : units_ok s -> Forall (fun w => units_ok w) (split_on c s).
Proof.
  induction 1 as [|u s Hu _ IH]; cbn; [by repeat constructor|].
  destruct (u =? c); [by constructor|]. destruct (split_on c s) as [|w ws].
  - constructor; [constructor; [done|constructor]|constructor].
  - apply Forall_cons in IH as [Hw Hws]. constructor; [by constructor|done].
Qed.

Lemma basename_units s : units_ok s -> units_ok (basename s).
Proof.
  intros Hs. unfold basename. set (t := map _ s).
  assert (Ht : units_ok t).
  { apply Forall_map. eapply Forall_impl; [exact Hs|]. intros u Hu. cbn. destruct (u =? c_bslash); [|done].
    unfold_ok. lia. }
  pose proof (split_units c_slash t Ht) as Hall. destruct (last (split_on c_slash t)) as [[|u w]|] eqn:El; [done| |done].
  apply last_Some_elem_of in El. by apply (proj1 (Forall_forall _ _) Hall) in El.
Qed.

Lemma entries_json_ok l : Forall (fun e : jsstr * Z => units_ok e.1 /\ Z.abs e.2 < 10 ^ 21) l ->
  json_ok (JArr (map entry_json l)).
Proof.
  intros Hl. apply json_ok_arr, Forall_map. eapply Forall_impl; [exact Hl|]. intros [p t] [Hp Ht]. cbn in Hp, Ht.
  apply json_ok_obj. split; [vm_compute; reflexivity|].
  constructor; [split; [decide_forall|done]|].
  constructor; [split; [decide_forall|by apply basename_units]|].
  constructor; [split; [decide_forall|exact Ht]|constructor].
Qed.

Lemma drop_path_entries path l :
  drop_path path (map entry_json l) = Some (map entry_json (filter (fun e => e.1 <> path) l)).
Proof.
  induction l as [|[p t] l IH]; [done|]. cbn [map drop_path]. rewrite IH.
  change (json_member (js "path") (entry_json (p, t))) with (Some (Some (JStr p))). cbn [mbind option_bind].
  unfold is_string. destruct (bool_decide_reflect (Some (JStr p) = Some (JStr path))) as [Hp|Hp].
  - rewrite filter_cons_False by (cbn; naive_solver). done.
  - rewrite filter_cons_True by (cbn; naive_solver). done.
Qed.

Lemma remember_ok path now l : units_ok path -> Z.abs now < 10 ^ 21 -> recents_ok l ->
  recents_ok (remember path now l) /\ head (remember path now l) = Some (path, now).
Proof.
  intros Hp Hn (Hd & Hl & Hf). split; [|done]. split_and!.
  - unfold remember. rewrite fmap_take. eapply sublist_NoDup; [|apply sublist_take]. cbn [fmap list_fmap fst]. constructor.
    + intros Hin. apply list_elem_of_fmap in Hin as (e & E & [Hne _]%list_elem_of_filter). by apply Hne.
    + clear Hl Hf. induction l as [|[q t] l IH]; [constructor|]. cbn in Hd. apply NoDup_cons in Hd as [Hq Hd].
      destruct (decide (q = path)) as [->|Hq'].
      * rewrite filter_cons_False by (cbn; naive_solver). by apply IH.
      * rewrite filter_cons_True by done. cbn. constructor; [|by apply IH]. intros Hin. apply Hq.
        apply list_elem_of_fmap in Hin as (e & E & [_ Hin]%list_elem_of_filter). apply list_elem_of_fmap. by exists e.
  - unfold remember. rewrite length_take. lia.
  - apply Forall_take. constructor; [done|].
    apply Forall_forall. intros e [_ He]%list_elem_of_filter. by apply (proj1 (Forall_forall _ _) Hf).
Qed.

Lemma hex_digit_inj a b : 0 <= a < 16 -> 0 <= b < 16 -> hex_digit a = hex_digit b -> a = b.
Proof. intros Ha Hb E. pose proof (hex_val_digit a Ha) as H1. rewrite E, hex_val_digit in H1 by done. congruence. Qed.

Lemma hex_bytes_inj b b2 : bytes_ok b -> bytes_ok b2 ->
  (b ≫= fun x => [hex_digit (x / 16); hex_digit (x mod 16)]) = (b2 ≫= fun x => [hex_digit (x / 16); hex_digit (x mod 16)]) ->
  b = b2.
Proof.
  intros Hb. revert b2. induction Hb as [|x b Hx _ IH]; intros b2 Hb2; destruct Hb2 as [|y b2 Hy Hb2]; [done..|].
  rewrite !bind_cons. cbn [app]. intros E.
  assert (E1 : hex_digit (x / 16) = hex_digit (y / 16)) by congruence.
  assert (E2 : hex_digit (x mod 16) = hex_digit (y mod 16)) by congruence.
  apply hex_digit_inj in E1; [|divlia..]. apply hex_digit_inj in E2; [|divlia..].
  assert (x = y) by (rewrite (Z.div_mod x 16), (Z.div_mod y 16) by lia; congruence).
  f_equal; [done|]. apply IH; [done|]. congruence.
Qed.

Lemma hex_bytes_length b : length (b ≫= fun x => [hex_digit (x / 16); hex_digit (x mod 16)]) = (2 * length b)%nat.
Proof. induction b as [|x b IH]; [done|]. rewrite bind_cons, length_app, IH. cbn. lia. Qed.

Lemma hex_bytes_lower b : bytes_ok b ->
  Forall (fun u => is_digit u = true \/ 97 <= u <= 102) (b ≫= fun x => [hex_digit (x / 16); hex_digit (x mod 16)]).
Proof.
  assert (Hd : forall d, 0 <= d < 16 -> is_digit (hex_digit d) = true \/ 97 <= hex_digit d <= 102).
  { intros d Hd. unfold hex_digit, is_digit. destruct (Z.ltb_spec d 10); [left; apply andb_true_iff|right]; lia. }
  induction 1 as [|x b Hx _ IH]; [constructor|]. rewrite bind_cons. cbn [app].
  constructor; [apply Hd; divlia|]. constructor; [apply Hd; divlia|exact IH].
Qed.

Lemma getRandomValues_bytes {St} `{Entropy St} n (s : St) b s' :
  returns (getRandomValues n) s b s' -> bytes_ok b.
Proof.
  unfold returns, getRandomValues. pose proof (draw_bytes n s) as Hb. destruct (_ <? _); [done|].
  destruct (draw n s) as [d s1]. by intros [= <- <-].
Qed.

(** ** Theorems *)
Section Theorems.
Context {F E : Type} `{Unicode} `{WebCrypto} `{Tauri F} `{Entropy E} `{Clock F}.
Abbreviation X := (host F E).

(** C25: the desktop app never loses the vault it shows: after creating a vault and
    any sequence of saved edits, password changes and relaunches, each with the
    password then in force, the window shows the last saved items, and opening the
    file afresh with the last password gives exactly that vault; the only way a run
    can end otherwise is the operating system refusing a write. *)
Theorem desktop_history path pw ops (h : X)
  (Hp : pw <> []) (Hok : Forall desk_op_ok ops) :
  (exists h', throws (v ← createNewVault path pw; desk_run pw v ops) h LibraryError h') \/
  exists v h', returns (v ← createNewVault path pw; desk_run pw v ops) h v h' /\
    dv_items v = foldl next_items [] ops /\
    returns (openExistingVault path (foldl next_password pw ops)) h' v h'.
Proof.
  destruct (create_sync path pw h Hp) as [[h1 Ht]|(v & h1 & Hc & Hs & Hpath & Hi)].
  { left. exists h1. by apply bind_throws. }
  destruct (run_sync ops pw v h1 Hs Hok) as [[h2 Ht]|(v2 & h2 & Hr & Hs2 & Hp2 & Hi2)].
  - left. exists h2. unfold throws. run Hc. exact Ht.
  - right. exists v2, h2. split_and!; [unfold returns; run Hc; exact Hr|by rewrite Hi2, Hi|].
    destruct Hs2 as (Hv & Hk & Hj & file & Hrd & Ho). rewrite <- Hpath, <- Hp2.
    unfold returns, openExistingVault.
    eapply bind_returns; [unfold returns, readFile; by rewrite Hrd|cbv beta]. run Ho. cbn [fst snd].
    eapply bind_returns; [unfold returns, decode; by rewrite decode_encode|cbv beta]. by destruct v2.
Qed.

(** The recents list stays what the start screen needs: opening a vault puts its
    path first, keeps the order of the others, never lists a path twice and never
    keeps more than eight. *)
Theorem recents_invariant path l (h : X)
  (Hr : read_recents (disk h) = Some (recents_text l)) (Hl : recents_ok l)
  (Hp : units_ok path) (Ht : Z.abs (clock (disk h)) < 10 ^ 21) :
  (exists h', throws (rememberRecent path) h LibraryError h') \/
  exists l' h', returns (rememberRecent path) h tt h' /\ read_recents (disk h') = Some (recents_text l') /\
    recents_ok l' /\ head l' = Some (path, clock (disk h)) /\
    tail l' = take 7 (filter (fun e => e.1 <> path) l).
Proof.
  destruct (remember_ok path (clock (disk h)) l Hp Ht Hl) as [Hok Hh].
  set (l' := remember path (clock (disk h)) l) in *.
  assert (E1 : rememberRecent path h = storeRecents (recents_text l') h).
  { unfold rememberRecent.
    eapply bind_returns; [unfold returns, readRecents; apply catch_returns; unfold returns; rewrite Hr;
      unfold recents_text; rewrite json_parse_stringify by apply entries_json_ok, Hl; reflexivity|cbv beta].
    eapply bind_returns; [unfold returns, gets; reflexivity|cbv beta].
    rewrite drop_path_entries, bind_some. unfold recents_text, l', remember.
    set (rest := filter _ l). change (recent_entry path ?t :: map entry_json rest) with (map entry_json ((path, t) :: rest)).
    by rewrite firstn_map. }
  unfold throws, returns. rewrite E1. unfold storeRecents.
  destruct (write_recents (recents_text l') (disk h)).1 eqn:Ew; [right|left; by eexists].
  exists l'. eexists. split_and!; [reflexivity|by apply read_write_recents|done|done|done].
Qed.

(** Whatever is in the recents file, reading it never fails and gives a list;
    clearing it leaves no path. *)
Theorem recents_total (h : X) :
  (exists l, returns readRecents h l h) /\
  ((exists h', throws clearRecents h LibraryError h') \/
   exists h', returns clearRecents h tt h' /\ returns readRecents h' [] h').
Proof.
  split.
  - unfold returns, readRecents, catch. destruct (read_recents (disk h)) as [raw|]; [|by eexists].
    destruct (json_parse raw) as [[]|]; by eexists.
  - unfold throws, returns, clearRecents, storeRecents.
    destruct (write_recents (js "[]") (disk h)).1 eqn:Ew; [right|left; by eexists].
    eexists. split; [reflexivity|]. unfold readRecents, catch. cbn [disk]. rewrite read_write_recents by done.
    done.
Qed.

(** A new item's id is 32 lower-case hex digits and keeps every drawn bit: two
    ids are equal only if the same 16 random bytes were drawn. *)
Theorem newItemId_unique {St} `{Entropy St} (s : St) :
  exists b id s', returns (getRandomValues 16) s b s' /\ returns newItemId s id s' /\ length id = 32%nat /\
    Forall (fun u => is_digit u = true \/ 97 <= u <= 102) id /\
    forall s2 b2 s2', returns (getRandomValues 16) s2 b2 s2' -> returns newItemId s2 id s2' -> b2 = b.
Proof.
  destruct (randomBytes_returns 16 s ltac:(lia)) as (b & s1 & Hr & Hl & Hb). unfold randomBytes in Hr.
  eexists b, _, s1. split; [exact Hr|]. split; [unfold returns, newItemId; run Hr; reflexivity|]. split_and!.
  - by rewrite hex_bytes_length, Hl.
  - by apply hex_bytes_lower.
  - intros s2 b2 s2' Hr2 Hid. symmetry. apply hex_bytes_inj; [done|by eapply getRandomValues_bytes|].
    revert Hid. unfold returns, newItemId. rewrite (bind_returns _ _ _ _ _ _ Hr2 eq_refl). by intros [= <-].
Qed.
End Theorems.

(** ** A concrete disk *)

Record files := { fl_vaults : gmap jsstr jsstr; fl_recents : option jsstr }.
#[local] Program Instance map_tauri : Tauri files := {|
  read_vault p f := fl_vaults f !! p;
  write_vault p c f := (true, {| fl_vaults := <[p := c]> (fl_vaults f); fl_recents := fl_recents f |});
  vault_exists p f := Some (bool_decide (is_Some (fl_vaults f !! p)));
  read_recents f := Some (default (js "[]") (fl_recents f));
  write_recents c f := (true, {| fl_vaults := fl_vaults f; fl_recents := Some c |});
  open_dialog f := (Some JNull, f);
  save_dialog f := (Some None, f);
|}.
Next Obligation. intros p c f _. apply lookup_insert_eq. Qed.
Next Obligation. done. Qed.
#[local] Instance fixed_clock : Clock files := {| clock _ := 1700000000000 |}.
#[local] Existing Instances latin1_unicode model_crypto lcg_entropy.

Definition empty_host (recents : option jsstr) : host files Z := Host {| fl_vaults := ∅; fl_recents := recents |} 42.
Definition sample_item : json := JObj (obj_assign blankItem [(js "id", JStr (js "00ff")); (js "name", JStr (js "bank"))]).

Lemma desktop_history_witness :
  let ops := [Edit [sample_item]; NewPassword (js "second password"); Relaunch] in
  (exists h', throws (v ← createNewVault (js "/home/a/v.passwd") (js "first password");
      desk_run (js "first password") v ops) (empty_host None) LibraryError h') \/
  exists v h', returns (v ← createNewVault (js "/home/a/v.passwd") (js "first password");
      desk_run (js "first password") v ops) (empty_host None) v h' /\
    dv_items v = [sample_item] /\
    returns (openExistingVault (js "/home/a/v.passwd") (js "second password")) h' v h'.
Proof.
  intros ops. apply (desktop_history (js "/home/a/v.passwd") (js "first password") ops (empty_host None)); [done|].
  constructor; [|constructor; [done|constructor; [done|constructor]]].
  constructor; [apply json_okb_ok; vm_compute; reflexivity|constructor].
Defined.

Definition two_recents : list (jsstr * Z) :=
  [(js "/home/a/x.passwd", 1600000000000); (js "C:\vaults\y.passwd", 1500000000000)].

Lemma recents_invariant_witness :
  (exists h', throws (rememberRecent (js "C:\vaults\y.passwd")) (empty_host (Some (recents_text two_recents))) LibraryError h') \/
  exists l' h', returns (rememberRecent (js "C:\vaults\y.passwd")) (empty_host (Some (recents_text two_recents))) tt h' /\
    read_recents (disk h') = Some (recents_text l') /\ recents_ok l' /\
    head l' = Some (js "C:\vaults\y.passwd", 1700000000000) /\
    tail l' = [(js "/home/a/x.passwd", 1600000000000)].
Proof.
  assert (E : take 7 (filter (fun e : jsstr * Z => e.1 <> js "C:\vaults\y.passwd") two_recents)
    = [(js "/home/a/x.passwd", 1600000000000)]) by (vm_compute; reflexivity).
  destruct (recents_invariant (js "C:\vaults\y.passwd") two_recents (empty_host (Some (recents_text two_recents))))
    as [H|(l' & h' & Hr & Hl & Hok & Hh & Ht)].
  - reflexivity.
  - split_and!; [apply (bool_decide_unpack _); vm_compute; exact I|cbn; unfold RECENTS_MAX; lia|].
    constructor; [split; [decide_forall|cbn; lia]|constructor; [split; [decide_forall|cbn; lia]|constructor]].
  - decide_forall.
  - cbn. lia.
  - by left.
  - right. exists l', h'. split_and!; [done..|]. by rewrite Ht, E.
Defined.
