(* ===== verification/DesktopApp.v ===== *)
(** The desktop app's screens: the launch and the forms of apps/desktop/src/App.tsx
    and the actions of apps/desktop/src/VaultScreen.tsx, over the storage of
    Desktop.v. *)
From S2P Require Import Prelude Text Numeral Json JsonFacts Encoding JsonText Effects Platform Primitives.
From S2P Require Import EncString Kdf Policy Account Backup VaultFile Objects Items Session Background Desktop.

(** Where the app is while no vault is open. *)
Inductive Screen := Boot | Start | UnlockAt (path : jsstr) | CreateAt (path : jsstr).

(** The state of the VaultScreen component. *)
Record view := {
  vw_selected : option jsstr;
  vw_editing : option obj;
  vw_toast : option jsstr;
  vw_error : option jsstr;
}.
Definition fresh_view : view :=
  {| vw_selected := None; vw_editing := None; vw_toast := None; vw_error := None |}.

(** The state of the App component, with that of the form or the vault screen it
    shows; [ap_error] is the form's. *)
Record app := {
  ap_vault : option DesktopVault;
  ap_screen : Screen;
  ap_error : option jsstr;
  ap_view : view;
}.

Definition launched : app := {| ap_vault := None; ap_screen := Boot; ap_error := None; ap_view := fresh_view |}.

Definition passwords_differ := js "The master passwords don't match.".
Definition new_passwords_differ := js "The passwords don't match.".

(** [items.some((i) => i.id === id)]: a TypeError at a null before the first hit. *)
Fixpoint some_id (id : jsstr) (l : list json) : option bool :=
  match l with
  | [] => Some false
  | i :: l' => v ← json_member (js "id") i; if is_string id v then Some true else some_id id l'
  end.

(** [items.map((i) => (i.id === id ? w : i))] *)
Fixpoint replace_id (id : jsstr) (w : json) (l : list json) : option (list json) :=
  match l with
  | [] => Some []
  | i :: l' =>
      v ← json_member (js "id") i;
      rest ← replace_id id w l';
      Some ((if is_string id v then w else i) :: rest)
  end.

(** [items.filter((i) => i.id !== id)] *)
Fixpoint remove_id (id : jsstr) (l : list json) : option (list json) :=
  match l with
  | [] => Some []
  | i :: l' =>
      v ← json_member (js "id") i;
      rest ← remove_id id l';
      Some (if is_string id v then rest else i :: rest)
  end.

Definition with_items (v : DesktopVault) (items : list json) : DesktopVault :=
  {| dv_path := dv_path v; dv_state := dv_state v; dv_items := items |}.

Section App.
Context {F E : Type} `{Unicode} `{WebCrypto} `{Tauri F} `{Entropy E} `{Clock F} `{EngineText}.
Abbreviation X := (host F E).
Abbreviation S := (app * host F E)%type.

Definition outside {A} (m : M X A) : M S A := fun s =>
  let '(r, h) := m s.2 in (r, (s.1, h)).
Definition upd (f : app -> app) : M S unit := modify (fun s => (f s.1, s.2)).
Definition upd_view (f : view -> view) : M S unit :=
  upd (fun a => {| ap_vault := ap_vault a; ap_screen := ap_screen a; ap_error := ap_error a; ap_view := f (ap_view a) |}).

Definition setScreen x (a : app) : app :=
  {| ap_vault := ap_vault a; ap_screen := x; ap_error := ap_error a; ap_view := ap_view a |}.
Definition setFormError e (a : app) : app :=
  {| ap_vault := ap_vault a; ap_screen := ap_screen a; ap_error := e; ap_view := ap_view a |}.

(** Opening mounts a fresh vault screen, changing the open vault keeps it, and
    closing unmounts it. *)
Definition setVault v (a : app) : app :=
  {| ap_vault := v; ap_screen := ap_screen a; ap_error := ap_error a;
     ap_view := match ap_vault a, v with Some _, Some _ => ap_view a | _, _ => fresh_view end |}.

Definition setSelected i (w : view) : view :=
  {| vw_selected := i; vw_editing := vw_editing w; vw_toast := vw_toast w; vw_error := vw_error w |}.
Definition setEditing i (w : view) : view :=
  {| vw_selected := vw_selected w; vw_editing := i; vw_toast := vw_toast w; vw_error := vw_error w |}.
Definition flash t (w : view) : view :=
  {| vw_selected := vw_selected w; vw_editing := vw_editing w; vw_toast := Some t; vw_error := vw_error w |}.
Definition setError e (w : view) : view :=
  {| vw_selected := vw_selected w; vw_editing := vw_editing w; vw_toast := vw_toast w; vw_error := e |}.

(** [e instanceof Error ? e.message : "Something went wrong."]: what a rejected
    Tauri command says is left to [EngineText]. *)
Definition errMsg (e : exn) : jsstr := message e.

(** ** App.tsx *)

(** [for (const r of recents) if (await vaultExists(r.path)) ...]: a path that is
    not a string is refused by the command, which vaultExists answers with false. *)
Fixpoint first_existing (l : list json) : M X (option jsstr) :=
  match l with
  | [] => mret None
  | r :: l' =>
      p ← of_option JsTypeError (json_member (js "path") r);
      match p with
      | Some (JStr path) => b ← vaultExists path; if b : bool then mret (Some path) else first_existing l'
      | _ => first_existing l'
      end
  end.

Definition launch : M S unit :=
  recents ← outside readRecents;
  found ← outside (first_existing recents);
  upd (setScreen match found with Some path => UnlockAt path | None => Start end).

Definition adopt (v : DesktopVault) : M S unit :=
  _ ← outside (rememberRecent (dv_path v));
  upd (setVault (Some v)).

(** [props.onOpened(...)] without an await: what [adopt] rejects with is dropped. *)
Definition unawaited (m : M S unit) : M S unit := catch m (fun _ => mret tt).

Definition submitOpen (path password : jsstr) : M S unit :=
  _ ← upd (setFormError None);
  catch (v ← outside (openExistingVault path password); unawaited (adopt v))
        (fun e => upd (setFormError (Some (errMsg e)))).

Definition submitCreate (path password confirm : jsstr) : M S unit :=
  _ ← upd (setFormError None);
  match masterPasswordIssue password with
  | Some weak => upd (setFormError (Some weak))
  | None =>
      if negb (str_eqb password confirm) then upd (setFormError (Some passwords_differ))
      else catch (v ← outside (createNewVault path password); unawaited (adopt v))
                 (fun e => upd (setFormError (Some (errMsg e))))
  end.

(** The lock button and the idle timer. *)
Definition lockVault (v : DesktopVault) : M S unit :=
  upd (fun a => setVault None (setScreen (UnlockAt (dv_path v)) a)).

(** ** VaultScreen.tsx *)

Definition commit (v : DesktopVault) (items : list json) : M S unit :=
  let next := with_items v items in
  _ ← outside (persist next);
  upd (setVault (Some next)).

Definition saveItem (v : DesktopVault) (item : obj) : M S (option jsstr) :=
  withId ← (match text_at (js "id") item with
            | [] => id ← outside newItemId; mret (obj_assign item [(js "id", JStr id)])
            | _ => mret item
            end);
  let id := text_at (js "id") withId in
  exists_ ← of_option JsTypeError (some_id id (dv_items v));
  items ← (if exists_ : bool then of_option JsTypeError (replace_id id (JObj withId) (dv_items v))
           else mret (dv_items v ++ [JObj withId]));
  catch
    (_ ← commit v items;
     _ ← upd_view (setEditing None);
     _ ← upd_view (setSelected (Some id));
     _ ← upd_view (flash (match text_at (js "id") item with [] => js "Added" | _ => js "Saved" end));
     mret None)
    (fun e => mret (Some (errMsg e))).

(** [confirmed] is the answer to the question. *)
Definition deleteItem (v : DesktopVault) (item : obj) (confirmed : bool) : M S unit :=
  if confirmed then
    _ ← upd_view (setError None);
    let id := text_at (js "id") item in
    catch
      (items ← of_option JsTypeError (remove_id id (dv_items v));
       _ ← commit v items;
       _ ← upd_view (fun w => if bool_decide (vw_selected w = Some id) then setSelected None w else w);
       upd_view (flash (js "Deleted")))
      (fun e => upd_view (setError (Some (errMsg e))))
  else mret tt.

(** The editor's save button: its error, or none. *)
Definition editorSave (v : DesktopVault) (item : obj) : M S (option jsstr) :=
  if nameless item then mret (Some editor_error) else saveItem v item.

(** The button of the change-password dialog: its error, or none. *)
Definition changePassword (v : DesktopVault) (pw confirm : jsstr) : M S (option jsstr) :=
  match masterPasswordIssue pw with
  | Some weak => mret (Some weak)
  | None =>
      if negb (str_eqb pw confirm) then mret (Some new_passwords_differ)
      else catch (next ← outside (rekey v pw); _ ← upd (setVault (Some next)); mret None)
                 (fun e => mret (Some (errMsg e)))
  end.
End App.

(** ** Laws *)

(** A vault as the screen lists it: objects under distinct, non-empty ids. *)
Definition item_of (e : jsstr * obj) : Prop := obj_get (js "id") e.2 = Some (JStr e.1) /\ e.1 <> [].
Definition items_of (l : list (jsstr * obj)) : list json := map (fun e => JObj e.2) l.
Definition lists (v : DesktopVault) (l : list (jsstr * obj)) : Prop :=
  dv_items v = items_of l /\ NoDup l.*1 /\ Forall item_of l.

Lemma item_member e : item_of e -> json_member (js "id") (JObj e.2) = Some (Some (JStr e.1)).
Proof. intros [He _]. unfold json_member. cbn [get_prop]. by rewrite <- He. Qed.

Lemma is_string_id id e : is_string id (Some (JStr e)) = bool_decide (e = id).
Proof. unfold is_string. apply bool_decide_ext. naive_solver. Qed.

Lemma some_id_spec id l : Forall item_of l -> some_id id (items_of l) = Some (bool_decide (id ∈ l.*1)).
Proof.
  induction 1 as [|e l He _ IH]; [done|]. cbn [items_of map some_id]. fold (items_of l).
  rewrite (item_member e He). cbn [mbind option_bind]. rewrite is_string_id, IH. cbn.
  repeat case_bool_decide; try done; set_solver.
Qed.

Lemma replace_id_spec id w l : Forall item_of l ->
  replace_id id (JObj w) (items_of l) = Some (items_of (map (fun e => if bool_decide (e.1 = id) then (id, w) else e) l)).
Proof.
  induction 1 as [|e l He _ IH]; [done|]. cbn [items_of map replace_id]. fold (items_of l).
  rewrite (item_member e He). cbn [mbind option_bind]. rewrite is_string_id, IH. cbn.
  by case_bool_decide.
Qed.

Lemma remove_id_spec id l : Forall item_of l ->
  remove_id id (items_of l) = Some (items_of (filter (fun e => e.1 <> id) l)).
Proof.
  induction 1 as [|e l He _ IH]; [done|]. cbn [items_of map remove_id]. fold (items_of l).
  rewrite (item_member e He). cbn [mbind option_bind]. rewrite is_string_id, IH. cbn [mbind option_bind].
  case_bool_decide; [rewrite filter_cons_False by naive_solver|rewrite filter_cons_True by done]; done.
Qed.

Lemma replaced_keys id w (l : list (jsstr * obj)) :
  (map (fun e => if bool_decide (e.1 = id) then (id, w) else e) l).*1 = l.*1.
Proof. induction l as [|e l IH]; [done|]. cbn. rewrite IH. by case_bool_decide; subst. Qed.

Lemma replaced_map id w (l : list (jsstr * obj)) : id ∈ l.*1 ->
  list_to_map (map (fun e => if bool_decide (e.1 = id) then (id, w) else e) l) =@{gmap jsstr obj} <[id := w]> (list_to_map l).
Proof.
  induction l as [|[i o] l IH]; [by intros ?%not_elem_of_nil|]. cbn [map fmap list_fmap fst]. intros Hin.
  destruct (decide (id ∈ l.*1)) as [Hl|Hl].
  - destruct (bool_decide_reflect (i = id)) as [->|Hne]; cbn [list_to_map foldr uncurry]; cbn; rewrite IH by done.
    + by rewrite !insert_insert_eq.
    + by apply insert_insert_ne.
  - assert (i = id) as -> by set_solver. rewrite bool_decide_eq_true_2 by done. cbn.
    assert (E : map (fun e : jsstr * obj => if bool_decide (e.1 = id) then (id, w) else e) l = l).
    { clear IH Hin. induction l as [|e l IHl]; [done|]. cbn. rewrite bool_decide_eq_false_2 by set_solver. f_equal.
      apply IHl. set_solver. }
    rewrite E. by rewrite insert_insert_eq.
Qed.

Lemma removed_map id (l : list (jsstr * obj)) :
  list_to_map (filter (fun e => e.1 <> id) l) =@{gmap jsstr obj} delete id (list_to_map l).
Proof.
  induction l as [|[i o] l IH]; [cbn; by rewrite delete_empty|]. destruct (decide (i = id)) as [->|Hne].
  - rewrite filter_cons_False by naive_solver. rewrite IH. cbn. by rewrite delete_insert_eq.
  - rewrite filter_cons_True by done. cbn. rewrite IH. by rewrite delete_insert_ne.
Qed.

Lemma appended_map id w (l : list (jsstr * obj)) : id ∉ l.*1 ->
  list_to_map (l ++ [(id, w)]) =@{gmap jsstr obj} <[id := w]> (list_to_map l).
Proof. intros Hid. by apply list_to_map_snoc. Qed.

(** The vault after saving an item under its id: in place, or at the end. *)
Definition put_item (id : jsstr) (w : obj) (l : list (jsstr * obj)) : list (jsstr * obj) :=
  if bool_decide (id ∈ l.*1) then map (fun e => if bool_decide (e.1 = id) then (id, w) else e) l else l ++ [(id, w)].

Lemma put_item_keys id w l : (put_item id w l).*1 = if decide (id ∈ l.*1) then l.*1 else l.*1 ++ [id].
Proof.
  unfold put_item. case_bool_decide; case_decide; try done; [apply replaced_keys|]. by rewrite fmap_app.
Qed.

Lemma put_item_map id w l : list_to_map (put_item id w l) =@{gmap jsstr obj} <[id := w]> (list_to_map l).
Proof. unfold put_item. case_bool_decide; [by apply replaced_map|by apply appended_map]. Qed.

Lemma put_item_lists id w l : NoDup l.*1 -> Forall item_of l -> item_of (id, w) ->
  NoDup (put_item id w l).*1 /\ Forall item_of (put_item id w l).
Proof.
  intros Hd Hf Hi. split.
  - rewrite put_item_keys. case_decide; [done|]. apply NoDup_app. split_and!; [done|set_solver|apply NoDup_singleton].
  - unfold put_item. case_bool_decide; [|apply Forall_app; split; [done|by constructor]].
    apply Forall_map. eapply Forall_impl; [exact Hf|]. intros e He. by case_bool_decide.
Qed.

Lemma remove_lists id (l : list (jsstr * obj)) : NoDup l.*1 -> Forall item_of l ->
  NoDup (filter (fun e => e.1 <> id) l).*1 /\ Forall item_of (filter (fun e => e.1 <> id) l).
Proof.
  intros Hd Hf. split.
  - induction l as [|e l IH]; [constructor|]. cbn in Hd. apply NoDup_cons in Hd as [He Hd].
    apply Forall_cons in Hf as [_ Hf]. destruct (decide (e.1 = id)) as [Hi|Hi].
    + rewrite filter_cons_False by naive_solver. by apply IH.
    + rewrite filter_cons_True by done. cbn. constructor; [|by apply IH]. intros Hin. apply He.
      apply list_elem_of_fmap in Hin as (x & E & [_ Hx]%list_elem_of_filter). apply list_elem_of_fmap. by exists x.
  - apply Forall_forall. intros e [_ He]%list_elem_of_filter. by apply (proj1 (Forall_forall _ _) Hf).
Qed.

Section Laws.
Context {F E : Type} `{Unicode} `{WebCrypto} `{Tauri F} `{Entropy E} `{!Clock F} `{EngineText}.
Abbreviation X := (host F E).
Abbreviation S := (app * host F E)%type.

Lemma newItemId_host (h : X) :
  exists id h', returns newItemId h id h' /\ disk h' = disk h /\ id <> [] /\ units_ok id.
Proof.
  destruct (randomBytes_returns 16 h ltac:(lia)) as (b & h1 & Hr & Hl & Hb). unfold randomBytes in Hr.
  eexists _, h1. split; [unfold returns, newItemId; run Hr; reflexivity|]. split_and!.
  - unfold returns, getRandomValues in Hr. cbn in Hr. by injection Hr as _ <-.
  - intros E1%(f_equal length). rewrite hex_bytes_length, Hl in E1. done.
  - eapply Forall_impl; [by apply hex_bytes_lower|]. intros u Hu. cbn in Hu. unfold is_digit in Hu. unfold_ok. lia.
Qed.

Lemma sync_disk pw v (h h' : X) : in_sync pw v h -> disk h' = disk h -> in_sync pw v h'.
Proof. intros (Hv & Hk & Hi & file & Hr & Ho) Hd. split_and!; [done..|]. exists file. by rewrite Hd. Qed.

Lemma sync_opens pw v (h : X) : in_sync pw v h -> returns (openExistingVault (dv_path v) pw) h v h.
Proof.
  intros Hs. destruct Hs as (_ & _ & Hi & file & Hr & Ho). unfold returns, openExistingVault.
  eapply bind_returns; [unfold returns, readFile; by rewrite Hr|cbv beta]. run Ho. cbn [fst snd].
  eapply bind_returns; [unfold returns, decode; by rewrite decode_encode|cbv beta]. by destruct v.
Qed.

Lemma storage_returns {A} (m : M X A) a (h : X) x h' :
  returns m h x h' -> returns (outside m : M S A) (a, h) x (a, h').
Proof. unfold returns, outside. cbn [fst snd]. by intros ->. Qed.

Lemma storage_throws {A} (m : M X A) a (h : X) e h' :
  throws m h e h' -> throws (outside m : M S A) (a, h) e (a, h').
Proof. unfold throws, outside. cbn [fst snd]. by intros ->. Qed.

(** Writing the items: refused, or the vault on disk and on the screen. *)
Lemma commit_outcomes pw v items a (h : X) : held (F := F) (E := E) pw v -> Forall json_ok items ->
  (exists h', throws (commit v items : M S unit) (a, h) LibraryError (a, h') /\ spoiled (dv_path v) h h') \/
  (exists h', returns (commit v items : M S unit) (a, h) tt (setVault (Some (with_items v items)) a, h') /\
     in_sync pw (with_items v items) h').
Proof.
  intros Hs Hj. destruct (do_held pw v (Edit items) h Hs Hj ltac:(done)) as [(h' & Ht & Hsp)|(v' & h' & Hr & Hs' & _ & _)]; [left|right].
  - exists h'. split; [|done]. unfold throws in Ht. cbn [desk_do] in Ht. unfold mbind, M_bind in Ht.
    destruct (persist _ h) as [[[]|e] h1] eqn:Ep; [done|]. injection Ht as -> ->.
    unfold throws, commit. apply bind_throws. by apply storage_throws.
  - cbn [desk_do] in Hr. apply bind_inv in Hr as ([] & h1 & Hp & [-> ->]%ret_inv). exists h1.
    split; [|exact Hs']. unfold returns, commit. eapply bind_returns; [by apply storage_returns|reflexivity].
Qed.

Lemma vault_items_ok pw v l : held (F := F) (E := E) pw v -> dv_items v = items_of l ->
  Forall (fun e : jsstr * obj => json_ok (JObj e.2)) l.
Proof. intros (_ & _ & Hi) Hv. rewrite Hv in Hi. exact (proj1 (Forall_map _ _ _) Hi). Qed.

Lemma with_id_ok item id : json_ok (JObj item) -> units_ok id -> json_ok (JObj (obj_assign item [(js "id", JStr id)])).
Proof.
  intros Hj Hu. apply json_ok_obj in Hj as [Hk Hf]. apply json_ok_obj. split; [by apply keys_ok_assign|].
  apply Forall_assign; [done|]. constructor; [split; [decide_forall|exact Hu]|constructor].
Qed.

Lemma keep_items_ok (P : jsstr * obj -> Prop) `{!forall e, Decision (P e)} l :
  Forall (fun e : jsstr * obj => json_ok (JObj e.2)) l -> Forall json_ok (items_of (filter P l)).
Proof.
  intros Hl. apply Forall_map, Forall_forall. intros e [_ He]%list_elem_of_filter.
  by apply (proj1 (Forall_forall _ _) Hl).
Qed.

Lemma put_items_ok id w l : Forall (fun e : jsstr * obj => json_ok (JObj e.2)) l -> json_ok (JObj w) ->
  Forall json_ok (items_of (put_item id w l)).
Proof.
  intros Hl Hw. apply Forall_map. unfold put_item. case_bool_decide.
  - apply Forall_map. eapply Forall_impl; [exact Hl|]. intros e He. cbn. by case_bool_decide.
  - apply Forall_app. split; [done|]. by constructor.
Qed.

(** What both branches of [saveItem] compute before they commit. *)
Lemma put_item_computed id w l (s : S) : Forall item_of l ->
  returns (if bool_decide (id ∈ l.*1) then of_option JsTypeError (replace_id id (JObj w) (items_of l))
           else mret (items_of l ++ [JObj w]) : M S _) s (items_of (put_item id w l)) s.
Proof.
  intros Hl. unfold returns, put_item.
  case_bool_decide; [by rewrite replace_id_spec|]. unfold items_of. by rewrite map_app.
Qed.

(** What [saveItem] does before it waits, and after. *)
Definition saveItem_starts (v : DesktopVault) (item : obj) : M S (obj * list json) :=
  withId ← (match text_at (js "id") item with
            | [] => id ← outside newItemId; mret (obj_assign item [(js "id", JStr id)])
            | _ => mret item
            end);
  let id := text_at (js "id") withId in
  exists_ ← of_option JsTypeError (some_id id (dv_items v));
  items ← (if exists_ : bool then of_option JsTypeError (replace_id id (JObj withId) (dv_items v))
           else mret (dv_items v ++ [JObj withId]));
  mret (withId, items).
Definition saveItem_ends (item withId : obj) : M S (option jsstr) :=
  _ ← upd_view (setEditing None);
  _ ← upd_view (setSelected (Some (text_at (js "id") withId)));
  _ ← upd_view (flash (match text_at (js "id") item with [] => js "Added" | _ => js "Saved" end));
  mret None.
Lemma saveItem_split v item (s : S) : saveItem v item s =
  match saveItem_starts v item s with
  | (inl w, s1) => catch (_ ← commit v w.2; saveItem_ends item w.1) (fun e => mret (Some (errMsg e))) s1
  | (inr e, s1) => (inr e, s1)
  end.
Proof.
  unfold saveItem, saveItem_starts, mbind, M_bind.
  match goal with |- match ?m s with _ => _ end = _ => destruct (m s) as [[w|e] s1]; [|done] end.
  destruct (some_id _ _) as [b|]; [cbn [of_option mret M_ret]|done].
  match goal with |- match ?m s1 with _ => _ end = _ => by destruct (m s1) as [[items|e] s2] end.
Qed.

Lemma saveItem_starts_spec pw v l item i0 a (h : X) :
  held (F := F) (E := E) pw v -> lists v l -> json_ok (JObj item) -> obj_get (js "id") item = Some (JStr i0) ->
  exists id w h1, returns (saveItem_starts v item) (a, h) (w, items_of (put_item id w l)) (a, h1) /\ disk h1 = disk h /\
    item_of (id, w) /\ json_ok (JObj w) /\ Forall json_ok (items_of (put_item id w l)) /\
    (if decide (i0 = []) then w = obj_assign item [(js "id", JStr id)] else id = i0 /\ w = item).
Proof.
  intros Hs (Hv & Hd & Hf) Hj Hid.
  assert (Hw : exists id w h1, returns (match text_at (js "id") item with
      | [] => id ← outside newItemId; mret (obj_assign item [(js "id", JStr id)])
      | _ => mret item end : M S _) (a, h) w (a, h1) /\ disk h1 = disk h /\ item_of (id, w) /\ json_ok (JObj w) /\
      (if decide (i0 = []) then w = obj_assign item [(js "id", JStr id)] else id = i0 /\ w = item)).
  { destruct (text_at (js "id") item) as [|u t] eqn:Et; unfold text_at in Et; rewrite Hid in Et; cbn in Et; subst i0.
    - destruct (newItemId_host h) as (id & h1 & Hn & Hdk & Hne & Hu). exists id, (obj_assign item [(js "id", JStr id)]), h1.
      split_and!; [unfold returns; run (storage_returns _ _ _ _ _ Hn); reflexivity|done| |by apply with_id_ok|done].
      split; [|done]. cbn [fst snd]. rewrite obj_get_assign by apply NoDup_singleton. reflexivity.
    - by exists (u :: t), item, h. }
  destruct Hw as (id & w & h1 & Hw & Hdk & Hi & Hjw & Hkeep). pose proof Hi as [Hg _]. cbn [fst snd] in Hg.
  assert (Ht : text_at (js "id") w = id) by (unfold text_at; by rewrite Hg).
  exists id, w, h1. split_and!; [|done..|by apply put_items_ok, Hjw; eapply vault_items_ok|done].
  unfold returns, saveItem_starts. run Hw. rewrite Ht, Hv, some_id_spec, bind_some by done.
  by run (put_item_computed id w l (a, h1) Hf).
Qed.

(** Saving: a failed write, which leaves the screen as it is, or the vault with the
    item, on the screen and in the file. *)
Lemma saveItem_cases pw v l item i0 a (h : X) :
  held (F := F) (E := E) pw v -> lists v l -> json_ok (JObj item) -> obj_get (js "id") item = Some (JStr i0) ->
  exists r s', returns (saveItem v item : M S _) (a, h) r s' /\
    match r with
    | Some e => e = errMsg LibraryError /\ s'.1 = a /\ spoiled (dv_path v) h s'.2
    | None => exists id w, let v' := with_items v (items_of (put_item id w l)) in
        item_of (id, w) /\ json_ok (JObj w) /\
        (if decide (i0 = []) then w = obj_assign item [(js "id", JStr id)] else id = i0 /\ w = item) /\
        ap_vault s'.1 = Some v' /\ vw_editing (ap_view s'.1) = None /\ vw_selected (ap_view s'.1) = Some id /\
        in_sync pw v' s'.2
    end.
Proof.
  intros Hs Hl Hj Hid.
  destruct (saveItem_starts_spec pw v l item i0 a h Hs Hl Hj Hid) as (id & w & h1 & Hw & Hdk & Hi & Hjw & Hjs & Hkeep).
  assert (Ht : text_at (js "id") w = id) by (destruct Hi as [Hg _]; cbn [fst snd] in Hg; unfold text_at; by rewrite Hg).
  assert (Hsplit : saveItem v item (a, h) = catch (_ ← commit v (items_of (put_item id w l)); saveItem_ends item w)
    (fun e => mret (Some (errMsg e))) (a, h1)) by (rewrite saveItem_split, Hw; reflexivity).
  destruct (commit_outcomes pw v (items_of (put_item id w l)) a h1 Hs Hjs)
    as [(h2 & Hc & Hsp)|(h2 & Hc & Hs2)]; unfold returns; setoid_rewrite Hsplit.
  - exists (Some (errMsg LibraryError)), (a, h2). split_and!; [|done|done|exact (spoiled_disk _ _ _ _ Hdk Hsp)].
    eapply catch_throws; [by apply bind_throws|reflexivity].
  - eexists None, _. split; [apply catch_returns; unfold returns; run Hc; reflexivity|].
    exists id, w. rewrite <- Ht. by split_and!; rewrite ?Ht.
Qed.

(** Deleting, confirmed. *)
Lemma deleteItem_cases pw v l item a (h : X) : held (F := F) (E := E) pw v -> lists v l ->
  exists s', returns (deleteItem v item true : M S _) (a, h) tt s' /\
    let id := text_at (js "id") item in
    let v' := with_items v (items_of (filter (fun e => e.1 <> id) l)) in
    (vw_error (ap_view s'.1) = Some (errMsg LibraryError) /\ ap_vault s'.1 = ap_vault a /\
       vw_editing (ap_view s'.1) = vw_editing (ap_view a) /\ spoiled (dv_path v) h s'.2 \/
     ap_vault s'.1 = Some v' /\ vw_selected (ap_view s'.1) <> Some id /\ vw_error (ap_view s'.1) = None /\
       (ap_vault a = Some v -> vw_editing (ap_view s'.1) = vw_editing (ap_view a)) /\ in_sync pw v' s'.2).
Proof.
  intros Hs (Hv & Hd & Hf). set (id := text_at (js "id") item).
  set (a1 := {| ap_vault := ap_vault a; ap_screen := ap_screen a; ap_error := ap_error a; ap_view := setError None (ap_view a) |}).
  destruct (commit_outcomes pw v (items_of (filter (fun e => e.1 <> id) l)) a1 h Hs)
    as [(h2 & Hc & Hsp)|(h2 & Hc & Hs2)]; [by eapply keep_items_ok, vault_items_ok| |].
  - eexists. split.
    + unfold returns, deleteItem. eapply bind_returns; [reflexivity|cbv beta]. eapply catch_throws; [|reflexivity].
      fold id. rewrite Hv, remove_id_spec by done. unfold throws. rewrite bind_some. by apply bind_throws.
    + by left.
  - eexists. split.
    + unfold returns, deleteItem. eapply bind_returns; [reflexivity|cbv beta]. apply catch_returns.
      fold id. rewrite Hv, remove_id_spec by done. unfold returns. rewrite bind_some. run Hc. reflexivity.
    + right. split_and!; [done|..|done]; cbn; destruct (ap_vault a); cbn; case_bool_decide; done.
Qed.

(** Changing the password: a refusal, or the same items under the new password. *)
Lemma changePassword_cases pw v pw' confirm a (h : X) : held (F := F) (E := E) pw v ->
  exists r s', returns (changePassword v pw' confirm : M S _) (a, h) r s' /\
    match r with
    | Some e => s'.1 = a /\ (s'.2 = h \/ spoiled (dv_path v) h s'.2)
    | None => exists v', masterPasswordIssue pw' = None /\ s'.1 = setVault (Some v') a /\ in_sync pw' v' s'.2 /\
        dv_items v' = dv_items v /\ dv_path v' = dv_path v
    end.
Proof.
  intros Hs. unfold changePassword. destruct (masterPasswordIssue pw') as [weak|] eqn:Hw.
  { exists (Some weak), (a, h). split_and!; [done..|by left]. }
  destruct (str_eqb pw' confirm); cbn [negb]; [|exists (Some new_passwords_differ), (a, h); split_and!; [done..|by left]].
  destruct (do_held pw v (NewPassword pw') h Hs) as [(h' & Ht & Hsp)|(v' & h' & Hr & Hs' & Hp & Hi)]; [by intros ->|done| |].
  - exists (Some (errMsg LibraryError)), (a, h'). split_and!; [|done|by right].
    eapply catch_throws; [apply bind_throws; by apply storage_throws|reflexivity].
  - exists None, (setVault (Some v') a, h'). split; [|by exists v'].
    apply catch_returns. unfold returns. eapply bind_returns; [by apply storage_returns|reflexivity].
Qed.

(** The launch on the recents the app itself wrote. *)
Definition present (h : X) (e : jsstr * Z) : bool := bool_decide (vault_exists e.1 (disk h) = Some true).

Lemma vaultExists_returns path (h : X) :
  returns (vaultExists path) h (bool_decide (vault_exists path (disk h) = Some true)) h.
Proof.
  unfold returns, vaultExists, catch. destruct (vault_exists path (disk h)) as [[|]|]; by case_bool_decide.
Qed.

Lemma first_existing_entries l (h : X) :
  returns (first_existing (map entry_json l)) h (fst <$> List.find (present h) l) h.
Proof.
  unfold returns. induction l as [|[p t] l IH]; [done|]. cbn [map first_existing].
  change (json_member (js "path") (entry_json (p, t))) with (Some (Some (JStr p))). rewrite bind_some.
  run (vaultExists_returns p h). cbn [List.find]. unfold present at 1. cbn [fst].
  case_bool_decide; [done|exact IH].
Qed.

Lemma rejected_password pw confirm : (masterPasswordIssue pw = None -> pw <> confirm) ->
  match masterPasswordIssue pw with
  | Some weak => weak <> []
  | None => str_eqb pw confirm = false
  end.
Proof.
  intros Hr. destruct (masterPasswordIssue pw) as [weak|] eqn:Ei.
  - intros ->. unfold masterPasswordIssue in Ei. by repeat case_match.
  - apply not_true_iff_false. rewrite str_eqb_spec. by apply Hr.
Qed.
End Laws.

(** ** Theorems *)
Section Theorems.
Context {F E : Type} `{Unicode} `{WebCrypto} `{Tauri F} `{Entropy E} `{!Clock F} `{EngineText}.
Abbreviation X := (host F E).
Abbreviation S := (app * host F E)%type.

(** Saving in the desktop editor is an update of the vault as a map: the item
    goes in under its id, or under a fresh one, in its old place or at the end; the
    form closes and the file opens with the password to exactly what is shown.  If
    the operating system refuses the write, nothing on the screen changes. *)
Theorem saveItem_updates pw v l item i0 a (h : X)
  (Hs : in_sync pw v h) (Hl : lists v l) (Hj : json_ok (JObj item)) (Hid : obj_get (js "id") item = Some (JStr i0)) :
  exists r s', returns (saveItem v item : M S _) (a, h) r s' /\
    match r with
    | Some e => e = errMsg LibraryError /\ s'.1 = a
    | None => exists id w v' l',
        obj_get (js "id") w = Some (JStr id) /\ (if decide (i0 = []) then w = obj_assign item [(js "id", JStr id)] else id = i0 /\ w = item) /\
        ap_vault s'.1 = Some v' /\ lists v' l' /\
        list_to_map l' =@{gmap jsstr obj} <[id := w]> (list_to_map l) /\
        l'.*1 = (if decide (id ∈ l.*1) then l.*1 else l.*1 ++ [id]) /\
        vw_editing (ap_view s'.1) = None /\ vw_selected (ap_view s'.1) = Some id /\
        returns (openExistingVault (dv_path v) pw) s'.2 v' s'.2
    end.
Proof.
  destruct (saveItem_cases pw v l item i0 a h (sync_held _ _ _ Hs) Hl Hj Hid) as ([e|] & s' & Hr & Hc); eexists _, s'; (split; [exact Hr|]).
  - by destruct Hc as (-> & -> & _).
  - destruct Hc as (id & w & Hi & _ & Hkeep & Hav & He & Hsel & Hs2). destruct Hl as (Hv & Hd & Hf).
    destruct (put_item_lists id w l Hd Hf Hi) as [Hd' Hf'].
    exists id, w, (with_items v (items_of (put_item id w l))), (put_item id w l).
    split_and!; [by destruct Hi|exact Hkeep|done|done|apply put_item_map|apply put_item_keys|done|done|].
    exact (sync_opens _ _ _ Hs2).
Qed.

(** Deleting in the desktop app removes the item from the vault as a map, on the
    screen and in the file, and nothing else; a refused write leaves the vault as it
    is shown and says so; without the confirmation nothing happens. *)
Theorem deleteItem_removes pw v l item a (h : X) (Hs : in_sync pw v h) (Hl : lists v l) :
  returns (deleteItem v item false : M S _) (a, h) tt (a, h) /\
  exists s', returns (deleteItem v item true : M S _) (a, h) tt s' /\
    let id := text_at (js "id") item in
    (vw_error (ap_view s'.1) = Some (errMsg LibraryError) /\ ap_vault s'.1 = ap_vault a \/
     exists v' l', ap_vault s'.1 = Some v' /\ lists v' l' /\
       list_to_map l' =@{gmap jsstr obj} delete id (list_to_map l) /\
       vw_selected (ap_view s'.1) <> Some id /\ vw_error (ap_view s'.1) = None /\
       returns (openExistingVault (dv_path v) pw) s'.2 v' s'.2).
Proof.
  split; [done|]. destruct (deleteItem_cases pw v l item a h (sync_held _ _ _ Hs) Hl) as (s' & Hr & Hc). exists s'. split; [exact Hr|].
  destruct Hc as [(He & Hav & _ & _)|(Hav & Hsel & He & _ & Hs2)]; [by left|right]. destruct Hl as (Hv & Hd & Hf).
  set (id := text_at (js "id") item) in *. destruct (remove_lists id l Hd Hf) as [Hd' Hf'].
  exists (with_items v (items_of (filter (fun e => e.1 <> id) l))), (filter (fun e => e.1 <> id) l).
  split_and!; [done|done|apply removed_map|done|done|exact (sync_opens _ _ _ Hs2)].
Qed.

(** On launch the app goes to the unlock form of the most recent vault that is
    still on disk, and to the start screen when there is none; it reads and changes
    nothing else. *)
Theorem launch_spec l a (h : X)
  (Hr : read_recents (disk h) = Some (recents_text l)) (Hl : recents_ok l) :
  returns (launch : M S unit) (a, h) tt
    (setScreen match List.find (present h) l with Some e => UnlockAt e.1 | None => Start end a, h).
Proof.
  assert (Hread : returns readRecents h (map entry_json l) h).
  { apply catch_returns. unfold returns. rewrite Hr. unfold recents_text.
    by rewrite json_parse_stringify by apply entries_json_ok, Hl. }
  unfold returns, launch. run (storage_returns _ a _ _ _ Hread).
  run (storage_returns _ a _ _ _ (first_existing_entries l h)). by destruct (List.find (present h) l).
Qed.

(** A password the policy rejects, or one not typed twice alike, never reaches
    the disk: neither creating a vault nor changing its password does anything but
    show a message. *)
Theorem weak_password_refused pw confirm path v (s : S) (Hr : masterPasswordIssue pw = None -> pw <> confirm) :
  (exists e, e <> [] /\ returns (submitCreate path pw confirm : M S unit) s tt
     (setFormError (Some e) (setFormError None s.1), s.2)) /\
  (exists e, e <> [] /\ returns (changePassword v pw confirm : M S _) s (Some e) s).
Proof.
  pose proof (rejected_password pw confirm Hr) as Hp.
  unfold returns, submitCreate, changePassword. destruct (masterPasswordIssue pw) as [weak|].
  - split; exists weak; done.
  - rewrite Hp. split; eexists; (split; [|reflexivity]); done.
Qed.

(** Unlocking: the form shows every error of opening the vault; but when only the
    list of recents cannot be written, a vault that was opened is dropped and the
    form shows nothing at all. *)
Theorem submitOpen_outcomes path pw a (h : X) :
  match openExistingVault path pw h with
  | (inl v, h1) =>
      match rememberRecent path h1 with
      | (inl _, h2) => returns (submitOpen path pw : M S unit) (a, h) tt (setVault (Some v) (setFormError None a), h2)
      | (inr _, h2) => returns (submitOpen path pw : M S unit) (a, h) tt (setFormError None a, h2)
      end
  | (inr e, h1) => returns (submitOpen path pw : M S unit) (a, h) tt (setFormError (Some (errMsg e)) (setFormError None a), h1)
  end.
Proof.
  destruct (openExistingVault path pw h) as [[v|e] h1] eqn:Ho.
  - assert (Hpath : dv_path v = path).
    { apply bind_inv in Ho as (t & h2 & _ & Ho). apply bind_inv in Ho as (r & h3 & _ & Ho).
      apply bind_inv in Ho as (items & h4 & _ & [-> _]%ret_inv). done. }
    destruct (rememberRecent path h1) as [[[]|e] h2] eqn:Hrec; unfold returns, submitOpen;
      (eapply bind_returns; [reflexivity|cbv beta]); apply catch_returns; unfold returns;
      run (storage_returns _ (setFormError None a) _ _ _ Ho).
    + apply catch_returns. unfold returns, adopt. rewrite Hpath. run (storage_returns _ (setFormError None a) _ _ _ Hrec).
      reflexivity.
    + eapply catch_throws; [|reflexivity]. unfold throws, adopt. rewrite Hpath.
      apply bind_throws. exact (storage_throws _ (setFormError None a) _ _ _ Hrec).
  - unfold returns, submitOpen. eapply bind_returns; [reflexivity|cbv beta].
    eapply catch_throws; [apply bind_throws; exact (storage_throws _ (setFormError None a) _ _ _ Ho)|reflexivity].
Qed.
End Theorems.

(** ** A concrete disk and a vault on it *)

#[local] Existing Instances latin1_unicode model_crypto lcg_entropy map_tauri fixed_clock.
#[local] Instance plain_errors : EngineText := {| engine_message _ := js "Something went wrong." |}.

Definition first_password := js "first password".
Definition sample_path := js "/home/a/v.passwd".
Definition typed_item : obj := obj_assign blankItem [(js "name", JStr (js "bank"))].

Lemma sample_vault : exists v h, in_sync (F := files) (E := Z) first_password v h /\ lists v [] /\ dv_path v = sample_path.
Proof.
  destruct (create_sync sample_path first_password (empty_host None)) as [[h Ht]|(v & h & _ & Hs & Hp & Hi)];
    [done|vm_compute in Ht; discriminate|].
  exists v, h. split_and!; [done|split_and!; [done|constructor|constructor]|done].
Qed.

Lemma saveItem_updates_witness : exists v (h : host files Z) r s',
  returns (saveItem v typed_item) (launched, h) r s' /\
  match r with
  | Some e => e = js "Something went wrong." /\ s'.1 = launched
  | None => exists id w v' l',
      obj_get (js "id") w = Some (JStr id) /\ w = obj_assign typed_item [(js "id", JStr id)] /\
      ap_vault s'.1 = Some v' /\ lists v' l' /\
      list_to_map l' =@{gmap jsstr obj} {[id := w]} /\ l'.*1 = [id] /\
      vw_editing (ap_view s'.1) = None /\ vw_selected (ap_view s'.1) = Some id /\
      returns (openExistingVault (dv_path v) first_password) s'.2 v' s'.2
  end.
Proof.
  destruct sample_vault as (v & h & Hs & Hl & _). exists v, h.
  destruct (saveItem_updates first_password v [] typed_item [] launched h Hs Hl) as (r & s' & Hr & Hc).
  - apply json_okb_ok. vm_compute. reflexivity.
  - reflexivity.
  - exists r, s'. split; [exact Hr|]. destruct r as [e|]; [exact Hc|]. exact Hc.
Defined.

Lemma deleteItem_removes_witness : exists v (h : host files Z),
  returns (deleteItem v typed_item false) (launched, h) tt (launched, h) /\
  exists s', returns (deleteItem v typed_item true) (launched, h) tt s' /\
    (vw_error (ap_view s'.1) = Some (js "Something went wrong.") /\ ap_vault s'.1 = None \/
     exists v' l', ap_vault s'.1 = Some v' /\ lists v' l' /\ list_to_map l' =@{gmap jsstr obj} delete [] ∅ /\
       vw_selected (ap_view s'.1) <> Some [] /\ vw_error (ap_view s'.1) = None /\
       returns (openExistingVault (dv_path v) first_password) s'.2 v' s'.2).
Proof.
  destruct sample_vault as (v & h & Hs & Hl & _). exists v, h.
  exact (deleteItem_removes first_password v [] typed_item launched h Hs Hl).
Defined.

(** The first of two recent vaults is gone, the second is there. *)
Definition host_with_second : host files Z :=
  Host {| fl_vaults := {[ js "C:\vaults\y.passwd" := js "..." ]}; fl_recents := Some (recents_text two_recents) |} 42.

Lemma launch_spec_witness :
  returns launch (launched, host_with_second) tt (setScreen (UnlockAt (js "C:\vaults\y.passwd")) launched, host_with_second).
Proof.
  assert (E : List.find (present host_with_second) two_recents = Some (js "C:\vaults\y.passwd", 1500000000000))
    by (vm_compute; reflexivity).
  pose proof (launch_spec two_recents launched host_with_second eq_refl) as T. rewrite E in T. apply T.
  split_and!; [apply (bool_decide_unpack _); vm_compute; exact I|cbn; unfold RECENTS_MAX; lia|].
  constructor; [split; [decide_forall|cbn; lia]|constructor; [split; [decide_forall|cbn; lia]|constructor]].
Defined.

Lemma weak_password_refused_witness (v := {| dv_path := []; dv_state := {| vs_kdf := None; vs_salt := None;
    vs_protectedUserKey := None; vs_userKey := [] |}; dv_items := [] |}) (s := (launched, empty_host None)) :
  (exists e, e <> [] /\ returns (submitCreate sample_path (js "short") (js "short")) s tt
     (setFormError (Some e) (setFormError None s.1), s.2)) /\
  (exists e, e <> [] /\ returns (changePassword v (js "short") (js "short")) s (Some e) s).
Proof. apply (weak_password_refused (js "short") (js "short") sample_path v s). by vm_compute. Defined.
