(* ===== verification/DesktopUi.v ===== *)
(** The screens of the desktop app as they are rendered: apps/desktop/src/App.tsx
    and apps/desktop/src/VaultScreen.tsx, over the actions of DesktopApp.v.  Between
    two gestures nothing is in flight, so no button is busy; two handlers in flight
    at once are the last part of the file. *)
From stdpp Require Import relations.
From S2P Require Import Prelude Text Numeral Json JsonFacts Encoding JsonText Effects Process Platform Primitives.
From S2P Require Import EncString Kdf Policy Account Backup VaultFile Objects Items Session Background Views.
From S2P Require Import Desktop DesktopApp Editor AsyncButton Clipboard Ui.

(** ** The state of the components *)

(** ItemEditor and ChangePassword, while they are mounted. *)
Record item_form := ItemForm { if_item : obj; if_error : option jsstr }.
Record pw_form := PwForm { pf_pw : entry; pf_again : entry; pf_error : option jsstr }.
Definition no_pw_form : pw_form := PwForm no_entry no_entry None.

(** Start, Unlock and Create; VaultScreen's search and ItemDetail's reveal, with
    what is mounted inside it. *)
Record forms := Forms {
  fm_recents : list (jsstr * jsstr);      (* name and path *)
  fm_password : entry;
  fm_confirm : entry;
  fm_query : jsstr;
  fm_shown : bool;
  fm_editor : option item_form;
  fm_change : option pw_form;
}.
Definition no_forms : forms := Forms [] no_entry no_entry [] false None None.

Record desk := Desk { dk_app : app; dk_forms : forms; dk_board : board }.

(** What the user can do. *)
Inductive desk_act :=
| OpenRecent (path : jsstr) | ClearRecents | OpenDialog | NewDialog
| Back | TypePassword (t : jsstr) | PeekPassword | TypeConfirm (t : jsstr) | PeekConfirm
| Unlock (path : jsstr) | Create (path : jsstr)
| AddItem | Password | Lock | Search (t : jsstr) | Select (id : jsstr)
| Edit (item : obj) | Delete (item : obj) (yes : bool) | Reveal | Copy (label value : jsstr)
| Set_ (k t : jsstr) | Generate | CancelEdit | Save
| TypePw (t : jsstr) | PeekPw | TypeAgain (t : jsstr) | PeekAgain | CancelPw | ChangePw.

(** ** What is rendered *)

Definition em_dash : jsstr := [8212].
Definition VAULT_FIELDS : list jsstr := [js "id"; js "name"; js "username"; js "password"; js "url"; js "notes"].

(** A JSON value that is a VaultItem of types.ts; on another one the render throws
    or prints what is not text. *)
Definition is_text (v : jsv) : bool := match v with Some (JStr _) => true | _ => false end.
Definition vault_item (j : json) : option obj :=
  match j with
  | JObj o => if forallb (fun k => is_text (obj_get k o)) VAULT_FIELDS then Some o else None
  | _ => None
  end.
Definition recent_of (r : json) : option (jsstr * jsstr) :=
  match json_member (js "name") r, json_member (js "path") r with
  | Some (Some (JStr n)), Some (Some (JStr p)) => Some (n, p)
  | _, _ => None
  end.

Definition name_text (it : obj) : jsstr := or_text (text_at (js "name") it) (js "(unnamed)").
Definition delete_question (it : obj) : jsstr :=
  jq "Delete '" ++ or_text (text_at (js "name") it) (js "this item") ++ jq "'?".

Definition render_start (recents : list (jsstr * jsstr)) : screen desk_act :=
  [Say (js "passwd"); Say (js "Offline vault. Your passwords stay in one encrypted file.")]
  ++ when (negb (bool_decide (recents = [])))
       (Say (js "Recent vaults") :: map (fun r => btn (r.1 ++ r.2) (OpenRecent r.2)) recents
        ++ [btn (js "Clear recent list") ClearRecents])
  ++ [btn (js "Open vault...") OpenDialog; btn (js "New vault...") NewDialog].

Definition render_unlock (busy : bool) (path : jsstr) (password : entry) (error : option jsstr) : screen desk_act :=
  [btn (js "Choose another vault") Back; Say (js "Unlock"); Say path; Say (js "Master password")]
  ++ PasswordField (js "your master password") password TypePassword PeekPassword
  ++ say_some error
  ++ [Button (if busy then js "Unlocking" else js "Unlock") (negb busy) (Unlock path)].

Definition render_create (busy : bool) (path : jsstr) (password confirm : entry) (error : option jsstr) : screen desk_act :=
  [btn (js "Back") Back; Say (js "New vault"); Say path; Say (js "Master password")]
  ++ PasswordField (js "at least 12 characters") password TypePassword PeekPassword
  ++ Say (js "Confirm master password")
  :: PasswordField (js "type it again") confirm TypeConfirm PeekConfirm
  ++ say_some error
  ++ [Button (if busy then js "Creating" else js "Create vault") (negb busy) (Create path);
      Say (js "There is no recovery. If you lose this password the vault cannot be opened.")].

Definition DetailRow (label name value : jsstr) : screen desk_act :=
  [Say label; Say (or_text value em_dash)]
  ++ when (negb (bool_decide (value = []))) [btn (js "Copy") (Copy name value)].

Definition ItemDetail (shown : bool) (it : obj) : screen desk_act :=
  let password := text_at (js "password") it in
  [Say (name_text it); btn (js "Edit") (Edit it); Asks (js "Delete") (delete_question it) (Delete it)]
  ++ DetailRow (js "Username") (js "username") (text_at (js "username") it)
  ++ [Say (js "Password");
      Say (match password with [] => em_dash | _ => if shown then password else replicate 10 bullet end)]
  ++ when (negb (bool_decide (password = [])))
       [btn (if shown then js "Hide" else js "Show") Reveal; btn (js "Copy") (Copy (js "password") password)]
  ++ DetailRow (js "URL") (js "URL") (text_at (js "url") it)
  ++ (match text_at (js "notes") it with [] => [] | notes => [Say (js "Notes"); Say notes] end).

Definition ItemEditor (st : button_state) (f : item_form) : screen desk_act :=
  let value k := text_at k (if_item f) in
  let input k hint := Field hint false (value k) (Set_ k) in
  [Say (match value (js "id") with [] => js "Add item" | _ => js "Edit item" end);
   Say (js "Name"); input (js "name") (js "GitHub");
   Say (js "URL"); input (js "url") (js "https://github.com");
   Say (js "Username"); input (js "username") (js "you@example.com");
   Say (js "Password"); input (js "password") (js "password"); btn (js "Generate a strong password") Generate;
   Say (js "Notes"); input (js "notes") []]
  ++ say_some (if_error f)
  ++ [btn (js "Cancel") CancelEdit; render_button (js "Save") (js "Saving") (js "Saved") st Save].

Definition ChangePassword (st : button_state) (f : pw_form) : screen desk_act :=
  [Say (js "Change master password");
   Say (js "Re-keys this vault file. Items are not re-encrypted, only the wrapping key.");
   Say (js "New master password")]
  ++ PasswordField (js "at least 12 characters") (pf_pw f) TypePw PeekPw
  ++ Say (js "Confirm")
  :: PasswordField (js "type it again") (pf_again f) TypeAgain PeekAgain
  ++ say_some (pf_error f)
  ++ [btn (js "Cancel") CancelPw; render_button (js "Change password") (js "Re-keying") (js "Changed") st ChangePw].

Section Render.
Context `{Unicode} `{Collation}.

Definition selected_item (w : view) (items : list obj) : option obj :=
  id ← vw_selected w; List.find (fun i => str_eqb (text_at (js "id") i) id) items.

Definition item_row (it : obj) : node desk_act :=
  btn (name_text it ++ or_text (text_at (js "username") it) (text_at (js "url") it)) (Select (text_at (js "id") it)).

Definition render_items (query : jsstr) (items : list obj) : screen desk_act :=
  match desktop_list query items with
  | [] => [Say (js "No items" ++ (match query with [] => js " yet" | _ => js " match" end) ++ js ".")]
  | l => map item_row l
  end.

Definition render_vault (v : DesktopVault) (items : list obj) (w : view) (f : forms) : screen desk_act :=
  [Say (js "passwd"); Say (basename (dv_path v)); btn (js "+ Add") AddItem; btn (js "Password") Password;
   btn (js "Lock") Lock]
  ++ say_some (vw_error w)
  ++ Field (js "Search") false (fm_query f) Search
  :: render_items (fm_query f) items
  ++ (match selected_item w items with
      | Some it => ItemDetail (fm_shown f) it
      | None => [Say (js "Select an item to view its details.")]
      end)
  ++ (match fm_editor f with Some e => ItemEditor Idle e | None => [] end)
  ++ (match fm_change f with Some c => ChangePassword Idle c | None => [] end)
  ++ say_some (vw_toast w).

(** [None]: the vault holds something that is not a VaultItem. *)
Definition render (d : desk) : option (screen desk_act) :=
  let a := dk_app d in
  let f := dk_forms d in
  match ap_vault a, ap_screen a with
  | Some v, _ => items ← mapM vault_item (dv_items v); Some (render_vault v items (ap_view a) f)
  | None, Boot => Some []
  | None, Start => Some (render_start (fm_recents f))
  | None, UnlockAt path => Some (render_unlock false path (fm_password f) (ap_error a))
  | None, CreateAt path => Some (render_create false path (fm_password f) (fm_confirm f) (ap_error a))
  end.
End Render.

(** ** Mounting

    After an action React mounts what the new state shows: another page starts with
    fresh forms, the detail pane is keyed by the item's id, and the editor takes
    [props.item] when it is mounted and not again. *)
Inductive page := PBoot | PStart | PUnlock | PCreate | PVault.
#[global] Instance page_eq_dec : EqDecision page.
Proof. solve_decision. Defined.

Definition page_of (a : app) : page :=
  match ap_vault a, ap_screen a with
  | Some _, _ => PVault
  | None, Boot => PBoot
  | None, Start => PStart
  | None, UnlockAt _ => PUnlock
  | None, CreateAt _ => PCreate
  end.
Definition detail_key (a : app) : option jsstr :=
  v ← ap_vault a; id ← vw_selected (ap_view a); found ← some_id id (dv_items v);
  if found : bool then Some id else None.

Definition with_editor (a : app) (f : forms) (shown : bool) : forms :=
  Forms (fm_recents f) (fm_password f) (fm_confirm f) (fm_query f) shown
    (match vw_editing (ap_view a), fm_editor f with
     | None, _ => None
     | Some _, Some e => Some e
     | Some it, None => Some (ItemForm it None)
     end) (fm_change f).

Definition remount (old : app) (d : desk) : desk :=
  let a := dk_app d in
  let f := dk_forms d in
  if bool_decide (page_of old = page_of a)
  then Desk a (with_editor a f (bool_decide (detail_key old = detail_key a) && fm_shown f)) (dk_board d)
  else Desk (setFormError None a) no_forms (dk_board d).

(** ** The handlers *)
Section Handlers.
Context {F E : Type} `{Unicode} `{Collation} `{WebCrypto} `{Tauri F} `{Entropy E} `{Clock F} `{EngineText}.
(** Whether the platform lets the app write to the clipboard. *)
Context (clipboard_ok : F -> bool).
Abbreviation W := (host F E).
Abbreviation S := (desk * host F E)%type.

Definition lift {A} (m : M (app * host F E) A) : M S A := fun s =>
  let '(r, (a, h)) := m (dk_app s.1, s.2) in
  (r, (remount (dk_app s.1) (Desk a (dk_forms s.1) (dk_board s.1)), h)).
Definition upd_app (f : app -> app) : M S unit := lift (upd f).
Definition upd_screen (f : view -> view) : M S unit := lift (upd_view f).
Definition upd_forms (f : forms -> forms) : M S unit :=
  modify (fun s => (Desk (dk_app s.1) (f (dk_forms s.1)) (dk_board s.1), s.2)).
Definition run_host {A} (m : M W A) : M S A := lift (outside m).

Definition setRecents l (f : forms) := Forms l (fm_password f) (fm_confirm f) (fm_query f) (fm_shown f) (fm_editor f) (fm_change f).
Definition setPassword (g : entry -> entry) (f : forms) :=
  Forms (fm_recents f) (g (fm_password f)) (fm_confirm f) (fm_query f) (fm_shown f) (fm_editor f) (fm_change f).
Definition setConfirm (g : entry -> entry) (f : forms) :=
  Forms (fm_recents f) (fm_password f) (g (fm_confirm f)) (fm_query f) (fm_shown f) (fm_editor f) (fm_change f).
Definition setQuery q (f : forms) :=
  Forms (fm_recents f) (fm_password f) (fm_confirm f) q (fm_shown f) (fm_editor f) (fm_change f).
Definition setShown (g : bool -> bool) (f : forms) :=
  Forms (fm_recents f) (fm_password f) (fm_confirm f) (fm_query f) (g (fm_shown f)) (fm_editor f) (fm_change f).
Definition onEditor (g : item_form -> item_form) (f : forms) :=
  Forms (fm_recents f) (fm_password f) (fm_confirm f) (fm_query f) (fm_shown f) (g <$> fm_editor f) (fm_change f).
Definition setChange (g : option pw_form -> option pw_form) (f : forms) :=
  Forms (fm_recents f) (fm_password f) (fm_confirm f) (fm_query f) (fm_shown f) (fm_editor f) (g (fm_change f)).
Definition onChange (g : pw_form -> pw_form) : forms -> forms := setChange (fmap g).

Definition setItem (g : obj -> obj) (e : item_form) := ItemForm (g (if_item e)) (if_error e).
Definition setItemError err (e : item_form) := ItemForm (if_item e) err.
Definition setPw (g : entry -> entry) (c : pw_form) := PwForm (g (pf_pw c)) (pf_again c) (pf_error c).
Definition setAgain (g : entry -> entry) (c : pw_form) := PwForm (pf_pw c) (g (pf_again c)) (pf_error c).
Definition setPwError err (c : pw_form) := PwForm (pf_pw c) (pf_again c) err.

(** [if (path) go(path)] *)
Definition go (screen : jsstr -> Screen) (path : option jsstr) : M S unit :=
  match path with Some ((_ :: _) as p) => upd_app (setScreen (screen p)) | _ => mret tt end.

(** The handlers of the vault screen close over its vault, those of a form over
    the form. *)
Definition with_vault (k : DesktopVault -> M S unit) : M S unit :=
  v ← gets (fun s => ap_vault (dk_app s.1)); match v with Some v => k v | None => mret tt end.

Definition saveClicked (v : DesktopVault) : M S unit :=
  f ← gets (fun s => fm_editor (dk_forms s.1));
  match f with
  | None => mret tt
  | Some e =>
      _ ← upd_forms (onEditor (setItemError None));
      err ← lift (editorSave v (if_item e));
      match err with
      | Some ((_ :: _) as m) => upd_forms (onEditor (setItemError (Some m)))
      | _ => mret tt
      end
  end.

Definition changeClicked (v : DesktopVault) : M S unit :=
  c ← gets (fun s => fm_change (dk_forms s.1));
  match c with
  | None => mret tt
  | Some c =>
      _ ← upd_forms (onChange (setPwError None));
      err ← lift (changePassword v (typed_in (pf_pw c)) (typed_in (pf_again c)));
      match err with
      | Some m => upd_forms (onChange (setPwError (Some m)))
      | None => _ ← upd_forms (setChange (fun _ => None)); upd_screen (flash (js "Master password changed"))
      end
  end.

Definition copyClicked (label value : jsstr) : M S unit := fun s =>
  let r := copy (clock (disk s.2)) (clipboard_ok (disk s.2)) label value (dk_board s.1) in
  let s1 := (Desk (dk_app s.1) (dk_forms s.1) r.1, s.2) in
  match r.2 with Some t => upd_screen (flash t) s1 | None => (inl tt, s1) end.

Definition desk_do (a : desk_act) : M S unit :=
  match a with
  | OpenRecent path => upd_app (setScreen (UnlockAt path))
  | ClearRecents => _ ← run_host clearRecents; upd_forms (setRecents [])
  | OpenDialog => path ← run_host pickVaultToOpen; go UnlockAt path
  | NewDialog => path ← run_host pickVaultToCreate; go CreateAt path
  | Back => upd_app (setScreen Start)
  | TypePassword t => upd_forms (setPassword (type_in t))
  | PeekPassword => upd_forms (setPassword toggle)
  | TypeConfirm t => upd_forms (setConfirm (type_in t))
  | PeekConfirm => upd_forms (setConfirm toggle)
  | Unlock path => f ← gets (fun s => dk_forms s.1); lift (submitOpen path (typed_in (fm_password f)))
  | Create path =>
      f ← gets (fun s => dk_forms s.1);
      lift (submitCreate path (typed_in (fm_password f)) (typed_in (fm_confirm f)))
  | AddItem => upd_screen (setEditing (Some blankItem))
  | Password => upd_forms (setChange (fun c => Some (default no_pw_form c)))
  | Lock => with_vault (fun v => lift (lockVault v))
  | Search t => upd_forms (setQuery t)
  | Select id => upd_screen (setSelected (Some id))
  | Edit it => upd_screen (setEditing (Some it))
  | Delete it yes => with_vault (fun v => lift (deleteItem v it yes))
  | Reveal => upd_forms (setShown negb)
  | Copy label value => copyClicked label value
  | Set_ k t => upd_forms (onEditor (setItem (set k t)))
  | Generate => pw ← run_host (desktopPassword 20); upd_forms (onEditor (setItem (set (js "password") pw)))
  | CancelEdit => upd_screen (setEditing None)
  | Save => with_vault saveClicked
  | TypePw t => upd_forms (onChange (setPw (type_in t)))
  | PeekPw => upd_forms (onChange (setPw toggle))
  | TypeAgain t => upd_forms (onChange (setAgain (type_in t)))
  | PeekAgain => upd_forms (onChange (setAgain toggle))
  | CancelPw => upd_forms (setChange (fun _ => None))
  | ChangePw => with_vault changeClicked
  end.

(** What happens without the user: the launch, Start's list, the idle timer, the
    timeouts of a toast and of a copied value. *)
Definition loadRecents : M S unit :=
  l ← run_host readRecents;
  match mapM recent_of l with Some rs => upd_forms (setRecents rs) | None => mret tt end.
Definition dropToast (w : view) : view :=
  {| vw_selected := vw_selected w; vw_editing := vw_editing w; vw_toast := None; vw_error := vw_error w |}.

Inductive desk_event : S -> S -> Prop :=
| ev_launch s r s' : page_of (dk_app s.1) = PBoot -> lift launch s = (r, s') -> desk_event s s'
| ev_recents s r s' : page_of (dk_app s.1) = PStart -> loadRecents s = (r, s') -> desk_event s s'
| ev_idle s r s' : with_vault (fun v => lift (lockVault v)) s = (r, s') -> desk_event s s'
| ev_toast s r s' : page_of (dk_app s.1) = PVault -> upd_screen dropToast s = (r, s') -> desk_event s s'
| ev_clear d h ok pre t post : due (dk_board d) = pre ++ t :: post ->
    desk_event (d, h) (Desk (dk_app d) (dk_forms d) (clear ok pre post (dk_board d)), h).

Definition screen_of (s : S) : screen desk_act := default [] (render s.1).
Definition desk_step : relation S := ui_step screen_of desk_do desk_event.
Definition started (h : W) : S := (Desk launched no_forms empty_board, h).
End Handlers.

(** ** Laws *)

Lemma vault_item_spec j o : vault_item j = Some o <-> j = JObj o /\ forall k, k ∈ VAULT_FIELDS -> exists t, obj_get k o = Some (JStr t).
Proof.
  assert (Hall : forall o, forallb (fun k => is_text (obj_get k o)) VAULT_FIELDS = true <->
      forall k, k ∈ VAULT_FIELDS -> exists t, obj_get k o = Some (JStr t)).
  { intros o'. rewrite (forallb_Forall_iff _ (fun k => exists t, obj_get k o' = Some (JStr t))), Forall_forall; [done|].
    intros k. unfold is_text. destruct (obj_get k o') as [[]|]; split; try done; try (by intros [? [=]]); by eexists. }
  destruct j; cbn [vault_item]; try (split; [done|by intros [? _]]).
  destruct (forallb _ _) eqn:Ef; split.
  - intros [= ->]. split; [done|]. by apply Hall.
  - by intros [[= ->] _].
  - done.
  - intros [[= ->] Hk%Hall]. congruence.
Qed.

Lemma vault_item_put k t it : vault_item (JObj it) = Some it ->
  vault_item (JObj (obj_put k (JStr t) it)) = Some (obj_put k (JStr t) it).
Proof.
  intros [_ Hv]%vault_item_spec. apply vault_item_spec. split; [done|]. intros k' Hk'.
  destruct (decide (k' = k)) as [->|Hne]; [rewrite obj_get_put_eq; by exists t|rewrite obj_get_put_ne by done; by apply Hv].
Qed.

(** An item the editor may hold. *)
Definition editable (it : obj) : Prop := json_ok (JObj it) /\ vault_item (JObj it) = Some it.

Lemma editable_set k t it : editable it -> k ∈ VAULT_FIELDS -> units_ok t -> editable (set k t it).
Proof.
  intros [Hj Hv] Hk Ht. unfold set. split.
  - apply json_ok_put; [|exact Ht|done].
    assert (HF : Forall (fun k => units_ok k) VAULT_FIELDS) by decide_forall. by apply (proj1 (Forall_forall _ _) HF).
  - by apply vault_item_put.
Qed.

Lemma editable_blank : editable blankItem.
Proof. split; [apply json_okb_ok|]; by vm_compute. Qed.

Lemma items_rendered l : Forall (fun e : jsstr * obj => vault_item (JObj e.2) = Some e.2) l ->
  mapM vault_item (items_of l) = Some l.*2.
Proof. intros Hl. unfold items_of. induction Hl as [|e l He _ IH]; [done|]. cbn [map mapM]. rewrite He. cbn. by rewrite IH. Qed.

Definition shaped (l : list (jsstr * obj)) : Prop := Forall (fun e => vault_item (JObj e.2) = Some e.2) l.

Lemma shaped_put id w l : shaped l -> vault_item (JObj w) = Some w -> shaped (put_item id w l).
Proof.
  intros Hl Hw. unfold shaped, put_item. case_bool_decide.
  - apply Forall_map. eapply Forall_impl; [exact Hl|]. intros e He. by case_bool_decide.
  - apply Forall_app. split; [done|]. by constructor.
Qed.

Lemma shaped_remove (P : jsstr * obj -> Prop) `{!forall e, Decision (P e)} l : shaped l -> shaped (filter P l).
Proof. intros Hl. apply Forall_forall. intros e [_ He]%list_elem_of_filter. by apply (proj1 (Forall_forall _ _) Hl). Qed.

Section Invariant.
Context {F E : Type} `{Unicode} `{Collation} `{WebCrypto} `{Tauri F} `{Entropy E} `{!Clock F} `{EngineText}.
Context (clipboard_ok : F -> bool) (file : jsstr).
Abbreviation W := (host F E).
Abbreviation S := (desk * host F E)%type.

(** What an open vault screen offers: the vault's own items, the editor's fields,
    nothing of the start screens. *)
Definition vault_act (items : list obj) (a : desk_act) : Prop :=
  match a with
  | Edit it | Delete it _ => it ∈ items
  | Select id => exists it, it ∈ items /\ text_at (js "id") it = id
  | Set_ k _ => k ∈ VAULT_FIELDS
  | OpenRecent _ | ClearRecents | OpenDialog | NewDialog | Back | TypePassword _ | PeekPassword | TypeConfirm _
  | PeekConfirm | Unlock _ | Create _ => False
  | _ => True
  end.

Lemma find_in {A} (p : A -> bool) l x : List.find p l = Some x -> x ∈ l.
Proof. intros Hf. apply list_elem_of_In. by apply find_some in Hf as [? _]. Qed.

Lemma detail_offers b it items a : it ∈ items -> offered (ItemDetail b it) a -> vault_act items a.
Proof.
  unfold ItemDetail, DetailRow. intros Hi Ho. offers; try (by injection Ho as <-).
  revert Ho. destruct (text_at (js "notes") it); intros Ho; offers.
Qed.

Lemma editor_offers st f items a : offered (ItemEditor st f) a -> vault_act items a.
Proof.
  unfold ItemEditor, render_button. intros Ho. offers; try (by injection Ho as <-);
    try (injection Ho as <-; cbn [vault_act]; apply (bool_decide_unpack _); vm_compute; exact I).
  all: cbn [use_node] in Ho; case_match; by simplify_eq/=.
Qed.

Lemma change_offers st f items a : offered (ChangePassword st f) a -> vault_act items a.
Proof.
  unfold ChangePassword, PasswordField, render_button. intros Ho. offers; try (by injection Ho as <-).
  all: cbn [use_node] in Ho; case_match; by simplify_eq/=.
Qed.

Lemma rows_offer query items a : offered (render_items query items) a -> vault_act items a.
Proof.
  unfold render_items. pose proof (proj1 (desktop_list_order query items)) as Hp.
  destruct (desktop_list query items) as [|it l]; intros Ho; [offers|].
  apply offered_map in Ho as (x & [] & Hx & Hu); try discriminate Hu. injection Hu as <-.
  cbn [vault_act]. exists x. split; [|done]. rewrite Hp in Hx.
  apply list_elem_of_In, filter_In in Hx as [Hx _]. by apply list_elem_of_In.
Qed.

Lemma vault_offers v items w f a : offered (render_vault v items w f) a -> vault_act items a.
Proof.
  unfold render_vault. intros Ho. offers; try (by injection Ho as <-).
  - by eapply rows_offer.
  - unfold selected_item in Ho. destruct (vw_selected w) as [id|]; cbn [mbind option_bind] in Ho; [|offers].
    destruct (List.find _ items) as [it|] eqn:Ef; cbv iota in Ho; [|offers]. eapply detail_offers; [by eapply find_in|done].
  - destruct (fm_editor f); cbv iota in Ho; [by eapply editor_offers|offers].
  - destruct (fm_change f); cbv iota in Ho; [by eapply change_offers|offers].
Qed.
(** The disk as a refused write of the file leaves it: whatever that is. *)
Definition torn (h : W) : Prop :=
  exists c f, (write_vault file c f).1 = false /\ disk h = (write_vault file c f).2.

(** A vault in memory under [pw], which is in the file at [file] too unless the last
    write was refused, and which the screen can show. *)
Definition good (pw : jsstr) (v : DesktopVault) (h : W) : Prop :=
  exists l, held (F := F) (E := E) pw v /\ (in_sync pw v h \/ torn h) /\ lists v l /\ shaped l /\ dv_path v = file.
Definition open_at (v : DesktopVault) (d : desk) : Prop :=
  ap_vault (dk_app d) = Some v /\ (forall it, vw_editing (ap_view (dk_app d)) = Some it -> editable it) /\
  (forall e, fm_editor (dk_forms d) = Some e -> editable (if_item e)).
Definition locked_at (v : DesktopVault) (d : desk) : Prop :=
  ap_vault (dk_app d) = None /\ ap_screen (dk_app d) = UnlockAt (dv_path v).

Lemma good_sync pw v l (h : W) : in_sync pw v h -> lists v l -> shaped l -> dv_path v = file -> good pw v h.
Proof. intros Hs Hl Hsh Hp. exists l. split_and!; [by eapply sync_held|by left|done..]. Qed.

Lemma good_disk pw v (h h' : W) : disk h' = disk h -> good pw v h -> good pw v h'.
Proof.
  intros Hd (l & Hm & Hs & Hrest). exists l. split_and!; [done| |apply Hrest..]. destruct Hs as [Hs|(c & f & Hf & Ht)].
  - left. by eapply sync_disk.
  - right. exists c, f. by rewrite Hd.
Qed.

Lemma good_spoiled pw v (h h' : W) : good pw v h -> spoiled (dv_path v) h h' -> good pw v h'.
Proof.
  intros (l & Hm & _ & Hl & Hsh & Hp) (c & Hw & Hd). exists l. split_and!; [done| |done..]. right.
  exists c, (disk h). by rewrite <- Hp.
Qed.

(** An action on the app, seen through the open screen. *)
Lemma lift_open {A} (m : M (app * host F E) A) d (h : W) x a' h' v v' :
  returns m (dk_app d, h) x (a', h') -> open_at v d -> ap_vault a' = Some v' ->
  (forall it, vw_editing (ap_view a') = Some it -> editable it) ->
  exists d', returns (lift m) (d, h) x (d', h') /\ open_at v' d' /\ dk_app d' = a' /\
    fm_change (dk_forms d') = fm_change (dk_forms d).
Proof.
  intros Hm (Hv & He & Hf) Hv' He'. eexists. split; [unfold returns, lift; cbn [fst snd]; rewrite Hm; reflexivity|].
  unfold remount. cbn [dk_app dk_forms dk_board]. unfold page_of. rewrite Hv, Hv', bool_decide_eq_true_2 by done.
  split_and!; [|done|done]. split_and!; [done|done|]. cbn [dk_app dk_forms with_editor fm_editor]. intros e.
  destruct (vw_editing (ap_view a')) as [it|] eqn:Ei; [|done].
  destruct (fm_editor (dk_forms d)) as [e0|] eqn:E0; intros [= <-]; [by apply Hf|by apply He'].
Qed.

Lemma lift_locked d (h : W) v : open_at v d ->
  exists d', returns (with_vault (fun v => lift (lockVault v)) : M S unit) (d, h) tt (d', h) /\ locked_at v d'.
Proof.
  intros (Hv & _ & _). eexists. split.
  - unfold returns, with_vault. eapply bind_returns; [reflexivity|cbv beta]. cbn [fst]. rewrite Hv. reflexivity.
  - unfold locked_at, remount, page_of. cbn [fst snd dk_app dk_forms dk_board]. rewrite Hv. done.
Qed.
(** What the user types is text, and the master password the user knows: the one
    in force, or the one the dialog accepted. *)
Definition typed_ok (a : desk_act) : Prop := match a with Set_ _ t => units_ok t | _ => True end.
Definition believes (pw : jsstr) (a : desk_act) (s s' : S) : jsstr :=
  match a, fm_change (dk_forms s.1), fm_change (dk_forms s'.1) with
  | ChangePw, Some c, None => typed_in (pf_pw c)
  | _, _, _ => pw
  end.
Definition holds (pw : jsstr) (s : S) : Prop :=
  exists v, good pw v s.2 /\ (open_at v s.1 \/ locked_at v s.1).

Lemma forms_open v d f : open_at v d -> (forall e, fm_editor (f (dk_forms d)) = Some e -> editable (if_item e)) ->
  open_at v (Desk (dk_app d) (f (dk_forms d)) (dk_board d)).
Proof. by intros (Hv & He & _). Qed.

Lemma screen_open f v d (h : W) : open_at v d ->
  (forall it, vw_editing (f (ap_view (dk_app d))) = Some it -> editable it) ->
  exists d', returns (upd_screen f : M S unit) (d, h) tt (d', h) /\ open_at v d' /\
    fm_change (dk_forms d') = fm_change (dk_forms d).
Proof.
  intros Ho He. destruct (lift_open (upd_view f) d h tt _ h v v eq_refl Ho) as (d' & Hr & Ho' & _ & Hc);
    [by destruct Ho|done|by exists d'].
Qed.

Lemma assign_id it id : obj_assign it [(js "id", JStr id)] = obj_put (js "id") (JStr id) it.
Proof. done. Qed.

Lemma editorSave_open pw v d e (h : W) : good pw v h -> open_at v d -> editable (if_item e) ->
  exists r d' h' v', returns (lift (editorSave v (if_item e)) : M S _) (d, h) r (d', h') /\ good pw v' h' /\
    open_at v' d' /\ fm_change (dk_forms d') = fm_change (dk_forms d).
Proof.
  intros Hg Ho [Hj Hv]. pose proof Hg as (l & Hs & _ & Hl & Hsh & Hpa). unfold editorSave. destruct (nameless (if_item e)).
  { destruct (lift_open (mret (Some editor_error)) d h _ (dk_app d) h v v eq_refl Ho) as (d' & Hr & Ho' & _ & Hc);
      [by destruct Ho|by destruct Ho as (_ & ? & _)|]. by exists (Some editor_error), d', h, v. }
  destruct (proj2 (proj1 (vault_item_spec _ _) Hv) (js "id")) as [i0 Hi0]; [apply (bool_decide_unpack _); vm_compute; exact I|].
  destruct (saveItem_cases pw v l _ i0 (dk_app d) h Hs Hl Hj Hi0) as ([m|] & [a' h'] & Hr & Hc); cbn [fst snd] in Hc.
  - destruct Hc as (_ & -> & Hsp).
    destruct (lift_open _ d h _ (dk_app d) h' v v Hr Ho) as (d' & Hr' & Ho' & _ & Hc);
      [by destruct Ho|by destruct Ho as (_ & ? & _)|]. exists (Some m), d', h', v. split_and!; [done| |done|done].
    by eapply good_spoiled.
  - destruct Hc as (id & w & Hi & Hjw & Hkeep & Hav & Hed & _ & Hs2).
    destruct (lift_open _ d h _ a' h' v _ Hr Ho Hav) as (d' & Hr' & Ho' & _ & Hc); [by rewrite Hed|].
    exists None, d', h', (with_items v (items_of (put_item id w l))). split_and!; [done| |done|done].
    destruct Hl as (_ & Hd & Hf). destruct (put_item_lists id w l Hd Hf Hi) as [Hd' Hf'].
    apply (good_sync _ _ (put_item id w l)); [done|by split_and!| |done]. apply shaped_put; [done|].
    destruct (decide (i0 = [])); [subst w; rewrite assign_id; by apply vault_item_put|by destruct Hkeep as [_ ->]].
Qed.

Lemma save_open pw v d (h : W) : good pw v h -> open_at v d ->
  exists d' h' v', saveClicked v (d, h) = (inl tt, (d', h')) /\ good pw v' h' /\ open_at v' d'.
Proof.
  intros Hg Ho. unfold saveClicked. destruct (fm_editor (dk_forms d)) as [e|] eqn:Ee.
  2: { exists d, h, v. split_and!; [|done|done]. unfold mbind, M_bind. cbn [gets fst]. by rewrite Ee. }
  set (d1 := Desk (dk_app d) (onEditor (setItemError None) (dk_forms d)) (dk_board d)).
  assert (Ho1 : open_at v d1).
  { apply forms_open; [done|]. intros e1. cbn. rewrite Ee. intros [= <-]. destruct Ho as (_ & _ & Hf). by apply (Hf e). }
  assert (He : editable (if_item e)) by (destruct Ho as (_ & _ & Hf); by apply Hf).
  destruct (editorSave_open pw v d1 e h Hg Ho1 He) as (r & d2 & h2 & v2 & Hr & Hg2 & Ho2 & _).
  assert (Hrun : forall k x, k r (d2, h2) = x ->
    (f ← gets (fun s : S => fm_editor (dk_forms s.1));
     match f with
     | None => mret tt
     | Some e => _ ← upd_forms (onEditor (setItemError None)); err ← lift (editorSave v (if_item e)); k err
     end) (d, h) = x).
  { intros k x Hk. unfold mbind at 1, M_bind at 1. cbn [gets fst]. rewrite Ee.
    eapply bind_returns; [reflexivity|cbv beta]. by run Hr. }
  rewrite (Hrun _ _ eq_refl). destruct r as [[|u m]|]; [by exists d2, h2, v2| |by exists d2, h2, v2].
  eexists _, h2, v2. split_and!; [reflexivity|done|]. apply forms_open; [done|]. intros e1. cbn.
  destruct (fm_editor (dk_forms d2)) as [e2|] eqn:E2; [|done]. intros [= <-]. destruct Ho2 as (_ & _ & Hf). by apply (Hf e2).
Qed.
Lemma delete_open pw v d it yes (h : W) : good pw v h -> open_at v d ->
  exists d' h' v', returns (lift (deleteItem v it yes) : M S _) (d, h) tt (d', h') /\ good pw v' h' /\ open_at v' d'.
Proof.
  intros Hg Ho. pose proof Hg as (l & Hs & _ & Hl & Hsh & Hpa). pose proof Ho as (Hv & He & _). destruct yes.
  2: { destruct (lift_open (mret tt) d h _ (dk_app d) h v v eq_refl Ho Hv He) as (d' & Hr & Ho' & _).
       exists d', h, v. split_and!; [exact Hr|done|done]. }
  destruct (deleteItem_cases pw v l it (dk_app d) h Hs Hl) as ([a' h'] & Hr & Hc). cbn [fst snd] in Hc.
  destruct Hc as [(_ & Hav & Hed & Hsp)|(Hav & _ & _ & Hed & Hs2)].
  - destruct (lift_open _ d h _ a' h' v v Hr Ho) as (d' & Hr' & Ho' & _); [congruence|by rewrite Hed|].
    exists d', h', v. split_and!; [done| |done]. by eapply good_spoiled.
  - destruct (lift_open _ d h _ a' h' v _ Hr Ho Hav) as (d' & Hr' & Ho' & _); [by rewrite Hed|].
    eexists d', h', _. split_and!; [done| |done]. destruct Hl as (_ & Hd & Hf).
    destruct (remove_lists (text_at (js "id") it) l Hd Hf) as [Hd' Hf'].
    eapply good_sync; [done|by split_and!|by apply shaped_remove|done].
Qed.

Lemma change_open pw v d (h : W) : good pw v h -> open_at v d ->
  exists d' h' v', changeClicked v (d, h) = (inl tt, (d', h')) /\
    good (believes pw ChangePw (d, h) (d', h')) v' h' /\ open_at v' d'.
Proof.
  intros Hg Ho. pose proof Hg as (l & Hs & _ & Hl & Hsh & Hpa). unfold believes, changeClicked. cbn [fst].
  destruct (fm_change (dk_forms d)) as [c|] eqn:Ec.
  2: { exists d, h, v. split_and!; [|done|done]. unfold mbind, M_bind. cbn [gets fst]. by rewrite Ec. }
  set (d1 := Desk (dk_app d) (onChange (setPwError None) (dk_forms d)) (dk_board d)).
  assert (Ho1 : open_at v d1) by (apply forms_open; [done|by destruct Ho as (_ & _ & ?)]).
  destruct (changePassword_cases pw v (typed_in (pf_pw c)) (typed_in (pf_again c)) (dk_app d) h Hs)
    as (r & [a' h'] & Hr & Hc). cbn [fst snd] in Hc.
  assert (Hrun : forall d2, returns (lift (changePassword v (typed_in (pf_pw c)) (typed_in (pf_again c))) : M S _) (d1, h) r (d2, h') ->
    forall k x, k r (d2, h') = x ->
    (c ← gets (fun s : S => fm_change (dk_forms s.1));
     match c with
     | None => mret tt
     | Some c => _ ← upd_forms (onChange (setPwError None));
         err ← lift (changePassword v (typed_in (pf_pw c)) (typed_in (pf_again c))); k err
     end) (d, h) = x).
  { intros d2 Hr2 k x Hk. unfold mbind at 1, M_bind at 1. cbn [gets fst]. rewrite Ec.
    eapply bind_returns; [reflexivity|cbv beta]. by run Hr2. }
  destruct r as [m|].
  - destruct Hc as [-> Hd]. destruct (lift_open _ d1 h _ (dk_app d1) h' v v Hr Ho1) as (d2 & Hr2 & Ho2 & _ & Hc2);
      [by destruct Ho|by destruct Ho as (_ & ? & _)|].
    eexists _, h', v. split_and!; [exact (Hrun _ Hr2 _ _ eq_refl)| |].
    + cbn [fst dk_forms]. unfold onChange, setChange. cbn [fm_change]. rewrite Hc2. cbn. rewrite Ec. cbn.
      destruct Hd as [->|Hd]; [done|by eapply good_spoiled].
    + apply forms_open; [done|by destruct Ho2 as (_ & _ & ?)].
  - destruct Hc as (v2 & _ & -> & Hs2 & Hi2 & Hp2). pose proof Ho1 as (Hv1 & He1 & _).
    destruct (lift_open _ d1 h _ (setVault (Some v2) (dk_app d)) h' v v2 Hr Ho1) as (d2 & Hr2 & Ho2 & _ & _);
      [done|cbn; by destruct Ho as (-> & ? & _)|].
    set (d3 := Desk (dk_app d2) (setChange (fun _ => None) (dk_forms d2)) (dk_board d2)).
    assert (Ho3 : open_at v2 d3) by (apply forms_open; [done|by destruct Ho2 as (_ & _ & ?)]).
    destruct (screen_open (flash (js "Master password changed")) v2 d3 h' Ho3) as (d4 & Hr4 & Ho4 & Hc4);
      [by destruct Ho3 as (_ & ? & _)|].
    exists d4, h', v2. split_and!; [|rewrite Hc4; apply (good_sync _ _ l); [done| |done|congruence]|done].
    + apply (Hrun _ Hr2). eapply bind_returns; [reflexivity|exact Hr4].
    + destruct Hl as (Hl & ? & ?). split_and!; [by rewrite Hi2|done|done].
Qed.
Lemma desktopPassword_host n (h : W) : 4 * Z.of_nat n <= 65536 ->
  exists pw h', returns (desktopPassword n) h pw h' /\ disk h' = disk h /\ units_ok pw.
Proof.
  intros Hn. destruct (randomBytes_returns (4 * n) h ltac:(lia)) as (b & h1 & Hr & _). unfold randomBytes in Hr.
  assert (Hp : returns (desktopPassword n) h (map (fun x => default 0
      (PASSWORD_ALPHABET !! Z.to_nat (x mod Z.of_nat (length PASSWORD_ALPHABET)))) (u32_list b)) h1).
  { assert (Hu : returns (randomU32 n) h (u32_list b) h1) by (unfold returns, randomU32; by run Hr).
    unfold returns, desktopPassword. by run Hu. }
  eexists _, h1. split_and!; [exact Hp|eapply keeps_disk, Hp; intros d|].
  - unfold desktopPassword, randomU32. apply bind_keeps; [|apply _]. apply bind_keeps; [apply randomBytes_keeps|]; apply _.
  - apply Forall_map, Forall_forall. intros x _.
    destruct (PASSWORD_ALPHABET !! _) as [u|] eqn:Eu; cbn; [|unfold_ok; lia].
    assert (HF : units_ok PASSWORD_ALPHABET) by decide_forall. by apply (proj1 (Forall_lookup _ _) HF _ _ Eu).
Qed.

(** The items of the screen are those of the vault. *)
Lemma open_screen pw v d (h : W) : good pw v h -> open_at v d ->
  exists l, lists v l /\ shaped l /\ held (F := F) (E := E) pw v /\ screen_of (d, h) = render_vault v l.*2 (ap_view (dk_app d)) (dk_forms d) /\
    render d = Some (screen_of (d, h)).
Proof.
  intros (l & Hs & _ & Hl & Hsh & Hpa) (Hv & _). exists l.
  assert (Hr : render d = Some (render_vault v l.*2 (ap_view (dk_app d)) (dk_forms d))).
  { unfold render. rewrite Hv. destruct Hl as (-> & _). by rewrite items_rendered. }
  unfold screen_of. cbn [fst]. by rewrite Hr.
Qed.

Lemma vault_item_editable pw v l it : held (F := F) (E := E) pw v -> lists v l -> shaped l -> it ∈ l.*2 -> editable it.
Proof.
  intros Hs (Hv & _) Hsh (e & -> & He)%list_elem_of_fmap. split.
  - exact (proj1 (Forall_forall _ _) (vault_items_ok pw v l Hs Hv) e He).
  - exact (proj1 (Forall_forall _ _) Hsh e He).
Qed.

Lemma editor_edits g f e : (forall it, editable it -> editable (g it)) -> (forall e, fm_editor f = Some e -> editable (if_item e)) ->
  fm_editor (onEditor (setItem g) f) = Some e -> editable (if_item e).
Proof. intros Hg Hf. cbn. destruct (fm_editor f) as [e0|]; [|done]. intros [= <-]. by apply Hg, Hf. Qed.

Lemma act_open pw v d (h : W) a : good pw v h -> open_at v d -> offered (screen_of (d, h)) a -> typed_ok a ->
  exists r d' h' v', desk_do clipboard_ok a (d, h) = (r, (d', h')) /\
    good (believes pw a (d, h) (d', h')) v' h' /\ (open_at v' d' \/ locked_at v' d').
Proof.
  intros Hg Ho Hof Ht. destruct (open_screen pw v d h Hg Ho) as (l & Hl & Hsh & Hs & Hsc & _).
  assert (Hpa : dv_path v = file) by (by destruct Hg as (? & _ & _ & _ & _ & ?)).
  rewrite Hsc in Hof. apply vault_offers in Hof. pose proof Ho as (Hv & He & Hf).
  assert (Hforms : forall f, (forall e, fm_editor (f (dk_forms d)) = Some e -> editable (if_item e)) ->
    exists r d' h' v', upd_forms f (d, h) = (r, (d', h')) /\ good pw v' h' /\ (open_at v' d' \/ locked_at v' d')).
  { intros f Hfe. eexists _, _, h, v. split_and!; [reflexivity|done|left]. by apply forms_open. }
  assert (Hscreen : forall f, (forall it, vw_editing (f (ap_view (dk_app d))) = Some it -> editable it) ->
    exists r d' h' v', upd_screen f (d, h) = (r, (d', h')) /\ good pw v' h' /\ (open_at v' d' \/ locked_at v' d')).
  { intros f Hfe. destruct (screen_open f v d h Ho Hfe) as (d' & Hr & Ho' & _). exists (inl tt), d', h, v. by split_and!; [| |left]. }
  assert (Hvault : forall k, with_vault k (d, h) = k v (d, h)).
  { intros k. unfold with_vault, mbind, M_bind. cbn [gets fst]. by rewrite Hv. }
  destruct a; cbn [vault_act] in Hof; try done; cbn [desk_do]; cbn [believes].
  all: try (by apply Hforms). all: try (by apply Hscreen).
  - apply Hscreen. intros it [= <-]. apply editable_blank.
  - destruct (lift_locked d h v Ho) as (d' & Hr & Hlk). exists (inl tt), d', h, v. by split_and!; [| |right].
  - apply Hscreen. intros it [= <-]. by eapply vault_item_editable.
  - rewrite Hvault. destruct (delete_open pw v d item yes h Hg Ho) as (d' & h' & v' & Hr & Hg' & Ho').
    exists (inl tt), d', h', v'. by split_and!; [| |left].
  - unfold copyClicked. cbn [fst snd]. set (r := copy _ _ _ _ _). destruct (r.2) as [t|].
    + destruct (screen_open (flash t) v (Desk (dk_app d) (dk_forms d) r.1) h Ho He) as (d' & Hr & Ho' & _).
      exists (inl tt), d', h, v. by split_and!; [| |left].
    + eexists _, _, h, v. split_and!; [reflexivity|done|by left].
  - apply Hforms. intros e. apply editor_edits; [|done]. intros it Hit. by apply editable_set.
  - destruct (desktopPassword_host 20 h ltac:(lia)) as (np & h1 & Hp & Hd & Hu).
    destruct (lift_open (outside (desktopPassword 20)) d h np (dk_app d) h1 v v (storage_returns _ _ _ _ _ Hp) Ho Hv He)
      as (d' & Hr & Ho' & _).
    eexists (inl tt), _, h1, v. split_and!; [unfold run_host; run Hr; reflexivity| |left].
    + by eapply good_disk.
    + apply forms_open; [done|]. intros e. destruct Ho' as (_ & _ & Hf'). apply editor_edits; [|done]. intros it Hit.
      apply editable_set; [done| |done]. apply (bool_decide_unpack _). vm_compute. exact I.
  - rewrite Hvault. destruct (save_open pw v d h Hg Ho) as (d' & h' & v' & Hr & Hg' & Ho').
    exists (inl tt), d', h', v'. by split_and!; [| |left].
  - rewrite Hvault. destruct (change_open pw v d h Hg Ho) as (d' & h' & v' & Hr & Hg' & Ho').
    exists (inl tt), d', h', v'. by split_and!; [| |left].
Qed.

(** Events on an open screen. *)
Lemma event_open pw v d (h : W) s' : good pw v h -> open_at v d -> desk_event (d, h) s' ->
  good pw v s'.2 /\ (open_at v s'.1 \/ locked_at v s'.1).
Proof.
  intros Hg Ho Hev. pose proof Ho as (Hv & He & Hf).
  assert (Hpage : page_of (dk_app d) = PVault) by (unfold page_of; by rewrite Hv).
  inversion Hev as [s r s1 Hp|s r s1 Hp|s r s1 Hl|s r s1 Hp Ht|]; subst; cbn [fst] in *; try congruence.
  - destruct (lift_locked d h v Ho) as (d' & Hr & Hlk). unfold returns in Hr. rewrite Hr in Hl. injection Hl as <- <-.
    split; [done|by right].
  - destruct (screen_open dropToast v d h Ho He) as (d' & Hr & Ho' & _). unfold returns in Hr. rewrite Hr in Ht.
    injection Ht as <- <-. split; [done|by left].
  - split; [done|by left].
Qed.

(** A session with the vault that is open, with the password its user knows. *)
Inductive session_step : jsstr * S -> jsstr * S -> Prop :=
| session_act pw s a r s' : ap_vault (dk_app s.1) <> None -> offered (screen_of s) a -> typed_ok a ->
    desk_do clipboard_ok a s = (r, s') -> session_step (pw, s) (believes pw a s s', s')
| session_event pw s s' : ap_vault (dk_app s.1) <> None -> desk_event s s' -> session_step (pw, s) (pw, s').

Lemma session_holds x y : session_step x y -> holds x.1 x.2 -> holds y.1 y.2.
Proof.
  intros Hst (v & Hg & Hol). destruct Hst as [pw [d h] a r s' Hop Hof Ht Hr|pw [d h] s' Hop Hev]; cbn [fst snd] in *;
    (destruct Hol as [Ho|[Hn _]]; [|congruence]).
  - destruct (act_open pw v d h a Hg Ho Hof Ht) as (r' & d' & h' & v' & Hr' & Hg' & Ho').
    rewrite Hr' in Hr. injection Hr as <- <-. by exists v'.
  - exists v. by eapply event_open.
Qed.
(** A session given by its gestures. *)
#[global] Instance typed_ok_dec a : Decision (typed_ok a).
Proof. destruct a; cbn; apply _. Defined.
Fixpoint perform (l : list (nat * gesture)) (x : jsstr * S) : option (jsstr * S) :=
  match l with
  | [] => Some x
  | (i, g) :: l' =>
      _ ← ap_vault (dk_app x.2.1);
      a ← use (screen_of x.2) i g;
      _ ← guard (typed_ok a);
      let s' := (desk_do clipboard_ok a x.2).2 in perform l' (believes x.1 a x.2 s', s')
  end.

Lemma perform_steps l x y : perform l x = Some y -> rtc session_step x y.
Proof.
  revert x. induction l as [|[i g] l IH]; intros [pw s]; cbn [perform fst snd]; [by intros [= ->]|].
  destruct (ap_vault _) as [v|] eqn:Hv; [cbn [mbind option_bind]|done].
  destruct (use _ i g) as [a|] eqn:Hu; [cbn [mbind option_bind]|done].
  case_guard as Ht; [cbn [mbind option_bind]|done]. intros Hp. eapply rtc_l; [|exact (IH _ Hp)].
  destruct (desk_do clipboard_ok a s) as [r s'] eqn:Ha. cbn [snd].
  eapply session_act; [by rewrite Hv|by exists i, g|done|exact Ha].
Qed.

Lemma session_holds_rtc x y : rtc session_step x y -> holds x.1 x.2 -> holds y.1 y.2.
Proof. apply (rtc_invariant _ (fun x => holds x.1 x.2)). intros a b Hab. by apply session_holds. Qed.

(** The list offers each item of the vault, and only those. *)
Lemma rows_complete items id : offered (render_items [] items) (Select id) <-> id ∈ map (text_at (js "id")) items.
Proof.
  assert (Hp : desktop_list [] items ≡ₚ items).
  { etrans; [exact (proj1 (desktop_list_order [] items))|]. induction items as [|it l IH]; [done|]. cbn [List.filter].
    assert (Hm : desktop_match (to_lower []) it = true) by (unfold desktop_match; by rewrite (to_lower_ascii []) by constructor).
    by rewrite Hm, IH. }
  trans (id ∈ map (text_at (js "id")) (desktop_list [] items)); [|by rewrite (Permutation_map _ Hp)].
  clear Hp. unfold render_items. destruct (desktop_list [] items) as [|it l]; split; intros Ho.
  - offers.
  - by apply not_elem_of_nil in Ho.
  - apply offered_map in Ho as (x & [] & Hx & Hu); try discriminate Hu. injection Hu as <-.
    apply list_elem_of_fmap. by exists x.
  - apply list_elem_of_fmap in Ho as (x & -> & Hx). apply offered_map. by exists x, Press.
Qed.

Lemma list_ids l : Forall item_of l -> map (text_at (js "id")) l.*2 = l.*1.
Proof.
  induction 1 as [|e l [He _] _ IH]; [done|].
  change (text_at (js "id") e.2 :: map (text_at (js "id")) l.*2 = e.1 :: l.*1). rewrite IH. unfold text_at. by rewrite He.
Qed.

Lemma vault_rows v items w f id : fm_query f = [] ->
  id ∈ map (text_at (js "id")) items -> offered (render_vault v items w f) (Select id).
Proof.
  intros Hq Hin. unfold render_vault. apply offered_app. right. apply offered_app. right.
  apply offered_cons. right. apply offered_app. left. rewrite Hq. by apply rows_complete.
Qed.
(** Opening a vault writes the list of recents, which is another file. *)
Definition recents_apart : Prop := forall c (f : F), read_vault file (write_recents c f).2 = read_vault file f.

Lemma rememberRecent_keeps path t : recents_apart ->
  Keeps (fun h : W => read_vault file (disk h) = t) (rememberRecent path).
Proof.
  intros Hra. unfold rememberRecent. apply bind_keeps.
  { intros h Hh. unfold readRecents, catch. destruct (read_recents (disk h)) as [raw|]; [|done].
    by destruct (json_parse raw) as [[]|]. }
  intros l. apply bind_keeps; [by intros h|]. intros n. apply bind_keeps; [apply _|]. intros rest h Hh.
  unfold storeRecents. cbn [snd disk]. by rewrite Hra.
Qed.

(** The create form: it either stays, or the vault it made is on the screen and in
    the file. *)
Lemma create_open d (h : W) r d' h' : recents_apart -> ap_vault (dk_app d) = None -> ap_screen (dk_app d) = CreateAt file ->
  desk_do clipboard_ok (Create file) (d, h) = (r, (d', h')) -> ap_vault (dk_app d') <> None ->
  exists v, good (typed_in (fm_password (dk_forms d))) v h' /\ open_at v d'.
Proof.
  intros Hra Hn Hsc Hdo Hop. cbn [desk_do] in Hdo. unfold mbind, M_bind in Hdo. cbn [gets fst] in Hdo.
  set (pw := typed_in (fm_password (dk_forms d))) in *. set (again := typed_in (fm_confirm (dk_forms d))) in *.
  assert (Hstay : forall m e h1, returns (submitCreate file pw again : M (app * W) unit) (dk_app d, h) m
      (setFormError e (setFormError None (dk_app d)), h1) -> ap_vault (dk_app d') = None).
  { intros m e h1 Hm. unfold lift in Hdo. cbn [fst snd] in Hdo. rewrite Hm in Hdo. injection Hdo as _ <- _.
    unfold remount. cbn [dk_app]. unfold page_of. cbn [setFormError ap_vault ap_screen]. rewrite Hn, Hsc. done. }
  destruct (masterPasswordIssue pw) as [weak|] eqn:Hw.
  { exfalso. apply Hop, (Hstay tt (Some weak) h). unfold returns, submitCreate. by rewrite Hw. }
  destruct (str_eqb pw again) eqn:He.
  2: { exfalso. apply Hop, (Hstay tt (Some passwords_differ) h). unfold returns, submitCreate. by rewrite Hw, He. }
  assert (Hne : pw <> []) by (by intros E0; rewrite E0 in Hw).
  set (a1 := setFormError None (dk_app d)) in *.
  destruct (create_sync file pw h Hne) as [[h1 Ht]|(v & h1 & Hc & Hs & Hp & Hi)].
  { exfalso. apply Hop, (Hstay tt (Some (errMsg LibraryError)) h1). unfold returns, submitCreate. rewrite Hw, He. cbn [negb].
    eapply bind_returns; [reflexivity|cbv beta]. eapply catch_throws.
    { apply bind_throws. exact (storage_throws _ a1 _ _ _ Ht). }
    reflexivity. }
  destruct (rememberRecent file h1) as [[[]|e] h2] eqn:Hrec.
  2: { exfalso. apply Hop, (Hstay tt None h2). unfold returns, submitCreate. rewrite Hw, He. cbn [negb].
    eapply bind_returns; [reflexivity|cbv beta]. apply catch_returns. unfold returns. run (storage_returns _ a1 _ _ _ Hc).
    eapply catch_throws; [unfold throws, adopt; rewrite Hp; apply bind_throws; exact (storage_throws _ a1 _ _ _ Hrec)|reflexivity]. }
  assert (Hm : returns (submitCreate file pw again : M (app * W) unit) (dk_app d, h) tt (setVault (Some v) a1, h2)).
  { unfold returns, submitCreate. rewrite Hw, He. cbn [negb].
    eapply bind_returns; [reflexivity|cbv beta]. apply catch_returns. unfold returns. run (storage_returns _ a1 _ _ _ Hc).
    apply catch_returns. unfold returns, adopt. rewrite Hp. run (storage_returns _ a1 _ _ _ Hrec). reflexivity. }
  unfold lift in Hdo. cbn [fst snd] in Hdo. rewrite Hm in Hdo. injection Hdo as _ <- <-. exists v. split.
  - apply (good_sync _ _ []); [|by split_and!; [|constructor|constructor]|constructor|done].
    destruct Hs as (Hv & Hk & Hj & text & Hr & Ho). split_and!; [done..|]. exists text. split; [|done].
    rewrite Hp in *. pose proof (rememberRecent_keeps file (Some text) Hra h1 Hr) as Hkeep. by rewrite Hrec in Hkeep.
  - unfold open_at, remount, page_of, a1. cbn. rewrite Hn, Hsc. rewrite !bool_decide_eq_false_2 by done.
    split_and!; [done| |done]. cbn. by rewrite Hn.
Qed.
End Invariant.

(** ** Two handlers in flight

    A save waits for the encryption and for the write, a change of the password for
    the key derivation too.  Neither is stopped when the vault is locked, and both
    close over the vault they started with. *)
Section Flight.
Context {F E : Type} `{Unicode} `{WebCrypto} `{Tauri F} `{Entropy E} `{!Clock F} `{EngineText}.
Abbreviation W := (host F E).
Abbreviation S := (app * host F E)%type.

Definition commitP (v : DesktopVault) (items : list json) : proc S unit :=
  let next := with_items v items in
  file ← act (outside (saveVault (dv_state next) (encodePayload items)));
  _ ← act (outside (writeFile (dv_path next) file));
  act (upd (setVault (Some next))).

Definition saveItemP (v : DesktopVault) (item : obj) : proc S (option jsstr) :=
  w ← act (saveItem_starts v item);
  catchp (_ ← commitP v w.2; act (saveItem_ends item w.1)) (fun e => mret (Some (errMsg e))).

Definition rekeyP (v : DesktopVault) (pw : jsstr) : proc S (option jsstr) :=
  catchp
    (r ← act (outside (changeMasterPassword (dv_state v) pw (encodePayload (dv_items v)) (vs_kdf (dv_state v))));
     _ ← act (outside (writeFile (dv_path v) r.1));
     _ ← act (upd (setVault (Some {| dv_path := dv_path v; dv_state := r.2; dv_items := dv_items v |})));
     mret None)
    (fun e => mret (Some (errMsg e))).

Definition lockP (v : DesktopVault) : proc S (option jsstr) := _ ← act (lockVault v); mret None.

Lemma commit_unfold v items (s : S) : commit v items s =
  match saveVault (dv_state v) (encodePayload items) s.2 with
  | (inl f, h1) =>
      match writeFile (dv_path v) f h1 with
      | (inl _, h2) => (inl tt, (setVault (Some (with_items v items)) s.1, h2))
      | (inr e, h2) => (inr e, (s.1, h2))
      end
  | (inr e, h1) => (inr e, (s.1, h1))
  end.
Proof.
  unfold commit, persist, outside, mbind, M_bind. cbn [with_items dv_state dv_items dv_path].
  destruct (saveVault _ _ _) as [[f|e] h1]; [|done]. by destruct (writeFile _ f h1) as [[[]|e] h2].
Qed.

Lemma run_outside_bind {A B} (m : M W A) (k : A -> proc S B) (s : S) :
  run_proc (act (outside m) ≫= k) s =
  match m s.2 with (inl a, h') => run_proc (k a) (s.1, h') | (inr e, h') => (inr e, (s.1, h')) end.
Proof. rewrite run_act_bind. unfold outside. by destruct (m s.2) as [[a|e] h']. Qed.

Lemma run_commitP v items (s : S) : run_proc (commitP v items) s = commit v items s.
Proof.
  rewrite commit_unfold. unfold commitP. rewrite run_outside_bind. cbn [with_items dv_state dv_path].
  destruct (saveVault _ _ _) as [[f|e] h1]; [|done]. rewrite run_outside_bind. cbn [fst snd].
  destruct (writeFile _ f h1) as [[[]|e] h2]; [|done]. by rewrite run_act.
Qed.

(** Run alone, the process is [saveItem] of DesktopApp. *)
Lemma run_saveItemP v item (s : S) : run_proc (saveItemP v item) s = saveItem v item s.
Proof.
  unfold saveItemP. rewrite run_act_bind.
  assert (Hk : forall w items s1,
    run_proc (catchp (_ ← commitP v items; act (saveItem_ends item w)) (fun e => mret (Some (errMsg e)))) s1 =
    catch (_ ← commit v items; saveItem_ends item w) (fun e => mret (Some (errMsg e))) s1).
  { intros w items s1. rewrite run_catch. unfold catch. rewrite run_bind. unfold mbind, M_bind. rewrite run_commitP.
    destruct (commit v items s1) as [[[]|e] s2]; [rewrite run_act|done]. by destruct (saveItem_ends item w s2) as [[a|e] s3]. }
  rewrite saveItem_split. destruct (saveItem_starts v item s) as [[w|e] s1]; [by rewrite Hk|done].
Qed.
(** With a disk that takes every write. *)
Definition writable (path : jsstr) : Prop := forall c (f : F), (write_vault path c f).1 = true.

Lemma save_after pw v l item i0 a b (h : W) : writable (dv_path v) ->
  in_sync pw v h -> lists v l -> json_ok (JObj item) -> obj_get (js "id") item = Some (JStr i0) ->
  exists id w h1 h2 b2, saveItem_starts v item (a, h) = (inl (w, items_of (put_item id w l)), (a, h1)) /\ disk h1 = disk h /\
    run_proc (catchp (_ ← commitP v (items_of (put_item id w l)); act (saveItem_ends item w)) (fun e => mret (Some (errMsg e))))
      (b, h1) = (inl None, (b2, h2)) /\
    ap_vault b2 = Some (with_items v (items_of (put_item id w l))) /\
    in_sync pw (with_items v (items_of (put_item id w l))) h2 /\ item_of (id, w).
Proof.
  intros Hwr Hs Hl Hj Hid. destruct (saveItem_starts_spec pw v l item i0 a h (sync_held _ _ _ Hs) Hl Hj Hid) as (id & w & h1 & Hw & Hdk & Hi & Hjw & Hjs & _).
  destruct (commit_outcomes pw v (items_of (put_item id w l)) b h1 (sync_held _ _ _ Hs) Hjs)
    as [(h2 & _ & (c & Hf & _))|(h2 & Hc & Hs2)]; [by rewrite Hwr in Hf|].
  exists id, w, h1, h2. eexists. split; [exact Hw|]. split; [done|]. split.
  - rewrite run_catch. apply catch_returns. unfold returns. rewrite run_bind.
    eapply bind_returns; [unfold returns; rewrite run_commitP; exact Hc|]. cbv beta. rewrite run_act. reflexivity.
  - done.
Qed.
End Flight.


(** ** Theorems *)
Section Theorems.
Context {F E : Type} `{Unicode} `{Collation} `{WebCrypto} `{Tauri F} `{Entropy E} `{!Clock F} `{EngineText}.
Context (clipboard_ok : F -> bool).

(** C9: The life of a vault made in the app: from the create form on, whatever the
    user does with what the screen offers, and whatever timers run, there is one
    vault, which is on the screen as long as it is open: the screen can be rendered
    and offers each of its items, and once it is locked the unlock form for its file
    is shown.  Its file opens with the password the user knows (the last one
    accepted) to exactly this vault, unless the last write to it was refused: what
    such a write leaves in the file is unknown, and only the next one that is
    accepted puts the vault there.  The list of recents is assumed to be another
    file. *)
Theorem desktop_session path d (h : host F E) r s0 pw' s'
  (Hra : recents_apart (F := F) path)
  (Hn : ap_vault (dk_app d) = None) (Hsc : ap_screen (dk_app d) = CreateAt path)
  (Hc : desk_do clipboard_ok (Create path) (d, h) = (r, s0)) (Hop : ap_vault (dk_app s0.1) <> None)
  (Hr : rtc (session_step clipboard_ok) (typed_in (fm_password (dk_forms d)), s0) (pw', s')) :
  exists v l, lists v l /\ dv_path v = path /\
    (returns (openExistingVault path pw') s'.2 v s'.2 \/
     exists c f, (write_vault path c f).1 = false /\ disk s'.2 = (write_vault path c f).2) /\
    (ap_vault (dk_app s'.1) = Some v /\ (exists sc, render s'.1 = Some sc /\
       (fm_query (dk_forms s'.1) = [] -> forall id, id ∈ l.*1 -> offered sc (Select id))) \/
     exists password error, render s'.1 = Some (render_unlock false path password error)).
Proof.
  destruct s0 as [d0 h0]. destruct (create_open clipboard_ok path d h r d0 h0 Hra Hn Hsc Hc Hop) as (v0 & Hg & Ho).
  apply (session_holds_rtc clipboard_ok path) in Hr; [|by exists v0; split; [|left]].
  destruct Hr as (v & Hg' & Hol). destruct s' as [d' h']. cbn [fst snd] in *.
  pose proof Hg' as (l0 & _ & Hfile & Hl0 & _ & Hpath).
  assert (Hopen : returns (openExistingVault path pw') h' v h' \/
     exists c f, (write_vault path c f).1 = false /\ disk h' = (write_vault path c f).2).
  { destruct Hfile as [Hs|Ht]; [left; rewrite <- Hpath; by apply sync_opens|by right]. }
  destruct Hol as [Ho'|[Hn' Hsc']].
  - destruct (open_screen path pw' v d' h' Hg' Ho') as (l & Hl & _ & _ & Hren & Hsome).
    exists v, l. split; [done|]. split; [done|]. split; [done|]. left. destruct Ho' as (Hv' & _). split; [done|].
    eexists. split; [exact Hsome|]. intros Hq id Hin. rewrite Hren. apply vault_rows; [done|].
    destruct Hl as (_ & _ & Hf). by rewrite list_ids.
  - exists v, l0. split; [done|]. split; [done|]. split; [done|]. right.
    eexists _, _. unfold render. by rewrite Hn', Hsc', Hpath.
Qed.

(** What a refused write can cost, on a disk that empties the file before it writes:
    the save says that it failed and the vault stays on the screen, but after a lock
    no password opens the file any more. *)
Theorem refused_save_loses pw v items (h : host F E)
  (Hs : held (F := F) (E := E) pw v) (Hj : Forall json_ok items)
  (Hno : forall c, (write_vault (dv_path v) c (disk h)).1 = false /\
     read_vault (dv_path v) (write_vault (dv_path v) c (disk h)).2 = Some []) :
  exists h', throws (persist (with_items v items)) h LibraryError h' /\
    forall pw', exists e, throws (openExistingVault (dv_path v) pw') h' e h'.
Proof.
  destruct Hs as (Hv & _ & _).
  destruct (saveVault_opens pw (dv_state v) (encodePayload items) h Hv) as (f1 & h1 & Hsv & _);
    [by apply payload_text_ok|].
  destruct (Hno f1) as [Hf He]. rewrite <- (saveVault_disk _ _ _ _ _ Hsv) in Hf, He. set (h2 := Host (write_vault (dv_path v) f1 (disk h1)).2 (entropy h1)).
  exists h2. split.
  - assert (Hw : throws (writeFile (dv_path v) f1) h1 LibraryError h2) by (unfold throws, writeFile; by rewrite Hf).
    unfold throws, persist. by run Hsv.
  - intros pw'. exists not_valid_vault. unfold throws, openExistingVault.
    assert (Hr : returns (readFile (dv_path v)) h2 [] h2) by (unfold returns, readFile; cbn [disk h2]; by rewrite He).
    run Hr. apply bind_throws. reflexivity.
Qed.

(** What is not revealed is not on the screen: the pane of an item looks the same
    for any two passwords, of whatever lengths, and the forms for any two of the same
    length. *)
Theorem desktop_hides_passwords it p busy path v w error
  (Hp : p <> []) (Hit : text_at (js "password") it <> []) (Hl : length v = length w) :
  alike (ItemDetail false (set (js "password") p it)) (ItemDetail false it) /\
  alike (render_unlock busy path (Entry v false) error) (render_unlock busy path (Entry w false) error) /\
  alike (render_create busy path (Entry v false) (Entry v false) error) (render_create busy path (Entry w false) (Entry w false) error).
Proof.
  split_and!.
  - pose proof (text_set_ne (js "password") p it) as Hk.
    unfold ItemDetail, name_text, delete_question.
    rewrite text_set, !(Hk (js "name")), (Hk (js "username")), (Hk (js "url")), (Hk (js "notes")) by (vm_compute; discriminate).
    rewrite !bool_decide_eq_false_2 by done. destruct p; [done|]. destruct (text_at (js "password") it); [done|].
    unfold alike, shown. rewrite !map_app. reflexivity.
  - unfold render_unlock. repeat (apply app_alike; [try reflexivity; by apply password_field_hides|]). reflexivity.
  - unfold render_create. apply app_alike; [reflexivity|]. apply app_alike; [by apply password_field_hides|]. apply cons_alike.
    apply app_alike; [by apply password_field_hides|]. reflexivity.
Qed.

(** A lock does not stop a save that is in flight: when its write has gone through,
    the handler puts the vault it had closed over back on the screen, and the app
    that was locked is open again, without a password. *)
Theorem late_save_reopens pw v l item i0 a (h : host F E)
  (Hwr : writable (F := F) (dv_path v)) (Hs : in_sync pw v h) (Hl : lists v l)
  (Hj : json_ok (JObj item)) (Hid : obj_get (js "id") item = Some (JStr i0)) :
  exists p mid fin v',
    rtc pool_step ((a, h), [saveItemP v item; lockP v]) (mid, [p; Done (inl None)]) /\ ap_vault mid.1 = None /\
    rtc pool_step (mid, [p; Done (inl None)]) (fin, [Done (inl None); Done (inl None)]) /\ ap_vault fin.1 = Some v'.
Proof.
  set (b := setVault None (setScreen (UnlockAt (dv_path v)) a)).
  destruct (save_after pw v l item i0 a b h Hwr Hs Hl Hj Hid) as (id & w & h1 & h2 & b2 & Hst & _ & Hrest & Hv & _).
  eexists _, (b, h1), (b2, h2), _. split_and!; [|done| |exact Hv].
  - eapply rtc_l; [exact (pool_first _ _ 0 _ [saveItemP v item; lockP v] _ _ eq_refl Hst)|].
    eapply (pool_run (lockP v) 1 [_; lockP v] _ (inl None) (b, h1)); reflexivity.
  - by refine (pool_run _ 0 [_; Done (inl None)] _ _ _ _ Hrest).
Qed.

(** An item saved while a new master password is being derived is lost: the save
    ends without an error, and then the vault as it was before it is written over it
    and shown. *)
Theorem rekey_drops_item pw pw' v l item i0 a (h : host F E)
  (Hwr : writable (F := F) (dv_path v)) (Hs : in_sync pw v h) (Hl : lists v l) (Hp : pw' <> [])
  (Hj : json_ok (JObj item)) (Hid : obj_get (js "id") item = Some (JStr i0)) :
  exists mid fin id w v',
    rtc pool_step ((a, h), [rekeyP v pw'; saveItemP v item]) mid /\ mid.2 !! 1%nat = Some (Done (inl None)) /\
    in_sync pw (with_items v (items_of (put_item id w l))) mid.1.2 /\
    rtc pool_step mid (fin, [Done (inl None); Done (inl None)]) /\
    ap_vault fin.1 = Some v' /\ dv_items v' = dv_items v /\ in_sync pw' v' fin.2.
Proof.
  pose proof Hs as (Hvk & Hk & Hi & _).
  destruct (changeMasterPassword_ok (dv_state v) pw' (encodePayload (dv_items v)) DEFAULT_KDF h)
    as (f1 & next & h1 & Hc & Hvn & Hun & Hkn & Ho1);
    [by eapply vault_ok_key|done|by apply payload_text_ok|apply default_kdf_ok|by apply json_okb_ok; vm_compute|].
  rewrite <- Hk in Hc. pose proof (changeMasterPassword_disk _ _ _ _ _ _ _ Hc) as Hd1.
  destruct (save_after pw v l item i0 a a h1 Hwr (sync_disk _ _ _ _ Hs Hd1) Hl Hj Hid)
    as (id & w & h2 & h3 & b & Hst & _ & Hrest & Hv & Hs3 & _).
  destruct (writeFile_outcomes (dv_path v) f1 h3) as [(h4 & _ & (c & Hf & _))|(h4 & Hw & Hrd)]; [by rewrite Hwr in Hf|].
  set (rest := fun r : jsstr * VaultState => catchp
    (_ ← act (outside (writeFile (dv_path v) r.1));
     _ ← act (upd (setVault (Some {| dv_path := dv_path v; dv_state := r.2; dv_items := dv_items v |})));
     mret None : proc (app * host F E) (option jsstr)) (fun e => mret (Some (errMsg e)))).
  set (v2 := {| dv_path := dv_path v; dv_state := next; dv_items := dv_items v |}).
  eexists ((b, h3), [rest (f1, next); Done (inl None)]), (setVault (Some v2) b, h4), id, w, v2.
  split_and!; [|done|done| |done|done|].
  - eapply rtc_l.
    { eapply (pool_act (a, h) [rekeyP v pw'; saveItemP v item] 0 _ (rest (f1, next)) (a, h1)); [reflexivity|].
      unfold outside. cbn [fst snd]. by rewrite Hc. }
    eapply (pool_run (saveItemP v item) 1 [_; saveItemP v item]); [reflexivity|].
    unfold saveItemP. rewrite run_act_bind, Hst. exact Hrest.
  - eapply (pool_run (rest (f1, next)) 0 [_; _]); [reflexivity|]. unfold rest. rewrite run_catch. apply catch_returns.
    unfold returns. rewrite run_outside_bind. cbn [fst snd]. rewrite Hw. rewrite run_act_bind. reflexivity.
  - split_and!; [done..|]. exists f1. by split.
Qed.
End Theorems.

(** ** A session *)
#[local] Existing Instances latin1_unicode model_crypto lcg_entropy map_tauri fixed_clock plain_errors.
#[local] Program Instance one_place : Collation := {| localeCompare _ _ := 0 |}.
Solve Obligations with lia.

Definition clipboard_open (f : files) : bool := true.
Definition typed_password : entry := Entry first_password false.
Definition create_form : desk :=
  Desk (setScreen (CreateAt sample_path) launched) (Forms [] typed_password typed_password [] false None None) empty_board.
Definition made : desk * host files Z := (desk_do clipboard_open (Create sample_path) (create_form, empty_host None)).2.

(** Add an item with a generated password, and change the master password. *)
Definition clicks : list (nat * gesture) :=
  [(2%nat, Press); (10%nat, Enter (js "bank")); (17%nat, Press); (21%nat, Press);
   (3%nat, Press); (21%nat, Enter (js "second password")); (24%nat, Enter (js "second password")); (27%nat, Press);
   (4%nat, Press)].
Definition played : jsstr * (desk * host files Z) :=
  default (first_password, made) (perform clipboard_open clicks (first_password, made)).

Lemma desktop_session_witness : exists v l, lists v l /\ dv_path v = sample_path /\
  (returns (openExistingVault sample_path (js "second password")) played.2.2 v played.2.2 \/
     exists c f, (write_vault sample_path c f).1 = false /\ disk played.2.2 = (write_vault sample_path c f).2) /\
    (ap_vault (dk_app played.2.1) = Some v /\ (exists sc, render played.2.1 = Some sc /\
       (fm_query (dk_forms played.2.1) = [] -> forall id, id ∈ l.*1 -> offered sc (Select id))) \/
     exists password error, render played.2.1 = Some (render_unlock false sample_path password error)).
Proof.
  assert (Hp : played.1 = js "second password") by (vm_compute; reflexivity). rewrite <- Hp.
  apply (desktop_session clipboard_open sample_path create_form (empty_host None) (inl tt) made played.1 played.2).
  - intros c f. reflexivity.
  - reflexivity.
  - reflexivity.
  - vm_compute. reflexivity.
  - vm_compute. discriminate.
  - replace (played.1, played.2) with played by (by destruct played). apply (perform_steps _ clicks). vm_compute. reflexivity.
Defined.

Lemma desktop_hides_passwords_witness (it := set (js "password") (js "hunter2") blankItem) :
  alike (ItemDetail false (set (js "password") (js "a much longer password") it)) (ItemDetail false it) /\
  alike (render_unlock false sample_path (Entry (js "first") false) None) (render_unlock false sample_path (Entry (js "other") false) None) /\
  alike (render_create false sample_path (Entry (js "first") false) (Entry (js "first") false) None)
    (render_create false sample_path (Entry (js "other") false) (Entry (js "other") false) None).
Proof. apply (desktop_hides_passwords it (js "a much longer password")); [discriminate|vm_compute; discriminate|reflexivity]. Defined.

(** A disk that runs full, and then empties what it was to write. *)
#[local] Program Instance filling : Tauri (files * bool) := {|
  read_vault p f := fl_vaults f.1 !! p;
  write_vault p c f :=
    (negb f.2, ({| fl_vaults := <[p := if f.2 : bool then [] else c]> (fl_vaults f.1); fl_recents := fl_recents f.1 |}, f.2));
  vault_exists p f := Some (bool_decide (is_Some (fl_vaults f.1 !! p)));
  read_recents f := Some (default (js "[]") (fl_recents f.1));
  write_recents c f := (true, ({| fl_vaults := fl_vaults f.1; fl_recents := Some c |}, f.2));
  open_dialog f := (Some JNull, f);
  save_dialog f := (Some None, f);
|}.
Next Obligation. intros p c [f []]; [done|]. intros _. apply lookup_insert_eq. Qed.
Next Obligation. done. Qed.

Lemma refused_save_loses_witness : exists v (h h' : host (files * bool) Z),
  throws (persist (with_items v [sample_item])) h LibraryError h' /\
    forall pw', exists e, throws (openExistingVault (dv_path v) pw') h' e h'.
Proof.
  destruct (create_sync sample_path first_password (Host ({| fl_vaults := ∅; fl_recents := None |}, false) 42 : host (files * bool) Z))
    as [[h' Ht]|(v & h & _ & Hs & _)]; [done| |].
  - exfalso. vm_compute in Ht. discriminate Ht.
  - exists v, (Host ((disk h).1, true) (entropy h)).
    apply (refused_save_loses first_password v [sample_item]); [by eapply sync_held| |].
    + constructor; [apply json_okb_ok; vm_compute; reflexivity|constructor].
    + intros c. split; [done|]. apply lookup_insert_eq.
Defined.
