(* ===== verification/TransferUi.v ===== *)
(** The import and export dialog as it is rendered: apps/web/src/ImportExport.tsx,
    over the state machine of Transfer.v. *)
From stdpp Require Import relations.
From S2P Require Import Prelude Text Numeral Json JsonFacts Encoding JsonText Effects Process Platform Primitives.
From S2P Require Import Kdf Account Backup Objects Items Portable Api Session Background Views Transfer.
From S2P Require Import AsyncButton Ui.

Inductive dialog_act :=
| ExportPlain (kind : export_kind) | TypeExport (t : jsstr) | PeekExport | ExportEncrypted
| ChooseFile (text : jsstr) | TypePass (t : jsstr) | PeekPass | Decrypt | CancelImport | RunImport | Close.

(** The dialog with the reveals of its two password fields, while it is open. *)
Record dialog_state := Dialog { dg_open : bool; dg_state : transfer; dg_plainExport : bool; dg_plainImport : bool }.

Definition count_of (n : Z) : jsstr := dec n ++ js " item" ++ plural n.

(** [{encrypted && !parsed && ...}] *)
Definition asks_passphrase (t : transfer) : bool :=
  match encrypted t, parsed t with Some (_ :: _), None => true | _, _ => false end.

Definition render_dialog (items : list obj) (exporting importing : button_state) (d : dialog_state) : screen dialog_act :=
  let t := dg_state d in
  let total := Z.of_nat (length items) in
  [Say (js "Import / export"); Say (js "Export"); Say (count_of total ++ js " in this vault.");
   Say (js "Plain exports are unencrypted and contain every password in clear text. Store them briefly, then delete.");
   btn (js "Plain JSON") (ExportPlain PlainJSON); btn (js "CSV") (ExportPlain PlainCSV);
   Say (js "Encrypted backup passphrase")]
  ++ PasswordField (js "protects the backup file") (Entry (exportPass t) (dg_plainExport d)) TypeExport PeekExport
  ++ say_some (exportErr t)
  ++ [render_button (js "Download encrypted backup") (js "Encrypting") (js "Downloaded") exporting ExportEncrypted;
      Say (js "Import");
      Say (js "From a passwd backup, plain JSON, or a CSV exported by another manager (Bitwarden, Chrome, and similar).");
      Field [] false [] ChooseFile]
  ++ when (asks_passphrase t)
       (Say (js "Backup passphrase")
        :: PasswordField (js "passphrase for this backup") (Entry (importPass t) (dg_plainImport d)) TypePass PeekPass
        ++ [btn (js "Decrypt") Decrypt])
  ++ say_some (importErr t)
  ++ match parsed t with
     | None => []
     | Some l =>
         let n := Z.of_nat (length l) in
         [Say (js "Ready to import " ++ count_of n ++ js ". They are added to your vault (existing items are kept).");
          btn (js "Cancel") CancelImport;
          render_button (js "Import " ++ count_of n) (js "Importing") (js "Done") importing RunImport]
     end
  ++ match progress t with
     | Some (done, total) => [Say (js "Importing " ++ dec done ++ js " / " ++ dec total ++ js "...")]
     | None => []
     end
  ++ say_some (result t)
  ++ [btn (js "Close") Close].

Section Dialog.
Context {N E : Type} `{Unicode} `{WebCrypto} `{Environment N} `{Entropy E} `{EngineText}.
Abbreviation W := (world N E).
Abbreviation S := (dialog_state * world N E)%type.
Context (session : Session) (items : list obj) (today : jsstr).

(** A handler of the dialog; a prompt that goes away forgets its reveal. *)
Definition on_transfer {A} (m : M (transfer * W) A) : M S A := fun s =>
  let '(r, (t, w)) := m (dg_state s.1, s.2) in
  (r, (Dialog (dg_open s.1) t (dg_plainExport s.1) (asks_passphrase t && dg_plainImport s.1), w)).
Definition on_dialog (f : dialog_state -> dialog_state) : M S unit := modify (fun s => (f s.1, s.2)).

Definition dialog_do (a : dialog_act) : M S unit :=
  match a with
  | ExportPlain kind => on_transfer (exportPlain items today kind)
  | TypeExport v => on_transfer (upd (fun t => set_export v (exportErr t) t))
  | PeekExport => on_dialog (fun d => Dialog (dg_open d) (dg_state d) (negb (dg_plainExport d)) (dg_plainImport d))
  | ExportEncrypted => on_transfer (_ ← exportEncrypted items today; mret tt)
  | ChooseFile text => on_transfer (onFile (Some text))
  | TypePass v => on_transfer (typePassphrase v)
  | PeekPass => on_dialog (fun d => Dialog (dg_open d) (dg_state d) (dg_plainExport d) (negb (dg_plainImport d)))
  | Decrypt => on_transfer decrypt
  | CancelImport => on_transfer resetImport
  | RunImport => on_transfer (runImport session)
  | Close => on_dialog (fun d => Dialog false (dg_state d) (dg_plainExport d) (dg_plainImport d))
  end.

Definition dialog_screen (s : S) : screen dialog_act := if dg_open s.1 then render_dialog items Idle Idle s.1 else [].
Definition dialog_step : relation S := ui_step dialog_screen dialog_do (fun _ _ => False).
Definition fresh_dialog : dialog_state :=
  Dialog true {| exportPass := []; exportErr := None; encrypted := None; importPass := []; parsed := None;
     importErr := None; result := None; progress := None; downloads := []; imported := 0 |} false false.

(** ** Laws *)

Lemma offers_decrypt d : offered (render_dialog items Idle Idle d) Decrypt -> asks_passphrase (dg_state d) = true.
Proof.
  unfold render_dialog, PasswordField, render_button. intros Ho. offers; try discriminate; try done.
  - destruct (parsed (dg_state d)) as [l|]; cbv iota zeta in Ho; offers; discriminate.
  - destruct (progress (dg_state d)) as [[a b]|]; cbv iota in Ho; offers; discriminate.
Qed.

Lemma offers_import d : offered (render_dialog items Idle Idle d) RunImport -> exists l, parsed (dg_state d) = Some l.
Proof.
  unfold render_dialog, PasswordField, render_button. intros Ho. offers; try discriminate.
  - destruct (parsed (dg_state d)) as [l|]; [by exists l|]. cbv iota in Ho. offers.
  - destruct (progress (dg_state d)) as [[a b]|]; cbv iota in Ho; offers; discriminate.
Qed.

(** A preview is never empty and never comes with an error, and a result has none. *)
Definition coherent (t : transfer) : Prop :=
  (forall l, parsed t = Some l -> l <> [] /\ importErr t = None) /\ progress t = None.

Abbreviation T := (transfer * world N E)%type.
Abbreviation fine := (fun s : T => coherent s.1).

Lemma upd_fine f : (forall t, coherent t -> coherent (f t)) -> Keeps fine (upd f).
Proof. intros Hf [t w] Ht. by apply Hf. Qed.

Lemma outside_fine {A} (m : M W A) : Keeps fine (outside m).
Proof. intros [t w] Ht. unfold outside. cbn [fst snd]. by destruct (m w) as [r w']. Qed.

Lemma tryParse_fine text : Keeps fine (tryParse text).
Proof.
  intros [t w] [_ Hp]. destruct (tryParse_outcomes text t w) as (t' & Hr & _ & Ho). unfold returns in Hr. rewrite Hr. cbn [fst snd].
  assert (Hpr : progress t' = progress t).
  { revert Hr. unfold tryParse. destruct (parseVaultImport text); intros [= <-]; done. }
  split; [|by rewrite Hpr]. intros l Hl. destruct Ho as [(l' & Hl' & Hne & He)|(e & Hn & _)]; [|congruence].
  by assert (l' = l) as -> by congruence.
Qed.

Lemma reset_coherent t : coherent (set_result None None None (set_import None [] None None t)).
Proof. by split. Qed.

Lemma onFile_fine file : Keeps fine (onFile file).
Proof.
  unfold onFile, resetImport. intros [t w] Ht. unfold mbind, M_bind, upd at 1, modify. cbn [fst snd].
  pose proof (reset_coherent t) as Hr. destruct file as [text|]; [|done]. destruct (isBackupEnvelope text); [done|].
  by apply (tryParse_fine text (_, w)).
Qed.

Lemma exportEncrypted_fine : Keeps fine (exportEncrypted items today).
Proof.
  unfold exportEncrypted, download. apply bind_keeps; [by apply upd_fine|intros _]. apply bind_keeps; [by intros s|intros t].
  case_match; [apply bind_keeps; [by apply upd_fine|intros _; apply _]|].
  apply bind_keeps; [apply _|intros plain]. apply bind_keeps; [apply outside_fine|intros text].
  apply bind_keeps; [by apply upd_fine|intros _]. apply bind_keeps; [by apply upd_fine|intros _; apply _].
Qed.

Lemma exportPlain_fine k : Keeps fine (exportPlain items today k).
Proof. unfold exportPlain, download. apply bind_keeps; [apply _|intros text]. by destruct k; apply upd_fine. Qed.

Lemma runImport_fine : Keeps fine (runImport session).
Proof.
  intros [t w] Ht. unfold runImport, mbind, M_bind. cbn [current gets fst]. destruct (parsed t) as [l|]; [|done].
  unfold outside. cbn [fst snd]. destruct (importItems _ _ _ w) as [[r|e] w']; [|done]. by split.
Qed.

Lemma decrypt_fine (t : transfer) (w : W) : coherent t -> parsed t = None -> coherent (decrypt (t, w)).2.1.
Proof.
  intros Ht Hn. unfold decrypt, mbind, M_bind. cbn [current gets fst snd]. destruct (encrypted t) as [[|u e]|]; [done| |done].
  cbn [upd modify fst snd]. unfold catch. set (t1 := set_import _ _ _ _ _).
  assert (Ht1 : coherent t1) by (split; [intros l Hl; cbn in Hl; congruence|by destruct Ht]).
  unfold outside. cbn [fst snd]. destruct (decryptBackup _ _ w) as [[text|e1] w1].
  - pose proof (tryParse_fine text (t1, w1) Ht1) as Hp. unfold tryParse in *. by destruct (parseVaultImport text).
  - split; [|by destruct Ht]. intros l Hl. cbn in Hl. congruence.
Qed.

Definition ok (s : S) : Prop := coherent (dg_state s.1).

Lemma on_transfer_ok {A} (m : M T A) s : Keeps fine m -> ok s -> ok (on_transfer m s).2.
Proof.
  intros Hm Hs. unfold on_transfer. specialize (Hm (dg_state s.1, s.2) Hs). by destruct (m _) as [r [t w]].
Qed.

Lemma dialog_act_ok a s : offered (dialog_screen s) a -> ok s -> ok (dialog_do a s).2.
Proof.
  unfold dialog_screen. destruct (dg_open s.1); [|by intros ?%offered_nil]. intros Ho Hs.
  destruct a; cbn [dialog_do]; try done;
    try lazymatch goal with |- ok (on_transfer decrypt _).2 => idtac | |- _ => apply on_transfer_ok; [|done] end.
  all: try first [apply exportPlain_fine | apply onFile_fine | apply runImport_fine | apply upd_fine; done].
  - apply bind_keeps; [apply exportEncrypted_fine|intros ?; apply _].
  - apply offers_decrypt in Ho. unfold on_transfer, ok.
    assert (Hn : parsed (dg_state s.1) = None) by (unfold asks_passphrase in Ho; by repeat case_match).
    pose proof (decrypt_fine (dg_state s.1) s.2 Hs Hn) as Hd. by destruct (decrypt _) as [r [t w]].
Qed.
Lemma run_import_ran s l r w' : parsed (dg_state s.1) = Some l ->
  importItems session l (fun _ _ => mret tt) s.2 = (inl r, w') ->
  let t' := count_import (set_result None (Some (import_summary r.1 r.2)) None (dg_state s.1)) in
  returns (dialog_do RunImport : M S unit) s tt
    (Dialog (dg_open s.1) t' (dg_plainExport s.1) (asks_passphrase t' && dg_plainImport s.1), w').
Proof.
  intros Hl Hi. unfold returns, dialog_do, on_transfer.
  assert (Hr : returns (runImport session) (dg_state s.1, s.2) tt
      (count_import (set_result None (Some (import_summary r.1 r.2)) None (dg_state s.1)), w')).
  { unfold returns, runImport. eapply bind_returns; [reflexivity|cbv beta]. cbn [fst]. rewrite Hl.
    run (dialog_returns _ (dg_state s.1) _ _ _ Hi). reflexivity. }
  unfold returns in Hr. by rewrite Hr.
Qed.

End Dialog.

(** ** Theorems *)
Section Theorems.
Context {N E : Type} `{Unicode} `{WebCrypto} `{Environment N} `{Entropy E} `{EngineText}.
Abbreviation S := (dialog_state * world N E)%type.
Context (session : Session) (items : list obj) (today : jsstr).

(** C19: What is previewed is what is imported, and once: whatever was chosen, typed,
    decrypted, cancelled and exported before, when the dialog offers to import, it
    shows no error and how many items, at least one, there are; pressing the button
    imports exactly those and says how it went, and after that there is nothing left
    to import without choosing or decrypting again. *)
Theorem dialog_imports_preview (w : world N E) s
  (Hr : rtc (dialog_step session items today) (fresh_dialog, w) s) (Ho : offered (dialog_screen items s) RunImport) :
  exists l, parsed (dg_state s.1) = Some l /\ l <> [] /\ importErr (dg_state s.1) = None /\
    js "Ready to import " ++ count_of (Z.of_nat (length l)) ++ js ". They are added to your vault (existing items are kept)."
      ∈ shown (dialog_screen items s) /\
    forall r w', importItems session l (fun _ _ => mret tt) s.2 = (inl r, w') ->
      exists d', returns (dialog_do session items today RunImport) s tt (d', w') /\
        import_summary r.1 r.2 ∈ shown (dialog_screen items (d', w')) /\ ~ offered (dialog_screen items (d', w')) RunImport.
Proof.
  assert (Hok : ok s).
  { revert Hr. intros Hr. apply (ui_invariant _ _ _ ok) in Hr; [done|..|by split].
    - intros s0 a r s1 Hs Hof Ha. pose proof (dialog_act_ok session items today a s0 Hof Hs) as Hk. by rewrite Ha in Hk.
    - done. }
  assert (Hop : dg_open s.1 = true).
  { unfold dialog_screen in Ho. destruct (dg_open s.1); [done|]. by apply offered_nil in Ho. }
  assert (Hsc : dialog_screen items s = render_dialog items Idle Idle s.1) by (unfold dialog_screen; by rewrite Hop).
  rewrite Hsc in *. destruct (offers_import _ _ Ho) as (l & Hl). destruct (proj1 Hok l Hl) as [Hne He].
  exists l. split_and!; [done..| |].
  - apply say_shown. unfold render_dialog. rewrite Hl. cbv zeta iota. find_text.
  - intros r w' Hi. eexists. split; [exact (run_import_ran session items today s l r w' Hl Hi)|]. unfold dialog_screen. cbn [fst dg_open].
    rewrite Hop. split.
    + apply say_shown. unfold render_dialog. cbn [dg_state count_import set_result parsed progress result].
      rewrite say_some_text by done. cbv zeta. find_text.
    + intros [l' Hl']%offers_import. done.
Qed.
End Theorems.

Section Findings.
Context {N E : Type} `{Unicode} `{WebCrypto} `{Environment N} `{Entropy E} `{EngineText}.
Abbreviation S := (dialog_state * world N E)%type.
Context (session : Session) (items : list obj) (today : jsstr).

(** The envelope and the passphrase outlive the import: once a backup has been
    imported, the dialog asks for its passphrase again, with the passphrase filled
    in, and one press on Decrypt offers the same items a second time. *)
Theorem imported_backup_offered_again d (w w' w2 : world N E) envelope text l r
  (Hop : dg_open d = true) (He : encrypted (dg_state d) = Some envelope) (Hne : envelope <> [])
  (Hl : parsed (dg_state d) = Some l) (Hp : parseVaultImport text = inl l)
  (Hi : importItems session l (fun _ _ => mret tt) w = (inl r, w'))
  (Hd : returns (decryptBackup envelope (importPass (dg_state d))) w' text w2) :
  exists d1 d2, returns (dialog_do session items today RunImport) (d, w) tt (d1, w') /\
    offered (dialog_screen items (d1, w')) Decrypt /\
    returns (dialog_do session items today Decrypt) (d1, w') tt (d2, w2) /\
    parsed (dg_state d2) = Some l /\ offered (dialog_screen items (d2, w2)) RunImport.
Proof.
  destruct envelope as [|u e]; [done|].
  pose proof (run_import_ran session items today (d, w) l r w' Hl Hi) as Hrun. cbv zeta in Hrun. cbn [fst snd] in Hrun.
  set (t1 := count_import _) in Hrun.
  assert (He1 : encrypted t1 = Some (u :: e)) by exact He.
  assert (Ha : asks_passphrase t1 = true) by (unfold asks_passphrase; by rewrite He1).
  eexists _, _. split; [exact Hrun|]. unfold dialog_screen. cbn [fst dg_open]. rewrite Hop. split_and!.
  - unfold render_dialog. cbn [dg_state]. find_node ltac:(exact Ha).
  - unfold returns, dialog_do, on_transfer. cbn [fst snd dg_state].
    assert (Hdec : returns decrypt (t1, w') tt (set_import (Some (u :: e)) (importPass t1) (Some l) None
        (set_import (encrypted t1) (importPass t1) (parsed t1) None t1), w2)).
    { unfold returns, decrypt. eapply bind_returns; [reflexivity|cbv beta]. cbn [fst]. rewrite He1.
      eapply bind_returns; [reflexivity|cbv beta]. apply catch_returns. unfold returns.
      run (dialog_returns _ (set_import (encrypted t1) (importPass t1) (parsed t1) None t1) _ _ _ Hd).
      unfold tryParse. rewrite Hp, He1. reflexivity. }
    unfold returns in Hdec. rewrite Hdec. reflexivity.
  - reflexivity.
  - cbn [fst snd dg_open]. unfold render_dialog, render_button. cbn [dg_state set_import parsed]. cbv zeta iota. find_node done.
Qed.
End Findings.

(** ** A dialog of a vault on the server *)
#[local] Existing Instances latin1_unicode model_crypto lcg_entropy no_network plain_text.
Definition nobody : Session :=
  {| ss_identifier := []; ss_accessToken := None; ss_refreshToken := None; ss_userKey := []; ss_protectedPrivateKey := None |}.
Definition picked : dialog_state * world unit Z :=
  (dialog_do nobody [] [] (ChooseFile (js "name,username,password" ++ [c_lf] ++ js "bank,alice,secret")) (fresh_dialog, laptop)).2.

Lemma dialog_imports_preview_witness : exists l, parsed (dg_state picked.1) = Some l /\ l <> [] /\
  importErr (dg_state picked.1) = None /\
  js "Ready to import " ++ count_of (Z.of_nat (length l)) ++ js ". They are added to your vault (existing items are kept)."
    ∈ shown (dialog_screen [] picked) /\
  forall r w', importItems nobody l (fun _ _ => mret tt) picked.2 = (inl r, w') ->
    exists d', returns (dialog_do nobody [] [] RunImport) picked tt (d', w') /\
      import_summary r.1 r.2 ∈ shown (dialog_screen [] (d', w')) /\ ~ offered (dialog_screen [] (d', w')) RunImport.
Proof.
  apply (dialog_imports_preview nobody [] [] laptop picked).
  - apply rtc_once. eapply by_user; [exists 12%nat, (Enter (js "name,username,password" ++ [c_lf] ++ js "bank,alice,secret")); reflexivity|].
    apply surjective_pairing.
  - exists 15%nat, Press. vm_compute. reflexivity.
Defined.
