(* ===== verification/WebUi.v ===== *)
(** The web vault as it is rendered, with every gesture and event: VaultScreen of
    apps/web/src/VaultScreen.tsx, over the actions of WebVault.v, the item views of
    ItemUi.v, the panels of PanelsUi.v and the dialog of TransferUi.v. *)
From stdpp Require Import relations.
From S2P Require Import Prelude Text Numeral Json JsonFacts Encoding JsonText Objects Effects Process Platform Primitives.
From S2P Require Import Kdf Identifier Account Totp Backup Items Portable Api Session VaultStore Login Background Views Health Biometric.
From S2P Require Import Transfer TransferUi WebPanels PanelsUi WebVault Editor AsyncButton ItemUi Ui.

(** ** The state *)

(** The card that is open.  Its backdrop covers the page, so there is one at most. *)
Inductive web_card :=
| CEditor (fo : form)
| CTwoFactor (loading : bool) (p : two_factor)
| CPasskeys (loading : bool) (p : passkeys)
| CRecovery (loading : bool) (p : recovery)
| CActivity (p : activity)
| CSecurity (p : security)
| CShared (p : shared_list)
| CShare (item : obj) (p : share_dialog)
| CData (d : dialog_state).

(** WebVault's part of the state, the rest of VaultScreen's, what its children
    keep, and the two things it is given by the shell: the phrase to write down,
    and whether the vault is still open.  The drawer of narrow screens is layout. *)
Record web := Web {
  wb_screen : WebVault.screen;
  wb_query : jsstr;
  wb_filter : list_filter;
  wb_account : option (bool * account_panel);   (* accountOpen, with bioOn *)
  wb_detail : option (jsstr * detail);          (* ItemDetail, by its key *)
  wb_card : option web_card;
  wb_recovery : option jsstr;
  wb_locked : bool;
}.
Definition web_opened (phrase : option jsstr) : web := Web WebVault.mounted [] FAll None None None phrase false.

Inductive tool := ToolData | ToolTwoFactor | ToolPasskeys | ToolRecovery | ToolActivity | ToolSecurity | ToolShared.

Inductive web_act :=
| WAdd | WFilter (f : list_filter) | WTool (t : tool) | WAccount | WLock
| WReview | WDismissAlert | WQuery (t : jsstr) | WSelect (id : jsstr) | WBack
| WCopyPhrase (phrase : jsstr) | WDismissPhrase
| WDetail (it : obj) (a : detail_act) | WAccountDo (a : ac_act)
| WForm (a : form_act) | WTwoFactor (a : tf_act) | WPasskeys (a : pk_act) | WRecovery (a : rc_act)
| WActivity (a : av_act) | WSecurity (a : sk_act) | WShared (a : sw_act) | WShare (a : sd_act) | WData (a : dialog_act).

(** ** What is rendered *)

(** [items.find((i) => i.id === selectedId) ?? null] *)
Definition selected_of (c : WebVault.screen) : option obj :=
  id ← sc_selected c; List.find (fun it => str_eqb (text_at (js "id") it) id) (sc_items c).

(** The item whose detail pane is mounted. *)
Definition detail_of (w : web) : option obj :=
  match wb_account w with Some _ => None | None => selected_of (wb_screen w) end.

Section Render.
Context `{Unicode} `{Collation} `{Locale} (identifier : jsstr) (supported : bool).

Definition web_row (it : obj) : option (screen web_act) :=
  meta ← label_of (item_type it);
  Some ([Say meta; btn (item_title it) (WSelect (text_at (js "id") it))]
        ++ when (favorite_of it) [Say (js "Favorite")] ++ [Say (itemSubtitle it)]).

Definition render_sidebar (items : list obj) : screen web_act :=
  [btn (js "+ Add item") WAdd; btn (js "All items") (WFilter FAll); btn (js "Favorites") (WFilter FFavorites)]
  ++ map (fun f => btn f (WFilter (FFolder f))) (folders items)
  ++ [btn (js "Import / export") (WTool ToolData); btn (js "Two-factor (2FA)") (WTool ToolTwoFactor);
      btn (js "Passkeys") (WTool ToolPasskeys); btn (js "Recovery code") (WTool ToolRecovery);
      btn (js "Activity") (WTool ToolActivity); btn (js "Security check") (WTool ToolSecurity);
      btn (js "Shared with me") (WTool ToolShared); btn identifier WAccount; btn (js "Lock") WLock].

Definition no_items := jq "No items yet. Use '+ Add item' to store your first password.".
Definition web_list (w : web) : option (screen web_act) :=
  let c := wb_screen w in
  if sc_loading c then Some [Say (js "Decrypting vault...")]
  else match vault_list (wb_filter w) (wb_query w) (sc_items c) with
       | [] => Some [Say no_items]
       | l => (fun rows => concat rows) <$> mapM web_row l
       end.

Definition render_pane (w : web) : option (screen web_act) :=
  match wb_account w, selected_of (wb_screen w) with
  | Some (bioOn, p), _ => embed WAccountDo <$> render_account identifier bioOn p
  | None, Some it =>
      embed (WDetail it) <$> ItemDetail (match wb_detail w with Some (_, d) => d | None => fresh_detail it end) it
  | None, None => Some (match wb_recovery w with
                        | Some (_ :: _) => []
                        | _ => [Say (js "Select an item to view its details.")]
                        end)
  end.

(** [props.recovery && ...] *)
Definition render_phrase (o : option jsstr) : screen web_act :=
  match o with
  | Some ((_ :: _) as phrase) =>
      [Say (js "Save your recovery passphrase. This is the only way back into your account, and there is no reset. Store it somewhere safe (not in this vault).");
       Say phrase; btn (js "Copy") (WCopyPhrase phrase); btn (js "I've saved it") WDismissPhrase]
  | _ => [btn (js "Back") WBack]
  end.

Definition render_alert (c : WebVault.screen) : screen web_act :=
  match sc_alert c with
  | Some ((_ :: _) as t) => [Say t; btn (js "Review") WReview; btn (js "Dismiss") WDismissAlert]
  | _ => []
  end.

Definition render_page (w : web) : option (screen web_act) :=
  let c := wb_screen w in
  rows ← web_list w;
  pane ← render_pane w;
  Some (render_sidebar (sc_items c)
    ++ render_alert c
    ++ Field (js "Search") false (wb_query w) WQuery
    :: say_some (sc_error c)
    ++ rows ++ render_phrase (wb_recovery w) ++ pane).

Definition render_card (w : web) (m : web_card) : option (screen web_act) :=
  match m with
  | CEditor fo => Some (embed WForm (modal CancelEdit (ItemEditor Idle fo)))
  | CTwoFactor loading p => Some (embed WTwoFactor (render_two_factor loading p))
  | CPasskeys loading p => embed WPasskeys <$> render_passkeys supported loading p
  | CRecovery loading p => Some (embed WRecovery (render_recovery loading p))
  | CActivity p => embed WActivity <$> render_activity p
  | CSecurity p => Some (embed WSecurity (render_security false (sc_items (wb_screen w)) p))
  | CShared p => Some (embed WShared (render_shared p))
  | CShare item p => Some (embed WShare (render_share item p))
  | CData d => Some (embed WData (modal Close (render_dialog (sc_items (wb_screen w)) Idle Idle d)))
  end.

(** [None]: drawing it throws.  The page under a card is out of reach. *)
Definition render_web (w : web) : option (screen web_act) :=
  if wb_locked w then Some []
  else
    page ← render_page w;
    top ← (match wb_card w with Some m => render_card w m | None => Some page end);
    Some (top ++ say_some (sc_toast (wb_screen w))).
End Render.

(** ** The handlers *)
Section Handlers.
Context {N E L D : Type} `{Unicode} `{UrlParser} `{WebCrypto} `{Environment N} `{Entropy E} `{Clock N} `{LocalStorage L}
  `{Sha256} `{Sha1} `{Dates} `{EngineText} `{Biometric D} `{Collation} `{Locale}.
(** The session of the screen; whether the browser has passkeys and lets the page
    write to the clipboard; the date of exports. *)
Context (sess : Session) (supported clipboard_ok : bool) (today : jsstr).
Abbreviation O := ((world N E * L) * D)%type.
Abbreviation S := (web * ((world N E * L) * D))%type.

(** Once a handler has run: an ItemDetail that goes away, or is another item's,
    forgets its state. *)
Definition remount (w : web) : web :=
  let d := match detail_of w with
           | None => None
           | Some it =>
               let id := text_at (js "id") it in
               Some (id, match wb_detail w with
                         | Some (k, d) => if str_eqb k id then rerender it d else fresh_detail it
                         | None => fresh_detail it
                         end)
           end in
  Web (wb_screen w) (wb_query w) (wb_filter w) (wb_account w) d (wb_card w) (wb_recovery w) (wb_locked w).

Definition setScreen c (w : web) : web :=
  Web c (wb_query w) (wb_filter w) (wb_account w) (wb_detail w) (wb_card w) (wb_recovery w) (wb_locked w).
Definition setQuery q (w : web) : web :=
  Web (wb_screen w) q (wb_filter w) (wb_account w) (wb_detail w) (wb_card w) (wb_recovery w) (wb_locked w).
Definition setFilter f (w : web) : web :=
  Web (wb_screen w) (wb_query w) f (wb_account w) (wb_detail w) (wb_card w) (wb_recovery w) (wb_locked w).
Definition setAccount a (w : web) : web :=
  Web (wb_screen w) (wb_query w) (wb_filter w) a (wb_detail w) (wb_card w) (wb_recovery w) (wb_locked w).
Definition onDetail (f : detail -> detail) (w : web) : web :=
  Web (wb_screen w) (wb_query w) (wb_filter w) (wb_account w) (prod_map id f <$> wb_detail w) (wb_card w) (wb_recovery w) (wb_locked w).
Definition setCard m (w : web) : web :=
  Web (wb_screen w) (wb_query w) (wb_filter w) (wb_account w) (wb_detail w) m (wb_recovery w) (wb_locked w).
Definition setPhrase p (w : web) : web :=
  Web (wb_screen w) (wb_query w) (wb_filter w) (wb_account w) (wb_detail w) (wb_card w) p (wb_locked w).
(** [onLock]: the shell drops the session and the phrase. *)
Definition lockWeb (w : web) : web :=
  Web (wb_screen w) (wb_query w) (wb_filter w) (wb_account w) (wb_detail w) None None true.

Definition on_web (f : web -> web) : M S unit := modify (fun s => (remount (f s.1), s.2)).
Definition on_vault {A} (m : M (WebVault.screen * (world N E * L)) A) : M S A := fun s =>
  let '(r, (c, o)) := m (wb_screen s.1, s.2.1) in (r, (remount (setScreen c s.1), (o, s.2.2))).
Definition on_screen (f : WebVault.screen -> WebVault.screen) : M S unit := on_web (fun w => setScreen (f (wb_screen w)) w).
(** An action of a child, whose state is put back into the page. *)
Definition on_child {P} (p : P) (put : P -> web -> web) (m : M (P * world N E) unit) : M S P := fun s =>
  let '(r, (p', w)) := m (p, s.2.1.1) in
  (match r with inl _ => inl p' | inr e => inr e end, (remount (put p' s.1), ((w, s.2.1.2), s.2.2))).
Definition on_device {A} (m : M D A) : M S A := fun s => let '(r, d) := m s.2.2 in (r, (s.1, (s.2.1, d))).

Definition copy (label : jsstr) : M S unit :=
  if clipboard_ok then on_screen (flash (js "Copied " ++ label)) else raise (DomException (js "NotAllowedError")).

Definition open_tool (t : tool) : web_card :=
  match t with
  | ToolData => CData fresh_dialog
  | ToolTwoFactor => CTwoFactor true (TwoFactor (Some (JBool false)) None [] None)
  | ToolPasskeys => CPasskeys true (Passkeys (Some (JArr [])) [] None)
  | ToolRecovery => CRecovery true (Recovery (Some (JBool false)) None None)
  | ToolActivity => CActivity (Activity (Some JNull) None)
  | ToolSecurity => CSecurity (SecurityCheck None None)
  | ToolShared => CShared (SharedWithMe None None)
  end.

Definition detail_do (it : obj) (a : detail_act) : M S unit :=
  match a with
  | CopyText label _ => copy label
  | Reveal p => on_web (onDetail (flip p))
  | TypeNotes t => on_web (onDetail (set_notes t))
  | ToggleStar => on_vault (toggleFavorite sess it)
  | EditItem => on_web (setCard (Some (CEditor (fresh_form it))))
  | ShareItem => on_web (setCard (Some (CShare it (ShareDialog [] false None))))
  | DeleteItem yes => on_vault (handleDelete sess it yes)
  end.

(** Save closes the form once it has succeeded, with its timeout. *)
Definition form_do (fo : form) (a : form_act) : M S unit :=
  let put it := on_web (setCard (Some (CEditor (in_form it fo)))) in
  match a with
  | Do e => match edit_item e (fo_item fo) with Some it => put it | None => raise JsTypeError end
  | PeekPassword => on_web (setCard (Some (CEditor (Form (fo_item fo) (negb (fo_plain fo))))))
  | Generate => fun s =>
      match generatePassword 20 s.2.1.1 with
      | (inl pw, w) => put (set (js "password") pw (fo_item fo)) (s.1, ((w, s.2.1.2), s.2.2))
      | (inr e, w) => (inr e, (s.1, ((w, s.2.1.2), s.2.2)))
      end
  | CancelEdit => on_web (setCard None)
  | SaveEdit => ok ← on_vault (handleSave sess (fo_item fo)); if ok : bool then on_web (setCard None) else mret tt
  end.

Definition account_do (bioOn : bool) (p : account_panel) (a : ac_act) : M S unit :=
  match a with
  | AcCopy => copy (js "identifier")
  | AcNoBiometrics => _ ← on_device disableBiometric; on_web (fun w => setAccount (prod_map (fun _ => false) id <$> wb_account w) w)
  | _ =>
      p' ← on_child p (fun p' => setAccount (Some (bioOn, p'))) (ac_do sess a);
      if ap_locked p' then on_web lockWeb else mret tt
  end.

Definition child {P} (p : P) (put : P -> web_card) (m : M (P * world N E) unit) : M S P :=
  on_child p (fun p' => setCard (Some (put p'))) m.

(** [onShared], [onImported], and the buttons that close. *)
Definition close : M S unit := on_web (setCard None).
Definition card_do (m : web_card) (a : web_act) : M S unit :=
  match m, a with
  | CEditor fo, WForm a => form_do fo a
  | CTwoFactor l p, WTwoFactor a => match a with TfClose => close | _ => _ ← child p (CTwoFactor l) (tf_do sess a); mret tt end
  | CPasskeys l p, WPasskeys a => match a with PkClose => close | _ => _ ← child p (CPasskeys l) (pk_do sess supported a); mret tt end
  | CRecovery l p, WRecovery a => match a with RcClose => close | _ => _ ← child p (CRecovery l) (rc_do sess a); mret tt end
  | CActivity _, WActivity AvClose => close
  | CSecurity p, WSecurity a =>
      match a with
      | SkClose => close
      | SkCheck => items ← gets (fun s => sc_items (wb_screen s.1)); _ ← child p CSecurity (sk_do items a); mret tt
      end
  | CShared p, WShared a =>
      match a with
      | SwClose => close
      | SwCopy label _ => copy label
      | SwRemove _ => _ ← child p CShared (sw_do sess a); mret tt
      end
  | CShare item p, WShare a =>
      match a with
      | SdClose => close
      | _ => p' ← child p (CShare item) (sd_do sess item a);
             if sd_shared p' then _ ← close; on_screen (flash (js "Shared")) else mret tt
      end
  | CData d, WData a =>
      items ← gets (fun s => sc_items (wb_screen s.1));
      d' ← child d CData (dialog_do sess items today a);
      if negb (dg_open d') then close
      else if (imported (dg_state d') =? imported (dg_state d))%nat then mret tt
      else _ ← on_vault (reload sess); on_screen (flash (js "Imported"))
  | _, _ => mret tt
  end.

Definition page_do (a : web_act) : M S unit :=
  match a with
  | WAdd => on_web (setCard (Some (CEditor (fresh_form new_item))))
  | WFilter f => on_web (setFilter f)
  | WTool t => on_web (setCard (Some (open_tool t)))
  | WAccount => on_web (fun w => setScreen (setSelectedId None (wb_screen w))
      (setAccount (Some (default (false, AccountPanel false [] false false (Some JNull) None) (wb_account w))) w))
  | WLock => on_web lockWeb
  | WReview => on_web (fun w => setScreen (setLoginAlert None (wb_screen w)) (setCard (Some (open_tool ToolActivity)) w))
  | WDismissAlert => on_screen (setLoginAlert None)
  | WQuery t => on_web (setQuery t)
  | WSelect id => on_web (fun w => setScreen (setSelectedId (Some id) (wb_screen w)) (setAccount None w))
  | WBack => on_web (fun w => setScreen (setSelectedId None (wb_screen w)) (setAccount None w))
  | WCopyPhrase _ => copy (js "recovery passphrase")
  | WDismissPhrase => on_web (setPhrase None)
  | WDetail it a => detail_do it a
  | WAccountDo a => fun s => match wb_account s.1 with Some (b, p) => account_do b p a s | None => (inl tt, s) end
  | _ => mret tt
  end.
Definition web_do (a : web_act) : M S unit := fun s =>
  match wb_card s.1 with Some m => card_do m a s | None => page_do a s end.

(** ** Events *)

(** The effect of a card's mounting. *)
Definition card_loaded (m : web_card) : M S unit :=
  match m with
  | CTwoFactor _ p => _ ← child p (CTwoFactor false) (openTwoFactor sess); mret tt
  | CPasskeys _ p => _ ← child p (CPasskeys false) (refresh sess); mret tt
  | CRecovery _ p => _ ← child p (CRecovery false) (openRecovery sess); mret tt
  | CActivity p => _ ← child p CActivity (openActivity sess); mret tt
  | CShared p => _ ← child p CShared (reloadShared sess); mret tt
  | _ => mret tt
  end.
Definition account_loaded : M S unit := fun s =>
  match wb_account s.1 with
  | Some (b, p) =>
      (_ ← on_child p (fun p' => setAccount (Some (b, p'))) (openAccount sess);
       on ← on_device biometricEnrolled;
       on_web (fun w => setAccount (prod_map (fun _ => on) id <$> wb_account w) w)) s
  | None => (inl tt, s)
  end.

(** Leaving the text area of the notes, and the second's tick of the code. *)
Definition blur : M S unit := fun s =>
  match detail_of s.1, wb_detail s.1 with
  | Some it, Some (_, d) => on_vault (saveNotes sess it (dt_notes d)) s
  | _, _ => (inl tt, s)
  end.
Definition tick_code : M S unit := fun s =>
  match detail_of s.1, wb_detail s.1 with
  | Some it, Some (k, d) =>
      match tick it (clock (net s.2.1.1)) d s.2.1.1 with
      | (inl d', w) => on_web (onDetail (fun _ => d')) (s.1, ((w, s.2.1.2), s.2.2))
      | (inr e, w) => (inr e, (s.1, ((w, s.2.1.2), s.2.2)))
      end
  | _, _ => (inl tt, s)
  end.
Definition dropToast (c : WebVault.screen) : WebVault.screen :=
  {| sc_items := sc_items c; sc_loading := sc_loading c; sc_error := sc_error c; sc_toast := None;
     sc_selected := sc_selected c; sc_alert := sc_alert c |}.

Definition open_card (w : web) : M S unit := match wb_card w with Some m => card_loaded m | None => mret tt end.
Definition web_event (s s' : S) : Prop :=
  wb_locked s.1 = false /\
  exists r, on_vault (reload sess) s = (r, s') \/ on_vault (notice sess) s = (r, s') \/ on_screen dropToast s = (r, s') \/
    blur s = (r, s') \/ tick_code s = (r, s') \/ account_loaded s = (r, s') \/ open_card s.1 s = (r, s').

Definition web_screen (s : S) : screen web_act := default [] (render_web (ss_identifier sess) supported s.1).
Definition web_step : relation S := ui_step web_screen web_do web_event.
End Handlers.

(** ** Laws *)

(** What a gesture means for the vault as a map. *)
Definition denotes (w : web) (a : web_act) : option web_action :=
  match a with
  | WForm SaveEdit => match wb_card w with Some (CEditor fo) => Some (Save (fo_item fo)) | _ => None end
  | WDetail it ToggleStar => Some (Star it)
  | WDetail it (DeleteItem yes) => Some (Delete it yes)
  | _ => None
  end.
(** Leaving the text area of the notes sends them. *)
Definition left_notes (w : web) : option web_action :=
  match detail_of w, wb_detail w with Some it, Some (_, d) => Some (Notes it (dt_notes d)) | _, _ => None end.

(** The gestures on items, with texts that a keyboard types. *)
Definition item_use (a : web_act) : Prop :=
  match a with
  | WTool _ | WAccount | WReview | WLock | WDetail _ ShareItem => False
  | WForm (Do (SetText _ v | SetCard _ v | SetIdentity _ v | SetLabel _ v | SetValue _ v)) => units_ok v
  | WDetail _ (TypeNotes v) => units_ok v
  | _ => True
  end.

(** The items of the vault are items, under identifiers of the server and with no
    other. *)
Definition clean (V : gmap jsstr obj) : Prop := forall id it, V !! id = Some it ->
  id_ok id /\ obj_get (js "id") it = None /\ item_wf it /\ json_ok (JObj it).

(** A form over an item of the vault, or a new one. *)
Definition draft_of (d : obj) : Prop :=
  draft_ok d /\ exists t, obj_get (js "id") d = Some (JStr t) /\ (t <> [] -> id_ok t).
Definition card_ok (m : option web_card) : Prop :=
  match m with None => True | Some (CEditor fo) => draft_of (fo_item fo) | Some _ => False end.
Definition notes_ok (w : web) : Prop := match wb_detail w with Some (_, d) => units_ok (dt_notes d) | None => True end.

(** A screen with the list of a vault. *)
Definition lists (c : WebVault.screen) (Vs : gmap jsstr obj) : Prop :=
  clean Vs /\ sc_items c ≡ₚ map VaultStore.shown (map_to_list Vs) /\ sc_loading c = false.
(** The list, and the error above it. *)
Definition same_list (c c' : WebVault.screen) : Prop :=
  sc_items c' = sc_items c /\ sc_error c' = sc_error c /\ sc_loading c' = sc_loading c.

Section Settled.
Context `{Unicode}.

Lemma settled_no_id o : savable o -> obj_get (js "id") o = None -> obj_get (js "id") (settled o) = None.
Proof.
  intros Hs Hn. destruct (normalize_members _ _ (savable_some o Hs)) as (_ & _ & _ & _ & _ & _ & _ & Hk).
  rewrite Hk by in_keys. cbn [own_props]. destruct Hs as [Hj _].
  rewrite obj_get_assign by by apply json_ok_NoDup. by rewrite Hn.
Qed.

Lemma clean_insert V id o : clean V -> id_ok id -> savable o -> obj_get (js "id") o = None -> clean (<[id := settled o]> V).
Proof.
  intros HV Hid Hs Hn j it. destruct (decide (j = id)) as [->|Hj].
  - rewrite lookup_insert_eq. intros [= <-]. split_and!; [done|by apply settled_no_id|by apply settled_wf|].
    eapply normalize_json_ok; [apply Hs|by apply savable_some].
  - rewrite lookup_insert_ne by done. apply HV.
Qed.

Lemma clean_delete V id : clean V -> clean (delete id V).
Proof. intros HV j it [_ Hj]%lookup_delete_Some. by eapply HV. Qed.

Lemma clean_means V V' a : clean V -> legal a -> means a V V' -> clean V'.
Proof.
  intros HV Hl Hm. assert (Hins : forall item x, identified item -> savable (fields_of x) ->
    clean (<[text_at (js "id") item := settled (fields_of x)]> V)).
  { intros item x Hst Hs. destruct (identified_text item Hst) as (id & -> & Hid & _). apply clean_insert; [done|done|done|apply obj_get_delete_eq]. }
  destruct a as [item|item notes|item yes|item]; cbn [legal means] in *.
  - destruct Hl as [Hs Hst]. destruct (text_at (js "id") item) as [|u t] eqn:Et.
    + destruct Hm as (id & _ & Hid & ->). apply clean_insert; [done|done|done|apply obj_get_delete_eq].
    + subst V'. rewrite <- Et. apply Hins; [by apply Hst|done].
  - destruct Hl as [Hst Hs]. subst V'. destruct (str_eqb _ _); [done|]. by apply Hins.
  - subst V'. destruct yes; [by apply clean_delete|done].
  - destruct Hl as [Hst Hs]. subst V'. by apply Hins.
Qed.

(** An item that is shown is a draft of one of the vault. *)
Lemma screen_item V c it : lists c V -> it ∈ sc_items c ->
  draft_ok it /\ identified it /\ is_Some (V !! text_at (js "id") it).
Proof.
  intros (HV & Hp & _). rewrite Hp. intros ([id it0] & -> & Hin%elem_of_map_to_list)%list_elem_of_fmap.
  destruct (HV id it0 Hin) as (Hi & Hn & Hw & Hj).
  assert (Hid : obj_get (js "id") (VaultStore.shown (id, it0)) = Some (JStr id)) by by apply shown_id, json_ok_NoDup.
  split; [by apply shown_draft; [| |apply Hi]|]. split; [by exists id|]. exists it0. unfold text_at. by rewrite Hid.
Qed.

Lemma text_units it k : draft_ok it -> k ∈ TEXT_KEYS -> units_ok (text_at k it).
Proof.
  intros Hd Hk. destruct (draft_get it k Hd (text_key_blank k Hk)) as (v & Hg & Hj & Hs).
  apply text_key_shape in Hs as [t ->]; [|done]. unfold text_at. by rewrite Hg.
Qed.

Lemma legal_items it notes yes : draft_ok it -> identified it ->
  legal (Star it) /\ legal (Delete it yes) /\ (units_ok notes -> legal (Notes it notes)).
Proof.
  intros Hd Hst. cbn [legal]. split_and!; [done| |done|].
  - apply draft_reads. apply (draft_put it (js "favorite")); [done|in_keys|done|by eexists].
  - intros Hn. split; [done|]. apply draft_reads. apply (draft_put it (js "notes") (JStr notes)); [done|in_keys|done|].
    apply text_key_shape; [in_keys|by eexists].
Qed.

(** A new item, and one of the list, can be edited. *)
Lemma new_draft : draft_of new_item.
Proof.
  split; [apply (shown_draft [] (blankFields (js "login"))); [apply blank_item_wf; in_keys|by apply json_okb_ok|constructor]|].
  by exists [].
Qed.
Lemma listed_draft it : draft_ok it -> identified it -> draft_of it.
Proof. intros Hd (id & Hi & Hg). split; [done|]. by exists id. Qed.
End Settled.

Section Session.
Context {N E L D : Type} `{Unicode} `{UrlParser} `{WebCrypto} `{Environment N} `{Entropy E} `{!Clock N} `{LocalStorage L}
  `{!Sha256} `{!Sha1} `{!Dates} `{EngineText} `{!Biometric D} `{!Collation} `{!Locale}.
Context (base token : jsstr) `{!CipherServer N base token}.
Hypothesis Htoken : token <> [].
Hypothesis Hsay : engine_message JsTypeError <> [] /\ engine_message JsSyntaxError <> [].
Context (sess : Session) (supported clipboard_ok : bool) (today : jsstr).
Abbreviation S := (web * ((world N E * L) * D))%type.
Abbreviation screen_at := (web_screen (N := N) (E := E) (L := L) (D := D) sess supported).
Abbreviation web_acts := (web_do (N := N) (E := E) (L := L) (D := D) sess supported clipboard_ok today).

Abbreviation at_server := (fun s : S => net s.2.1.1).

(** The list on the screen of the vault [V], and what it is of: of [V], but for an
    error above it, which takes a server that does not accept everything. *)
Definition listing (V Vs : gmap jsstr obj) (c : WebVault.screen) : Prop :=
  lists c Vs /\ (sc_error c = None /\ Vs = V \/ complains c /\ exists n q, accepts (token := token) n q = false).

(** The screen of an open vault, with nothing but an editor over it. *)
Record shows_vault (V : gmap jsstr obj) (w : web) : Prop := {
  sv_open : wb_locked w = false;
  sv_items : exists Vs, listing V Vs (wb_screen w);
  sv_account : wb_account w = None;
  sv_card : card_ok (wb_card w);
  sv_notes : notes_ok w;
}.

(** The server represents the vault, and the screen lists it. *)
Record holds (V : gmap jsstr obj) (s : S) : Prop := {
  ho_linked : linked base token sess s.2.1.1 V;
  ho_clean : clean V;
  ho_shows : shows_vault V s.1;
}.

(** What a gesture does to the vault and to its list: what is said of it, or nothing
    if the server refuses, and then the screen complains. *)
Definition refused_at (s : S) (a : web_action) : Prop := rejected base token sess (at_server s) a.
Definition turns_out (o : option web_action) (V : gmap jsstr obj) (s : S) (V' : gmap jsstr obj) (s' : S) : Prop :=
  let c := wb_screen s.1 in let c' := wb_screen s'.1 in
  match o with
  | None => V' = V /\ same_list c c'
  | Some a =>
      legal a /\ means a V V' /\ (relisted base token (at_server s') c c' V' \/ V' = V /\ same_list c c') \/
      V' = V /\ refused_at s a /\ stuck c c'
  end.

Lemma outcome_effect o V s V' s' : turns_out o V s V' s' -> effect_of refused_at s o V V'.
Proof. destruct o; cbn; [|by intros [? _]]. intros [(? & ? & _)|(? & ? & _)]; [by left|by right]. Qed.

(** A handler that succeeds but for a refused clipboard, and does what is said of it. *)
Definition works (V : gmap jsstr obj) (o : option web_action) (m : M S unit) (s : S) : Prop :=
  exists r s' V', m s = (r, s') /\ (clipboard_ok = true -> r = inl tt) /\ holds V' s' /\ turns_out o V s V' s'.

Lemma same_listing V Vs c c' : same_list c c' -> listing V Vs c -> listing V Vs c'.
Proof. unfold same_list, listing, lists, complains. by intros (-> & -> & ->). Qed.

Lemma shows_listing V c : clean V -> shows c V -> listing V V c.
Proof. intros HV (Hp & He & Hl). split; [by split_and!|by left]. Qed.

Lemma stuck_listing V V' Vs c c' : listing V Vs c -> stuck c c' -> (exists n q, accepts (token := token) n q = false) -> listing V' Vs c'.
Proof. intros [(HVs & Hp & Hl) _] (Hi & Hc & Hld) Hn. split; [|by right]. split; [done|]. by rewrite Hi, (Hld Hl). Qed.

Lemma rejected_some n a : rejected base token sess n a -> exists n q, accepts (token := token) n q = false.
Proof. intros (m & p & b & _ & Hr). by exists n, (auth_request base token m p b). Qed.
Lemma unread_some n : unread base token n -> exists n q, accepts (token := token) n q = false.
Proof. intros Hn. by exists n, (auth_request base token GET (js "/api/sync") None). Qed.

Lemma outcome_listing a V s V' s' Vs : clean V' -> turns_out (Some a) V s V' s' -> listing V Vs (wb_screen s.1) ->
  exists Vs', listing V' Vs' (wb_screen s'.1).
Proof.
  intros HV' [(_ & _ & [[Hs|(Hs & n & _ & Hn)]|[-> Hs]])|(-> & Hrj & Hs)] Hls.
  - exists V'. by apply shows_listing.
  - exists Vs. eapply stuck_listing; [exact Hls|exact Hs|by eapply unread_some].
  - exists Vs. by eapply same_listing.
  - exists Vs. eapply stuck_listing; [exact Hls|exact Hs|by eapply rejected_some].
Qed.

Lemma selected_in c it : selected_of c = Some it -> it ∈ sc_items c.
Proof. unfold selected_of. intros (id & _ & [Hin _]%List.find_some)%bind_Some. by apply list_elem_of_In. Qed.

Lemma detail_in w it : detail_of w = Some it -> it ∈ sc_items (wb_screen w).
Proof. unfold detail_of. destruct (wb_account w); [done|]. apply selected_in. Qed.

Lemma listed_item V w it : shows_vault V w -> detail_of w = Some it -> draft_ok it /\ identified it.
Proof.
  intros Hsv Hd. destruct (sv_items _ _ Hsv) as (Vs & Hls & _).
  by destruct (screen_item Vs _ it Hls (detail_in _ _ Hd)) as (Hdr & Hst & _).
Qed.

Lemma remount_shows V w : shows_vault V w -> shows_vault V (remount w).
Proof.
  intros Hsv. pose proof Hsv as [Ho Hi Ha Hc Hn]. split; try done. unfold notes_ok, remount in *. cbn [wb_detail].
  destruct (detail_of w) as [it|] eqn:Ed; [|done]. destruct (listed_item V w it Hsv Ed) as [Hd _].
  assert (Hf : units_ok (dt_notes (fresh_detail it))) by (apply text_units; [done|in_keys]).
  destruct (wb_detail w) as [[k d]|]; [|exact Hf]. destruct (str_eqb k _); [exact Hn|exact Hf].
Qed.

Lemma web_works V f s : holds V s -> shows_vault V (f s.1) -> same_list (wb_screen s.1) (wb_screen (f s.1)) ->
  works V None (on_web f) s.
Proof.
  intros [Hl HV _] Hf Hsame. eexists _, _, V. split; [reflexivity|]. split; [done|]. split; [|by split].
  split; [done|done|]. by apply remount_shows.
Qed.

Lemma still_works V m s : holds V s -> m s = (inl tt, s) -> works V None m s.
Proof. intros Hs Hm. by exists (inl tt), s, V. Qed.

Lemma vault_sets V V' w c : shows_vault V w -> (exists Vs, listing V' Vs c) -> shows_vault V' (setScreen c w).
Proof. by intros [Ho Hi Ha Hc Hn] Hs. Qed.

Lemma same_sets V w c : shows_vault V w -> same_list (wb_screen w) c -> shows_vault V (setScreen c w).
Proof. intros Hw Hc. apply (vault_sets V); [done|]. destruct (sv_items _ _ Hw) as [Vs Hs]. exists Vs. by eapply same_listing. Qed.

Lemma copy_works V label s : holds V s -> works V None (copy clipboard_ok label) s.
Proof.
  intros Hs. unfold copy. assert (Hw : works V None (on_screen (flash (js "Copied " ++ label))) s)
    by (apply web_works; [done|by apply same_sets; [apply Hs|]|done]).
  destruct clipboard_ok eqn:Ec; [exact Hw|]. eexists _, s, V. split; [reflexivity|]. by rewrite Ec.
Qed.

Lemma on_vault_run {A} (m : M (WebVault.screen * (world N E * L)) A) (w : web) (o : world N E * L) (d : D) r c o' :
  m (wb_screen w, o) = (r, (c, o')) -> on_vault m (w, (o, d)) = (r, (remount (setScreen c w), (o', d))).
Proof. unfold on_vault. cbn [fst snd]. by intros ->. Qed.

(** An action on an item of the page. *)
Lemma item_works V a s : holds V s -> legal a -> works V (Some a) (on_vault (WebVault.perform sess a)) s.
Proof.
  destruct s as [w [[u l] d]]. intros [Hl HV Hsv] Ha. cbn [fst snd] in *.
  destruct (action_outcomes base token Htoken Hsay sess V a (wb_screen w) u l Hl Ha) as (c' & u' & V' & Hr & Hl' & Ho).
  assert (Hout : turns_out (Some a) V (w, ((u, l), d)) V' (remount (setScreen c' w), ((u', l), d))).
  { cbn [turns_out fst snd remount setScreen wb_screen]. destruct Ho as [[Hm Hc]|Ho]; [left|by right].
    split_and!; [done|done|]. destruct Hc as [Hc|[-> ->]]; [by left|by right]. }
  assert (HV' : clean V') by (destruct Ho as [[Hm _]|[-> _]]; [by eapply clean_means|done]).
  eexists _, _, V'. split; [by apply on_vault_run|]. split; [done|]. split; [|exact Hout].
  split; [done|done|]. apply remount_shows. eapply vault_sets; [exact Hsv|]. destruct (sv_items _ _ Hsv) as [Vs Hs].
  by eapply (outcome_listing a V (w, ((u, l), d)) V' (remount (setScreen c' w), ((u', l), d))).
Qed.

(** Saving the form, which closes it once it is saved. *)
Lemma save_works V fo s : holds V s -> wb_card s.1 = Some (CEditor fo) ->
  works V (Some (Save (fo_item fo))) (form_do sess fo SaveEdit) s.
Proof.
  destruct s as [w [[u l] d]]. intros [Hl HV Hsv] Hc. cbn [fst snd] in *.
  pose proof (sv_card _ _ Hsv) as Hcard. rewrite Hc in Hcard. cbn [card_ok] in Hcard. destruct Hcard as (Hd & t & Hid & Hi).
  pose proof (draft_legal _ _ Hd Hid Hi) as Ha.
  destruct (save_outcomes base token Htoken Hsay sess V (fo_item fo) (wb_screen w) u l Hl Ha) as (b & c' & u' & V' & Hr & Hl' & Ho).
  set (s' := ((if b then remount (setCard None (remount (setScreen c' w))) else remount (setScreen c' w)), ((u', l), d)) : S).
  assert (Hout : turns_out (Some (Save (fo_item fo))) V (w, ((u, l), d)) V' s').
  { assert (Hsc : wb_screen s'.1 = c') by (subst s'; by destruct b). cbn [turns_out]. rewrite Hsc.
    destruct Ho as [(-> & Hm & Hcc)|(_ & -> & Hrj & Hst)]; [left; by split_and!; [| |left]|right; by split_and!]. }
  assert (HV' : clean V') by (destruct Ho as [(_ & Hm & _)|(_ & -> & _)]; [by eapply clean_means|done]).
  assert (Hw : shows_vault V' (setScreen c' w)).
  { eapply vault_sets; [exact Hsv|]. destruct (sv_items _ _ Hsv) as [Vs Hs]. destruct (outcome_listing _ _ _ _ _ Vs HV' Hout Hs) as [Vs' Hs'].
    exists Vs'. subst s'. by destruct b. }
  exists (inl tt), s', V'. split; [|split; [done|split; [|exact Hout]]].
  - cbn [form_do]. unfold mbind, M_bind. rewrite (on_vault_run _ w (u, l) d _ c' (u', l) Hr). by destruct b.
  - split; [done|done|]. subst s'. cbn [fst]. apply remount_shows in Hw. destruct b; [|exact Hw]. apply remount_shows.
    by destruct Hw as [Ho' Hi' Ha' Hc' Hn'].
Qed.

Lemma draft_keeps d d' : draft_of d -> draft_ok d' -> obj_get (js "id") d' = obj_get (js "id") d -> draft_of d'.
Proof. intros (_ & t & Ho & Hi) Hd Hid. split; [done|]. exists t. by rewrite Hid. Qed.

Lemma editor_shows V w fo : shows_vault V w -> draft_of (fo_item fo) -> shows_vault V (setCard (Some (CEditor fo)) w).
Proof. by intros [Ho Hi Ha Hc Hn] Hd. Qed.

Lemma put_works V fo it s : holds V s -> draft_of it ->
  works V None (on_web (setCard (Some (CEditor (in_form it fo))))) s.
Proof. intros Hs Hd. apply web_works; [done| |done]. by apply editor_shows; [apply Hs|]. Qed.

Lemma form_works V fo a s : holds V s -> wb_card s.1 = Some (CEditor fo) ->
  offered (ItemEditor Idle fo) a \/ a = CancelEdit -> item_use (WForm a) ->
  works V (denotes s.1 (WForm a)) (form_do sess fo a) s.
Proof.
  intros Hs Hc Ho Hu. assert (Hd : draft_of (fo_item fo)).
  { pose proof (sv_card _ _ (ho_shows _ _ Hs)) as Hk. by rewrite Hc in Hk. }
  destruct a as [e| | | |]; cbn [form_do denotes].
  - destruct Ho as [Ho|Ho]; [|done]. apply form_edit in Ho as [_ He]. specialize (He Hu).
    destruct (edits_draft [e] (fo_item fo) (proj1 Hd)) as (d' & Hed & Hd' & Hid & _); [by constructor|].
    cbn [edits] in Hed. apply bind_Some in Hed as (d1 & Hed & [= ->]). rewrite Hed. apply put_works; [done|].
    by eapply draft_keeps.
  - apply web_works; [done| |done]. apply editor_shows; [apply Hs|done].
  - destruct s as [w [[u l] dv]]. cbn [fst snd].
    destruct (generatePassword_spec 20 u) as (pw & u' & Hg & _ & Hal); [lia|].
    assert (Hn : baseUrl u' = base /\ net u' = net u).
    { eapply (keeps_returns (fun x : world N E => baseUrl x = base /\ net x = net u)); [|exact Hg|].
      - unfold generatePassword, randomU32. keeps.
      - split; [apply (proj1 (ho_linked _ _ Hs))|done]. }
    assert (Hw : works V None (on_web (setCard (Some (CEditor (in_form (set (js "password") pw (fo_item fo)) fo))))) (w, ((u', l), dv)));
      [apply put_works|].
    + destruct Hs as [(Hb & Hok & Hr & Ht & Hk) HV Hsv]. cbn [fst snd] in *. split; [|done|done].
      destruct Hn as [Hb' Hn']. unfold linked. cbn [fst snd]. by rewrite Hb', Hn'.
    + eapply draft_keeps; [exact Hd| |apply obj_get_put_ne; by vm_compute].
      apply draft_put; [apply Hd|in_keys| |].
      * apply Forall_forall. intros x Hx. rewrite Forall_forall in Hal. specialize (Hal x Hx). clear Hx. revert x Hal.
        apply Forall_forall. decide_forall.
      * apply text_key_shape; [in_keys|by eexists].
    + destruct Hw as (r & s' & V' & Hm & Hrest). exists r, s', V'. split; [|exact Hrest]. cbv beta. cbn [fst snd].
      unfold returns in Hg. by rewrite Hg.
  - apply web_works; [done| |done]. by destruct (ho_shows _ _ Hs).
  - rewrite Hc. by apply save_works.
Qed.

(** ** What is offered *)

Lemma offers_row rows items a : mapM web_row items = Some rows ->
  offered (concat rows) a <-> exists it, it ∈ items /\ a = WSelect (text_at (js "id") it).
Proof.
  revert rows. induction items as [|it items IH]; intros rows.
  - intros [= <-]. split; [by intros ?%offered_nil|by intros (it & ?%not_elem_of_nil & _)].
  - cbn [mapM]. intros (row & Hrow & (rows' & Hm & [= <-])%bind_Some)%bind_Some. cbn [concat]. rewrite offered_app, (IH rows' Hm).
    unfold web_row in Hrow. apply bind_Some in Hrow as (meta & _ & [= <-]). split.
    + intros [Ho|(jt & Hj & ->)]; [|exists jt; split; [by right|done]].
      exists it. split; [by left|]. offers; try discriminate. by injection Ho as <-.
    + intros (jt & [->|Hj]%elem_of_cons & ->); [left|right; by exists jt]. find_node fail.
Qed.

Lemma draws_rows l : Forall (fun it => draft_ok it) l -> exists rows, mapM web_row l = Some rows.
Proof.
  induction 1 as [|it l Hit _ (rows & IH)]; [by eexists|]. cbn [mapM]. rewrite IH.
  destruct (proj2 Hit (js "type")) as (v & Hg & Hsh); [in_keys|]. destruct Hsh as (t & -> & Ht).
  destruct (label_types t Ht) as [m Hm]. unfold web_row, item_type, text_at. rewrite Hg, Hm. by eexists.
Qed.

Lemma draws_detail it d : draft_ok it -> exists sc, ItemDetail d it = Some sc.
Proof.
  intros Hd. destruct (proj2 Hd (js "type")) as (v & Hg & Hsh); [in_keys|]. destruct Hsh as (t & -> & Ht).
  destruct (label_types t Ht) as [m Hm]. unfold ItemDetail, item_type, text_at. rewrite Hg, Hm. by eexists.
Qed.

(** The list of a screen. *)
Lemma list_drafts Vs c f q : lists c Vs -> Forall (fun it => draft_ok it) (vault_list f q (sc_items c)).
Proof.
  intros Hs. apply Forall_forall. intros it Hin. unfold vault_list in Hin. rewrite sort_permutation in Hin.
  apply list_elem_of_In, filter_In in Hin as [Hin _]. apply list_elem_of_In in Hin. by eapply screen_item.
Qed.

Lemma draws_list Vs w : lists (wb_screen w) Vs -> exists rows,
  mapM web_row (vault_list (wb_filter w) (wb_query w) (sc_items (wb_screen w))) = Some rows /\
  web_list w = Some (match vault_list (wb_filter w) (wb_query w) (sc_items (wb_screen w)) with [] => [Say no_items] | _ => concat rows end).
Proof.
  intros Hs. destruct (draws_rows _ (list_drafts Vs _ (wb_filter w) (wb_query w) Hs)) as [rows Hr].
  exists rows. split; [done|]. unfold web_list. destruct Hs as (_ & _ & ->).
  destruct (vault_list _ _ _) as [|it l]; [done|]. by rewrite Hr.
Qed.

Lemma draws_pane V w : shows_vault V w -> exists pane, render_pane (ss_identifier sess) w = Some pane /\
  forall a, offered pane a -> exists it x, a = WDetail it x /\ detail_of w = Some it.
Proof.
  intros Hsv. pose proof (fun it => listed_item V w it Hsv) as Hli. unfold render_pane, detail_of in *.
  rewrite (sv_account _ _ Hsv) in *. destruct (selected_of (wb_screen w)) as [it|] eqn:Es.
  - destruct (Hli it eq_refl) as [Hd _].
    destruct (draws_detail it (match wb_detail w with Some (_, d) => d | None => fresh_detail it end) Hd) as [sc Hsc].
    rewrite Hsc. eexists. split; [reflexivity|]. intros a (x & -> & _)%offered_embed. by exists it, x.
  - eexists. split; [reflexivity|]. intros a Ho. destruct (wb_recovery w) as [[|u t]|]; offers; discriminate.
Qed.

(** Gestures that are neither on an item's row nor in its pane. *)
Definition aside (a : web_act) : Prop := (forall it x, a <> WDetail it x) /\ forall id, a <> WSelect id.

Lemma aside_sidebar items a : offered (render_sidebar (ss_identifier sess) items) a -> aside a.
Proof.
  intros Ho. unfold render_sidebar in Ho. offers; try discriminate; try (by injection Ho as <-).
  apply offered_map in Ho as (f & [] & _ & Hu); try discriminate. by injection Hu as <-.
Qed.
Lemma aside_phrase o a : offered (render_phrase o) a -> aside a.
Proof. intros Ho. unfold render_phrase in Ho. destruct o as [[|u t]|]; offers; try discriminate; by injection Ho as <-. Qed.
Lemma aside_alert c a : offered (render_alert c) a -> aside a.
Proof. intros Ho. unfold render_alert in Ho. destruct (sc_alert c) as [[|u t]|]; offers; try discriminate; by injection Ho as <-. Qed.

Lemma offers_page w rows pane page a : web_list w = Some rows -> render_pane (ss_identifier sess) w = Some pane ->
  render_page (ss_identifier sess) w = Some page ->
  (offered page a -> aside a \/ offered rows a \/ offered pane a) /\ (offered rows a -> offered page a).
Proof.
  intros Hl Hp. unfold render_page. rewrite Hl, Hp. cbn [mbind option_bind]. intros Hpg%(inj Some). subst page. split.
  - intros Ho. apply offered_app in Ho as [Ho|Ho]; [left; by eapply aside_sidebar|].
    apply offered_app in Ho as [Ho|Ho]; [left; by eapply aside_alert|].
    apply offered_cons in Ho as [[[] Ho]|Ho]; [discriminate|by injection Ho as <-; left|discriminate|].
    apply offered_app in Ho as [Ho|Ho]; [offers|]. apply offered_app in Ho as [Ho|Ho]; [by auto|].
    apply offered_app in Ho as [Ho|Ho]; [left; by eapply aside_phrase|by auto].
  - intros Ho. do 2 (apply offered_app; right). apply offered_cons. right. apply offered_app. right.
    apply offered_app. by left.
Qed.

(** The items of the screen have the identifiers of what it lists. *)
Lemma screen_ids Vs c id : lists c Vs -> (exists it, it ∈ sc_items c /\ text_at (js "id") it = id) <-> is_Some (Vs !! id).
Proof.
  intros Hs. split.
  - intros (it & Hin & <-). by destruct (screen_item Vs _ it Hs Hin) as (_ & _ & Hv).
  - intros [it Hv]. destruct Hs as (HV & Hperm & _). exists (VaultStore.shown (id, it)). rewrite Hperm. split.
    + apply list_elem_of_fmap. exists (id, it). split; [done|]. by apply elem_of_map_to_list.
    + destruct (HV id it Hv) as (_ & Hn & _ & Hj). unfold text_at. by rewrite shown_id by (done || by apply json_ok_NoDup).
Qed.

Lemma draws_page V Vs w : shows_vault V w -> lists (wb_screen w) Vs -> exists page, render_page (ss_identifier sess) w = Some page /\
  (forall it x, offered page (WDetail it x) -> detail_of w = Some it) /\
  (wb_query w = [] -> wb_filter w = FAll -> forall id, offered page (WSelect id) <-> is_Some (Vs !! id)).
Proof.
  intros Hsv Hs. destruct (draws_list Vs w Hs) as (rows & Hm & Hl). destruct (draws_pane V w Hsv) as (pane & Hp & Hpo).
  assert (Hpage : exists page, render_page (ss_identifier sess) w = Some page)
    by (unfold render_page; rewrite Hl, Hp; by eexists).
  destruct Hpage as [page Hpage]. exists page. split; [done|]. pose proof (fun a => offers_page w _ _ _ a Hl Hp Hpage) as Hof.
  set (l := vault_list _ _ _) in *.
  assert (Hrow : forall a, offered (match l with [] => [Say no_items] | _ => concat rows end) a <->
    exists it, it ∈ l /\ a = WSelect (text_at (js "id") it)).
  { intros a. pose proof (offers_row rows l a Hm) as Hor. destruct l as [|it l']; [|exact Hor].
    split; [by intros Ho; offers|by intros (it & ?%not_elem_of_nil & _)]. }
  split.
  - intros it x Ho. apply Hof in Ho as [[Ha _]|[Ho|Ho]]; [by destruct (Ha it x)|by apply Hrow in Ho as (jt & _ & [=])|].
    destruct (Hpo _ Ho) as (jt & y & [= -> ->] & Hd). exact Hd.
  - intros Hq Hf id. rewrite <- (screen_ids Vs _ id Hs).
    assert (Hin : forall it, it ∈ l <-> it ∈ sc_items (wb_screen w)).
    { intros it. unfold l, vault_list. rewrite Hq, Hf, sort_permutation, list_elem_of_In, filter_In, <- list_elem_of_In. split; [by intros [Hit _]|done]. }
    split.
    + intros Ho. apply Hof in Ho as [[_ Ha]|[Ho|Ho]]; [by destruct (Ha id)| |by destruct (Hpo _ Ho) as (jt & y & [=] & _)].
      apply Hrow in Ho as (jt & Hj & [= ->]). exists jt. by rewrite <- Hin.
    + intros (it & Hit & <-). apply Hof, Hrow. exists it. by rewrite Hin.
Qed.

(** ** A step *)

Lemma screen_drawn V Vs s : holds V s -> lists (wb_screen s.1) Vs ->
  exists sc, render_web (ss_identifier sess) supported s.1 = Some sc /\ screen_at s = sc /\
  (wb_card s.1 = None -> wb_query s.1 = [] -> wb_filter s.1 = FAll -> forall id, offered sc (WSelect id) <-> is_Some (Vs !! id)) /\
  (wb_card s.1 = None -> forall it x, offered sc (WDetail it x) -> detail_of s.1 = Some it) /\
  (forall fo a, wb_card s.1 = Some (CEditor fo) -> offered sc a ->
    exists x, a = WForm x /\ (offered (ItemEditor Idle fo) x \/ x = CancelEdit)).
Proof.
  intros [_ _ Hsv] Hs. destruct (draws_page V Vs s.1 Hsv Hs) as (page & Hpage & Hdet & Hsel).
  unfold web_screen, render_web. rewrite (sv_open _ _ Hsv), Hpage.
  pose proof (sv_card _ _ Hsv) as Hc. destruct (wb_card s.1) as [[fo| | | | | | | |]|] eqn:Ec; try done;
    (eexists; split; [reflexivity|]; split; [reflexivity|]); (split; [|split]); try done.
  - intros fo' a [= <-] Ho. apply offered_app in Ho as [Ho|Ho]; [|offers]. apply offered_embed in Ho as (x & -> & Ho).
    exists x. split; [done|]. unfold modal in Ho. apply offered_cons in Ho as [[[] Ho]|Ho]; [|discriminate..|by left]. right. by injection Ho as <-.
  - intros _ Hq Hf id. rewrite <- (Hsel Hq Hf id), offered_app. split; [|by auto]. intros [Ho|Ho]; [done|offers].
  - intros _ it x Ho. apply offered_app in Ho as [Ho|Ho]; [by eapply Hdet|offers].
Qed.

Lemma detail_works V it a s : holds V s -> detail_of s.1 = Some it -> item_use (WDetail it a) ->
  works V (denotes s.1 (WDetail it a)) (detail_do sess clipboard_ok it a) s.
Proof.
  intros Hs Hit Hu. pose proof (ho_shows _ _ Hs) as Hsv. destruct (listed_item V _ it Hsv Hit) as [Hd Hst].
  assert (Hon : forall f, (forall d, units_ok (dt_notes d) -> units_ok (dt_notes (f d))) ->
    works V None (on_web (onDetail f)) s).
  { intros f Hf. apply web_works; [done| |done]. destruct Hsv as [Ho Hi Ha Hcd Hn]. split; try done. unfold notes_ok in *.
    cbn [onDetail wb_detail]. destruct (wb_detail s.1) as [[k d]|]; [by apply Hf|done]. }
  destruct a as [label v|p|t| | | |yes]; cbn [detail_do denotes].
  - by apply copy_works.
  - by apply Hon.
  - by apply Hon.
  - apply (item_works V (Star it)); [done|by apply (legal_items it [] true)].
  - apply web_works; [done| |done]. apply editor_shows; [done|by apply listed_draft].
  - done.
  - apply (item_works V (Delete it yes)); [done|by apply (legal_items it [] yes)].
Qed.

(** What the page's own settings do. *)
Lemma screen_shows V w c q f ph : shows_vault V w -> same_list (wb_screen w) c ->
  shows_vault V (Web c q f None (wb_detail w) (wb_card w) ph (wb_locked w)).
Proof. intros Hw Hc. by destruct (same_sets V w c Hw Hc). Qed.

Lemma page_works V a s : holds V s -> wb_card s.1 = None -> (forall it x, a = WDetail it x -> detail_of s.1 = Some it) ->
  item_use a -> works V (denotes s.1 a) (page_do sess clipboard_ok a) s.
Proof.
  intros Hs Hc Hd Hu. pose proof (ho_shows _ _ Hs) as Hsv. pose proof (sv_account _ _ Hsv) as Ha.
  assert (Hset : forall f c q l ph, f s.1 = Web c q l None (wb_detail s.1) (wb_card s.1) ph (wb_locked s.1) ->
    same_list (wb_screen s.1) c -> works V None (on_web f) s).
  { intros f c q l ph Hf Hi. apply web_works; [exact Hs| |]; rewrite Hf; [by apply screen_shows|exact Hi]. }
  destruct a; cbn [page_do denotes]; try (destruct Hu; fail); try (by apply copy_works); try (by apply still_works);
    try (unfold on_screen; eapply Hset; [unfold setFilter, setQuery, setPhrase, setScreen, setAccount; cbn; rewrite ?Ha; reflexivity|done]).
  - apply web_works; [exact Hs| |done]. apply editor_shows; [exact Hsv|exact new_draft].
  - apply detail_works; [exact Hs|by eapply Hd|exact Hu].
  - apply still_works; [done|]. by rewrite Ha.
  - rewrite Hc. destruct a; by apply still_works.
Qed.

Lemma act_works V a s : holds V s -> offered (screen_at s) a -> item_use a -> works V (denotes s.1 a) (web_acts a) s.
Proof.
  intros Hs Ho Hu. destruct (sv_items _ _ (ho_shows _ _ Hs)) as (Vs & Hls & _).
  destruct (screen_drawn V Vs s Hs Hls) as (sc & _ & <- & _ & Hdet & Hform).
  assert (Hsame : forall m, web_acts a s = m s -> works V (denotes s.1 a) m s -> works V (denotes s.1 a) (web_acts a) s).
  { intros m Hm (r & s' & V' & Hr & Hrest). exists r, s', V'. by rewrite Hm. }
  pose proof (sv_card _ _ (ho_shows _ _ Hs)) as Hc. destruct (wb_card s.1) as [[fo| | | | | | | |]|] eqn:Ec; try done.
  - destruct (Hform fo a eq_refl Ho) as (x & -> & Hx). apply (Hsame (form_do sess fo x)); [unfold web_do; by rewrite Ec|].
    by apply form_works.
  - apply (Hsame (page_do sess clipboard_ok a)); [unfold web_do; by rewrite Ec|].
    apply page_works; [done|done| |done]. intros it x ->. by eapply (Hdet eq_refl).
Qed.

(** ** Events *)

(** Reading the list again ends, with the vault on the screen or, refused, with an
    error. *)
Lemma reload_holds V s Vs : linked base token sess s.2.1.1 V -> clean V -> clean Vs ->
  sc_items (wb_screen s.1) ≡ₚ map VaultStore.shown (map_to_list Vs) ->
  (forall c Vs', listing V Vs' c -> shows_vault V (setScreen c s.1)) ->
  exists s', on_vault (reload sess) s = (inl tt, s') /\ holds V s' /\
    (shows (wb_screen s'.1) V \/ complains (wb_screen s'.1) /\ unread base token (at_server s)).
Proof.
  destruct s as [w [[u l] d]]. cbn [fst snd]. intros Hl HV HVs Hp Hw.
  destruct (reload_outcomes base token Htoken Hsay sess (wb_screen w) u l V Hl) as (c' & u' & Hr & Hl' & _ & Ho).
  eexists. split; [by apply on_vault_run|]. split.
  - split; [done|done|]. apply remount_shows. destruct Ho as [Hs|(Hi & Hc & Hld & Hn)].
    + eapply Hw. by apply shows_listing.
    + apply (Hw _ Vs). split; [split_and!; [done|by rewrite Hi|done]|]. right. split; [done|by eapply unread_some].
  - destruct Ho as [Hs|(_ & Hc & _ & Hn)]; [by left|by right].
Qed.

Lemma again_holds V s : holds V s -> exists s', on_vault (reload sess) s = (inl tt, s') /\ holds V s' /\
  (shows (wb_screen s'.1) V \/ complains (wb_screen s'.1) /\ unread base token (at_server s)).
Proof.
  intros [Hl HV Hsv]. destruct (sv_items _ _ Hsv) as (Vs & (HVs & Hp & _) & _). apply (reload_holds V s Vs); [done..|].
  intros c Vs' Hc. eapply vault_sets; [exact Hsv|by exists Vs'].
Qed.

Lemma blur_works V s : holds V s -> works V (left_notes s.1) (blur sess) s.
Proof.
  intros Hs. unfold left_notes. destruct (detail_of s.1) as [it|] eqn:Ed; [|apply still_works; [done|]; unfold blur; by rewrite Ed].
  destruct (wb_detail s.1) as [[k d]|] eqn:Ew; [|apply still_works; [done|]; unfold blur; by rewrite Ed, Ew].
  pose proof (ho_shows _ _ Hs) as Hsv. destruct (listed_item V _ it Hsv Ed) as [Hd Hst].
  assert (Hn : units_ok (dt_notes d)) by (pose proof (sv_notes _ _ Hsv) as Hn; unfold notes_ok in Hn; by rewrite Ew in Hn).
  destruct (item_works V (Notes it (dt_notes d)) s Hs) as (r & s' & V' & Hr & Hrest); [by apply (legal_items it (dt_notes d) true)|].
  exists r, s', V'. split; [|exact Hrest]. unfold blur. by rewrite Ed, Ew.
Qed.

Lemma tick_works V s : holds V s -> works V None tick_code s.
Proof.
  intros Hs. pose proof Hs as [_ _ Hsv].
  destruct (detail_of s.1) as [it|] eqn:Ed; [|apply still_works; [done|]; unfold tick_code; by rewrite Ed].
  destruct (wb_detail s.1) as [[k d]|] eqn:Ew; [|apply still_works; [done|]; unfold tick_code; by rewrite Ed, Ew].
  destruct (tick_total (St := world N E) it (clock (net s.2.1.1)) d) as (d' & Hd' & Ht).
  destruct (web_works V (onDetail (fun _ => d')) s Hs) as (r & s' & V' & Hr & Hrest); [|done|].
  { destruct Hsv as [Ho Hi Ha Hc Hn]. split; [exact Ho|exact Hi|exact Ha|exact Hc|]. unfold notes_ok in *.
    cbn [onDetail wb_detail]. rewrite Ew in *. cbn. by rewrite Hd'. }
  exists r, s', V'. split; [|exact Hrest]. unfold tick_code. rewrite Ed, Ew, (Ht s.2.1.1).
  destruct s as [w [[u l] dv]]. exact Hr.
Qed.

(** What happens by itself to a vault on the screen, and what it stands for: it is
    read again, a toast ends, the notes lose the focus, a second passes. *)
Inductive vault_event : S -> option web_action -> S -> Prop :=
| ev_reload s r s' : on_vault (reload sess) s = (r, s') -> vault_event s None s'
| ev_toast s r s' : on_screen dropToast s = (r, s') -> vault_event s None s'
| ev_blur s r s' : blur sess s = (r, s') -> vault_event s (left_notes s.1) s'
| ev_tick s r s' : tick_code s = (r, s') -> vault_event s None s'.

(** What the user does with the items, and what happens by itself. *)
Inductive item_step : S -> option web_action -> S -> Prop :=
| it_gesture s a r s' : offered (screen_at s) a -> item_use a -> web_acts a s = (r, s') -> item_step s (denotes s.1 a) s'
| it_event s o s' : vault_event s o s' -> item_step s o s'.

Lemma item_steps s o s' : item_step s o s' -> wb_locked s.1 = false -> web_step sess supported clipboard_ok today s s'.
Proof.
  destruct 1 as [s a r s' Ho _ Ha|s o s' He]; intros Hk; [by eapply by_user|]. apply by_event. split; [done|].
  destruct He as [s r s' He|s r s' He|s r s' He|s r s' He]; exists r; tauto.
Qed.

Lemma works_effect V o m s r s' : works V o m s -> m s = (r, s') -> exists V', holds V' s' /\ effect_of refused_at s o V V'.
Proof.
  intros (r' & s1 & V' & Hm & _ & Hh & Hb) Hm'. rewrite Hm in Hm'. injection Hm' as _ <-. exists V'. split; [done|].
  by eapply outcome_effect.
Qed.

Lemma event_works V s o s' : holds V s -> vault_event s o s' -> exists V', holds V' s' /\ effect_of refused_at s o V V'.
Proof.
  intros Hs He. destruct He as [s r s' He|s r s' He|s r s' He|s r s' He].
  - destruct (again_holds V s Hs) as (s1 & Hr & Hh & _). rewrite Hr in He. injection He as _ <-. by exists V.
  - eapply works_effect; [|exact He]. apply web_works; [done| |done]. by apply same_sets; [apply Hs|].
  - eapply works_effect; [by apply blur_works|exact He].
  - eapply works_effect; [by apply tick_works|exact He].
Qed.

Lemma step_holds V s o s' : holds V s -> item_step s o s' -> exists V', holds V' s' /\ effect_of refused_at s o V V'.
Proof.
  intros Hs Hst. destruct Hst as [s0 a r s1 Ho Hu Ha|s0 o s1 He]; [|exact (event_works V s0 o s1 Hs He)].
  eapply works_effect; [by apply act_works|exact Ha].
Qed.

Lemma steps_hold V s log s' : holds V s -> logged item_step s log s' -> exists V', replay refused_at log V V' /\ holds V' s'.
Proof. apply logged_replays. exact step_holds. Qed.

(** A session given by its gestures, and the events between them. *)
#[global] Instance item_use_dec a : Decision (item_use a).
Proof. destruct a as [| | | | | | | | | | | |it []|[]|[[]| | | |]| | | | | | | |]; cbn; apply _. Defined.

Inductive happening := Uses (i : nat) (g : gesture) | Blurs | Ticks.
Definition noted {X : Type} (x : X) (o : option web_action) (log : list (X * web_action)) : list (X * web_action) :=
  match o with Some a => (x, a) :: log | None => log end.
(** The log it leaves, and where it ends. *)
Fixpoint enact (l : list happening) (s : S) : option (list (S * web_action) * S) :=
  match l with
  | [] => Some ([], s)
  | Uses i g :: l' =>
      a ← use (screen_at s) i g;
      _ ← guard (item_use a);
      prod_map (noted s (denotes s.1 a)) id <$> enact l' (web_acts a s).2
  | Blurs :: l' => prod_map (noted s (left_notes s.1)) id <$> enact l' (blur sess s).2
  | Ticks :: l' => enact l' (tick_code s).2
  end.

Lemma enact_logged l s log s' : enact l s = Some (log, s') -> logged item_step s log s'.
Proof.
  revert s log. induction l as [|[i g| |] l IH]; intros s log; cbn [enact].
  - intros [= <- <-]. constructor.
  - destruct (use _ i g) as [a|] eqn:Hu; [cbn [mbind option_bind]|done].
    case_guard as Ht; [cbn [mbind option_bind]|done]. intros ([log1 s1] & Hp & [= -> ->])%fmap_Some.
    eapply (logged_step item_step s); [|exact (IH _ _ Hp)].
    eapply it_gesture; [by exists i, g|exact Ht|apply surjective_pairing].
  - intros ([log1 s1] & Hp & [= -> ->])%fmap_Some. eapply (logged_step item_step s); [|exact (IH _ _ Hp)].
    apply it_event. eapply ev_blur, surjective_pairing.
  - intros Hp. eapply logged_still; [|exact (IH _ _ Hp)]. apply it_event. eapply ev_tick, surjective_pairing.
Qed.
End Session.

(** ** Theorems *)
Section Theorems.
Context {N E L D : Type} `{Unicode} `{UrlParser} `{WebCrypto} `{Environment N} `{Entropy E} `{!Clock N} `{LocalStorage L}
  `{!Sha256} `{!Sha1} `{!Dates} `{EngineText} `{!Biometric D} `{!Collation} `{!Locale}.

(** C5: The web vault as it is used: from its opening on, whatever the user does
    with the items, with texts that can be typed, and whatever happens in between
    (the list is read again, a toast ends, the notes lose the focus, the code
    ticks), the vault on the server is what the user's gestures make of it, each
    in its turn done as what its button says or not accepted by the server at that
    point, as when the token has expired.  The screen can be drawn; it lists that
    vault, and each item on it can be selected, but for an error shown above the
    list after a refusal.  Every gesture that is offered ends: Save, the star and
    Delete do to the vault exactly their update, and the screen lists it or says
    that it could not be read, or they are refused, nothing is changed, the list
    stays and an error is shown; anything else changes neither the vault nor its
    list.  Reading the list again shows the vault, or an error when the server
    refuses to read it out. *)
Theorem web_session (base token : jsstr) `{!CipherServer N base token} (sess : Session) supported clipboard_ok today
  V phrase (w : world N E) (l : L) (d : D) r s0 log s'
  (Htoken : token <> []) (Hsay : engine_message JsTypeError <> [] /\ engine_message JsSyntaxError <> [])
  (Hl : linked base token sess w V) (Hc : clean V)
  (Hopen : on_vault (reload sess) (web_opened phrase, ((w, l), d)) = (r, s0))
  (Hr : logged (item_step sess supported clipboard_ok today) s0 log s') :
  exists V' Vs sc, replay (refused_at base token sess) log V V' /\ linked base token sess s'.2.1.1 V' /\
    listing base token V' Vs (wb_screen s'.1) /\
    render_web (ss_identifier sess) supported s'.1 = Some sc /\
    (wb_card s'.1 = None -> wb_query s'.1 = [] -> wb_filter s'.1 = FAll ->
       forall id, offered sc (WSelect id) <-> is_Some (Vs !! id)) /\
    (forall a, offered sc a -> item_use a ->
      exists r1 s1 V1, web_do sess supported clipboard_ok today a s' = (r1, s1) /\ (clipboard_ok = true -> r1 = inl tt) /\
        linked base token sess s1.2.1.1 V1 /\ turns_out base token sess (denotes s'.1 a) V' s' V1 s1) /\
    exists s1, on_vault (reload sess) s' = (inl tt, s1) /\ linked base token sess s1.2.1.1 V' /\
      (WebVault.shows (wb_screen s1.1) V' \/ complains (wb_screen s1.1) /\ unread base token (net s'.2.1.1)).
Proof.
  destruct (reload_holds base token Htoken Hsay sess V (web_opened phrase, ((w, l), d)) ∅ Hl Hc) as (s & Hs & Hh & _).
  { intros id it Hv. by rewrite lookup_empty in Hv. }
  { by rewrite map_to_list_empty. }
  { intros c Vs Hs. split; [reflexivity|by exists Vs|reflexivity|exact I|exact I]. }
  rewrite Hs in Hopen. injection Hopen as _ <-.
  destruct (steps_hold base token Htoken Hsay sess supported clipboard_ok today V s log s' Hh Hr) as (V' & Hlog & Hh').
  destruct (sv_items _ _ _ _ (ho_shows _ _ _ _ _ Hh')) as (Vs & Hls).
  destruct (screen_drawn base token sess supported V' Vs s' Hh' (proj1 Hls)) as (sc & Hsc & Hat & Hsel & _).
  exists V', Vs, sc. split; [exact Hlog|]. split; [exact (ho_linked _ _ _ _ _ Hh')|]. split; [exact Hls|].
  split; [exact Hsc|]. split; [exact Hsel|]. split.
  - intros a Ho Hu. rewrite <- Hat in Ho.
    destruct (act_works base token Htoken Hsay sess supported clipboard_ok today V' a s' Hh' Ho Hu) as (r1 & s1 & V1 & Hm & Hr1 & Hh1 & Hb).
    exists r1, s1, V1. split; [exact Hm|]. split; [exact Hr1|]. split; [exact (ho_linked _ _ _ _ _ Hh1)|exact Hb].
  - destruct (again_holds base token Htoken Hsay sess V' s' Hh') as (s1 & Hr1 & Hh1 & Ho).
    exists s1. split; [exact Hr1|]. split; [exact (ho_linked _ _ _ _ _ Hh1)|exact Ho].
Qed.

(** The list takes a search or a filter without a match for an empty vault: whatever
    is stored, the message says that there is nothing yet. *)
Theorem list_no_match_says_empty (w : web) (Hl : sc_loading (wb_screen w) = false)
  (Hf : forall it, it ∈ sc_items (wb_screen w) ->
    inFilter (wb_filter w) it = false \/ wb_query w <> [] /\ includes (to_lower (wb_query w)) (searchHaystack it) = false) :
  web_list w = Some [Say no_items].
Proof.
  unfold web_list. rewrite Hl. destruct (vault_list _ _ _) as [|it l] eqn:El; [done|].
  assert (Hin : it ∈ vault_list (wb_filter w) (wb_query w) (sc_items (wb_screen w))) by (rewrite El; by left).
  unfold vault_list in Hin. rewrite sort_permutation in Hin. apply list_elem_of_In, filter_In in Hin as [Hin Hm].
  apply list_elem_of_In in Hin. apply andb_true_iff in Hm as [Hm Hq].
  destruct (Hf it Hin) as [Hno|[Hne Hs]]; [congruence|]. destruct (wb_query w); [done|congruence].
Qed.
End Theorems.

(** ** A session *)
#[local] Existing Instances latin1_unicode model_crypto lcg_entropy map_environment map_cipher_server map_storage no_clock
  mixed_sha256 demo_sha1 numeric_dates web_errors browser no_urls.
#[local] Program Instance one_place : Collation := {| localeCompare _ _ := 0 |}.
Solve Obligations with lia.
#[local] Instance plain_locale : Locale := {| date_text _ := []; date_time_text _ := []; number_text := dec |}.

Definition opened_empty : web * (world (gmap jsstr jsstr) Z * gmap jsstr jsstr * unit) :=
  (on_vault (reload sample_session) (web_opened None, ((empty_world, ∅), tt))).2.
Abbreviation play := (enact sample_session true true []).

(** Add a login with a generated password and a secret for codes, save, select it,
    type notes, star it, and let the code tick. *)
Definition happenings : list happening :=
  [Uses 0 Press; Uses 7 (Enter (js "Bank")); Uses 15 Press; Uses 17 (Enter (js "JBSWY3DPEE======")); Uses 25 Press;
   Uses 14 Press; Uses 28 (Enter (js "branch in town")); Blurs; Uses 19 Press; Ticks].
(** Nothing is open over the list, and nothing narrows it. *)
Definition plain_list (w : web) : bool :=
  match wb_card w, wb_query w, wb_filter w with None, [], FAll => true | _, _, _ => false end.

Lemma plain_list_spec w : plain_list w = true -> wb_card w = None /\ wb_query w = [] /\ wb_filter w = FAll.
Proof. unfold plain_list. by destruct (wb_card w), (wb_query w), (wb_filter w). Qed.

(** It stores an item, changes its notes and stars it; then the screen complains
    about nothing. *)
Definition happened (o : option (list ((web * (world (gmap jsstr jsstr) Z * gmap jsstr jsstr * unit)) * web_action) *
    (web * (world (gmap jsstr jsstr) Z * gmap jsstr jsstr * unit)))) : bool :=
  match o with
  | Some (log, s) =>
      match map snd log, sc_error (wb_screen s.1) with
      | [Save _; Notes _ _; Star _], None => plain_list s.1
      | _, _ => false
      end
  | None => false
  end.

Lemma happened_spec log s : happened (Some (log, s)) = true ->
  length log = 3%nat /\ sc_error (wb_screen s.1) = None /\ plain_list s.1 = true.
Proof.
  cbn [happened]. intros Hp. rewrite <- (length_map snd log). destruct (map snd log) as [|[] [|[] [|[] [|]]]]; try discriminate Hp.
  destruct (sc_error (wb_screen s.1)); [discriminate Hp|]. split; [reflexivity|]. split; [reflexivity|exact Hp].
Qed.

Lemma web_session_witness : exists log s V sc, play happenings opened_empty = Some (log, s) /\ length log = 3%nat /\
  replay (refused_at [] (js "token") sample_session) log ∅ V /\
  linked [] (js "token") sample_session s.2.1.1 V /\ lists (wb_screen s.1) V /\
  render_web (js "alice@example.org") true s.1 = Some sc /\ (forall id, offered sc (WSelect id) <-> is_Some (V !! id)).
Proof.
  assert (Hp : happened (play happenings opened_empty) = true) by (vm_compute; reflexivity).
  destruct (play happenings opened_empty) as [[log s]|] eqn:Ep; [|discriminate Hp]. exists log, s.
  destruct (web_session [] (js "token") sample_session true true [] ∅ None empty_world (∅ : gmap jsstr jsstr) tt
    (on_vault (reload sample_session) (web_opened None, ((empty_world, ∅ : gmap jsstr jsstr), tt))).1 opened_empty log s)
    as (V & Vs & sc & Hr & Hl & [Hs He] & Hsc & Hsel & _).
  - discriminate.
  - by split.
  - exact sample_linked.
  - intros id it Hv. by rewrite lookup_empty in Hv.
  - apply surjective_pairing.
  - exact (enact_logged sample_session true true [] happenings _ _ _ Ep).
  - exists V, sc. destruct (happened_spec log s Hp) as (Hlen & Herr & Hpl).
    destruct (plain_list_spec s.1 Hpl) as (Hc & Hq & Hf).
    destruct He as [[_ ->]|[(m & Hm & _) _]]; [|rewrite Hm in Herr; discriminate Herr].
    split; [reflexivity|]. split; [exact Hlen|]. split; [exact Hr|].
    split; [exact Hl|]. split; [exact Hs|]. split; [exact Hsc|]. exact (Hsel Hc Hq Hf).
Defined.

Lemma list_no_match_says_empty_witness :
  web_list (setQuery (js "tax") (setScreen (setItems [blankFields (js "login")] (setLoading false mounted)) (web_opened None)))
    = Some [Say no_items].
Proof.
  apply list_no_match_says_empty; [reflexivity|]. intros it [->|[]%not_elem_of_nil]%elem_of_cons.
  right. split; [discriminate|vm_compute; reflexivity].
Defined.
