(* ===== verification/WebApp.v ===== *)
(** The web app as a whole: the App component of apps/web/src/App.tsx, which shows
    the sign-in page of AuthUi.v while no session is open and the vault of WebUi.v
    while one is, against a server that keeps accounts and their ciphers. *)
From stdpp Require Import relations.
From S2P Require Import Prelude Text Numeral Json JsonFacts Encoding JsonText Objects Effects Process Platform Primitives.
From S2P Require Import Kdf Policy Identifier Account Totp Backup Items Portable Api Session VaultStore Login Background Views Health Biometric.
From S2P Require Import Transfer TransferUi WebPanels PanelsUi WebVault Editor AsyncButton ItemUi WebAuth AuthUi Ui WebUi.

(** ** The app *)

(** [session], [recovery] and the child that is mounted: while a session is open
    its screen shows the phrase. *)
Inductive app :=
| SignIn (recovery : option jsstr) (l : look) (a : auth)
| Opened (se : Session) (v : web).
Definition fresh_app : app := SignIn None still fresh_auth.
Inductive app_act := OnPage (u : page_use) | InVault (a : web_act).

(** The reveal of a PasswordField goes with it. *)
Definition relook (a : auth) (l : look) : look :=
  Look (lk_busy l) (lk_bioBusy l) (lk_plain l) ((bool_decide (au_mode a = Register) || au_recover a) && lk_plainConfirm l).

Section App.
Context {N E L D : Type} `{Unicode} `{UrlParser} `{WebCrypto} `{Environment N} `{Entropy E} `{Clock N} `{LocalStorage L}
  `{Sha256} `{Sha1} `{Dates} `{EngineText} `{Biometric D} `{Collation} `{Locale}.
Context (SITE_URL : jsstr) (supported clipboard_ok : bool) (today : jsstr).
Abbreviation S := (app * ((world N E * L) * D))%type.

(** [onLock], and [onDismissRecovery] in the state of the screen. *)
Definition app_of (se : Session) (v : web) : app := if wb_locked v then fresh_app else Opened se v.
Definition in_vault {A} (se : Session) (m : M (web * ((world N E * L) * D)) A) (v : web) : M S A := fun s =>
  let '(r, (v', o)) := m (v, s.2) in (r, (app_of se v', o)).

(** After a handler of the page: a session that was set mounts the vault, which
    begins with reading it. *)
Definition on_auth (m : M ((shell * auth) * (world N E * D)) unit) (phrase : option jsstr) (l : look) (a : auth) : M S unit := fun s =>
  let '(r, ((h, a'), (w, d))) := m ((Shell None phrase, a), (s.2.1.1, s.2.2)) in
  let o := ((w, s.2.1.2), d) in
  match sh_session h with
  | Some se => (r, (in_vault se (on_vault (WebVault.reload se)) (web_opened (sh_recovery h)) (s.1, o)).2)
  | None => (r, (SignIn (sh_recovery h) (relook a' l) a', o))
  end.

Definition page_act (u : page_use) (phrase : option jsstr) (l : look) (a : auth) : M S unit :=
  match u with
  | AuthUi.Do x => on_auth (act x) phrase l a
  | AuthUi.PeekPassword => modify (fun s => (SignIn phrase (Look (lk_busy l) (lk_bioBusy l) (negb (lk_plain l)) (lk_plainConfirm l)) a, s.2))
  | PeekConfirm => modify (fun s => (SignIn phrase (Look (lk_busy l) (lk_bioBusy l) (lk_plain l) (negb (lk_plainConfirm l))) a, s.2))
  end.
Definition app_do (x : app_act) : M S unit := fun s =>
  match s.1, x with
  | SignIn phrase l a, OnPage u => page_act u phrase l a s
  | Opened se v, InVault b => in_vault se (web_do se supported clipboard_ok today b) v s
  | _, _ => (inl tt, s)
  end.

Definition render_app (p : app) : option (screen app_act) :=
  match p with
  | SignIn _ l a => embed OnPage <$> AuthUi.render SITE_URL l a
  | Opened se v => embed InVault <$> render_web (ss_identifier se) supported v
  end.
Definition app_screen (s : S) : screen app_act := default [] (render_app s.1).

(** The effect of the page's mounting, those of the vault, and the idle lock. *)
Inductive app_event : S -> S -> Prop :=
| ev_probe phrase l a o r s' : on_auth probeBiometric phrase l a (SignIn phrase l a, o) = (r, s') -> app_event (SignIn phrase l a, o) s'
| ev_vault se v o v' o' : web_event se (v, o) (v', o') -> app_event (Opened se v, o) (app_of se v', o')
| ev_idle se v o : app_event (Opened se v, o) (fresh_app, o).
Definition app_step : relation S := ui_step app_screen app_do app_event.

(** Several gestures on the page, as long as none of them raises. *)
Fixpoint gestures (l : list action) : M S unit :=
  match l with [] => mret tt | x :: l' => _ ← app_do (OnPage (AuthUi.Do x)); gestures l' end.
End App.

(** ** A server with accounts and ciphers *)

(** Who holds a token of an account is served its ciphers while the token is taken,
    as it is when it has just been given out, and the accounts stay as they are.
    Nothing is said of how long a token is taken, nor that any request but that
    first one is accepted. *)
Class VaultServer (N : Type) `{Environment N} `{Unicode} (base : jsstr) `{!AccountServer N base} := {
  owned : jsstr -> jsstr -> Prop;   (* a token of the account, taken or not any more *)
  seat (i token : jsstr) (A : gmap jsstr json) : CipherServer N base token;
  seat_store : forall i token A n, @store _ _ _ _ (seat i token A) n = default ∅ (ciphers n !! i);
  seat_ok : forall i token A n, @srv_ok _ _ _ _ (seat i token A) n <->
    acc_ok n /\ accounts n = A /\ owned i token;
  issued_text : forall n i v, issued n i v -> exists token, v = str token /\ token <> [] /\ owned i token;
  issued_taken : forall i token A n, issued n i (str token) ->
    @accepts _ _ _ _ (seat i token A) n (auth_request base token GET (js "/api/sync") None) = true;
}.

(** ** The life of an account *)
Section Life.
Context {N E L D : Type} `{Unicode} `{UrlParser} `{WebCrypto} `{Environment N} `{Entropy E} `{!Clock N} `{LocalStorage L}
  `{!Sha256} `{!Sha1} `{!Dates} `{EngineText} `{!Biometric D} `{!Collation} `{!Locale}.
Context (base : jsstr) `{!AccountServer N base} `{!VaultServer N base}.
Context (SITE_URL : jsstr) (supported clipboard_ok : bool) (today : jsstr).
Context (i pw : jsstr) (Hi : identifier_ok i) (Hpw : masterPasswordIssue pw = None).
Context (Hsay : engine_message JsTypeError <> [] /\ engine_message JsSyntaxError <> []).
Abbreviation W := (world N E).
Abbreviation S := (app * ((world N E * L) * D))%type.
Abbreviation key_of := (normalizeIdentifier i).
Abbreviation app_does := (app_do (N := N) (E := E) (L := L) (D := D) supported clipboard_ok today).
Abbreviation app_shows := (app_screen (N := N) (E := E) (L := L) (D := D) SITE_URL supported).
Abbreviation gestures_ := (gestures (N := N) (E := E) (L := L) (D := D) supported clipboard_ok today).

(** The form signs in to the account, with its password. *)
Definition signs_in (a : auth) : Prop :=
  au_mode a = WebAuth.Login /\ au_recover a = false /\ au_twoFactor a = None /\ au_password a = pw /\
  ascii (au_identifier a) /\ normalizeIdentifier (au_identifier a) = key_of.

(** What is done on the page: anything is typed or generated, and the form is sent
    when its checks refuse it or it signs in to the account. *)
Definition may_use (u : page_use) (a : auth) : Prop :=
  match u with
  | AuthUi.Do (Type_ _ | Switch _ | Dice) | AuthUi.PeekPassword | PeekConfirm => True
  | AuthUi.Do Submit => form_issue a <> None \/ signs_in a
  | _ => False
  end.

(** The gestures on the page and on the items, locking, and what happens by itself,
    with what each stands for. *)
Inductive life : S -> option web_action -> S -> Prop :=
| life_page phrase l a o u r s' : offered (app_shows (SignIn phrase l a, o)) (OnPage u) -> may_use u a ->
    app_does (OnPage u) (SignIn phrase l a, o) = (r, s') -> life (SignIn phrase l a, o) None s'
| life_probe phrase l a o r s' : on_auth probeBiometric phrase l a (SignIn phrase l a, o) = (r, s') ->
    life (SignIn phrase l a, o) None s'
| life_vault se v o b r s' : offered (app_shows (Opened se v, o)) (InVault b) -> item_use b \/ b = WLock ->
    app_does (InVault b) (Opened se v, o) = (r, s') -> life (Opened se v, o) (denotes v b) s'
| life_event se v o x v' o' : vault_event se (v, o) x (v', o') -> life (Opened se v, o) x (app_of se v', o')
| life_idle se v o : life (Opened se v, o) None (fresh_app, o).

(** It is a part of what the app can do. *)
Lemma life_steps s x s' : life s x s' -> (forall se v, s.1 = Opened se v -> wb_locked v = false) ->
  app_step SITE_URL supported clipboard_ok today s s'.
Proof.
  intros [phrase l a o u r s1 Ho _ Ha|phrase l a o r s1 He|se v o b r s1 Ho _ Ha|se v o x' v' o' He|se v o] Hk.
  - by eapply by_user.
  - apply by_event. by eapply ev_probe.
  - by eapply by_user.
  - apply by_event, ev_vault. split; [by eapply Hk|]. inversion He; subst; eexists; eauto 9.
  - apply by_event, ev_idle.
Qed.

(** The server turns down what is asked in this state of the app. *)
Definition turned_down (s : S) (a : web_action) : Prop :=
  match s.1 with
  | Opened se _ => exists token, ss_accessToken se = str token /\
      rejected (CipherServer0 := seat key_of token (accounts (net s.2.1.1))) base token se (net s.2.1.1) a
  | SignIn _ _ _ => False
  end.

(** What the server keeps is read with the key alone. *)
Lemma represents_key (se se' : Session) m V : ss_userKey se' = ss_userKey se ->
  represents (N := N) (E := E) se m V -> represents (N := N) (E := E) se' m V.
Proof.
  intros Hk Hr id. specialize (Hr id). destruct (m !! id) as [data|]; [|exact Hr]. destruct (V !! id) as [it|].
  - destruct Hr as (raw & Hs & Hit & Ho). exists raw. by rewrite Hk.
  - intros c Hc w. destruct (Hr c Hc w) as [e He]. exists e. revert He. unfold open_cipher. by rewrite Hk.
Qed.

(** The server has the account with the vault [V], and nobody is signed in. *)
Definition at_rest (uk : bytes) (V : gmap jsstr obj) (w : W) : Prop :=
  baseUrl w = base /\ acc_ok (net w) /\ has_account (N := N) (E := E) (accounts (net w)) i pw uk /\ user_key_ok uk /\
  (forall se, ss_userKey se = uk -> represents (N := N) (E := E) se (default ∅ (ciphers (net w) !! key_of)) V) /\ clean V.

Section Seat.
Context (token : jsstr) (A : gmap jsstr json) (Htoken : token <> []).
#[local] Instance at_seat : CipherServer N base token := seat key_of token A.

(** The vault is open, with a token of the account. *)
Definition sits (se : Session) (V : gmap jsstr obj) (v : web) (o : (world N E * L) * D) : Prop := holds base token se V (v, o).

Lemma sits_open se V v o : sits se V v o -> wb_locked v = false.
Proof. intros Hs. by destruct (ho_shows _ _ _ _ _ Hs). Qed.

Lemma sits_rest se V v o : has_account (N := N) (E := E) A i pw (ss_userKey se) -> sits se V v o -> at_rest (ss_userKey se) V o.1.1.
Proof.
  intros Ha [(Hb & Hok & Hr & _ & Hk) HV _]. apply seat_ok in Hok as (Hok & HA & _). unfold at_rest. cbn [snd] in *.
  split; [exact Hb|]. split; [exact Hok|]. split; [by rewrite HA|]. split; [exact Hk|]. split; [|exact HV].
  intros se' Hse. unfold at_seat in Hr. rewrite seat_store in Hr. by eapply represents_key.
Qed.

(** Whoever was let in sees the vault. *)
Lemma sits_in V se (w : W) l d phrase :
  baseUrl w = base -> acc_ok (net w) -> accounts (net w) = A -> issued (net w) key_of (ss_accessToken se) ->
  ss_accessToken se = str token -> owned key_of token -> user_key_ok (ss_userKey se) -> clean V ->
  represents (N := N) (E := E) se (default ∅ (ciphers (net w) !! key_of)) V ->
  exists v o, on_vault (WebVault.reload se) (web_opened phrase, ((w, l), d)) = (inl tt, (v, o)) /\ sits se V v o /\
    WebVault.shows (wb_screen v) V.
Proof.
  intros Hb Hok HA Hiss Ht How Hk HV Hr.
  destruct (reload_holds base token Htoken Hsay se V (web_opened phrase, ((w, l), d)) ∅) as ([v o] & Hs & Hh & Hv).
  - split; [exact Hb|]. split; [by apply seat_ok|]. split; [|done]. unfold at_seat. by rewrite seat_store.
  - exact HV.
  - intros id it Hv. by rewrite lookup_empty in Hv.
  - by rewrite map_to_list_empty.
  - intros c Vs Hc. split; [reflexivity|by exists Vs|reflexivity|exact I|exact I].
  - exists v, o. split; [exact Hs|]. split; [exact Hh|]. destruct Hv as [Hv|[_ Hn]]; [exact Hv|].
    unfold unread in Hn. cbn [fst snd] in Hn. unfold at_seat in Hn. rewrite issued_taken in Hn by (by rewrite <- Ht). discriminate Hn.
Qed.

(** What the screen lists, and reading the list again. *)
Lemma sits_lists se V v o : sits se V v o ->
  exists Vs, lists (wb_screen v) Vs /\ (sc_error (wb_screen v) = None /\ Vs = V \/ complains (wb_screen v)) /\
  (exists sc, render_web (ss_identifier se) supported v = Some sc /\
    (wb_card v = None -> wb_query v = [] -> wb_filter v = FAll -> forall id, offered sc (WSelect id) <-> is_Some (Vs !! id))) /\
  exists v' o', on_vault (WebVault.reload se) (v, o) = (inl tt, (v', o')) /\
    (WebVault.shows (wb_screen v') V \/ complains (wb_screen v') /\ unread base token (net o.1.1)).
Proof.
  intros Hs. destruct (sv_items _ _ _ _ (ho_shows _ _ _ _ _ Hs)) as (Vs & Hls & Hv). cbn [fst] in *. exists Vs.
  split; [exact Hls|]. split; [by destruct Hv as [Hv|[Hv _]]; [left|right]|]. split.
  - destruct (screen_drawn base token se supported V Vs (v, o) Hs Hls) as (sc & Hsc & _ & Hsel & _). by exists sc.
  - destruct (again_holds base token Htoken Hsay se V (v, o) Hs) as ([v' o'] & Hr & _ & Ho). by exists v', o'.
Qed.
End Seat.

(** The screen is that of the vault of the account, if it is open. *)
Definition home (uk : bytes) (V : gmap jsstr obj) (s : S) : Prop :=
  match s.1 with
  | SignIn phrase _ _ => phrase = None /\ at_rest uk V s.2.1.1
  | Opened se v => ss_userKey se = uk /\ exists token A, token <> [] /\ has_account (N := N) (E := E) A i pw uk /\
      sits token A se V v s.2
  end.

(** A session that the flows let in mounts the vault. *)
Lemma arrives V uk se (w : W) l d phrase p : ss_userKey se = uk -> user_key_ok uk -> clean V ->
  has_account (N := N) (E := E) (accounts (net w)) i pw uk ->
  baseUrl w = base -> acc_ok (net w) -> issued (net w) key_of (ss_accessToken se) ->
  (forall se, ss_userKey se = uk -> represents (N := N) (E := E) se (default ∅ (ciphers (net w) !! key_of)) V) ->
  exists v o, in_vault se (on_vault (WebVault.reload se)) (web_opened phrase) (p, ((w, l), d)) = (inl tt, (Opened se v, o)) /\
    home uk V (Opened se v, o) /\ WebVault.shows (wb_screen v) V.
Proof.
  intros Hse Hk HV Ha Hb Hok Hiss Hr. destruct (issued_text _ _ _ Hiss) as (token & Ht & Hne & How).
  destruct (sits_in token (accounts (net w)) Hne V se w l d phrase) as (v & o & Hs & Hh & Hv); try done; [by rewrite Hse|by apply Hr|].
  exists v, o. unfold in_vault. cbn [snd]. rewrite Hs. unfold app_of. rewrite (sits_open _ _ _ _ _ _ Hh).
  split; [reflexivity|]. split; [|exact Hv]. split; [exact Hse|]. by exists token, (accounts (net w)).
Qed.

(** ** The page *)

Lemma signs_in_sent a : signs_in a -> needTotp a = Some false /\ form_issue a = None /\ phrase_of a = None /\
  forall w : W, flow a false w = loginAccount (au_identifier a) pw None w.
Proof.
  intros (Hm & Hr & Ht & Hp & Ha & Hn). unfold needTotp, phrase_of, flow. rewrite Ht, Hr, Hm, Hp.
  split; [done|]. split; [|done]. apply form_issue_none. split.
  - apply trim_nonempty. rewrite Hn. intros E0. destruct Hi as [_ Hi']. rewrite E0 in Hi'. cbn in Hi'. lia.
  - rewrite Hr, Hp, Hm. split; [by apply strong_nonempty|done].
Qed.

(** Sending the form that signs in opens the vault. *)
Lemma submit_opens uk V l a (w : W) ls d p : at_rest uk V w -> signs_in a ->
  exists se v o, on_auth (act Submit) None l a (p, ((w, ls), d)) = (inl tt, (Opened se v, o)) /\ home uk V (Opened se v, o) /\
    WebVault.shows (wb_screen v) V.
Proof.
  intros (Hb & Hok & Ha & Hk & Hr & HV) Hs. destruct (signs_in_sent a Hs) as (Hn & Hf & Hph & Hfl).
  destruct Hs as (_ & _ & _ & _ & Hj & Hnj).
  destruct (loginAccount_returns base (au_identifier a) i pw uk w Hb Hok Hj Hnj Ha)
    as (se & w' & Hl & Hu & _ & _ & (Hb' & Hok' & Hc' & Hiss) & HA).
  pose proof (submit_sent (Shell None None) a w d false Hn Hf eq_refl) as Hsub. rewrite Hfl, Hl in Hsub. destruct Hsub as [d' Hsub].
  destruct (arrives V uk se w' ls d' (phrase_of a) p) as (v & o & Hv & Hh); try done; [by rewrite HA|by rewrite Hc'|].
  exists se, v, o. split; [|exact Hh]. unfold on_auth. cbn [fst snd act]. rewrite Hsub. cbn [sh_session sh_recovery]. by rewrite Hv.
Qed.

(** What stays on the page leaves the server alone. *)
Definition stays (a : auth) (m : M ((shell * auth) * (W * D)) unit) : Prop := forall w d, exists r a' w' d',
  m ((Shell None None, a), (w, d)) = (r, ((Shell None None, a'), (w', d'))) /\ baseUrl w' = baseUrl w /\ net w' = net w.

Lemma stays_home m uk V l a (w : W) ls d p : stays a m -> at_rest uk V w -> exists r s',
  on_auth m None l a (p, ((w, ls), d)) = (r, s') /\ home uk V s'.
Proof.
  intros Hm Hw. destruct (Hm w d) as (r & a' & w' & d' & Hr & Hb & Hn). unfold on_auth. cbn [fst snd]. rewrite Hr.
  eexists _, _. split; [reflexivity|]. split; [done|]. unfold at_rest in *. cbn [fst snd]. by rewrite Hb, Hn.
Qed.

Lemma types_stay a x : (exists t, x = Type_ t) \/ (exists m, x = Switch m) -> stays a (act x).
Proof. intros [[t ->]|[m ->]] w d; eexists _, _, _, _; split; [reflexivity|done|reflexivity|done]. Qed.

Lemma dice_stay a : stays a (act Dice).
Proof.
  intros w d. cbn [act]. unfold WebAuth.generate, mbind, M_bind, WebAuth.api. cbn [fst snd].
  assert (Hk : Keeps (fun x : W => baseUrl x = baseUrl w /\ net x = net w) newAccountId)
    by (apply generateAccountId_keeps; intros k x Hx; exact Hx).
  specialize (Hk w (conj eq_refl eq_refl)).
  destruct (newAccountId w) as [[x|e] w']; eexists _, _, _, _; (split; [reflexivity|exact Hk]).
Qed.

Lemma probe_stay a : stays a probeBiometric.
Proof.
  intros w d. unfold probeBiometric, mbind, M_bind, bio. cbn [fst snd].
  destruct (biometricAvailable d) as [[[|]|e] d1]; cbn [fst snd];
    [destruct (biometricEnrolled d1) as [[b|e] d2]|..]; eexists _, _, _, _; (split; [reflexivity|done]).
Qed.

Lemma refused_stay a need : form_issue a <> None -> needTotp a = Some need -> stays a (act Submit).
Proof.
  intros Hf Hn w d. destruct (form_issue a) as [e|] eqn:He; [|done].
  pose proof (submit_refused (Shell None None) a (w, d) need e Hn He) as Hs. cbn [act]. rewrite Hs.
  eexists _, _, _, _. split; [reflexivity|done].
Qed.

Lemma page_home uk V l a u (w : W) ls d :
  at_rest uk V w -> offered (app_shows (SignIn None l a, ((w, ls), d))) (OnPage u) -> may_use u a ->
  exists r s', app_does (OnPage u) (SignIn None l a, ((w, ls), d)) = (r, s') /\ home uk V s'.
Proof.
  intros Hw Ho Hu. unfold app_do. cbn [fst page_act].
  destruct u as [x| |]; cbn [page_act]; [|by eexists _, _..].
  destruct x as [t| | | | | |m| |]; cbn [may_use] in Hu; try done.
  - apply stays_home; [|exact Hw]. apply types_stay. left. by exists t.
  - destruct Hu as [Hf|Hs].
    + unfold app_screen, render_app, AuthUi.render in Ho. cbn [fst] in Ho.
      destruct (needTotp a) as [need|] eqn:Hn; [|by apply offered_nil in Ho].
      apply stays_home; [|exact Hw]. by eapply refused_stay.
    + destruct (submit_opens uk V l a w ls d (SignIn None l a) Hw Hs) as (se & v & o & Hr & Hh & _). by eexists _, _.
  - apply stays_home; [apply dice_stay|exact Hw].
  - apply stays_home; [|exact Hw]. apply types_stay. right. by exists m.
Qed.

(** ** The vault *)

Lemma rest_home uk V se v o : home uk V (Opened se v, o) -> at_rest uk V o.1.1.
Proof. intros (<- & token & A & _ & Ha & Hs). by eapply sits_rest. Qed.

Lemma lock_home uk V se v o : home uk V (Opened se v, o) -> home uk V (fresh_app, o).
Proof. intros Hh. split; [done|]. exact (rest_home uk V se v o Hh). Qed.

Lemma sits_effect token A se uk V v o x V' : has_account (N := N) (E := E) A i pw uk -> sits token A se V v o ->
  effect_of (refused_at base token (CipherServer0 := seat key_of token A) se) (v, o) x V V' ->
  effect_of turned_down (Opened se v, o) x V V'.
Proof.
  intros Ha [(_ & Hok & _ & Ht & _) _ _]. apply seat_ok in Hok as (_ & HA & _). cbn [fst snd] in *. subst A.
  apply effect_imp. intros a Hr. by exists token.
Qed.

Lemma vault_home uk V se v o b r s' : home uk V (Opened se v, o) -> offered (app_shows (Opened se v, o)) (InVault b) ->
  item_use b \/ b = WLock -> app_does (InVault b) (Opened se v, o) = (r, s') ->
  exists V', home uk V' s' /\ effect_of turned_down (Opened se v, o) (denotes v b) V V'.
Proof.
  intros Hh Ho Hu. pose proof Hh as (Hk & token & A & Hne & Ha & Hs). cbn [fst snd] in *.
  unfold app_screen, render_app in Ho. cbn [fst] in Ho.
  destruct (render_web (ss_identifier se) supported v) as [sc|] eqn:Er; [|by apply offered_nil in Ho].
  cbn [fmap option_fmap option_map default from_option] in Ho. apply offered_embed in Ho as (b' & [= <-] & Ho).
  unfold app_do. cbn [fst snd in_vault]. unfold in_vault. cbn [fst snd]. destruct Hu as [Hu|Hu].
  - destruct (act_works base token (CipherServer0 := seat key_of token A) Hne Hsay se supported clipboard_ok today V b (v, o) Hs) as
      (r1 & [v1 o1] & V1 & Hr & _ & Hh1 & Hb); [unfold web_screen; cbn [fst]; by rewrite Er|exact Hu|].
    rewrite Hr. unfold app_of. rewrite (sits_open token A se V1 v1 o1 Hh1). intros [= _ <-].
    exists V1. split; [|eapply sits_effect; [exact Ha|exact Hs|by eapply outcome_effect]]. split; [exact Hk|]. by exists token, A.
  - subst b. unfold web_do. cbn [fst]. destruct (wb_card v) as [m|] eqn:Ec.
    + assert (Hm : forall x : web * ((world N E * L) * D), card_do se supported clipboard_ok today m WLock x = (inl tt, x)) by (by destruct m).
      rewrite Hm. unfold app_of. rewrite (sits_open token A se V v o Hs). intros [= _ <-]. by exists V.
    + cbn [page_do]. intros [= _ <-]. exists V. split; [|done]. by eapply lock_home.
Qed.

Lemma life_home uk V s x s' : home uk V s -> life s x s' -> exists V', home uk V' s' /\ effect_of turned_down s x V V'.
Proof.
  intros Hh Hl. destruct Hl as [phrase l a o u r s1 Ho Hu Ha|phrase l a o r s1 He|se v o b r s1 Ho Hu Ha|se v o x v' o' He|se v o].
  - destruct o as [[w ls] d]. destruct Hh as [Hp Hw]. subst phrase. exists V. split; [|done].
    destruct (page_home uk V l a u w ls d Hw Ho Hu) as (r' & s2 & Hr & Hh). rewrite Hr in Ha. by injection Ha as _ <-.
  - destruct o as [[w ls] d]. destruct Hh as [Hp Hw]. subst phrase. exists V. split; [|done].
    destruct (stays_home probeBiometric uk V l a w ls d (SignIn None l a) (probe_stay a) Hw) as (r' & s2 & Hr & Hh).
    rewrite Hr in He. by injection He as _ <-.
  - by eapply vault_home.
  - destruct Hh as (Hk & token & A & Hne & Ha & Hs). cbn [fst snd] in *.
    destruct (event_works base token (CipherServer0 := seat key_of token A) Hne Hsay se clipboard_ok V (v, o) x (v', o') Hs He) as (V' & Hh' & Hb).
    exists V'. split; [|by eapply sits_effect]. unfold app_of. rewrite (sits_open token A se V' v' o' Hh').
    split; [exact Hk|]. by exists token, A.
  - exists V. split; [|done]. by eapply lock_home.
Qed.

Lemma lives_home uk V s log s' : home uk V s -> logged life s log s' -> exists V', replay turned_down log V V' /\ home uk V' s'.
Proof. apply logged_replays. exact (life_home uk). Qed.

(** ** Coming and going *)

Lemma gestures_app l1 l2 (s s1 : S) x : returns (gestures_ l1) s tt s1 -> gestures_ l2 s1 = x -> gestures_ (l1 ++ l2) s = x.
Proof.
  revert s. induction l1 as [|y l1 IH]; intros s Hl Hr; cbn [gestures Datatypes.app] in *; [by apply ret_inv in Hl as [_ <-]|].
  apply bind_inv in Hl as (u & s2 & Hx & Hl). destruct u. by rewrite (bind_returns _ _ _ _ _ _ Hx (IH s2 Hl Hr)).
Qed.

(** Whoever types the identifier, in any spelling, and the password is back in the
    vault, whatever was on the form. *)
Lemma sign_in_again uk V l a o j : at_rest uk V o.1.1 -> ascii j -> normalizeIdentifier j = key_of ->
  exists se v o', returns (gestures_ [Switch WebAuth.Login; Type_ (Identifier j); Type_ (Password pw); Submit])
    (SignIn None l a, o) tt (Opened se v, o') /\ home uk V (Opened se v, o') /\ WebVault.shows (wb_screen v) V.
Proof.
  intros Hw Hj Hn. destruct o as [[w ls] d].
  set (a' := WebAuth.setPassword pw (setGenerated false (setIdentifier j (WebAuth.setConfirmId [] (setRecoveryCode []
    (setRecover false (setTotp [] (setTwoFactor None (WebAuth.setError None (setMode WebAuth.Login a)))))))))).
  assert (Hs : signs_in a') by (unfold a'; destruct a; done).
  assert (Hty : exists l', returns (gestures_ [Switch WebAuth.Login; Type_ (Identifier j); Type_ (Password pw)])
    (SignIn None l a, ((w, ls), d)) tt (SignIn None l' a', ((w, ls), d))) by (eexists; reflexivity).
  destruct Hty as [l' Hty].
  destruct (submit_opens uk V l' a' w ls d (SignIn None l' a', ((w, ls), d)).1 Hw Hs) as (se & v & o' & Hr & Hh).
  exists se, v, o'. split; [|exact Hh].
  apply (gestures_app [_; _; _] [Submit] _ _ _ Hty). cbn [gestures]. by run Hr.
Qed.

(** A new account is a vault without items. *)
Lemma sign_up (w : W) ls d : baseUrl w = base -> acc_ok (net w) -> accounts (net w) !! key_of = None -> (64 ∈ i -> email_shape (trim i)) ->
  exists se v o, returns (gestures_ [Type_ (Identifier i); Type_ (Password pw); Type_ (Confirm pw); Type_ (ConfirmId i); Submit])
    (fresh_app, ((w, ls), d)) tt (Opened se v, o) /\ home (ss_userKey se) ∅ (Opened se v, o).
Proof.
  intros Hb Hok Hnew Hmail.
  destruct (registerAccount_returns base i pw w Hb Hok (strong_nonempty pw Hpw) Hi Hnew)
    as (se & w' & Hreg & Hk & _ & (Hb' & Hok' & Hc' & Hiss) & Ha).
  assert (Hne : key_of <> []) by (intros E0; destruct Hi as [_ Hi']; rewrite E0 in Hi'; cbn in Hi'; lia).
  assert (Hf : form_issue (filled WebAuth.Register i pw) = None).
  { apply form_issue_none. split; [by apply trim_nonempty|]. cbn. split; [by apply strong_nonempty|]. intros _.
    split; [done|]. intros _ Hin. by split; [apply Hmail|]. }
  pose proof (submit_sent (Shell None None) (filled WebAuth.Register i pw) w d false eq_refl Hf eq_refl) as Hs.
  change (flow (filled WebAuth.Register i pw) false w) with (registerAccount i pw w) in Hs. rewrite Hreg in Hs. destruct Hs as [d1 Hs].
  destruct (arrives ∅ (ss_userKey se) se w' ls d1 (phrase_of (filled WebAuth.Register i pw)) (SignIn None still (filled WebAuth.Register i pw))) as (v & o & Hv & Hh & _); try done.
  { rewrite Hc', (srv_unknown _ _ Hok Hnew). intros se' _ id. cbn. by rewrite !lookup_empty. }
  exists se, v, o. split; [|exact Hh].
  apply (gestures_app [_; _; _; _] [Submit] (fresh_app, ((w, ls), d)) (SignIn None still (filled WebAuth.Register i pw), ((w, ls), d)));
    [reflexivity|].
  assert (Hr : app_does (OnPage (AuthUi.Do Submit)) (SignIn None still (filled WebAuth.Register i pw), ((w, ls), d)) = (inl tt, (Opened se v, o))).
  { unfold app_do, page_act, on_auth. cbn [fst snd act]. rewrite Hs. cbn [sh_session sh_recovery]. by rewrite Hv. }
  cbn [gestures]. by run Hr.
Qed.

(** What is on the screen of an open vault, and what reading it again gives. *)
Definition in_sight (se : Session) (v : web) (o : (world N E * L) * D) (V : gmap jsstr obj) : Prop :=
  exists token Vs sc, ss_accessToken se = str token /\ lists (wb_screen v) Vs /\
    (sc_error (wb_screen v) = None /\ Vs = V \/ complains (wb_screen v)) /\
    render_app SITE_URL supported (Opened se v) = Some sc /\
    (wb_card v = None -> wb_query v = [] -> wb_filter v = FAll ->
       forall id, offered sc (InVault (WSelect id)) <-> is_Some (Vs !! id)) /\
    exists v' o', on_vault (WebVault.reload se) (v, o) = (inl tt, (v', o')) /\
      (WebVault.shows (wb_screen v') V \/ complains (wb_screen v') /\
       unread (CipherServer0 := seat key_of token (accounts (net o.1.1))) base token (net o.1.1)).

Lemma home_sight uk V se v o : home uk V (Opened se v, o) -> ss_userKey se = uk /\ in_sight se v o V.
Proof.
  intros (Hk & token & A & Hne & Ha & Hs). cbn [fst snd] in *. split; [exact Hk|].
  destruct (sits_lists token A Hne se V v o Hs) as (Vs & Hls & Hv & (sc & Hsc & Hsel) & Hagain).
  destruct (ho_linked _ _ _ _ _ Hs) as (_ & Hok & _ & Ht & _). apply seat_ok in Hok as (_ & HA & _). cbn [fst snd] in HA. subst A.
  exists token, Vs, (embed InVault sc). split; [exact Ht|]. split; [exact Hls|]. split; [exact Hv|].
  split; [by unfold render_app; rewrite Hsc|]. split; [|exact Hagain]. intros Hc Hq Hf id.
  rewrite <- (Hsel Hc Hq Hf id), offered_embed. split; [by intros (b & [= <-] & Ho)|by eexists].
Qed.

End Life.

(** ** Theorems *)
Section Theorems.
Context {N E L D : Type} `{Unicode} `{UrlParser} `{WebCrypto} `{Environment N} `{Entropy E} `{!Clock N} `{LocalStorage L}
  `{!Sha256} `{!Sha1} `{!Dates} `{EngineText} `{!Biometric D} `{!Collation} `{!Locale}.
Abbreviation registers i pw := [Type_ (Identifier i); Type_ (Password pw); Type_ (Confirm pw); Type_ (ConfirmId i); Submit].
Abbreviation returns_as j pw := [Switch WebAuth.Login; Type_ (Identifier j); Type_ (Password pw); Submit].

(** C6: The life of an account in the web app: who registers on the page with the
    identifier and the password, and then uses the app, adding, editing, starring
    and deleting items, locking by hand or by staying away, and on the page typing
    and generating anything, switching its forms and sending one that its checks
    refuse or that signs in to the account with the password, never loses anything:
    the vault of the account is what the gestures on items, logged in order, make of
    the empty one, each done as what its button says or not accepted by the server
    at that point, whatever was locked in between.  While the app is open the screen
    can be drawn and lists that vault, each of its items can be selected, but for an
    error shown above the list; reading the list again shows the vault, or an error
    when the server refuses.  While it is locked, the identifier in any spelling
    with the password opens it again, with the same key and the same vault on the
    screen. *)
Theorem web_life base `{!AccountServer N base} `{!VaultServer N base} SITE_URL supported clipboard_ok today i pw
  (w : world N E) (ls : L) (d : D) r s0 log s'
  (Hsay : engine_message JsTypeError <> [] /\ engine_message JsSyntaxError <> [])
  (Hb : baseUrl w = base) (Hok : acc_ok (net w)) (Hi : identifier_ok i) (Hpw : masterPasswordIssue pw = None)
  (Hmail : 64 ∈ i -> email_shape (trim i)) (Hnew : accounts (net w) !! normalizeIdentifier i = None)
  (Hreg : gestures supported clipboard_ok today (registers i pw) (fresh_app, ((w, ls), d)) = (r, s0))
  (Hr : logged (life SITE_URL supported clipboard_ok today i pw) s0 log s') :
  exists V uk, replay (turned_down base i) log ∅ V /\
    match s'.1 with
    | Opened se v => ss_userKey se = uk /\ in_sight base SITE_URL supported i se v s'.2 V
    | SignIn phrase l a => phrase = None /\ forall j, ascii j -> normalizeIdentifier j = normalizeIdentifier i ->
        exists se v o, returns (gestures supported clipboard_ok today (returns_as j pw)) s' tt (Opened se v, o) /\
          ss_userKey se = uk /\ WebVault.shows (wb_screen v) V
    end.
Proof.
  destruct (sign_up base supported clipboard_ok today i pw Hi Hpw Hsay w ls d Hb Hok Hnew Hmail) as (se & v & o & Hs & Hh).
  rewrite Hs in Hreg. injection Hreg as _ <-.
  destruct (lives_home base SITE_URL supported clipboard_ok today i pw Hi Hpw Hsay _ ∅ _ log s' Hh Hr) as (V & He & Hh').
  exists V, (ss_userKey se). split; [exact He|]. destruct s' as [[phrase l a|se' v'] o'].
  - destruct Hh' as [Hp Hw]. cbn [fst snd] in *. split; [exact Hp|]. subst phrase. intros j Hj Hn.
    destruct (sign_in_again base supported clipboard_ok today i pw Hi Hpw Hsay _ V l a o' j Hw Hj Hn) as (se2 & v2 & o2 & Hg & Hh2 & Hv2).
    exists se2, v2, o2. split; [exact Hg|]. split; [apply Hh2|exact Hv2].
  - cbn [fst snd]. exact (home_sight base SITE_URL supported i pw Hsay _ V se' v' o' Hh').
Qed.
End Theorems.

(** ** A concrete server *)
#[local] Existing Instances latin1_unicode model_crypto lcg_entropy account_environment account_map_server map_environment map_cipher_server.

(** The bundles, the ciphers of each account, the minutes that have passed (each
    request takes one), and when each account was last signed in to: its token is
    taken for the 15 minutes from then on. *)
Record office := Office {
  of_accounts : gmap jsstr json;
  of_ciphers : gmap jsstr (gmap jsstr jsstr);
  of_now : Z;
  of_logins : gmap jsstr Z;
}.
Definition bearer (r : request) : option jsstr := snd <$> List.find (fun h => str_eqb h.1 (js "authorization")) (rq_headers r).
Definition taken (n : office) (i : jsstr) : bool :=
  match of_logins n !! i with Some t => of_now n - t <? 15 | None => false end.
Definition vault_of (n : office) (i : jsstr) : gmap jsstr jsstr := default ∅ (of_ciphers n !! i).
Definition unauthorized : response := {| rs_status := 401; rs_text := [] |}.

Definition office_server (r : request) (n : office) : option response * office :=
  let now := of_now n + 1 in
  match bearer r with
  | None =>
      let '(res, a) := account_server r (of_accounts n) in
      let i := default [] (text_member (js "identifier") <$> (rq_body r ≫= json_parse)) in
      (res, Office a (of_ciphers n) now
        (if str_eqb (rq_url r) (js "/api/auth/login") && match res with Some res => rs_ok res | None => false end then <[normalizeIdentifier i := now]> (of_logins n) else of_logins n))
  | Some t =>
      let i := drop (length (js "Bearer for ")) t in
      if taken n i
      then let '(res, m) := map_server r (vault_of n i) in (res, Office (of_accounts n) (<[i := m]> (of_ciphers n)) now (of_logins n))
      else (Some unauthorized, Office (of_accounts n) (of_ciphers n) now (of_logins n))
  end.
#[local] Instance office_environment : Environment office := {|
  Api.handle := office_server;
  startAuthentication _ n := (inr LibraryError, n);
  startRegistration _ n := (inr LibraryError, n);
|}.

(** Every account with ciphers is there, and so is every one that was signed in to. *)
Definition office_ok (n : office) : Prop :=
  acc_ok (of_accounts n) /\ (forall i m, of_ciphers n !! i = Some m -> is_Some (of_accounts n !! i) /\ map_ok m) /\
  forall i t, of_logins n !! i = Some t -> is_Some (of_accounts n !! i).
Definition office_issued (n : office) (i : jsstr) (v : jsv) : Prop := v = str (token_of i) /\ taken n i = true.

Lemma office_anon path b (n : office) v a : json_ok b -> answers (anon_request [] path b) (of_accounts n) v a ->
  answers (anon_request [] path b) n v (Office a (of_ciphers n) (of_now n + 1)
    (if str_eqb path (js "/api/auth/login") then <[normalizeIdentifier (text_member (js "identifier") b) := of_now n + 1]> (of_logins n)
     else of_logins n)).
Proof.
  intros Hb (st & text & Hh & Hrest). exists st, text. split; [|exact Hrest]. destruct Hrest as [Hst _]. cbn [Api.handle office_environment].
  unfold office_server, bearer. cbn [anon_request rq_headers List.find]. change (str_eqb _ (js "authorization")) with false.
  cbn [fmap option_fmap option_map Api.handle account_environment] in *. rewrite Hh.
  change (rq_body _) with (rq_body (anon_request [] path b)). rewrite account_server_body by done. cbn [fmap option_fmap option_map default from_option]. by rewrite Hst, andb_true_r.
Qed.

Lemma office_bearer method path body i :
  bearer (auth_request [] (token_of i) method path body) = Some (js "Bearer " ++ token_of i).
Proof. by destruct body. Qed.

Definition office_after (n : office) (i : jsstr) (m : gmap jsstr jsstr) : office :=
  Office (of_accounts n) (<[i := m]> (of_ciphers n)) (of_now n + 1) (of_logins n).

Lemma office_auth method path body i (n : office) res m : taken n i = true ->
  Api.handle (auth_request [] (token_of i) method path body) (vault_of n i) = (res, m) ->
  Api.handle (auth_request [] (token_of i) method path body) n = (res, office_after n i m).
Proof.
  intros Ht Hh. cbn [Api.handle office_environment map_environment] in *. unfold office_server. rewrite office_bearer.
  change (drop (length (js "Bearer for ")) (js "Bearer " ++ token_of i)) with i. cbv zeta. by rewrite Ht, Hh.
Qed.

Lemma login_json j h : ascii j -> ascii h -> json_ok (login_body j h).
Proof.
  intros Hj Hh. apply json_ok_obj. split; [vm_compute; reflexivity|].
  repeat (constructor; [split; [decide_forall|by apply ascii_units]|]). constructor.
Qed.
Lemma prelogin_json j : ascii j -> json_ok (prelogin_body j).
Proof.
  intros Hj. apply json_ok_obj. split; [vm_compute; reflexivity|]. constructor; [split; [decide_forall|by apply ascii_units]|constructor].
Qed.

#[local] Program Instance office_accounts : AccountServer office [] := {|
  accounts := of_accounts;
  ciphers := of_ciphers;
  issued := office_issued;
  acc_ok := office_ok;
|}.
Next Obligation.
  intros n i (Ha & Hc & _) Hn. destruct (of_ciphers n !! i) as [m|] eqn:Em; [|done]. destruct (Hc i m Em) as [[b Hb] _]. by rewrite Hb in Hn.
Qed.
Next Obligation.
  intros n i b (Ha & Hc & Hlg) Hb Hnew Hi. destruct (srv_register (of_accounts n) i b Ha Hb Hnew Hi) as (v & a & Hans & Hok & Hacc & _).
  eexists v, _. split_and!; [by apply office_anon| |done|done]. cbn in Hacc.
  assert (Hin : forall j, is_Some (of_accounts n !! j) -> is_Some (a !! j)).
  { intros j Hj. rewrite Hacc. apply lookup_insert_is_Some'. by right. }
  split; [exact Hok|]. split; [|intros j t Ht; eapply Hin, Hlg, Ht]. intros j m Hm.
  destruct (Hc j m Hm) as [Hj Hm']. split; [by apply Hin|exact Hm'].
Qed.
Next Obligation.
  intros n j b (Ha & Hc & Hlg) Hj Hb. destruct (srv_prelogin (of_accounts n) j b Ha Hj Hb) as (v & a & Hans & Hok & Hacc & _ & Hv).
  cbn in Hacc. subst a. eexists v, _. split_and!; [by apply office_anon; [apply prelogin_json|]|done|done|done|apply Hv|apply Hv].
Qed.
Next Obligation.
  intros n j h b (Ha & Hc & Hlg) Hj Hh Hb Hm.
  destruct (srv_login (of_accounts n) j h b Ha Hj Hh Hb Hm) as (o & a & Hans & Hok & Hacc & _ & Hiss & Hrest).
  cbn in Hacc. subst a. eexists o, _. split_and!; [by apply office_anon; [by apply login_json|]| |done|done| |apply Hrest..].
  - split; [exact Ha|]. split; [exact Hc|]. cbn [of_logins of_accounts]. change (str_eqb _ _) with true. cbv iota.
    change (text_member _ _) with j. intros k t. destruct (decide (k = normalizeIdentifier j)) as [->|Hk]; [by exists b|].
    rewrite lookup_insert_ne by done. apply Hlg.
  - destruct Hiss as [Hv _]. split; [exact Hv|]. unfold taken. cbn [of_logins of_now]. change (str_eqb _ _) with true. cbv iota.
    change (text_member _ _) with j. rewrite lookup_insert_eq. apply Z.ltb_lt. lia.
Qed.

(** A token of an account, while it is taken, is served like the only one. *)
Definition office_accepts (i : jsstr) (n : office) (r : request) : bool := taken n i && map_accepts (vault_of n i) r.
Definition seated (i token : jsstr) (A : gmap jsstr json) (n : office) : Prop :=
  office_ok n /\ of_accounts n = A /\ token = token_of i.

Lemma seated_ciphers i token A n : seated i token A n -> token = token_of i /\ map_ok (vault_of n i).
Proof.
  intros ((_ & Hc & _) & _ & Ht). split; [done|]. unfold vault_of.
  destruct (of_ciphers n !! i) as [m|] eqn:Em; [by eapply Hc|apply map_Forall_empty].
Qed.

Lemma seated_kept i token A n m : seated i token A n -> taken n i = true -> map_ok m -> seated i token A (office_after n i m).
Proof.
  intros ((Ha & Hc & Hlg) & HA & Ht) Hk Hm. split; [|done]. split; [exact Ha|]. split; [|exact Hlg]. intros j m'. cbn [of_ciphers of_accounts office_after].
  destruct (decide (j = i)) as [->|Hj]; [|rewrite lookup_insert_ne by done; apply Hc].
  rewrite lookup_insert_eq. intros [= <-]. split; [|done]. unfold taken in Hk. destruct (of_logins n !! i) as [t|] eqn:El; [by eapply Hlg|done].
Qed.

Lemma after_vault n i m : vault_of (office_after n i m) i = m.
Proof. unfold vault_of. cbn [of_ciphers office_after]. by rewrite lookup_insert_eq. Qed.

#[local] Program Instance office_seat (i token : jsstr) (A : gmap jsstr json) : CipherServer office [] token := {|
  store n := vault_of n i;
  srv_ok n := seated i token A n;
  accepts n r := office_accepts i n r;
|}.
Next Obligation.
  intros i token A n Hs [Ht Ha]%andb_true_iff. destruct (seated_ciphers i token A n Hs) as [-> Hm].
  destruct (srv_sync (CipherServer := map_cipher_server (token_of i)) _ Hm Ha) as (text & v & l & m' & Hh & Hm' & Hst & Hrest).
  exists text, v, l, (office_after n i m'). split; [by apply office_auth|]. split; [by apply seated_kept|].
  split; [by rewrite after_vault|exact Hrest].
Qed.
Next Obligation.
  intros i token A n data Hs Hu Hne [Ht Ha]%andb_true_iff. destruct (seated_ciphers i token A n Hs) as [-> Hm].
  destruct (srv_create (CipherServer := map_cipher_server (token_of i)) _ data Hm Hu Hne Ha) as (id & text & v & m' & Hh & Hm' & Hnew & Hid & Hst & Hrest).
  exists id, text, v, (office_after n i m'). split; [by apply office_auth|]. split; [by apply seated_kept|].
  split; [exact Hnew|]. split; [exact Hid|]. split; [by rewrite after_vault|exact Hrest].
Qed.
Next Obligation.
  intros i token A n id data Hs Hu Hne [Ht Ha]%andb_true_iff. destruct (seated_ciphers i token A n Hs) as [-> Hm].
  destruct (srv_update (CipherServer := map_cipher_server (token_of i)) _ id data Hm Hu Hne Ha) as (Hin & text & v & m' & Hh & Hm' & Hst & Hrest).
  split; [exact Hin|]. exists text, v, (office_after n i m'). split; [by apply office_auth|]. split; [by apply seated_kept|].
  split; [by rewrite after_vault|exact Hrest].
Qed.
Next Obligation.
  intros i token A n id Hs [Ht Ha]%andb_true_iff. destruct (seated_ciphers i token A n Hs) as [-> Hm].
  destruct (srv_delete (CipherServer := map_cipher_server (token_of i)) _ id Hm Ha) as (Hin & m' & Hh & Hm' & Hst).
  split; [exact Hin|]. exists (office_after n i m'). split; [by apply office_auth|]. split; [by apply seated_kept|].
  by rewrite after_vault.
Qed.
Next Obligation.
  intros i token A n method path body Hs Ha. destruct (seated_ciphers i token A n Hs) as [-> Hm].
  destruct (taken n i) eqn:Ht.
  - unfold office_accepts in Ha. rewrite Ht in Ha. cbn [andb] in Ha.
    destruct (srv_refuse (CipherServer := map_cipher_server (token_of i)) _ method path body Hm Ha) as (res & m' & Hh & Hr & Hm' & Hst).
    exists res, (office_after n i m'). split; [by apply office_auth|]. split; [exact Hr|]. split; [by apply seated_kept|].
    by rewrite after_vault.
  - exists (Some unauthorized), (Office (of_accounts n) (of_ciphers n) (of_now n + 1) (of_logins n)). split; [|split; [|by split]].
    + cbn [Api.handle office_environment]. unfold office_server. rewrite office_bearer.
      change (drop (length (js "Bearer for ")) (js "Bearer " ++ token_of i)) with i. cbv zeta. by rewrite Ht.
    + split; [done|by left].
Qed.

#[local] Program Instance office_vaults : VaultServer office [] := {| owned i token := token = token_of i; seat := office_seat |}.
Next Obligation. done. Qed.
Next Obligation. done. Qed.
Next Obligation. intros n i v [-> _]. by exists (token_of i). Qed.
Next Obligation.
  intros i token A n [_ Ht]. cbn [accepts office_seat]. unfold office_accepts. rewrite Ht. done.
Qed.

(** ** A life *)
#[local] Existing Instances map_storage mixed_sha256 demo_sha1 numeric_dates web_errors browser no_urls one_place plain_locale.
#[local] Instance office_clock : Clock office := {| clock _ := 0 |}.

Definition alice := js "Alice@Example.org".
Definition her_password := js "Correct horse".
Definition empty_office : world office Z := World [] (Office ∅ ∅ 0 ∅) 7.
Abbreviation alice_joins := (gestures (N := office) (E := Z) (L := gmap jsstr jsstr) (D := unit) true true []
  [Type_ (Identifier alice); Type_ (Password her_password); Type_ (Confirm her_password); Type_ (ConfirmId alice); Submit]).
Abbreviation alice_returns := (gestures (N := office) (E := Z) (L := gmap jsstr jsstr) (D := unit) true true []
  [Switch WebAuth.Login; Type_ (Identifier (js " alice@EXAMPLE.org")); Type_ (Password her_password); Submit]).

Lemma empty_office_ok : acc_ok (net empty_office).
Proof. split; [apply map_Forall_empty|]. split; [intros i m Hm; discriminate Hm|intros i t Ht; discriminate Ht]. Qed.

(** Register, stay away until the vault locks, and come back with another spelling. *)
Lemma web_life_witness : exists se v o se' v' o',
  returns alice_joins (fresh_app, ((empty_office, ∅), tt)) tt (Opened se v, o) /\
  returns alice_returns (fresh_app, o) tt (Opened se' v', o') /\ WebVault.shows (wb_screen v') ∅.
Proof.
  assert (Hsay : engine_message JsTypeError <> [] /\ engine_message JsSyntaxError <> []) by by split.
  assert (Hok : acc_ok (net empty_office)) by exact empty_office_ok.
  assert (Hmail : 64 ∈ alice -> email_shape (trim alice)) by (intros _; apply email_ok_shape; vm_compute; reflexivity).
  assert (Hpw : masterPasswordIssue her_password = None) by (vm_compute; reflexivity).
  destruct (sign_up [] true true [] alice her_password sample_identifier_ok Hpw Hsay empty_office (∅ : gmap jsstr jsstr) tt)
    as (se & v & o & Hj & _); [reflexivity|exact Hok|reflexivity|exact Hmail|].
  destruct (web_life [] [] true true [] alice her_password empty_office (∅ : gmap jsstr jsstr) tt (inl tt) (Opened se v, o) [] (fresh_app, o))
    as (V & uk & He & _ & Hend).
  - exact Hsay.
  - reflexivity.
  - exact Hok.
  - apply sample_identifier_ok.
  - exact Hpw.
  - exact Hmail.
  - reflexivity.
  - exact Hj.
  - eapply logged_still; [apply life_idle|constructor].
  - destruct (Hend (js " alice@EXAMPLE.org")) as (se' & v' & o' & Hr & _ & Hs); [decide_forall|vm_compute; reflexivity|].
    exists se, v, o, se', v', o'. split; [exact Hj|]. split; [exact Hr|]. inversion He; subst. exact Hs.
Defined.
