(* ===== verification/Theme.v ===== *)
(** The light and dark theme of the web vault and of the desktop app, which have the
    same button: components/ThemeToggle.tsx, and the theme that is applied before
    the first paint by apps/desktop/src/main.tsx (and by a script of the page in the
    web vault's index.html). *)
From stdpp Require Import relations.
From S2P Require Import Prelude Json Effects Process WebVault Ui.

(** The theme attribute of the document, and the state of the mounted button. *)
Record theme := Theme { th_attr : option jsstr; th_dark : bool }.
Definition dark_on (attr : option jsstr) : bool := bool_decide (attr = Some (js "dark")).

(** A button that mounts reads the attribute. *)
Definition mount_toggle (attr : option jsstr) : theme := Theme attr (dark_on attr).

Section Theme.
Context {L : Type} `{LocalStorage L}.
Abbreviation S := (theme * L)%type.

(** [saved ? saved === 'dark' : matchMedia(...).matches] *)
Definition applyTheme (system : bool) (l : L) : option jsstr :=
  let dark := match get_local (js "theme") l with
              | Some ((_ :: _) as saved) => str_eqb saved (js "dark")
              | _ => system
              end in
  if dark then Some (js "dark") else None.

Definition setItem (k v : jsstr) : M S unit := fun s =>
  let r := set_local k v s.2 in
  (if r.1 : bool then inl tt else inr (DomException (js "QuotaExceededError")), (s.1, r.2)).

Definition toggle : M S unit :=
  dark ← gets (fun s => th_dark s.1);
  let next := negb dark in
  _ ← modify (fun s => (Theme (if next then Some (js "dark") else None) (th_dark s.1), s.2));
  _ ← setItem (js "theme") (if next then js "dark" else js "light");
  modify (fun s => (Theme (th_attr s.1) next, s.2)).

Definition ThemeToggle : screen unit := [btn (js "Toggle dark mode") tt].

(** What happens to it besides: its screen goes and comes back, or the app starts
    anew, under a system of either preference. *)
Inductive theme_event : S -> S -> Prop :=
| th_remount t l : theme_event (t, l) (mount_toggle (th_attr t), l)
| th_launch t l system : theme_event (t, l) (mount_toggle (applyTheme system l), l).

(** The button and the document agree. *)
Definition in_sync (t : theme) : Prop := th_dark t = dark_on (th_attr t) /\ (th_dark t = false -> th_attr t = None).

Lemma toggle_returns t l : (forall v, (set_local (js "theme") v l).1 = true) ->
  let next := negb (th_dark t) in
  exists l', toggle (t, l) = (inl tt, (Theme (if next then Some (js "dark") else None) next, l')) /\
    get_local (js "theme") l' = Some (if next then js "dark" else js "light").
Proof.
  intros Hset next. set (v := if next then js "dark" else js "light").
  exists (set_local (js "theme") v l).2. split; [|by apply get_set_local].
  unfold toggle, mbind, M_bind, gets, modify, setItem. cbn [fst snd]. fold next. fold v. by rewrite Hset.
Qed.

Lemma event_keeps (d : bool) s s' : get_local (js "theme") s.2 = Some (if d then js "dark" else js "light") ->
  th_attr s.1 = (if d then Some (js "dark") else None) -> theme_event s s' ->
  get_local (js "theme") s'.2 = Some (if d then js "dark" else js "light") /\
  s'.1 = mount_toggle (if d then Some (js "dark") else None).
Proof.
  intros Hl Ha He. destruct He as [t l|t l system]; cbn [fst snd] in *; [by rewrite Ha|]. split; [done|].
  unfold applyTheme. rewrite Hl. by destruct d.
Qed.

(** The theme that was chosen stays: once the button was pressed, its screen may come
    and go and the app be started anew, under a system that prefers either theme: the
    document shows the theme opposite to the one it showed before, and so does the
    button. *)
Theorem theme_survives t l r s1 s' (Hs : in_sync t) (Hset : forall v, (set_local (js "theme") v l).1 = true)
  (Ht : toggle (t, l) = (r, s1)) (He : rtc theme_event s1 s') :
  r = inl tt /\ dark_on (th_attr s'.1) = negb (dark_on (th_attr t)) /\ in_sync s'.1.
Proof.
  destruct (toggle_returns t l Hset) as (l' & Hr & Hl). rewrite Hr in Ht. pose proof (f_equal fst Ht) as Hr1. pose proof (f_equal snd Ht) as Hs1. cbn [fst snd] in Hr1, Hs1. subst r s1.
  split; [done|]. clear Ht Hr.
  destruct Hs as [Hd _]. rewrite <- Hd. set (d := negb (th_dark t)) in *.
  assert (Hinv : get_local (js "theme") s'.2 = Some (if d then js "dark" else js "light") /\
    s'.1 = mount_toggle (if d then Some (js "dark") else None)).
  { refine (rtc_invariant theme_event (fun s => get_local (js "theme") s.2 = Some (if d then js "dark" else js "light") /\
      s.1 = mount_toggle (if d then Some (js "dark") else None)) _ _ _ He _).
    - intros x y Hxy [Hx1 Hx2]. eapply event_keeps; [exact Hx1| |exact Hxy]. rewrite Hx2. by destruct d.
    - split; [exact Hl|]. by destruct d. }
  destruct Hinv as [_ ->]. by destruct d.
Qed.

(** Where the browser refuses to store it, the button flips the document once and
    then no more: the attribute is set before the store throws, the state of the
    button after it. *)
Theorem theme_sticks t l (Hs : in_sync t) (Hd : th_dark t = false)
  (Hset : forall v l, (set_local (js "theme") v l).1 = false) :
  exists s1 s2, toggle (t, l) = (inr (DomException (js "QuotaExceededError")), s1) /\ dark_on (th_attr s1.1) = true /\
    toggle s1 = (inr (DomException (js "QuotaExceededError")), s2) /\ dark_on (th_attr s2.1) = true.
Proof.
  destruct t as [attr dark]. cbn [th_dark] in Hd. subst dark.
  unfold toggle, mbind, M_bind, gets, modify, setItem. cbn [fst snd th_dark negb]. rewrite Hset.
  eexists _, _. split; [reflexivity|]. cbn [fst snd th_dark th_attr negb]. rewrite Hset. split; [done|]. by split.
Qed.
End Theme.

#[local] Existing Instance map_storage.

Lemma theme_survives_witness :
  dark_on (th_attr (mount_toggle (applyTheme false ({[js "theme" := js "dark"]} : gmap jsstr jsstr)))) = true.
Proof.
  destruct (theme_survives (mount_toggle None) (∅ : gmap jsstr jsstr) (inl tt)
    (Theme (Some (js "dark")) true, {[js "theme" := js "dark"]})
    (mount_toggle (applyTheme false ({[js "theme" := js "dark"]} : gmap jsstr jsstr)), {[js "theme" := js "dark"]})) as (_ & Hd & _).
  - done.
  - done.
  - vm_compute. reflexivity.
  - apply rtc_once. apply th_launch.
  - exact Hd.
Defined.

(** A browser that stores nothing. *)
#[local] Instance no_storage : LocalStorage unit := {|
  get_local _ _ := None;
  set_local _ _ l := (false, l);
  get_set_local k v l Hf := False_ind _ (Bool.diff_false_true Hf);
|}.
Lemma theme_sticks_witness : exists s1 s2, toggle (mount_toggle None, tt) = (inr (DomException (js "QuotaExceededError")), s1) /\
  dark_on (th_attr s1.1) = true /\ toggle s1 = (inr (DomException (js "QuotaExceededError")), s2) /\ dark_on (th_attr s2.1) = true.
Proof. apply theme_sticks; done. Defined.
