(* ===== verification/PopupUi.v ===== *)
(** The extension's popup as it is rendered: apps/extension/entrypoints/popup/App.tsx,
    over the actions of Popup.v and Content.v. *)
From stdpp Require Import relations.
From S2P Require Import Prelude Text Numeral Json JsonFacts Encoding Effects Platform Primitives.
From S2P Require Import Kdf Account Totp Objects Items Api Session Process WebAuth Protocol Background Views.
From S2P Require Import Popup Content Editor Ui.

(** ** The components *)

Record unlock_form := UnlockForm {
  uf_identifier : jsstr;
  uf_password : entry;
  uf_twoFactor : option jsv;
  uf_totp : jsstr;
  uf_error : option jsstr;
}.
Definition blank_form : unlock_form := UnlockForm [] no_entry None [] None.

Record popup_editor := PopupEditor { pe_item : obj; pe_plain : bool; pe_error : option jsstr }.

(** The Vault component: the state of Popup.v and what only the screen uses. *)
Record vault_view := View {
  vv_popup : popup;
  vv_loading : bool;
  vv_query : jsstr;
  vv_tabHost : jsstr;
  vv_editor : option popup_editor;
}.
Definition fresh_popup : popup :=
  {| pp_closed := false; pp_items := []; pp_error := None; pp_toast := None; pp_editing := None;
     pp_fromPending := false; pp_pending := None |}.
Definition fresh_view : vault_view := View fresh_popup true [] [] None.

(** The App component; [Gone] after window.close(). *)
Inductive popup_page := Loading | Locked (f : unlock_form) | Opened (v : vault_view) | Gone.

Inductive popup_act :=
| TypeIdentifier (t : jsstr) | TypePassword (t : jsstr) | PeekPassword | TypeTotp (t : jsstr) | SubmitUnlock
| Add | LockVault | ReviewPending | NotNow | Search (t : jsstr)
| Fill (it : obj) | CopyPassword (it : obj) | CopyTotp (it : obj) | EditItem (it : obj)
| SetKey (k t : jsstr) | PeekItem | GeneratePw | Cancel | SaveItem | DeleteItem (yes : bool).

(** ** What is rendered *)
Section Render.
Context `{Unicode} `{UrlParser} (WEB_VAULT_URL : jsstr).

Definition Shell (children : screen popup_act) : screen popup_act :=
  children ++ [Say (js "Zero-knowledge. Your keys never leave this device.")].

Definition render_unlock (busy : bool) (f : unlock_form) : option (screen popup_act) :=
  let factor k := match uf_twoFactor f with Some m => methods_include k m | None => Some false end in
  needTotp ← factor (js "totp");
  webauthn ← factor (js "webauthn");
  let asked := match uf_twoFactor f with Some _ => true | None => false end in
  let passkeyOnly := asked && webauthn && negb needTotp in
  Some (Shell (
    [Say (js "passwd"); Say (js "Unlock your vault for this browser.");
     Field (js "passphrase or email") false (uf_identifier f) TypeIdentifier;
     Field (js "master password") (negb (plain (uf_password f))) (typed_in (uf_password f)) TypePassword;
     btn (if plain (uf_password f) then js "Hide" else js "Show") PeekPassword]
    ++ when needTotp [Field (js "6-digit code") false (uf_totp f) TypeTotp]
    ++ when (asked && webauthn) [Link (js "Use a passkey? Sign in at the web vault") WEB_VAULT_URL]
    ++ say_some (uf_error f)
    ++ when (negb passkeyOnly)
         [Button (if busy then js "Unlocking..." else if needTotp then js "Verify & unlock" else js "Unlock")
            (negb busy) SubmitUnlock]
    ++ when (negb asked) [Link (js "No account? Create one in the web vault") WEB_VAULT_URL])).

Definition popup_badge (t : jsstr) : screen popup_act := [Say t].
Definition is_login (it : obj) : bool := str_eqb (text_at (js "type") it) (js "login").
Definition has_text (k : jsstr) (it : obj) : bool := negb (bool_decide (text_at k it = [])).

Definition popup_row (tabHost : jsstr) (it : obj) : screen popup_act :=
  [Say (avatar_initial it); Say (or_text (text_at (js "name") it) (js "(unnamed)"))]
  ++ when (is_login it && matches tabHost it) (popup_badge (js "this site"))
  ++ when (negb (is_login it)) (popup_badge (text_at (js "type") it))
  ++ Say (itemSub it)
  :: when (is_login it && has_text (js "password") it) [btn (js "Fill") (Fill it)]
  ++ when (is_login it && has_text (js "password") it) [btn (js "Copy") (CopyPassword it)]
  ++ when (is_login it && has_text (js "totp") it) [btn (js "2FA") (CopyTotp it)]
  ++ [btn (js "Edit") (EditItem it)].

Definition render_list (v : vault_view) : screen popup_act :=
  if vv_loading v then [Say (js "Decrypting...")]
  else match popup_list (vv_tabHost v) (vv_query v) (pp_items (vv_popup v)) with
       | [] => [Say (js "No items yet. Use + Add to store your first login.")]
       | l => concat (map (popup_row (vv_tabHost v)) l)
       end.

Definition render_list_page (v : vault_view) : screen popup_act :=
  let p := vv_popup v in
  Shell ([Say (js "passwd"); btn (js "+ Add") Add; btn (js "Lock") LockVault]
    ++ (match pp_pending p with
        | Some q => [Say (js "Save login for " ++ or_text (popupHost (pe_url q)) (js "this site") ++ js "?");
                     btn (js "Review & save") ReviewPending; btn (js "Not now") NotNow]
        | None => []
        end)
    ++ Field (js "Search") false (vv_query v) Search
    :: say_some (pp_error p)
    ++ render_list v
    ++ say_some (pp_toast p)).

Definition render_editor (busy : bool) (e : popup_editor) : screen popup_act :=
  let it := pe_item e in
  let input k hint := Field hint false (text_at k it) (SetKey k) in
  let isNew := bool_decide (text_at (js "id") it = []) in
  Shell ([Say (if isNew then js "Add item" else js "Edit item"); Say (js "Name"); input (js "name") (js "GitHub")]
    ++ when (is_login it)
         [Say (js "URL"); input (js "url") (js "https://github.com");
          Say (js "Username"); input (js "username") (js "you@example.com");
          Say (js "Password"); Field [] (negb (pe_plain e)) (text_at (js "password") it) (SetKey (js "password"));
          btn (if pe_plain e then js "Hide" else js "Show") PeekItem; btn (js "Generate password") GeneratePw;
          Say (js "2FA secret (TOTP)"); input (js "totp") (js "base32 secret or otpauth:// URI")]
    ++ when (negb (is_login it))
         [Say (js "This is a " ++ text_at (js "type") it ++ js "; edit its details in the web vault.")]
    ++ [Say (js "Notes"); input (js "notes") []]
    ++ say_some (pe_error e)
    ++ [Button (js "Cancel") (negb busy) Cancel;
        Button (if busy then js "Saving..." else js "Save") (negb busy) SaveItem]
    ++ when (negb isNew)
         (if busy then [Button (js "Delete item") false (DeleteItem false)]
          else [Asks (js "Delete item") (jq "Delete '" ++ or_text (text_at (js "name") it) (js "this item") ++ jq "'?") DeleteItem])).

(** [None]: the methods of a challenge are not a list, and drawing the form throws. *)
Definition render_popup (p : popup_page) : option (screen popup_act) :=
  match p with
  | Loading => Some (Shell [Say (js "Loading...")])
  | Locked f => render_unlock false f
  | Opened v => Some (match vv_editor v with Some e => render_editor false e | None => render_list_page v end)
  | Gone => Some []
  end.
End Render.

(** ** The handlers *)
Section Handlers.
Context {N E D Node : Type} `{Unicode} `{UrlParser} `{WebCrypto} `{Environment N} `{Entropy E} `{Clock N} `{EngineText} `{Dom D Node}.
(** Whether the browser lets the popup write to the clipboard. *)
Context (clipboard_ok : bool).
Abbreviation X := (extension N E).
Abbreviation S := ((popup_page * tab (D := D)) * extension N E)%type.

Definition mounted (p : popup) (old : option popup_editor) : option popup_editor :=
  match pp_editing p, old with
  | None, _ => None
  | Some _, Some e => Some e
  | Some it, None => Some (PopupEditor it false None)
  end.
(** [props.onLock()] unmounts the vault, and what is mounted in its place is new. *)
Definition vault_page (v : vault_view) (p : popup) : popup_page :=
  if pp_closed p then Locked blank_form
  else Opened (View p (vv_loading v) (vv_query v) (vv_tabHost v) (mounted p (vv_editor v))).

Definition on_page (f : popup_page -> popup_page) : M S unit := modify (fun s => ((f s.1.1, s.1.2), s.2)).
Definition on_form (f : unlock_form -> unlock_form) : M S unit :=
  on_page (fun p => match p with Locked u => Locked (f u) | _ => p end).
Definition on_view (f : vault_view -> vault_view) : M S unit :=
  on_page (fun p => match p with Opened v => Opened (f v) | _ => p end).
Definition on_editor (f : popup_editor -> popup_editor) : M S unit :=
  on_view (fun v => View (vv_popup v) (vv_loading v) (vv_query v) (vv_tabHost v) (f <$> vv_editor v)).
Definition on_popup {A} (none : A) (m : M (popup * X) A) : M S A := fun s =>
  match s.1.1 with
  | Opened v => let '(r, (p, x)) := m (vv_popup v, s.2) in (r, ((vault_page v p, s.1.2), x))
  | _ => (inl none, s)
  end.

Definition set_item (g : obj -> obj) (e : popup_editor) : popup_editor := PopupEditor (g (pe_item e)) (pe_plain e) (pe_error e).
Definition set_error err (e : popup_editor) : popup_editor := PopupEditor (pe_item e) (pe_plain e) err.

(** [if (err) setError(err)] *)
Definition show_error (err : option jsstr) : M S unit :=
  match nonblank err with Some m => on_editor (set_error (Some m)) | None => mret tt end.
Definition with_editor (k : popup_editor -> M S unit) : M S unit := fun s =>
  match s.1.1 with Opened v => match vv_editor v with Some e => k e s | None => (inl tt, s) end | _ => (inl tt, s) end.

Definition save (e : popup_editor) : M S unit :=
  if nameless (pe_item e) then on_editor (set_error (Some editor_error))
  else _ ← on_editor (set_error None); err ← on_popup None (saveEditing (pe_item e)); show_error err.
Definition del (e : popup_editor) : M S unit :=
  _ ← on_editor (set_error None); err ← on_popup None (deleteEditing (pe_item e)); show_error err.

Definition fillTab (it : obj) : M S unit := fun s =>
  match s.1.1 with
  | Opened v =>
      let '(p, t, closes) := fill it s.1.2 (vv_popup v) in
      (inl tt, ((if closes : bool then Gone else vault_page v p, t), s.2))
  | _ => (inl tt, s)
  end.

Definition submitForm : M S unit := fun s =>
  match s.1.1 with
  | Locked f =>
      let need := match uf_twoFactor f with Some m => default false (methods_include (js "totp") m) | None => false end in
      let form error := UnlockForm (uf_identifier f) (uf_password f) (uf_twoFactor f) (uf_totp f) error in
      match submitUnlock (uf_identifier f) (typed_in (uf_password f)) (if need then Some (uf_totp f) else None) s.2 with
      | (inl Unlocked, x) => (inl tt, ((Opened fresh_view, s.1.2), x))
      | (inl (AskFactor m), x) =>
          (inl tt, ((Locked (UnlockForm (uf_identifier f) (uf_password f) (Some m) (uf_totp f) None), s.1.2), x))
      | (inl (UnlockError e), x) => (inl tt, ((Locked (form (Some e)), s.1.2), x))
      | (inr e, x) => (inr e, ((Locked (form None), s.1.2), x))
      end
  | _ => (inl tt, s)
  end.

Definition popup_do (a : popup_act) : M S unit :=
  match a with
  | TypeIdentifier t => on_form (fun f => UnlockForm t (uf_password f) (uf_twoFactor f) (uf_totp f) (uf_error f))
  | TypePassword t => on_form (fun f => UnlockForm (uf_identifier f) (type_in t (uf_password f)) (uf_twoFactor f) (uf_totp f) (uf_error f))
  | PeekPassword => on_form (fun f => UnlockForm (uf_identifier f) (toggle (uf_password f)) (uf_twoFactor f) (uf_totp f) (uf_error f))
  | TypeTotp t => on_form (fun f => UnlockForm (uf_identifier f) (uf_password f) (uf_twoFactor f) t (uf_error f))
  | SubmitUnlock => submitForm
  | Add => on_popup tt startAdd
  | LockVault => on_popup tt lock
  | ReviewPending => on_popup tt reviewPending
  | NotNow => on_popup tt dismissPending
  | Search t => on_view (fun v => View (vv_popup v) (vv_loading v) t (vv_tabHost v) (vv_editor v))
  | Fill it => fillTab it
  | CopyPassword it =>
      if clipboard_ok then on_popup tt (update (flash (js "Copied password"))) else raise (DomException (js "NotAllowedError"))
  | CopyTotp it => fun s =>
      match on_popup None (copyTotp it (now_of s.2)) s with
      | (inl (Some _), s') => if clipboard_ok then (inl tt, s') else (inr (DomException (js "NotAllowedError")), s)
      | (inl None, s') => (inl tt, s')
      | (inr e, s') => (inr e, s')
      end
  | EditItem it => on_popup tt (update (setEditing (Some it)))
  | SetKey k t => on_editor (set_item (set k t))
  | PeekItem => on_editor (fun e => PopupEditor (pe_item e) (negb (pe_plain e)) (pe_error e))
  | GeneratePw => fun s =>
      match generatePassword 20 (world_of s.2) with
      | (inl pw, w) => on_editor (set_item (set (js "password") pw)) (s.1, with_world s.2 w)
      | (inr e, w) => (inr e, (s.1, with_world s.2 w))
      end
  | Cancel => on_popup tt (update (fun p => setFromPending false (setEditing None p)))
  | SaveItem => with_editor save
  | DeleteItem yes => if yes then with_editor del else mret tt
  end.

(** What happens without the user: the first answer of the worker, the effect of
    the vault's mounting, the tab that is found, the timeout of a toast, and all
    the worker does meanwhile. *)
Definition getState : M S unit := fun s =>
  match s.1.1, serve msg_getState s.2 with
  | Loading, (inl (RState r), x) => (inl tt, ((if st_locked r then Locked blank_form else Opened fresh_view, s.1.2), x))
  | Loading, (_, x) => (inl tt, ((Locked blank_form, s.1.2), x))
  | _, _ => (inl tt, s)
  end.
Definition load : M S unit :=
  _ ← on_popup tt opened;
  on_view (fun v => View (vv_popup v) false (vv_query v) (vv_tabHost v) (vv_editor v)).
Definition dropToast (p : popup) : popup :=
  {| pp_closed := pp_closed p; pp_items := pp_items p; pp_error := pp_error p; pp_toast := None;
     pp_editing := pp_editing p; pp_fromPending := pp_fromPending p; pp_pending := pp_pending p |}.

Inductive popup_event : S -> S -> Prop :=
| pe_state s r s' : getState s = (r, s') -> popup_event s s'
| pe_load s r s' : load s = (r, s') -> popup_event s s'
| pe_host s h r s' :
    on_view (fun v => View (vv_popup v) (vv_loading v) (vv_query v) h (vv_editor v)) s = (r, s') -> popup_event s s'
| pe_toast s r s' : on_popup tt (update dropToast) s = (r, s') -> popup_event s s'
| pe_worker p x x' : popup_event (p, x) (p, x').

Context (WEB_VAULT_URL : jsstr).
Definition popup_screen (s : S) : screen popup_act := default [] (render_popup WEB_VAULT_URL s.1.1).
Definition popup_step : relation S := ui_step popup_screen popup_do popup_event.
End Handlers.

(** ** Laws *)
Section Laws.
Context {N E D Node : Type} `{Unicode} `{UrlParser} `{WebCrypto} `{Environment N} `{Entropy E} `{Clock N} `{EngineText} `{Dom D Node}.
Context (clipboard_ok : bool) (WEB_VAULT_URL : jsstr).
Abbreviation X := (extension N E).
Abbreviation S := ((popup_page * tab (D := D)) * extension N E)%type.

Lemma opened_screen v t (x : X) : popup_screen WEB_VAULT_URL (((Opened v, t), x) : S) =
  match vv_editor v with Some e => render_editor false e | None => render_list_page v end.
Proof. done. Qed.

(** What a step does to the item in the editor: nothing, or an edit; and what it
    may leave of the vault. *)
Definition after_vault (R : popup_editor -> popup_editor -> Prop) (v : vault_view) (p : popup_page) : Prop :=
  match p with
  | Opened v' => forall e e', vv_editor v = Some e -> vv_editor v' = Some e' -> R e e'
  | Locked f => f = blank_form
  | Loading => False
  | Gone => True
  end.

Lemma page_after R v p : (forall e, R e e) -> after_vault R v (vault_page v p).
Proof.
  intros HR. unfold vault_page. destruct (pp_closed p); [done|]. intros e e' He. cbn. unfold mounted. rewrite He.
  destruct (pp_editing p); [|done]. by intros [= <-].
Qed.

Lemma on_popup_after {A} R v t (x : X) (none : A) m : (forall e, R e e) ->
  after_vault R v (on_popup none m ((Opened v, t), x) : _ * S).2.1.1.
Proof.
  intros HR. unfold on_popup. cbn [fst snd]. destruct (m _) as [r [p x']]. by apply page_after.
Qed.

(** The edits the form offers. *)
Definition popup_keys (login : bool) : list jsstr :=
  js "name" :: js "notes" :: (if login then [js "url"; js "username"; js "password"; js "totp"] else []).
Definition edited (login : bool) (e e' : popup_editor) : Prop :=
  forall k, k ∉ popup_keys login -> obj_get k (pe_item e') = obj_get k (pe_item e).
#[local] Instance edited_preorder login : PreOrder (edited login).
Proof. split; [by intros e k|]. intros a b c Hab Hbc k Hk. by rewrite Hbc, Hab. Qed.

Lemma edited_login login e e' : edited login e e' -> is_login (pe_item e') = is_login (pe_item e).
Proof.
  intros He. unfold is_login, text_at. rewrite He; [done|]. destruct login; apply (bool_decide_unpack _); vm_compute; exact I.
Qed.

Lemma offers_key e k t : offered (render_editor false e) (SetKey k t) -> k ∈ popup_keys (is_login (pe_item e)).
Proof.
  unfold render_editor, Shell. intros Ho.
  offers; try discriminate; try (injection Ho as <- <-; destruct (is_login (pe_item e)); try discriminate; apply (bool_decide_unpack _); vm_compute; exact I).
Qed.

Lemma offers_generate e : offered (render_editor false e) GeneratePw -> is_login (pe_item e) = true.
Proof.
  unfold render_editor, Shell. intros Ho. offers; try discriminate; done.
Qed.

Lemma edit_edited login e e0 k t : k ∈ popup_keys login -> edited login e0 e -> edited login e0 (set_item (set k t) e).
Proof.
  intros Hk He j Hj. cbn [set_item pe_item]. unfold set. rewrite obj_get_put_ne by set_solver. by apply He.
Qed.

(** Every handler of an open vault is an action of Popup.v, a change of the view or
    an edit. *)
Lemma do_after v t (x : X) a : offered (popup_screen WEB_VAULT_URL ((Opened v, t), x)) a ->
  after_vault (fun e e' => edited (is_login (pe_item e)) e e') v (popup_do clipboard_ok a ((Opened v, t), x) : _ * S).2.1.1.
Proof.
  intros Ho.
  set (R := fun e e' => edited (is_login (pe_item e)) e e'). assert (HR : forall e, R e e) by (by intros e k).
  assert (Hview : forall f, (forall e e', vv_editor v = Some e -> vv_editor (f v) = Some e' -> R e e') ->
    after_vault R v (on_view f ((Opened v, t), x) : _ * S).2.1.1) by (by intros f Hf).
  assert (Hdraft : forall f, (forall e, vv_editor v = Some e -> R e (f e)) ->
    after_vault R v (on_editor f ((Opened v, t), x) : _ * S).2.1.1).
  { intros f Hf. apply Hview. intros e e' He. cbn. rewrite He. intros [= <-]. by apply Hf. }
  assert (Hed : forall e, vv_editor v = Some e -> offered (render_editor false e) a).
  { intros e He. by rewrite opened_screen, He in Ho. }
  assert (Hsend : forall m : M (popup * X) (option jsstr), forall e, vv_editor v = Some e ->
    after_vault R v ((_ ← on_editor (set_error None); err ← on_popup None m; show_error err) ((Opened v, t), x) : _ * S).2.1.1).
  { intros m e He. unfold mbind, M_bind. cbn [on_editor on_view on_page modify fst snd]. unfold on_popup. cbn [fst snd].
    set (v1 := View _ _ _ _ _). destruct (m (vv_popup v1, x)) as [[err|ex] [p x']]; cbn [fst snd].
    - unfold show_error. assert (Hp : forall q, q = vault_page v1 p -> after_vault R v q /\
        forall msg, after_vault R v (match q with Opened w => Opened (View (vv_popup w) (vv_loading w) (vv_query w) (vv_tabHost w)
          (set_error (Some msg) <$> vv_editor w)) | _ => q end)).
      { intros q ->. unfold vault_page. destruct (pp_closed p); [done|]. cbn. unfold mounted. rewrite He.
        destruct (pp_editing p); [|by split]. by split; [|intros msg]; intros e1 e2 [= <-] [= <-]. }
      destruct (Hp _ eq_refl) as [Hp1 Hp2]. destruct (nonblank err) as [msg|]; [apply Hp2|exact Hp1].
    - unfold vault_page. destruct (pp_closed p); [done|]. intros e1 e2 He1. cbn. unfold mounted. rewrite He.
      destruct (pp_editing p); [|done]. intros [= <-]. rewrite He1 in He. by injection He as ->. }
  assert (Hself : after_vault R v (Opened v)) by (cbn; intros e e' -> [= <-]; apply HR).
  assert (Hdraft_at : forall f w, (forall e, vv_editor v = Some e -> R e (f e)) ->
    after_vault R v (on_editor f ((Opened v, t), w) : _ * S).2.1.1) by (intros f w Hf; exact (Hdraft f Hf)).
  destruct a; cbn [popup_do]; try (by apply on_popup_after); try exact Hself.
  - unfold fillTab. cbn [fst snd]. destruct (fill it t (vv_popup v)) as [[p t'] []]; [exact I|]. by apply page_after.
  - destruct clipboard_ok; [by apply on_popup_after|exact Hself].
  - pose proof (on_popup_after R v t x None (copyTotp it (now_of (Opened v, t, x).2)) HR) as Hp.
    destruct (on_popup None (copyTotp _ _) _) as [[[c|]|e] s']; [destruct clipboard_ok; [exact Hp|exact Hself]|exact Hp|exact Hp].
  - apply Hdraft. intros e He. apply edit_edited; [|by intros j]. eapply offers_key, (Hed e He).
  - apply Hdraft. intros e He. by intros k.
  - cbn [fst snd]. destruct (generatePassword 20 (world_of x)) as [[pw|e0] w]; [|exact Hself]. apply Hdraft_at.
    intros e He. apply edit_edited; [|by intros j]. rewrite (offers_generate e (Hed e He)). apply (bool_decide_unpack _). vm_compute. exact I.
  - unfold with_editor. cbn [fst]. destruct (vv_editor v) as [e|] eqn:He; [|exact Hself]. unfold save.
    destruct (nameless (pe_item e)); [apply Hdraft; by intros e1 He1 k|by eapply Hsend].
  - destruct yes; [|exact Hself]. unfold with_editor. cbn [fst]. destruct (vv_editor v) as [e|] eqn:He; [|exact Hself].
    by eapply Hsend.
Qed.

Lemma event_after v t (x : X) s' : popup_event ((Opened v, t), x) s' ->
  after_vault (fun e e' => edited (is_login (pe_item e)) e e') v (s' : S).1.1.
Proof.
  intros Hev. set (R := fun e e' => edited (is_login (pe_item e)) e e'). assert (HR : forall e, R e e) by (by intros e k).
  assert (Hself : after_vault R v (Opened v)) by (cbn; intros e e' -> [= <-]; apply HR).
  inversion Hev as [s r s1 Hs|s r s1 Hs|s h r s1 Hs|s r s1 Hs|]; subst.
  - by injection Hs as _ <-.
  - unfold load, mbind, M_bind in Hs. unfold on_popup in Hs. cbn [fst snd] in Hs. destruct (opened _) as [[[]|e] [p x1]].
    + injection Hs as _ <-. unfold vault_page. destruct (pp_closed p); [done|]. cbn. intros e e' He. unfold mounted. rewrite He.
      destruct (pp_editing p); [|done]. intros [= <-]. apply HR.
    + injection Hs as _ <-. by apply page_after.
  - injection Hs as _ <-. cbn. intros e e' He. rewrite He. intros [= <-]. apply HR.
  - pose proof (on_popup_after R v t x tt (update dropToast) HR) as Hp. by rewrite Hs in Hp.
  - exact Hself.
Qed.

Lemma step_after v t (x : X) s' : popup_step clipboard_ok WEB_VAULT_URL ((Opened v, t), x) s' ->
  after_vault (fun e e' => edited (is_login (pe_item e)) e e') v (s' : S).1.1.
Proof.
  intros Hs. inversion Hs as [s a r s1 Ho Ha|s s1 Hev]; subst; [|by apply (event_after v t x)].
  pose proof (do_after v t x a Ho) as Hd. by rewrite Ha in Hd.
Qed.

(** A worker that has locked itself answers every request for the vault alike. *)
Lemma send_locked msg r (p : popup) (x : X) : refusal msg = Some r -> is_locked x ->
  sendBackground msg (p, x) = (inl r, (p, wiped x)).
Proof. intros Hm Hl. unfold sendBackground. cbn [fst snd]. by rewrite (serve_locked _ _ _ Hm Hl). Qed.

Lemma save_locked it (p : popup) (x : X) : is_locked x -> saveEditing it (p, x) = (inl None, (onLock p, wiped x)).
Proof.
  intros Hl. unfold saveEditing, mbind at 1, M_bind. by destruct (text_at (js "id") it); rewrite (send_locked _ (RMutation mutation_locked)).
Qed.

Lemma delete_locked it (p : popup) (x : X) : is_locked x -> deleteEditing it (p, x) = (inl None, (onLock p, wiped x)).
Proof. intros Hl. unfold deleteEditing, mbind at 1, M_bind. by rewrite (send_locked _ (RMutation mutation_locked)). Qed.

Lemma reload_locked (p : popup) (x : X) : is_locked x -> reload (p, x) = (inl tt, (onLock p, wiped x)).
Proof. intros Hl. unfold reload, mbind at 1, M_bind. by rewrite (send_locked _ (RItems items_locked)). Qed.

Lemma load_locked v t (x : X) : is_locked x -> (load ((Opened v, t), x) : _ * S).2.1.1 = Locked blank_form.
Proof.
  intros Hl. destruct (serve_total msg_getPending (wiped x)) as (r & y & Hr & Ht & _). destruct r; try done.
  assert (Ho : opened (vv_popup v, x) = (inl tt, (setPending (pending r) (onLock (vv_popup v)), y))).
  { unfold opened, mbind at 1, M_bind. rewrite (reload_locked _ _ Hl). unfold mbind, M_bind, sendBackground. cbn [fst snd]. by rewrite Hr. }
  unfold load, on_popup, mbind, M_bind. cbn [fst snd]. by rewrite Ho.
Qed.

(** ** Masking *)

(** What the list says of a login without saying its secrets. *)
Definition same_public (a b : obj) : Prop :=
  (forall k, k ∉ [js "password"; js "totp"] -> obj_get k a = obj_get k b) /\ 
  has_text (js "password") a = has_text (js "password") b /\ has_text (js "totp") a = has_text (js "totp") b.

Lemma public_text k a b : same_public a b -> k ∉ [js "password"; js "totp"] -> text_at k a = text_at k b.
Proof. intros Hs Hk. unfold text_at. by rewrite (proj1 Hs k Hk). Qed.

Lemma password_alike {A} hint (u w : jsstr) (f g : jsstr -> A) s : length u = length w ->
  alike (Field hint true u f :: s) (Field hint true w g :: s).
Proof. unfold alike, shown, hides. cbn. intros Hl. unfold hides. destruct u, w; cbn in *; congruence. Qed.

#[local] Ltac key := by apply (bool_decide_unpack _); vm_compute.
#[local] Ltac public Hs :=
  rewrite ?(public_text (js "url") _ _ Hs), ?(public_text (js "name") _ _ Hs), ?(public_text (js "type") _ _ Hs),
    ?(public_text (js "username") _ _ Hs), ?(public_text (js "notes") _ _ Hs) by key.

Lemma public_match h a b : same_public a b -> matches h a = matches h b.
Proof. intros Hs. unfold matches. by public Hs. Qed.
Lemma public_favorite a b : same_public a b -> favorite_of a = favorite_of b.
Proof. intros Hs. unfold favorite_of. by rewrite (proj1 Hs (js "favorite")) by key. Qed.
Lemma public_found q a b : same_public a b -> found q a = found q b.
Proof. intros Hs. unfold found. by public Hs. Qed.

Lemma public_row h a b : same_public a b -> alike (popup_row h a) (popup_row h b).
Proof.
  intros Hs. unfold popup_row, is_login. rewrite (public_match h _ _ Hs). pose proof Hs as (Hk & Hp & Ht).
  replace (avatar_initial a) with (avatar_initial b) by (unfold avatar_initial; by public Hs).
  replace (itemSub a) with (itemSub b).
  2:{ unfold itemSub, subtitle, nested_at. public Hs. by rewrite !Hk by key. }
  rewrite Hp, Ht. public Hs. unfold alike, shown.
  by destruct (matches h b), (str_eqb _ (js "login")), (has_text (js "password") b), (has_text (js "totp") b).
Qed.

Lemma public_insert (cmp : obj -> obj -> Z) a b l l' :
  (forall a b c d, same_public a b -> same_public c d -> cmp a c = cmp b d) ->
  same_public a b -> Forall2 same_public l l' -> Forall2 same_public (sort_insert cmp a l) (sort_insert cmp b l').
Proof.
  intros Hc Hab. induction 1 as [|x y l l' Hxy Hl IH]; cbn.
  - by constructor; [|constructor].
  - rewrite (Hc _ _ _ _ Hab Hxy). destruct (_ <=? 0); constructor; [done|by constructor|done|done].
Qed.

Lemma public_list h q l l' : Forall2 same_public l l' -> Forall2 same_public (popup_list h q l) (popup_list h q l').
Proof.
  intros Hl. unfold popup_list, sorted. match goal with |- context [stable_sort ?c l] => set (cmp := c) end.
  assert (Hs : Forall2 same_public (stable_sort cmp l) (stable_sort cmp l')).
  { induction Hl as [|a b l l' Hab Hl IH]; [constructor|]. apply public_insert; [|done|done].
    intros a1 b1 c1 d1 Hl1 Hl2. unfold cmp. by rewrite !(public_match h _ _ Hl1), !(public_match h _ _ Hl2),
      !(public_favorite _ _ Hl1), !(public_favorite _ _ Hl2). }
  induction Hs as [|a b k k' Hab _ IH]; cbn; [constructor|]. rewrite (public_found q _ _ Hab).
  destruct (found q b); [by constructor|done].
Qed.

Lemma public_rows h q l l' : Forall2 same_public l l' ->
  alike (concat (map (popup_row h) (popup_list h q l))) (concat (map (popup_row h) (popup_list h q l'))).
Proof.
  intros Hl%(public_list h q). apply concat_alike. induction Hl; constructor; [by apply public_row|done].
Qed.
End Laws.

(** ** Theorems *)
Section Theorems.
Context {N E D Node : Type} `{Unicode} `{UrlParser} `{WebCrypto} `{Environment N} `{Entropy E} `{Clock N} `{EngineText} `{Dom D Node}.
Context (clipboard_ok : bool) (WEB_VAULT_URL : jsstr).
Abbreviation X := (extension N E).
Abbreviation S := ((popup_page * tab (D := D)) * extension N E)%type.
Abbreviation screen_of := (popup_screen (N := N) (E := E) (D := D) WEB_VAULT_URL).
Abbreviation step := (popup_step (N := N) (E := E) (D := D) clipboard_ok WEB_VAULT_URL).

(** C13: An open popup forgets the vault whenever it locks.  Whatever is done on
    its screen and whatever happens meanwhile, the popup stays open, closes, or
    falls back to a form that holds nothing at all; the list offers Lock, and
    pressing it empties the worker's session and leads to that form; and once the
    worker has locked itself, so does loading the vault, saving a named item from
    the editor or deleting one, without one more request. *)
Theorem popup_forgets v t (x : X) :
  (forall s', step ((Opened v, t), x) s' ->
     match s'.1.1 with Opened _ | Gone => True | Locked f => f = blank_form | Loading => False end) /\
  (vv_editor v = None -> offered (screen_of ((Opened v, t), x)) LockVault /\
     exists x', returns (popup_do clipboard_ok LockVault) ((Opened v, t), x) tt ((Locked blank_form, t), x') /\
       session_slot x' = None /\ world_of x' = world_of x) /\
  (is_locked x ->
     (load ((Opened v, t), x)).2.1.1 = Locked blank_form /\
     forall e, vv_editor v = Some e ->
       (popup_do clipboard_ok (DeleteItem true) ((Opened v, t), x)).2 = ((Locked blank_form, t), wiped x) /\
       (nameless (pe_item e) = false ->
        (popup_do clipboard_ok SaveItem ((Opened v, t), x)).2 = ((Locked blank_form, t), wiped x))).
Proof.
  split_and!.
  - intros s' Hs%step_after. by destruct (s'.1.1).
  - intros He. split.
    + rewrite opened_screen, He. unfold render_list_page, Shell.
      destruct (pp_pending (vv_popup v)); find_node fail.
    + by eexists.
  - intros Hl. split.
    + apply load_locked, Hl.
    + intros e He. split; [|intros Hn]; cbn [popup_do]; unfold with_editor; cbn [fst]; rewrite He; unfold save, del; try rewrite Hn;
        unfold mbind, M_bind; cbn [on_editor on_view on_page modify fst snd]; unfold on_popup; cbn [fst snd].
      * by rewrite (delete_locked _ _ _ Hl).
      * by rewrite (save_locked _ _ _ Hl).
Qed.

Definition edits (s s' : S) : Prop :=
  step s s' /\ exists v e, s'.1.1 = Opened v /\ vv_editor v = Some e.

(** C14: Nothing is lost in the popup's login-shaped form.  Whatever is typed,
    generated, saved in vain or answered by the worker while an item is being
    edited, its type never changes, and the only fields that ever do are its name
    and notes and, for a login, its address, user name, password and one-time
    secret; so the card of a card, the fields of an identity, the folder and the
    custom fields of any item are still what they were when Save sends it. *)
Theorem popup_editor_keeps v e s s'
    (Hv : s.1.1 = Opened v) (He : vv_editor v = Some e) (Hs : rtc edits s s') :
  exists v' e', s'.1.1 = Opened v' /\ vv_editor v' = Some e' /\ is_login (pe_item e') = is_login (pe_item e) /\
    forall k, k ∉ popup_keys (is_login (pe_item e)) -> obj_get k (pe_item e') = obj_get k (pe_item e).
Proof.
  revert v e Hv He. induction Hs as [s|s s1 s2 [Hs (v1 & e1 & Hv1 & He1)] _ IH]; intros v e Hv He; [by eauto 10|].
  destruct (IH v1 e1 Hv1 He1) as (v2 & e2 & Hv2 & He2 & Ht & Hk). destruct s as [[pg t] x]. cbn in Hv. subst pg.
  apply step_after in Hs. rewrite Hv1 in Hs. pose proof (Hs e e1 He He1) as He01.
  assert (Hl : is_login (pe_item e1) = is_login (pe_item e)).
  { apply edited_login with (is_login (pe_item e)), He01. }
  exists v2, e2. split_and!; [done|done|by rewrite Ht|]. intros k Hn. rewrite Hk by (by rewrite Hl). by apply He01.
Qed.

(** C15: What the popup shows without being asked to reveal it says nothing of the
    secrets.  The list looks the same for any passwords and one-time secrets, as
    long as the same items have one; and the editor, until Show is pressed, and
    the unlock form look the same for any two passwords of one length. *)
Theorem popup_hides_secrets (w w' : jsstr) (Hw : length w = length w') :
  (forall v l, vv_editor v = None -> Forall2 same_public (pp_items (vv_popup v)) l ->
     alike (render_list_page v)
       (render_list_page (View (setItems l (vv_popup v)) (vv_loading v) (vv_query v) (vv_tabHost v) None))) /\
  (forall busy it err,
     alike (render_editor busy (PopupEditor (set (js "password") w it) false err))
       (render_editor busy (PopupEditor (set (js "password") w' it) false err))) /\
  (forall busy i m c err sc sc',
     render_unlock WEB_VAULT_URL busy (UnlockForm i (Entry w false) m c err) = Some sc ->
     render_unlock WEB_VAULT_URL busy (UnlockForm i (Entry w' false) m c err) = Some sc' -> alike sc sc').
Proof.
  split_and!.
  - intros v l He Hl. unfold render_list_page, Shell, render_list. cbn [vv_popup vv_loading vv_query vv_tabHost pp_items setItems pp_pending pp_error pp_toast].
    apply app_alike; [|done]. apply app_alike; [done|]. apply app_alike; [done|]. apply cons_alike.
    apply app_alike; [done|]. apply app_alike; [|done]. destruct (vv_loading v); [done|].
    pose proof (public_rows (vv_tabHost v) (vv_query v) _ _ Hl) as Hr.
    pose proof (public_list (vv_tabHost v) (vv_query v) _ _ Hl) as Hf. destruct Hf; [done|exact Hr].
  - intros busy it err.
    assert (Hk : forall x k, k <> js "password" -> text_at k (set (js "password") x it) = text_at k it)
      by (intros x; apply text_set_ne).
    unfold render_editor, Shell, is_login. cbn [pe_item pe_plain pe_error negb].
    rewrite !text_set, !Hk by (vm_compute; discriminate).
    repeat first [reflexivity | apply app_alike | apply cons_alike | apply when_alike]. apply password_alike, Hw.
  - intros busy i m c err sc sc'. unfold render_unlock. cbn [uf_twoFactor uf_identifier uf_password uf_totp uf_error plain typed_in negb].
    intros (nt & Hnt & (wa & Hwa & Hsc)%bind_Some)%bind_Some (nt' & Hnt' & (wa' & Hwa' & Hsc')%bind_Some)%bind_Some.
    simplify_eq. unfold Shell. apply app_alike; [|reflexivity]. apply app_alike; [|reflexivity].
    do 3 apply cons_alike. by apply password_alike.
Qed.

(** The list takes a search without a match for an empty vault: whatever is
    stored, the message says that there is nothing yet. *)
Theorem no_match_says_empty v (Hl : vv_loading v = false)
  (Hf : forall it, it ∈ pp_items (vv_popup v) -> found (vv_query v) it = false) :
  render_list v = [Say (js "No items yet. Use + Add to store your first login.")].
Proof.
  unfold render_list. rewrite Hl. replace (popup_list _ _ _) with (@nil obj); [done|]. symmetry. unfold popup_list.
  assert (Hs : Forall (fun it => found (vv_query v) it = false) (sorted (vv_tabHost v) (pp_items (vv_popup v)))).
  { unfold sorted. rewrite sort_permutation. by apply Forall_forall. }
  induction Hs as [|it l Hit _ IH]; [done|]. cbn. by rewrite Hit.
Qed.

(** The error of a reload that failed stays on the screen over the items of every
    one that succeeds after it: nothing ever takes it back. *)
Theorem error_outlives_reload (p : popup) (x x' : X) r l
  (Hs : serve msg_getItems x = (inl (RItems r), x')) (Ho : is_true (it_locked r) = false)
  (He : nonblank (it_error r) = None) (Hi : it_items r = Some l) :
  returns reload (p, x) tt (setItems l p, x') /\ pp_error (setItems l p) = pp_error p.
Proof.
  split; [|done]. unfold returns, reload, mbind at 1, M_bind, sendBackground. cbn [fst snd].
  rewrite Hs. cbv iota. by rewrite Ho, He, Hi.
Qed.
End Theorems.

(** ** Witnesses *)
#[local] Existing Instances latin1_unicode authority_parser model_crypto lcg_entropy offline offline_clock plain_engine.

(** A page without a form. *)
#[local] Instance bare_page : Dom unit unit := {|
  document := tt; query _ _ _ := None; closest_form _ _ := None; value _ _ := []; set_native _ _ d := d;
  dispatch _ _ d := d; href _ := js "https://example.org/" |}.

Definition a_card : obj :=
  [(js "id", JStr (js "7")); (js "name", JStr (js "Visa")); (js "type", JStr (js "card"));
   (js "card", JObj [(js "number", JStr (js "4111"))])].
Definition a_login (pw : jsstr) : obj :=
  [(js "id", JStr (js "8")); (js "name", JStr (js "Mail")); (js "type", JStr (js "login")); (js "password", JStr pw)].
Definition viewing (it : option obj) (items : list obj) : vault_view :=
  View {| pp_closed := false; pp_items := items; pp_error := None; pp_toast := None; pp_editing := it;
          pp_fromPending := false; pp_pending := None |} false [] [] ((fun i => PopupEditor i false None) <$> it).
Definition seen_at (v : vault_view) : (popup_page * tab (D := unit)) * extension Z Z :=
  ((Opened v, Page tt), demo_at 2001 2000).

Lemma popup_forgets_witness :
  (load (seen_at (viewing None []))).2.1.1 = Locked blank_form /\
  (popup_do true SaveItem (seen_at (viewing (Some a_card) []))).2.1.1 = Locked blank_form.
Proof.
  assert (Hl : is_locked (demo_at 2001 2000)) by (vm_compute; reflexivity).
  destruct (popup_forgets true [] (viewing None []) (Page tt) (demo_at 2001 2000)) as (_ & _ & Ha).
  destruct (popup_forgets true [] (viewing (Some a_card) []) (Page tt) (demo_at 2001 2000)) as (_ & _ & Hb).
  split; [exact (proj1 (Ha Hl))|]. destruct (proj2 (Hb Hl) _ eq_refl) as [_ Hs]. unfold seen_at. by rewrite Hs.
Defined.

Lemma popup_editor_keeps_witness :
  exists s, rtc (edits true []) (seen_at (viewing (Some a_card) [])) s /\
    exists v e, s.1.1 = Opened v /\ vv_editor v = Some e /\
      text_at (js "name") (pe_item e) = js "Bank" /\ obj_get (js "card") (pe_item e) = obj_get (js "card") a_card.
Proof.
  set (e := PopupEditor a_card false None).
  assert (Hs : rtc (edits true []) (seen_at (viewing (Some a_card) []))
    (popup_do true (SetKey (js "name") (js "Bank")) (seen_at (viewing (Some a_card) []))).2).
  { apply rtc_once. split; [|by eexists _, _]. eapply (by_user _ _ _ _ (SetKey (js "name") (js "Bank")) (inl tt)); [|reflexivity].
    exists 2%nat, (Enter (js "Bank")). vm_compute. reflexivity. }
  destruct (popup_editor_keeps true [] (viewing (Some a_card) []) e (seen_at (viewing (Some a_card) [])) _ eq_refl eq_refl Hs) as (v & e' & Hv & He & _ & Hk).
  eexists. split; [exact Hs|]. exists v, e'. split_and!; [done|done| |apply Hk; in_keys].
  injection Hv as <-. by injection He as <-.
Defined.

Lemma popup_hides_secrets_witness :
  alike (render_list_page (viewing None [a_login (js "hunter2")])) (render_list_page (viewing None [a_login (js "correct horse")])).
Proof.
  destruct (popup_hides_secrets [] [] [] eq_refl) as [Hl _].
  refine (Hl (viewing None [a_login (js "hunter2")]) [a_login (js "correct horse")] eq_refl _).
  constructor; [|constructor]. split; [|split; reflexivity]. intros k Hk. unfold a_login. cbn [obj_get].
  by rewrite (str_eqb_ne k (js "password")) by (intros ->; apply Hk; by left).
Defined.
