(* ===== verification/PopupLife.v ===== *)
(** The browser extension as it is used: the popup of PopupUi.v over the worker of
    Background.v and the API client, against the server of WebApp.v that keeps
    accounts and their ciphers; and the web app and the extension on one account. *)
From stdpp Require Import relations.
From S2P Require Import Prelude Text Numeral Json JsonFacts Encoding JsonText Effects Process Platform Primitives.
From S2P Require Import Kdf Policy Identifier Account Totp Objects Items Api Session VaultStore Login Protocol Background Views Health Biometric.
From S2P Require Import Transfer TransferUi WebPanels PanelsUi WebVault Editor AsyncButton ItemUi WebAuth AuthUi Ui WebUi WebApp.
From S2P Require Import Popup Content PopupUi.

(** ** The worker against the server *)
Section Worker.
Context {N E : Type} `{Unicode} `{WebCrypto} `{Environment N} `{Entropy E} `{!Clock N} `{EngineText}.
Hypothesis Hsay : engine_message JsTypeError <> [] /\ engine_message JsSyntaxError <> [].
Context (base : jsstr) `{!AccountServer N base} `{!VaultServer N base}.
Context (i pw : jsstr).
Abbreviation W := (world N E).
Abbreviation X := (extension N E).
Abbreviation key_of := (normalizeIdentifier i).
Abbreviation rest := (WebApp.at_rest (N := N) (E := E) base i pw).

(** A session of the account, whether the server still takes its token or not. *)
Definition seated_in (uk : bytes) (se : Session) : Prop :=
  ss_userKey se = uk /\ exists token, token <> [] /\ ss_accessToken se = str token /\ owned key_of token.

Definition typed_login (p : PendingSave) : Prop :=
  units_ok (pe_url p) /\ units_ok (pe_username p) /\ units_ok (pe_password p).

(** The server has the account with the vault [V], and the worker at most a session of
    it. *)
Record worker_home (uk : bytes) (V : gmap jsstr obj) (x : X) : Prop := {
  wh_rest : rest uk V (world_of x);
  wh_session : forall s, session_slot x = Some s -> exists se t, s = stored_of se t /\ seated_in uk se;
  wh_pending : forall p, pending_slot x = Some p -> typed_login (pending_save p);
}.

(** It is a matter of what the server holds. *)
Lemma rest_moves uk V (w w' : W) : rest uk V w -> baseUrl w' = base -> net w' = net w -> rest uk V w'.
Proof. unfold WebApp.at_rest. intros (_ & Hr) Hb ->. by split. Qed.

(** With the token, the account is a vault of VaultStore.v. *)
Lemma rest_linked uk V (w : W) se token : rest uk V w -> ss_userKey se = uk -> ss_accessToken se = str token -> owned key_of token ->
  linked base token (CipherServer0 := seat key_of token (accounts (net w))) se w V.
Proof.
  intros (Hb & Hok & Ha & Hk & Hr & HV) Hse Ht Hi. split; [exact Hb|]. split; [by apply seat_ok|].
  split; [rewrite seat_store; by apply Hr|]. split; [exact Ht|]. by rewrite Hse.
Qed.

Lemma linked_rest uk V (w : W) se token A : has_account (N := N) (E := E) A i pw uk -> ss_userKey se = uk -> clean V ->
  linked base token (CipherServer0 := seat key_of token A) se w V -> rest uk V w.
Proof.
  intros Ha Hse HV (Hb & Hok & Hr & _ & Hk). apply seat_ok in Hok as (Hok & HA & _). rewrite seat_store in Hr.
  split; [exact Hb|]. split; [exact Hok|]. split; [by rewrite HA|]. split; [by rewrite <- Hse|].
  split; [|exact HV]. intros se' Hse'. eapply represents_key; [|exact Hr]. congruence.
Qed.

(** Something about the token of the worker, and the server as it is. *)
Definition with_token (x : X) (Q : Session -> jsstr -> gmap jsstr json -> N -> Prop) : Prop :=
  exists se t token, session_slot x = Some (stored_of se t) /\ ss_accessToken se = str token /\
    Q se token (accounts (net (world_of x))) (net (world_of x)).
(** It does not read the vault out, and does not accept what is asked. *)
Definition unread_by (se : Session) (token : jsstr) (A : gmap jsstr json) (n : N) : Prop :=
  unread (CipherServer0 := seat key_of token A) base token n.
Definition rejects (a : web_action) (se : Session) (token : jsstr) (A : gmap jsstr json) (n : N) : Prop :=
  rejected (CipherServer0 := seat key_of token A) base token se n a.

(** What a vault message does while the session is open: the answer and the vault, or
    the refusal. *)
Definition asks (msg : BgRequest) (V : gmap jsstr obj) (P : Response -> gmap jsstr obj -> Prop)
  (Q : Session -> jsstr -> gmap jsstr json -> N -> Prop) : Prop :=
  forall se token A (w : W), token <> [] -> linked base token (CipherServer0 := seat key_of token A) se w V ->
    exists call, vault_call msg se = Some call /\
    ((exists r w' V', returns call w r w' /\ linked base token (CipherServer0 := seat key_of token A) se w' V' /\
        clean V' /\ P r V') \/
     (exists e w', throws call w e w' /\ linked base token (CipherServer0 := seat key_of token A) se w' V /\
        refused_exn e /\ Q se token A (net w))).

Lemma wiped_home uk V x : worker_home uk V x -> worker_home uk V (wiped x).
Proof. intros [Hr Hs Hp]. by split. Qed.

Lemma touched_home uk V (x : X) se token A w' : has_account (N := N) (E := E) A i pw uk -> seated_in uk se -> clean V ->
  (forall p, pending_slot x = Some p -> typed_login (pending_save p)) ->
  linked base token (CipherServer0 := seat key_of token A) se w' V -> worker_home uk V (with_world (touched x se) w').
Proof.
  intros Ha Hse HV Hp Hl. split; [|intros s [= <-]; by eexists _, _|exact Hp].
  eapply linked_rest; [exact Ha|apply Hse|exact HV|exact Hl].
Qed.

(** Every vault message is turned away by a worker that is locked, and otherwise does
    what it asks, or what the server says is passed on. *)
Lemma served uk V (x : X) msg rf P Q : worker_home uk V x -> refusal msg = Some rf -> asks msg V P Q ->
  (is_locked x /\ serve msg x = (inl rf, wiped x)) \/
  (exists r x' V', serve msg x = (inl r, x') /\ worker_home uk V' x' /\ P r V') \/
  exists e x', serve msg x = (inl (failure msg e), x') /\ worker_home uk V x' /\ message e <> [] /\ with_token x Q.
Proof.
  intros Hh Hm Ha. destruct (session_slot x) as [s|] eqn:Es.
  2:{ left. assert (Hl : is_locked x) by (unfold is_locked; by rewrite Es). split; [exact Hl|]. by apply serve_locked. }
  destruct (Z.lt_ge_cases (lockAt s) (now_of x)) as [Hl|Hl].
  { left. assert (Hlk : is_locked x) by (unfold is_locked; by rewrite Es). split; [exact Hlk|]. by apply serve_locked. }
  right. destruct (wh_session _ _ _ Hh s Es) as (se & t & -> & Hseat). pose proof Hseat as (Hse & token & Hne & Ht & Hi).
  pose proof (rest_linked uk V _ se token (wh_rest _ _ _ Hh) Hse Ht Hi) as Hlk.
  pose proof (wh_rest _ _ _ Hh) as (_ & _ & Hacc & Hk & _ & HV).
  destruct (Ha se token _ _ Hne Hlk) as (call & Hc & Ho).
  pose proof (serve_open msg se t x call Hc ltac:(rewrite Hse; by destruct Hk) Es Hl) as Hsv.
  destruct Ho as [(r & w' & V' & Hr & Hlk' & HV' & HP)|(e & w' & He & Hlk' & Hx & HQ)].
  - left. exists r, (with_world (touched x se) w'), V'. split; [by rewrite Hsv, Hr|]. split; [|exact HP].
    eapply touched_home; [exact Hacc|exact Hseat|exact HV'|apply Hh|exact Hlk'].
  - right. exists e, (with_world (touched x se) w'). split; [by rewrite Hsv, He|]. split; [|split; [by apply refused_message|by exists se, t, token]].
    eapply touched_home; [exact Hacc|exact Hseat|exact HV|apply Hh|exact Hlk'].
Qed.

(** A list of what a vault holds. *)
Definition listed (V : gmap jsstr obj) (l : list obj) : Prop := clean V /\ l ≡ₚ map VaultStore.shown (map_to_list V).

Lemma asks_items V : clean V -> asks msg_getItems V (fun r V' => V' = V /\ exists l, r = RItems (items_answer l) /\ listed V l) unread_by.
Proof.
  intros HV se token A w Hne Hl. eexists. split; [reflexivity|].
  destruct (loadVault_outcomes base token (CipherServer0 := seat key_of token A) Hne se V w Hl)
    as [(l & w' & Hr & Hl' & Hp & _)|(e & w' & He & Hacc & Hx & Hl' & _)]; [left|right].
  - eexists _, w', V. split; [unfold returns; run Hr; reflexivity|]. split; [exact Hl'|]. split; [exact HV|]. split; [done|]. by exists l.
  - exists e, w'. split; [by apply bind_throws|done].
Qed.

Definition save_msg (item : obj) : BgRequest :=
  match text_at (js "id") item with [] => msg_addItem (stripId item) | _ => msg_updateItem item end.

Lemma asks_save V item : clean V -> legal (Save item) ->
  asks (save_msg item) V (fun r V' => exists m, r = RMutation (mutation_done m) /\ means (Save item) V V') (rejects (Save item)).
Proof.
  intros HV Ha se token A w Hne Hl. pose proof Ha as [Hs Hst]. unfold save_msg, rejects, rejected. cbn [asks].
  destruct (text_at (js "id") item) as [|c id] eqn:Et; (eexists; split; [reflexivity|]).
  - destruct (addItem_outcomes base token (CipherServer0 := seat key_of token A) Hne se V (stripId item) w Hl Hs)
      as [(id & w' & Hr & Hf & Hl' & Hi)|(data & e & w' & Hd & He & Hacc & Hx & Hl' & _)]; [left|right].
    + assert (Hm : means (Save item) V (<[id := settled (stripId item)]> V)) by (cbn [means]; rewrite Et; by exists id).
      eexists _, w', _. split; [unfold returns; run Hr; reflexivity|]. split; [exact Hl'|]. split; [by eapply clean_means|]. by eexists.
    + exists e, w'. split; [by apply bind_throws|]. split; [exact Hl'|]. split; [exact Hx|].
      eexists POST, _, _. split; [|exact Hacc]. cbn [WebVault.asks]. rewrite Et. split; [done|]. split; [done|]. by exists data.
  - destruct (identified_text item (Hst ltac:(done))) as (id' & Ht & Hi & Hid). rewrite Et in Ht. subst id'.
    destruct (saveItem_outcomes base token (CipherServer0 := seat key_of token A) Hne se V (c :: id) item w Hl Hid Hs)
      as [(w' & Hr & _ & Hl')|(data & e & w' & Hd & He & Hacc & Hx & Hl' & _)]; [left|right].
    + assert (Hm : means (Save item) V (<[c :: id := settled (stripId item)]> V)) by (cbn [means]; by rewrite Et).
      eexists _, w', _. split; [unfold returns; run Hr; reflexivity|]. split; [exact Hl'|]. split; [by eapply clean_means|]. by eexists.
    + exists e, w'. split; [by apply bind_throws|]. split; [exact Hl'|]. split; [exact Hx|].
      eexists PUT, _, _. split; [|exact Hacc]. cbn [WebVault.asks]. rewrite Et. split; [done|]. split; [done|]. by exists data.
Qed.

Lemma asks_delete V item : clean V -> identified item ->
  asks (msg_deleteItem (text_at (js "id") item)) V
    (fun r V' => exists m, r = RMutation (mutation_done m) /\ means (Delete item true) V V') (rejects (Delete item true)).
Proof.
  intros HV Hst se token A w Hne Hl. eexists. split; [reflexivity|].
  destruct (removeItem_outcomes base token (CipherServer0 := seat key_of token A) Hne se V (text_at (js "id") item) w Hl)
    as [(w' & Hr & _ & Hl')|(e & w' & He & Hacc & Hx & Hl' & _)]; [left|right].
  - eexists _, w', _. split; [unfold returns; run Hr; reflexivity|]. split; [exact Hl'|]. split; [by apply clean_delete|]. by eexists.
  - exists e, w'. split; [by apply bind_throws|]. split; [exact Hl'|]. split; [exact Hx|].
    eexists DELETE, _, _. split; [|exact Hacc]. done.
Qed.
End Worker.

(** ** The popup's actions *)
Section Actions.
Context {N E : Type} `{Unicode} `{UrlParser} `{WebCrypto} `{Environment N} `{Entropy E} `{!Clock N} `{EngineText}.
Hypothesis Hsay : engine_message JsTypeError <> [] /\ engine_message JsSyntaxError <> [].
Context (base : jsstr) `{!AccountServer N base} `{!VaultServer N base}.
Context (i pw : jsstr) (uk : bytes).
Abbreviation X := (extension N E).
Abbreviation home := (worker_home (N := N) (E := E) base i pw uk).
Abbreviation rejecting a := (rejects base i (N := N) a).
Abbreviation unread_ := (unread_by base i (N := N)).

(** The popup says that something went wrong. *)
Definition objects (p : popup) : Prop := exists m, pp_error p = Some m /\ m <> [].
(** Its list is that of the vault, but for that. *)
Definition in_view (V : gmap jsstr obj) (p : popup) : Prop := exists Vs, listed Vs (pp_items p) /\ (Vs = V \/ objects p).

(** The list is not read yet, or is in view; the form is on an item that can be saved. *)
Record popup_shows (V : gmap jsstr obj) (loading : bool) (p : popup) : Prop := {
  ps_items : exists Vs, listed Vs (pp_items p) /\ (loading = true \/ Vs = V \/ objects p);
  ps_editing : forall it, pp_editing p = Some it -> draft_of it;
  ps_pending : forall q, pp_pending p = Some q -> typed_login q;
}.
Definition popup_ok (V : gmap jsstr obj) (loading : bool) (p : popup) : Prop := pp_closed p = true \/ popup_shows V loading p.

Lemma sent msg r (p : popup) (x x' : X) : serve msg x = (inl r, x') -> returns (sendBackground msg) (p, x) r (p, x').
Proof. intros Hs. unfold returns, sendBackground. cbn [fst snd]. by rewrite Hs. Qed.

(** What reading the vault again leaves of the popup. *)
Definition read_again (V : gmap jsstr obj) (x : X) (p p' : popup) : Prop :=
  is_locked x /\ p' = onLock p \/ (exists l, listed V l /\ p' = setItems l p) \/
  with_token base x unread_ /\ exists m, m <> [] /\ p' = setError (Some m) p.

Lemma reload_home V (p : popup) (x : X) : home V x -> exists p' x', returns reload (p, x) tt (p', x') /\ home V x' /\ read_again V x p p'.
Proof.
  intros Hh. pose proof (wh_rest _ _ _ _ _ _ Hh) as (_ & _ & _ & _ & _ & HV).
  destruct (served Hsay base i pw uk V x msg_getItems _ _ _ Hh eq_refl (asks_items base i V HV))
    as [[Hl Hs]|[(r & x' & V' & Hs & Hh' & -> & l & -> & Hp)|(e & x' & Hs & Hh' & Hm & Hn)]].
  - exists (onLock p), (wiped x). split; [by apply reload_locked|]. split; [by apply wiped_home|]. by left.
  - exists (setItems l p), x'. split; [|split; [exact Hh'|right; left; by exists l]].
    unfold returns, reload. run (sent _ _ p _ _ Hs). reflexivity.
  - exists (setError (Some (message e)) p), x'. split; [|split; [exact Hh'|right; right; split; [exact Hn|by exists (message e)]]].
    unfold returns, reload. run (sent _ _ p _ _ Hs). cbn [failure items_failed it_locked is_true default it_error].
    by destruct (message e).
Qed.

Lemma read_again_ok V l0 (p p' : popup) (x : X) : (exists Vs, listed Vs (pp_items p)) ->
  (forall it, pp_editing p = Some it -> draft_of it) ->
  (forall q, pp_pending p = Some q -> typed_login q) -> read_again V x p p' -> popup_ok V l0 p'.
Proof.
  intros (Vs & Hi) He Hq [(_ & ->)|[(l & Hp & ->)|(_ & m & Hm & ->)]]; [by left|right..].
  - split; [exists V; split; [exact Hp|by right; left]|exact He|exact Hq].
  - split; [exists Vs; split; [exact Hi|right; right; by exists m]|exact He|exact Hq].
Qed.

Lemma shows_listed V l0 (p : popup) : popup_shows V l0 p -> exists Vs, listed Vs (pp_items p).
Proof. intros [(Vs & Hi & _) _ _]. by exists Vs. Qed.

Lemma again_editing V (x : X) p p' : read_again V x p p' -> pp_editing p' = pp_editing p.
Proof. by intros [(_ & ->)|[(l & _ & ->)|(_ & m & _ & ->)]]. Qed.

(** What the worker offers to save was typed by the user. *)
Lemma pending_home V (x : X) : home V x -> exists o x', serve msg_getPending x = (inl (RPending {| pending := o |}), x') /\
  home V x' /\ (forall q, o = Some q -> typed_login q).
Proof.
  intros [Hr Hs Hp]. unfold serve. cbn [onMessage]. destruct x as [w ss [q|] a].
  - cbn in *. destruct (_ <? _).
    + eexists None, _. split; [reflexivity|]. split; [by split|done].
    + eexists (Some (pending_save q)), _. split; [reflexivity|]. split; [by split|]. intros ? [= <-]. by apply Hp.
  - eexists None, _. split; [reflexivity|]. split; [by split|done].
Qed.

Lemma opened_home V l0 (p : popup) (x : X) : home V x -> popup_shows V l0 p ->
  exists p' x', returns opened (p, x) tt (p', x') /\ home V x' /\ pp_editing p' = pp_editing p /\ popup_ok V false p' /\
    (is_locked x /\ pp_closed p' = true \/
     pp_closed p' = pp_closed p /\ (listed V (pp_items p') \/ with_token base x unread_ /\ objects p')).
Proof.
  intros Hh Hp. destruct (reload_home V p x Hh) as (p1 & x1 & Hr & Hh1 & Hp1).
  destruct (pending_home V x1 Hh1) as (o & x2 & Hs & Hh2 & Ho).
  exists (setPending o p1), x2. split; [unfold returns, opened; run Hr; run (sent _ _ p1 _ _ Hs); reflexivity|].
  split; [exact Hh2|]. split; [exact (again_editing V x p p1 Hp1)|]. split.
  - destruct (read_again_ok V false p p1 x (shows_listed _ _ _ Hp) (ps_editing _ _ _ Hp) (ps_pending _ _ _ Hp) Hp1) as [Hc|[Hi He _]]; [by left|right].
    by split.
  - destruct Hp1 as [(Hl & ->)|[(l & Hl & ->)|(Hn & m & Hm & ->)]]; [by left|right; split; [done|]..]; [by left|right].
    split; [exact Hn|by exists m].
Qed.

(** The request of Save. *)
Lemma save_sent V item (x : X) : home V x -> draft_of item ->
  is_locked x \/
  (exists m x' V', home V' x' /\ means (Save item) V V' /\ forall p : popup,
    returns (sendBackground (save_msg item)) (p, x) (RMutation (mutation_done m)) (p, x')) \/
  exists e x', home V x' /\ e <> [] /\ with_token base x (rejecting (Save item)) /\ forall p : popup,
    returns (sendBackground (save_msg item)) (p, x) (RMutation (mutation_failed e)) (p, x').
Proof.
  intros Hh (Hd & t & Hid & Hi). pose proof (wh_rest _ _ _ _ _ _ Hh) as (_ & _ & _ & _ & _ & HV).
  pose proof (draft_legal item t Hd Hid Hi) as Ha.
  assert (Hrf : refusal (save_msg item) = Some (RMutation mutation_locked)) by (unfold save_msg; by destruct (text_at _ item)).
  assert (Hfl : forall e, failure (save_msg item) e = RMutation (mutation_failed (message e)))
    by (intros e; unfold save_msg; by destruct (text_at _ item)).
  destruct (served Hsay base i pw uk V x (save_msg item) _ _ _ Hh Hrf (asks_save base i V item HV Ha))
    as [[Hl _]|[(r & x' & V' & Hs & Hh' & m & -> & Hm)|(e & x' & Hs & Hh' & He & Hn)]]; [by left|right; left|right; right].
  - exists m, x', V'. split; [exact Hh'|]. split; [exact Hm|]. intros p. by apply sent.
  - rewrite Hfl in Hs. exists (message e), x'. split; [exact Hh'|]. split; [exact He|]. split; [exact Hn|]. intros p. by apply sent.
Qed.

Lemma dismiss_home V (p : popup) (x : X) : home V x -> exists x', returns dismissPending (p, x) tt (setPending None p, x') /\ home V x'.
Proof. intros [Hr Hs Hp]. eexists. split; [reflexivity|]. by split. Qed.

(** What becomes of Save and Delete: turned away by a locked worker, which closes the
    view; done, which closes the form; or refused by the server, which leaves
    everything and is answered with the error to show. *)
Definition fate (a : web_action) V (x : X) V' (p : popup) (r : option jsstr) (p' : popup) : Prop :=
  r = None /\ V' = V /\ is_locked x /\ pp_closed p' = true \/
  r = None /\ (legal a /\ means a V V') /\ pp_editing p' = None \/
  V' = V /\ with_token base x (rejecting a) /\ p' = p /\ exists m, r = Some m /\ m <> [].

Lemma save_home V l0 item (p : popup) (x : X) : home V x -> draft_of item -> popup_shows V l0 p ->
  exists r p' x' V', returns (saveEditing item) (p, x) r (p', x') /\ home V' x' /\ popup_ok V' l0 p' /\
    fate (Save item) V x V' p r p'.
Proof.
  intros Hh Hd Hp. assert (Ha : legal (Save item)) by (destruct Hd as (Hd & t & Hid & Hi); by eapply draft_legal).
  assert (Hmsg : forall s : popup * X, match text_at (js "id") item with
      | [] => sendBackground (msg_addItem (stripId item)) | _ => sendBackground (msg_updateItem item) end s =
      sendBackground (save_msg item) s) by (intros s; unfold save_msg; by destruct (text_at _ item)).
  destruct (save_sent V item x Hh Hd) as [Hl|[(m & x1 & V' & Hh1 & Hb & Hs)|(e & x1 & Hh1 & He & Hn & Hs)]].
  { exists None, (onLock p), (wiped x), V. split; [by apply save_locked|]. split; [by apply wiped_home|]. split; [by left|by left]. }
  2:{ exists (Some e), p, x1, V. split; [|split; [exact Hh1|split; [by right|right; right; split; [done|split; [done|split; [done|by exists e]]]]]].
      unfold returns, saveEditing. eapply bind_returns; [unfold returns; rewrite Hmsg; exact (Hs p)|].
      cbn [mutation_failed mu_locked mu_error is_true default]. by destruct e. }
  assert (Hdm : exists p2 x2, returns (if pp_fromPending p then dismissPending else mret tt) (p, x1) tt (p2, x2) /\ home V' x2 /\
    (forall q, pp_pending p2 = Some q -> typed_login q) /\ pp_items p2 = pp_items p).
  { destruct (pp_fromPending p).
    - destruct (dismiss_home V' p x1 Hh1) as (x2 & Hr & Hh2). by exists (setPending None p), x2.
    - exists p, x1. split; [done|]. split; [done|]. split; [apply Hp|done]. }
  destruct Hdm as (p2 & x2 & Hr & Hh2 & Hq & Hit).
  destruct (reload_home V' (setFromPending false (setEditing None p2)) x2 Hh2) as (p3 & x3 & Hl & Hh3 & Ha3).
  set (t := match text_at (js "id") item with [] => js "Added" | _ => js "Saved" end).
  exists None, (flash t p3), x3, V'. split; [|split; [exact Hh3|]].
  - unfold returns, saveEditing. eapply bind_returns; [unfold returns; rewrite Hmsg; exact (Hs p)|].
    cbn [mutation_done mu_locked mu_error is_true default nonblank].
    eapply (bind_returns _ _ _ p); [reflexivity|cbv beta]. run Hr.
    eapply (bind_returns _ _ _ tt (setFromPending false (setEditing None p2), x2)); [reflexivity|cbv beta]. run Hl. reflexivity.
  - assert (He : pp_editing p3 = None) by exact (again_editing V' x2 _ _ Ha3).
    split; [|right; left; by split].
    destruct (read_again_ok V' l0 (setFromPending false (setEditing None p2)) p3 x2) as [Hc|[Hi _ Hqq]];
      [cbn; rewrite Hit; exact (shows_listed _ _ _ Hp)|done|exact Hq|exact Ha3|by left|right].
    split; [exact Hi| |exact Hqq]. cbn. by rewrite He.
Qed.

Lemma delete_home V l0 item (p : popup) (x : X) : home V x -> draft_of item -> text_at (js "id") item <> [] -> popup_shows V l0 p ->
  exists r p' x' V', returns (deleteEditing item) (p, x) r (p', x') /\ home V' x' /\ popup_ok V' l0 p' /\
    fate (Delete item true) V x V' p r p'.
Proof.
  intros Hh (Hd & t & Hid & Hi) Hne Hp. pose proof (wh_rest _ _ _ _ _ _ Hh) as (_ & _ & _ & _ & _ & HV).
  assert (Hst : identified item) by (exists t; split; [apply Hi|exact Hid]; unfold text_at in Hne; by rewrite Hid in Hne).
  destruct (served Hsay base i pw uk V x (msg_deleteItem (text_at (js "id") item)) _ _ _ Hh eq_refl (asks_delete base i V item HV Hst))
    as [[Hl _]|[(r & x1 & V' & Hs & Hh1 & m & -> & Hm)|(e & x1 & Hs & Hh1 & He & Hn)]].
  { exists None, (onLock p), (wiped x), V. split; [by apply delete_locked|]. split; [by apply wiped_home|]. split; [by left|by left]. }
  2:{ exists (Some (message e)), p, x1, V. split; [|split; [exact Hh1|split; [by right|right; right; split; [done|split; [done|split; [done|by exists (message e)]]]]]].
      unfold returns, deleteEditing. run (sent _ _ p _ _ Hs). cbn [failure mutation_failed mu_locked mu_error is_true default].
      by destruct (message e). }
  destruct (reload_home V' (setEditing None p) x1 Hh1) as (p3 & x3 & Hl & Hh3 & Ha3).
  exists None, (flash (js "Deleted") p3), x3, V'. split; [|split; [exact Hh3|]].
  - unfold returns, deleteEditing. run (sent _ _ p _ _ Hs). cbn [mutation_done mu_locked mu_error is_true default nonblank].
    eapply (bind_returns _ _ _ tt (setEditing None p, x1)); [reflexivity|cbv beta]. run Hl. reflexivity.
  - assert (He : pp_editing p3 = None) by exact (again_editing V' x1 _ _ Ha3).
    split; [|right; left; split; [done|split; [split; [exact Hst|exact Hm]|exact He]]].
    destruct (read_again_ok V' l0 (setEditing None p) p3 x1) as [Hc|[Hi' _ Hqq]];
      [exact (shows_listed _ _ _ Hp)|done|exact (ps_pending _ _ _ Hp)|exact Ha3|by left|right].
    split; [exact Hi'| |exact Hqq]. cbn. by rewrite He.
Qed.
End Actions.

(** ** The pages *)
Section Pages.
Context {N E D Node : Type} `{Unicode} `{UrlParser} `{WebCrypto} `{Environment N} `{Entropy E} `{!Clock N} `{EngineText} `{Dom D Node}.
Hypothesis Hsay : engine_message JsTypeError <> [] /\ engine_message JsSyntaxError <> [].
Context (base : jsstr) `{!AccountServer N base} `{!VaultServer N base}.
Context (i pw : jsstr) (uk : bytes) (clipboard_ok : bool) (WEB_VAULT_URL : jsstr).
(** The names of hosts are texts, too. *)
Hypothesis Hhost : forall t u, units_ok t -> parse_url t = Some u -> units_ok (hostname u).
Abbreviation X := (extension N E).
Abbreviation S := ((popup_page * tab (D := D)) * extension N E)%type.
Abbreviation key_of := (normalizeIdentifier i).
Abbreviation does := (popup_do (N := N) (E := E) (D := D) (Node := Node) clipboard_ok).
Abbreviation screen_at := (popup_screen (N := N) (E := E) (D := D) WEB_VAULT_URL).

Definition page_ok (V : gmap jsstr obj) (p : popup_page) : Prop :=
  match p with
  | Opened v => pp_closed (vv_popup v) = false /\ popup_shows V (vv_loading v) (vv_popup v) /\
      match pp_editing (vv_popup v), vv_editor v with
      | None, None => True
      | Some _, Some e => draft_of (pe_item e)
      | _, _ => False
      end
  | Locked f => uf_twoFactor f = None
  | Loading | Gone => True
  end.

(** The server and the worker keep the vault, and the popup shows it. *)
Record at_home (V : gmap jsstr obj) (s : S) : Prop := {
  ah_worker : worker_home base i pw uk V s.2;
  ah_page : page_ok V s.1.1;
}.

Lemma vault_page_ok V V' v p : page_ok V (Opened v) -> popup_ok V' (vv_loading v) p -> page_ok V' (vault_page v p).
Proof.
  intros (_ & _ & He) Hp. unfold vault_page. destruct (pp_closed p) eqn:Ec; [done|].
  destruct Hp as [Hp|Hp]; [congruence|]. split; [exact Ec|]. split; [exact Hp|]. cbn. unfold mounted.
  destruct (pp_editing p) as [it|] eqn:Ep; [|done].
  destruct (vv_editor v); [by destruct (pp_editing (vv_popup v))|]. by apply (ps_editing _ _ _ Hp).
Qed.

(** The form is still there, with an error. *)
Definition form_stays (s s' : S) : Prop :=
  exists v e v' e' m, s.1.1 = Opened v /\ vv_editor v = Some e /\ s'.1.1 = Opened v' /\ vv_editor v' = Some e' /\
    pe_item e' = pe_item e /\ pe_error e' = Some m /\ m <> [].

(** What a gesture does: to the vault what is said of it, or nothing, when the worker
    has locked itself, and then the popup leads back to the blank form, or when the
    server refuses, and then the form stays and shows an error. *)
Definition happens (o : option web_action) (V : gmap jsstr obj) (s : S) (V' : gmap jsstr obj) (s' : S) : Prop :=
  match o with
  | None => V' = V
  | Some a =>
      legal a /\ means a V V' \/
      V' = V /\ (is_locked s.2 /\ s'.1.1 = Locked blank_form \/ with_token base s.2 (rejects base i a) /\ form_stays s s')
  end.
Definition turned_away (s : S) (a : web_action) : Prop := is_locked s.2 \/ with_token base s.2 (rejects base i a).

Lemma happens_effect o V s V' s' : happens o V s V' s' -> effect_of turned_away s o V V'.
Proof. destruct o; cbn; [|done]. intros [Ha|[-> [[Hl _]|[Hn _]]]]; [by left|right; split; [done|by left]|right; split; [done|by right]]. Qed.

(** A handler that answers, keeps what there is and does what is said of it. *)
Definition kept (V : gmap jsstr obj) (o : option web_action) (ok : Prop) (m : M S unit) (s : S) : Prop :=
  exists r s' V', m s = (r, s') /\ (ok -> r = inl tt) /\ at_home V' s' /\ happens o V s V' s'.

Lemma same_kept V ok m (s s' : S) r : m s = (r, s') -> (ok -> r = inl tt) -> at_home V s' -> kept V None ok m s.
Proof. intros Hm Hr Hh. by exists r, s', V. Qed.

Lemma view_kept V f v t (x : X) : at_home V ((Opened v, t), x) -> page_ok V (Opened (f v)) -> kept V None True (on_view f) ((Opened v, t), x).
Proof. intros [Hw _] Hp. eapply same_kept; [reflexivity|done|]. by split. Qed.

(** A change of the popup's own state. *)
Lemma update_kept V f v t (x : X) : at_home V ((Opened v, t), x) ->
  (popup_shows V (vv_loading v) (vv_popup v) -> popup_ok V (vv_loading v) (f (vv_popup v))) ->
  kept V None True (on_popup tt (update f)) ((Opened v, t), x).
Proof.
  intros [Hw Hp] Hf. eapply same_kept; [reflexivity|done|]. split; [exact Hw|]. eapply vault_page_ok; [exact Hp|].
  apply Hf, Hp.
Qed.

Lemma popupHost_units t : units_ok t -> units_ok (popupHost t).
Proof.
  intros Ht. unfold popupHost. destruct t as [|c t]; [constructor|]. match goal with |- context [parse_url ?w] => set (u := w) end.
  assert (Hu : units_ok u).
  { unfold u. destruct (includes _ _); [done|]. apply Forall_app. split; [decide_forall|done]. }
  destruct (parse_url u) as [w|] eqn:Ew; [|constructor]. pose proof (Hhost _ _ Hu Ew) as Hw. unfold strip_www.
  destruct (starts_with _ _); [by apply Forall_drop|done].
Qed.

Lemma text_put_draft it k t : draft_of it -> k ∈ TEXT_KEYS -> units_ok t -> draft_of (obj_put k (JStr t) it).
Proof.
  intros Hd Hk Ht. eapply draft_keeps; [exact Hd| |apply obj_get_put_ne].
  - apply draft_put; [apply Hd|by apply text_key_blank|done|]. apply text_key_shape; [done|by eexists].
  - assert (Hn : js "id" ∉ TEXT_KEYS) by in_keys. by intros <-.
Qed.

Lemma review_draft q : typed_login q -> draft_of (review_item q).
Proof.
  intros (Hu & Hn & Hp). unfold review_item, obj_assign. cbn [foldl fst snd].
  assert (Hh : units_ok (or_text (popupHost (pe_url q)) (js "New login"))).
  { pose proof (popupHost_units _ Hu) as Hq. destruct (popupHost (pe_url q)); [decide_forall|exact Hq]. }
  do 4 (apply text_put_draft; [|in_keys|assumption]). exact new_draft.
Qed.
(** ** Gestures *)

(** What a gesture on the open popup means for the vault as a map. *)
Definition meant (v : vault_view) (a : popup_act) : option web_action :=
  match vv_editor v, a with
  | Some e, SaveItem => if nameless (pe_item e) then None else Some (Save (pe_item e))
  | Some e, DeleteItem true => Some (Delete (pe_item e) true)
  | _, _ => None
  end.

Lemma editor_kept V f v t (x : X) : at_home V ((Opened v, t), x) ->
  (forall e, vv_editor v = Some e -> draft_of (pe_item e) -> draft_of (pe_item (f e))) ->
  kept V None True (on_editor f) ((Opened v, t), x).
Proof.
  intros Hh Hf. apply view_kept; [exact Hh|]. destruct (ah_page _ _ Hh) as (Hc & Hp & He). split; [exact Hc|].
  split; [exact Hp|]. cbn. destruct (pp_editing (vv_popup v)), (vv_editor v) as [e|]; try done. by apply Hf.
Qed.

Lemma lists_item Vs it l : listed Vs l -> it ∈ l -> draft_of it.
Proof.
  intros [HV Hl] Hin. destruct (screen_item Vs (WebVault.setItems l (WebVault.setLoading false WebVault.mounted)) it) as (Hd & Hst & _);
    [by split_and!|exact Hin|by apply listed_draft].
Qed.

Lemma offers_rows v a : offered (render_list v) a -> exists it, it ∈ pp_items (vv_popup v) /\ offered (popup_row (vv_tabHost v) it) a.
Proof.
  unfold render_list. destruct (vv_loading v); [intros Ho; offers|].
  destruct (popup_list _ _ _) as [|jt l] eqn:El; [intros Ho; offers|]. rewrite <- El.
  intros (s & (it & -> & Hin)%list_elem_of_fmap & Hs)%offered_concat. exists it. split; [|exact Hs].
  unfold popup_list, sorted in Hin. apply list_elem_of_In, filter_In in Hin as [Hin _]. apply list_elem_of_In in Hin.
  by rewrite sort_permutation in Hin.
Qed.

Lemma offers_list v a : offered (render_list_page v) a ->
  a ∈ [Add; LockVault; ReviewPending; NotNow] \/ (exists t, a = Search t) \/
  exists it, it ∈ pp_items (vv_popup v) /\ a ∈ [Fill it; CopyPassword it; CopyTotp it; EditItem it].
Proof.
  unfold render_list_page, Shell. intros Ho.
  destruct (pp_pending (vv_popup v)); offers; try discriminate;
    try (injection Ho as <-; left; set_solver); try (injection Ho as <-; right; left; by eexists);
    (apply offers_rows in Ho as (it & Hin & Ho); right; right; exists it; split; [exact Hin|];
     unfold popup_row, popup_badge in Ho; offers; try discriminate; injection Ho as <-; set_solver).
Qed.

Lemma offers_delete e yes : offered (render_editor false e) (DeleteItem yes) -> text_at (js "id") (pe_item e) <> [].
Proof. unfold render_editor, Shell. intros Ho. offers; try discriminate. match goal with Hn : negb _ = true |- _ => by apply negb_true_iff, bool_decide_eq_false in Hn end. Qed.

Lemma kept_ok V o (ok ok' : Prop) m s : (ok' -> ok) -> kept V o ok m s -> kept V o ok' m s.
Proof. intros Hi (r & s' & V' & Hm & Hr & Hrest). exists r, s', V'. split; [exact Hm|]. split; [by auto|exact Hrest]. Qed.

(** An action of the popup on the item in the form, after its error is taken back. *)
Lemma send_kept V a (m : M (popup * X) (option jsstr)) v e t (x : X) : at_home V ((Opened v, t), x) -> vv_editor v = Some e ->
  (popup_shows V (vv_loading v) (vv_popup v) -> exists r p' x' V', returns m (vv_popup v, x) r (p', x') /\
     worker_home base i pw uk V' x' /\ popup_ok V' (vv_loading v) p' /\ fate base i a V x V' (vv_popup v) r p') ->
  kept V (Some a) True (_ ← on_editor (set_error None); err ← on_popup None m; show_error err) ((Opened v, t), x).
Proof.
  intros Hh He Hm. pose proof (ah_page _ _ Hh) as Hpg. destruct (Hm (proj1 (proj2 Hpg))) as (r & p' & x' & V' & Hr & Hw & Hp & Hv).
  set (v1 := View (vv_popup v) (vv_loading v) (vv_query v) (vv_tabHost v) (set_error None <$> vv_editor v)).
  assert (Hpg1 : page_ok V (Opened v1)).
  { destruct Hpg as (Hc & Hs & Hed). split; [exact Hc|]. split; [exact Hs|]. cbn.
    by destruct (pp_editing (vv_popup v)), (vv_editor v) as [e1|]. }
  assert (Hrun : (_ ← on_editor (set_error None); err ← on_popup None m; show_error err) ((Opened v, t), x) =
    show_error r ((vault_page v1 p', t), x')).
  { unfold mbind, M_bind. cbn [on_editor on_view on_page modify fst snd]. unfold on_popup. cbn [fst snd vv_popup].
    unfold returns in Hr. subst v1. by rewrite Hr. }
  destruct Hv as [(-> & -> & Hl & Hc)|[(-> & Hb & Hed)|(-> & Hn & -> & msg & -> & Hmsg)]].
  - exists (inl tt), ((vault_page v1 p', t), x'), V. split; [exact Hrun|]. split; [done|]. split; [split; [exact Hw|by eapply vault_page_ok]|].
    right. split; [done|]. left. split; [exact Hl|]. cbn [fst snd]. unfold vault_page. by rewrite Hc.
  - exists (inl tt), ((vault_page v1 p', t), x'), V'. split; [exact Hrun|]. split; [done|]. split; [split; [exact Hw|by eapply vault_page_ok]|].
    by left.
  - destruct Hpg as (Hc & Hs & Hed). rewrite He in Hed.
    assert (Hed' : exists it, pp_editing (vv_popup v) = Some it /\ draft_of (pe_item e)) by (destruct (pp_editing (vv_popup v)) as [it|]; [by exists it|done]).
    destruct Hed' as (it & Hit & Hd).
    set (e' := PopupEditor (pe_item e) (pe_plain e) (Some msg)).
    set (v' := View (vv_popup v) (vv_loading v) (vv_query v) (vv_tabHost v) (Some e')).
    exists (inl tt), ((Opened v', t), x'), V. split.
    { rewrite Hrun. unfold show_error. destruct msg as [|c msg]; [done|]. cbn [nonblank]. unfold vault_page. rewrite Hc.
      unfold mounted, v1. rewrite Hit, He. reflexivity. }
    split; [done|]. split; [split; [exact Hw|]|].
    + cbn [fst snd page_ok v' vv_popup vv_loading vv_editor]. rewrite Hit. by split_and!.
    + right. split; [done|]. right. split; [exact Hn|]. by exists v, e, v', e', msg.
Qed.

(** What a keyboard can do to the form. *)
Definition typeable (a : popup_act) : Prop := match a with SetKey _ t => units_ok t | _ => True end.
Definition no_excuse (a : popup_act) : Prop := clipboard_ok = true /\ forall it, a <> CopyTotp it.

Lemma keys_text b k : k ∈ popup_keys b -> k ∈ TEXT_KEYS.
Proof. revert k. apply Forall_forall. destruct b; apply (bool_decide_unpack _); vm_compute; exact I. Qed.

Lemma generate_kept V v t (x : X) : at_home V ((Opened v, t), x) -> kept V None True (does GeneratePw) ((Opened v, t), x).
Proof.
  intros Hh. destruct (generatePassword_spec 20 (world_of x)) as (g & w' & Hg & _ & Hal); [lia|].
  assert (Hn : baseUrl w' = baseUrl (world_of x) /\ net w' = net (world_of x)).
  { eapply (keeps_returns (fun w : world N E => baseUrl w = _ /\ net w = _)); [|exact Hg|by split]. unfold generatePassword, randomU32. keeps. }
  destruct Hn as [Hb' Hn']. pose proof (ah_worker _ _ Hh) as [Hr Hs Hp]. cbn [fst snd] in *.
  assert (Hw : worker_home base i pw uk V (with_world x w')).
  { split; [apply (rest_moves base i pw uk V (world_of x)); [exact Hr| |exact Hn']; exact (eq_trans Hb' (proj1 Hr))| |exact Hp]. intros s Hss.
    destruct (Hs s Hss) as (se & t0 & -> & Hse). by exists se, t0. }
  assert (Hu : units_ok g).
  { apply Forall_forall. intros c Hc. rewrite Forall_forall in Hal. specialize (Hal c Hc). clear Hc. revert c Hal.
    apply Forall_forall. decide_forall. }
  assert (Hk : kept V None True (on_editor (set_item (set (js "password") g))) ((Opened v, t), with_world x w')).
  { apply editor_kept; [split; [exact Hw|exact (ah_page _ _ Hh)]|]. intros e _ Hd. apply text_put_draft; [exact Hd|in_keys|exact Hu]. }
  destruct Hk as (r & s' & V' & Hm & Hrest). exists r, s', V'. split; [|exact Hrest]. cbn [popup_do fst snd].
  unfold returns in Hg. by rewrite Hg.
Qed.

Lemma totp_state stored now {St} (s s' : St) r : totpFromString stored now s = (r, s') -> s' = s.
Proof.
  unfold totpFromString. destruct (parseTotpSecret stored) as [cfg|]; [|by intros [= _ <-]].
  unfold totpCode, hotp, mbind, M_bind. by destruct (bool_decide _); intros [= _ <-].
Qed.

Lemma copies_kept V it v t (x : X) : at_home V ((Opened v, t), x) ->
  kept V None (no_excuse (CopyTotp it)) (does (CopyTotp it)) ((Opened v, t), x).
Proof.
  intros Hh. assert (Hflash : forall msg, at_home V ((vault_page v (flash msg (vv_popup v)), t), x)).
  { intros msg. split; [apply Hh|]. cbn [fst snd]. pose proof (ah_page _ _ Hh) as Hpg. cbn [fst snd] in Hpg.
    eapply vault_page_ok; [exact Hpg|]. destruct Hpg as (_ & [Hi He Hq] & _). right. by split. }
  assert (Hex : no_excuse (CopyTotp it) -> forall r : unit + exn, r = inl tt) by (intros [_ Hno]; by destruct (Hno it)).
  destruct (totpFromString (text_at (js "totp") it) (now_of x) (vv_popup v, x)) as [r s1] eqn:Et.
  pose proof (totp_state _ _ _ _ _ Et) as ->.
  assert (Hrun : forall (k : option (jsstr * Z * Z) -> M (popup * X) (option jsstr)),
    (r0 ← totpFromString (text_at (js "totp") it) (now_of x); k r0) (vv_popup v, x) =
      match r with inl o => k o (vv_popup v, x) | inr e => (inr e, (vv_popup v, x)) end).
  { intros k. unfold mbind, M_bind. rewrite Et. by destruct r. }
  assert (Hstay : at_home V ((vault_page v (vv_popup v), t), x)).
  { split; [apply Hh|]. eapply vault_page_ok; [exact (ah_page _ _ Hh)|]. right. apply (ah_page _ _ Hh). }
  destruct clipboard_ok, r as [[[[code left] per]|]|e]; (eapply same_kept;
    [cbn [popup_do]; cbv beta; unfold on_popup; cbn [fst snd]; unfold copyTotp; rewrite Hrun; reflexivity
    |intros Hn; first [done|by apply Hex]|first [apply Hflash|exact Hh|exact Hstay]]).
Qed.

(** What the editor offers but Save and Delete changes the draft, or closes it. *)
Lemma editor_use_kept V v e t (x : X) a : at_home V ((Opened v, t), x) -> vv_editor v = Some e -> offered (render_editor false e) a ->
  typeable a -> kept V (meant v a) True (does a) ((Opened v, t), x).
Proof.
  intros Hh He Ho Hu. pose proof (ah_page _ _ Hh) as (_ & _ & Hed). rewrite He in Hed.
  assert (Hd : draft_of (pe_item e)) by (by destruct (pp_editing (vv_popup v))).
  unfold meant. rewrite He. destruct a; try (exfalso; clear - Ho; unfold render_editor, Shell in Ho; offers; discriminate); cbn [popup_do].
  - apply editor_kept; [exact Hh|]. intros e1 He1 Hd1. rewrite He in He1. injection He1 as <-.
    apply text_put_draft; [exact Hd1|by eapply keys_text, offers_key|exact Hu].
  - by apply editor_kept.
  - by apply generate_kept.
  - apply update_kept; [exact Hh|]. intros [Hi _ Hq]. right. by split.
  - unfold with_editor, save. destruct (nameless (pe_item e)) eqn:En.
    + destruct (editor_kept V (set_error (Some editor_error)) v t x Hh) as (r & s' & V' & Hm & Hrest); [done|].
      exists r, s', V'. split; [cbn [fst]; by rewrite He, En|exact Hrest].
    + destruct (send_kept V (Save (pe_item e)) (saveEditing (pe_item e)) v e t x Hh He) as (r & s' & V' & Hm & Hrest).
      { intros Hp. apply (save_home Hsay base i pw uk V); [apply Hh|exact Hd|exact Hp]. }
      exists r, s', V'. split; [cbn [fst]; by rewrite He, En|exact Hrest].
  - destruct yes; [|by eapply same_kept]. unfold with_editor, del.
    destruct (send_kept V (Delete (pe_item e) true) (deleteEditing (pe_item e)) v e t x Hh He) as (r & s' & V' & Hm & Hrest).
    { intros Hp. apply (delete_home Hsay base i pw uk V); [apply Hh|exact Hd|by eapply offers_delete|exact Hp]. }
    exists r, s', V'. split; [cbn [fst]; by rewrite He|exact Hrest].
Qed.

Lemma lock_kept V v t (x : X) : at_home V ((Opened v, t), x) -> kept V None True (does LockVault) ((Opened v, t), x).
Proof. intros [[Hr _ Hp] _]. eapply same_kept; [reflexivity|done|]. by split; [split|]. Qed.

Lemma dismiss_kept V v t (x : X) : at_home V ((Opened v, t), x) -> kept V None True (does NotNow) ((Opened v, t), x).
Proof.
  intros [[Hr Hs _] Hp]. eapply same_kept; [reflexivity|done|]. split; [by split|].
  eapply vault_page_ok; [exact Hp|]. right. destruct Hp as (_ & [Hi He _] & _). by split.
Qed.

Lemma edit_shows V l p it : popup_shows V l p -> draft_of it -> popup_shows V l (setEditing (Some it) p).
Proof. intros [Hi _ Hq] Hd. split; [exact Hi| |exact Hq]. by intros jt [= <-]. Qed.
Lemma origin_shows V l p b : popup_shows V l p -> popup_shows V l (setFromPending b p).
Proof. intros [Hi He Hq]. by split. Qed.

Lemma list_use_kept V v t (x : X) a : at_home V ((Opened v, t), x) -> vv_editor v = None -> offered (render_list_page v) a ->
  kept V None (no_excuse a) (does a) ((Opened v, t), x).
Proof.
  intros Hh He Ho. pose proof (ah_page _ _ Hh) as (Hcl & Hps & Hed). rewrite He in Hed.
  assert (Hany : forall o, kept V o True (does a) ((Opened v, t), x) -> kept V o (no_excuse a) (does a) ((Opened v, t), x))
    by (intros o; by apply kept_ok).
  apply offers_list in Ho as [Ho|[[q ->]|(it & Hin & Ho)]].
  - repeat (apply elem_of_cons in Ho as [->|Ho]); [..|by apply not_elem_of_nil in Ho]; apply Hany; cbn [popup_do].
    + apply update_kept; [exact Hh|]. intros Hp. right. apply edit_shows; [by apply origin_shows|exact new_draft].
    + by apply lock_kept.
    + destruct (pp_pending (vv_popup v)) as [q|] eqn:Eq.
      * destruct (update_kept V (fun p => setEditing (Some (review_item q)) (setFromPending true p)) v t x Hh) as (r & s' & V' & Hm & Hrest).
        { intros Hp. right. apply edit_shows; [by apply origin_shows|]. by eapply review_draft, (ps_pending _ _ _ Hp). }
        exists r, s', V'. split; [|exact Hrest]. rewrite <- Hm. unfold on_popup, reviewPending, state, gets, mbind, M_bind. cbn [fst snd]. by rewrite Eq.
      * destruct (update_kept V (fun p => p) v t x Hh) as (r & s' & V' & Hm & Hrest); [by right|].
        exists r, s', V'. split; [|exact Hrest]. rewrite <- Hm. unfold on_popup, reviewPending, state, gets, mbind, M_bind. cbn [fst snd]. by rewrite Eq.
    + by apply dismiss_kept.
  - apply Hany, view_kept; [exact Hh|]. apply Hh.
  - assert (Hd : draft_of it).
    { destruct Hps as [(Vs & Hl & _) _ _]. by eapply lists_item. }
    repeat (apply elem_of_cons in Ho as [->|Ho]); [..|by apply not_elem_of_nil in Ho].
    + assert (Hf : forall p, popup_shows V (vv_loading v) p -> page_ok V (vault_page v p)).
      { intros p Hp. eapply vault_page_ok; [apply Hh|by right]. }
      destruct t as [| |d]; (eapply same_kept; [reflexivity|done|]; split; [apply Hh|]); [by apply Hf|apply Hf; by destruct Hps|done].
    + cbn [popup_do]. destruct clipboard_ok eqn:Ec.
      * apply Hany, update_kept; [exact Hh|]. intros [Hi He' Hq]. right. by split.
      * eapply same_kept; [reflexivity|intros [Hc _]; congruence|exact Hh].
    + by apply copies_kept.
    + apply Hany. cbn [popup_do]. apply update_kept; [exact Hh|]. intros Hp. right. by apply edit_shows.
Qed.

Lemma use_kept V v t (x : X) a : at_home V ((Opened v, t), x) -> offered (screen_at ((Opened v, t), x)) a -> typeable a ->
  kept V (meant v a) (no_excuse a) (does a) ((Opened v, t), x).
Proof.
  intros Hh Ho Hu. rewrite opened_screen in Ho. destruct (vv_editor v) as [e|] eqn:He.
  - eapply kept_ok; [|by eapply editor_use_kept]. done.
  - assert (meant v a = None) as -> by (unfold meant; by rewrite He). by apply list_use_kept.
Qed.

(** ** The form, and what happens by itself *)

(** The form holds the account's identifier, in any spelling, and its password. *)
Definition unlocks (f : unlock_form) : Prop :=
  typed_in (uf_password f) = pw /\ ascii (uf_identifier f) /\ normalizeIdentifier (uf_identifier f) = key_of.

(** Unlocking lets the worker in, for as long as it may stay idle, and what it holds
    then is taken. *)
Lemma unlock_home V f t (x : X) : at_home V ((Locked f, t), x) -> unlocks f -> exists x',
  does SubmitUnlock ((Locked f, t), x) = (inl tt, ((Opened fresh_view, t), x')) /\ at_home V ((Opened fresh_view, t), x') /\
  ~ is_locked x' /\ ~ with_token base x' (unread_by base i).
Proof.
  intros [[(Hb & Hok & Ha & Hk & Hr & HV) _ Hq] Hf] (Hp & Hj & Hn). cbn [fst snd page_ok] in *.
  destruct (loginAccount_returns base (uf_identifier f) i pw uk (world_of x) Hb Hok Hj Hn Ha)
    as (se & w' & Hl & Hu & _ & _ & (Hb' & Hok' & Hc' & Hi) & HA).
  destruct (submitUnlock_outcomes (uf_identifier f) pw None x) as (u & x' & Hs & Hout). rewrite Hl in Hout. destruct Hout as [-> ->].
  destruct (issued_text _ _ _ Hi) as (token & Ht & Hne & How). rewrite Ht in Hi.
  exists (touched (with_world x w') se). split; [|split; [|split]].
  - cbn [popup_do]. unfold submitForm. cbn [fst snd]. rewrite Hf, Hp. unfold returns in Hs. by rewrite Hs.
  - split; [|split; [done|split; [|done]]].
    + split; [|intros s [= <-]|exact Hq].
      * split; [exact Hb'|]. split; [exact Hok'|]. split; [cbn; by rewrite HA|]. split; [exact Hk|]. split; [cbn; by rewrite Hc'|exact HV].
      * exists se, (now_of (with_world x w') + IDLE_MS). split; [done|]. split; [exact Hu|]. by exists token.
    + split; [|done|done]. exists ∅. split; [|by left]. split; [intros id it Hv; by rewrite lookup_empty in Hv|by rewrite map_to_list_empty].
  - unfold is_locked. cbn. unfold now_of, IDLE_MS. cbn. lia.
  - intros (se' & t' & token' & Hst & Ht' & Hun). cbn [session_slot touched world_of] in Hst, Hun.
    apply (f_equal (fmap accessToken)) in Hst. cbn in Hst. rewrite Ht, Ht' in Hst. injection Hst as <-.
    unfold unread_by, unread in Hun. cbn in Hun. rewrite issued_taken in Hun by exact Hi. discriminate Hun.
Qed.

(** The page shows the vault once it is read. *)
Definition showing (V : gmap jsstr obj) (s : S) : Prop :=
  exists v, s.1.1 = Opened v /\ vv_loading v = false /\ listed V (pp_items (vv_popup v)).
(** What reading the vault comes to: it is on the page, or the worker has locked
    itself, or the server refuses, and the page says so. *)
Definition read_out (V : gmap jsstr obj) (s s' : S) : Prop :=
  showing V s' \/ is_locked s.2 /\ s'.1.1 = Locked blank_form \/
  with_token base s.2 (unread_by base i) /\ exists v, s'.1.1 = Opened v /\ objects (vv_popup v).

Lemma load_home V v t (x : X) : at_home V ((Opened v, t), x) ->
  exists s', load ((Opened v, t), x) = (inl tt, s') /\ at_home V s' /\ read_out V ((Opened v, t), x) s'.
Proof.
  intros Hh. pose proof (ah_page _ _ Hh) as (Hc & Hp & Hed).
  destruct (opened_home Hsay base i pw uk V (vv_loading v) (vv_popup v) x (ah_worker _ _ Hh) Hp) as (p' & x' & Hr & Hw & He & Hok & Hcl).
  set (q := vault_page v p').
  set (q' := match q with Opened v' => Opened (View (vv_popup v') false (vv_query v') (vv_tabHost v') (vv_editor v')) | _ => q end).
  exists ((q', t), x'). split; [|split; [split; [exact Hw|]|]].
  - unfold load, mbind, M_bind, on_popup. cbn [fst snd]. unfold returns in Hr. by rewrite Hr.
  - cbn [fst snd]. unfold q', q, vault_page. destruct (pp_closed p') eqn:Ec; [done|]. destruct Hok as [Hok|Hok]; [congruence|].
    split; [exact Ec|]. split; [exact Hok|]. cbn. unfold mounted. rewrite He. destruct (pp_editing (vv_popup v)), (vv_editor v); done.
  - unfold read_out. cbn [fst snd]. destruct Hcl as [[Hl Hcl]|[Hcl Hl]].
    + right; left. split; [exact Hl|]. unfold q', q, vault_page. by rewrite Hcl.
    + rewrite Hc in Hcl. assert (Hq : exists v', q' = Opened v' /\ vv_loading v' = false /\ vv_popup v' = p').
      { unfold q', q, vault_page. rewrite Hcl. by eexists. }
      destruct Hq as (v' & Hq & Hld & Hpp). destruct Hl as [Hl|[Hn Ho]]; [left; exists v'|right; right; split; [exact Hn|exists v']];
        by rewrite Hpp.
Qed.

Lemma state_home V t (x : X) : worker_home base i pw uk V x -> exists s', getState ((Loading, t), x) = (inl tt, s') /\ at_home V s'.
Proof.
  intros Hw. unfold getState. cbn [fst snd]. destruct (session_slot x) as [s|] eqn:Es.
  - destruct (Z.lt_ge_cases (lockAt s) (now_of x)) as [Hl|Hl].
    + rewrite (serve_locked msg_getState _ x eq_refl) by (unfold is_locked; by rewrite Es). eexists. split; [reflexivity|].
      by split; [apply wiped_home|].
    + assert (Hs : serve msg_getState x = (inl (RState {| st_locked := false; st_identifier := Some (identifier s) |}), x)).
      { unfold serve. cbn [onMessage]. by rewrite (run_step _ _ _ _ _ _ (readStored_open x s Es Hl) eq_refl). }
      rewrite Hs. eexists. split; [reflexivity|]. split; [exact Hw|]. split; [done|]. split; [|done]. split; [|done|done].
      exists ∅. split; [|by left]. split; [intros id it Hv; by rewrite lookup_empty in Hv|by rewrite map_to_list_empty].
  - rewrite (serve_locked msg_getState _ x eq_refl) by (unfold is_locked; by rewrite Es). eexists. split; [reflexivity|].
    by split; [apply wiped_home|].
Qed.

(** What the worker lives through while nothing is asked of it: a login is captured,
    the alarm goes off, the browser is left, time passes, and the server need not
    take the worker's token any more. *)
Inductive meanwhile : X -> X -> Prop :=
| mw_capture x url user password : units_ok url -> units_ok user -> units_ok password ->
    meanwhile x (serve (msg_captureLogin url user password) x).2
| mw_alarm x : meanwhile x (run_proc onAlarm x).2
| mw_exit x : meanwhile x (Extension (world_of x) None None None)
| mw_time x n : now_of x <= clock n -> acc_ok n -> accounts n = accounts (net (world_of x)) -> ciphers n = ciphers (net (world_of x)) ->
    meanwhile x (with_world x (World (baseUrl (world_of x)) n (rng (world_of x)))).

Lemma meanwhile_home V x x' : worker_home base i pw uk V x -> meanwhile x x' -> worker_home base i pw uk V x'.
Proof.
  intros [Hr Hs Hp] Hm. destruct Hm as [x url user password Hu Hn Hpw|x|x|x n _ Hok HA Hc].
  - unfold serve. cbn [onMessage]. destruct (bool_decide (password = [])); [by split|]. split; [exact Hr|exact Hs|].
    by intros p [= <-].
  - by split.
  - by split.
  - split; [|exact Hs|exact Hp]. unfold WebApp.at_rest in *. cbn. by rewrite HA, Hc; destruct Hr as (H1' & _ & H3' & H4' & H5' & H6').
Qed.

(** ** The life of the popup *)

Definition may_do (p : popup_page) (a : popup_act) : Prop :=
  match a with
  | SubmitUnlock => match p with Locked f => unlocks f | _ => False end
  | _ => typeable a
  end.

(** Gestures with texts that can be typed, the popup's effects, its closing and opening
    on any tab, and what happens to the worker, with what each stands for. *)
Inductive popup_life : S -> option web_action -> S -> Prop :=
| pl_use p t x a r s' : offered (screen_at ((p, t), x)) a -> may_do p a -> does a ((p, t), x) = (r, s') ->
    popup_life ((p, t), x) (match p with Opened v => meant v a | _ => None end) s'
| pl_state s r s' : getState s = (r, s') -> popup_life s None s'
| pl_load s r s' : load s = (r, s') -> popup_life s None s'
| pl_host s h r s' : on_view (fun v => View (vv_popup v) (vv_loading v) (vv_query v) h (vv_editor v)) s = (r, s') -> popup_life s None s'
| pl_toast s r s' : on_popup tt (update dropToast) s = (r, s') -> popup_life s None s'
| pl_open p t t' x : popup_life ((p, t), x) None ((Loading, t'), x)
| pl_meanwhile p t x x' : meanwhile x x' -> popup_life ((p, t), x) None ((p, t), x').

(** Until the popup is opened anew, this is a part of what PopupUi.v lets it do. *)
Lemma life_step s o s' : popup_life s o s' ->
  popup_step (Node := Node) clipboard_ok WEB_VAULT_URL s s' \/ s'.1.1 = Loading /\ s'.2 = s.2.
Proof.
  destruct 1 as [p t x a r s' Ho _ Ha|s r s' Hs|s r s' Hs|s h r s' Hs|s r s' Hs|p t t' x|p t x x' _]; [left|left..|by right|left].
  - by eapply by_user.
  - by eapply by_event, pe_state.
  - by eapply by_event, pe_load.
  - by eapply by_event, pe_host.
  - by eapply by_event, pe_toast.
  - apply by_event, pe_worker.
Qed.

(** Save and Delete of the item in the form. *)
Definition of_form (e : S * web_action) : Prop :=
  exists v ed, e.1.1.1 = Opened v /\ vv_editor v = Some ed /\ (e.2 = Save (pe_item ed) \/ e.2 = Delete (pe_item ed) true).

Lemma log_of_form s log s' : logged popup_life s log s' -> Forall of_form log.
Proof.
  induction 1 as [|s a s1 log s' Hd _ IH|]; [constructor| |done]. constructor; [|exact IH].
  inversion Hd as [p t x b r s2 Ho Hm Hb E1 E2| | | | | |]; subst. destruct p as [| |v|]; try done. unfold meant in E2.
  destruct (vv_editor v) as [ed|] eqn:Ee; [|done].
  assert (Hv : a = Save (pe_item ed) \/ a = Delete (pe_item ed) true).
  { destruct b; try done; [destruct (nameless _); [done|]; left|destruct (_ : bool); [right|done]]; by injection E2 as <-. }
  by exists v, ed.
Qed.

Lemma offers_unlock f a : uf_twoFactor f = None -> offered (default [] (render_unlock WEB_VAULT_URL false f)) a ->
  (exists u, a = TypeIdentifier u) \/ (exists u, a = TypePassword u) \/ a = PeekPassword \/ a = SubmitUnlock.
Proof.
  intros Hf. unfold render_unlock, Shell. rewrite Hf. cbn [mbind option_bind default from_option]. unfold Datatypes.id. intros Ho.
  offers; try discriminate; injection Ho as <-; eauto.
Qed.

Lemma form_home V f t (x : X) a r s' : at_home V ((Locked f, t), x) -> offered (screen_at ((Locked f, t), x)) a -> may_do (Locked f) a ->
  does a ((Locked f, t), x) = (r, s') -> at_home V s'.
Proof.
  intros Hh Ho Hm. pose proof (ah_page _ _ Hh) as Hf. cbn [fst snd page_ok] in Hf. pose proof (ah_worker _ _ Hh) as Hw.
  apply (offers_unlock f a Hf) in Ho as [[u ->]|[[u ->]|[-> | ->]]]; try (intros [= _ <-]; by split).
  destruct (unlock_home V f t x Hh Hm) as (x' & Hr & Hh' & _). rewrite Hr. by intros [= _ <-].
Qed.

Lemma on_page_home V (m : M S unit) v t (x : X) r s' o ok : kept V o ok m ((Opened v, t), x) -> m ((Opened v, t), x) = (r, s') ->
  exists V', at_home V' s' /\ effect_of turned_away ((Opened v, t), x) o V V'.
Proof.
  intros (r1 & s1 & V' & Hm & _ & Hh & Hv). rewrite Hm. intros [= _ <-]. exists V'. split; [exact Hh|by eapply happens_effect].
Qed.

Lemma popup_life_home V s o s' : at_home V s -> popup_life s o s' -> exists V', at_home V' s' /\ effect_of turned_away s o V V'.
Proof.
  intros Hh Hl. assert (Hsame : forall s1, at_home V s1 -> exists V', at_home V' s1 /\ effect_of turned_away s None V V') by (intros s1 H1'; by exists V).
  destruct Hl as [p t x a r s' Ho Hm Ha|s r s' Hs|s r s' Hs|s h r s' Hs|s r s' Hs|p t t' x|p t x x' Hx].
  - destruct p as [|f|v|].
    + unfold popup_screen, render_popup, Shell in Ho. cbn in Ho. by offers.
    + apply Hsame. by eapply form_home.
    + eapply on_page_home; [|exact Ha]. apply use_kept; [exact Hh|exact Ho|]. by destruct a.
    + by apply offered_nil in Ho.
  - destruct s as [[[|f|v|] t] x]; try (by injection Hs as _ <-; apply Hsame).
    destruct (state_home V t x (ah_worker _ _ Hh)) as (s1 & Hs1 & Hh1). rewrite Hs1 in Hs. injection Hs as _ <-. by apply Hsame.
  - destruct s as [[[|f|v|] t] x]; try (by injection Hs as _ <-; apply Hsame).
    destruct (load_home V v t x Hh) as (s1 & Hs1 & Hh1 & _). rewrite Hs1 in Hs. injection Hs as _ <-. by apply Hsame.
  - destruct s as [[[|f|v|] t] x]; try (by injection Hs as _ <-; apply Hsame).
    eapply on_page_home; [|exact Hs]. apply view_kept; [exact Hh|]. apply Hh.
  - destruct s as [[[|f|v|] t] x]; try (by injection Hs as _ <-; apply Hsame).
    eapply on_page_home; [|exact Hs]. apply update_kept; [exact Hh|]. intros [Hi He Hq]. right. by split.
  - apply Hsame. by split; [apply Hh|].
  - apply Hsame. split; [|apply Hh]. eapply meanwhile_home; [apply Hh|exact Hx].
Qed.

Lemma popup_lives V s log s' : at_home V s -> logged popup_life s log s' -> exists V', replay turned_away log V V' /\ at_home V' s'.
Proof. apply logged_replays. exact popup_life_home. Qed.

(** The gestures that unlock, and the reading of the vault that follows. *)
Definition unlock_as (j : jsstr) : M S unit :=
  _ ← does (TypeIdentifier j); _ ← does (TypePassword pw); _ ← does SubmitUnlock; load.

Lemma unlock_shows V f t (x : X) j : at_home V ((Locked f, t), x) -> ascii j -> normalizeIdentifier j = key_of ->
  exists s', returns (unlock_as j) ((Locked f, t), x) tt s' /\ at_home V s' /\ showing V s'.
Proof.
  intros Hh Hj Hn. set (f1 := UnlockForm j (type_in pw (uf_password f)) (uf_twoFactor f) (uf_totp f) (uf_error f)).
  assert (Hh1 : at_home V ((Locked f1, t), x)) by (by split; apply Hh).
  destruct (unlock_home V f1 t x Hh1) as (x1 & Hr & Hh2 & Hop & Htk); [done|].
  destruct (load_home V fresh_view t x1 Hh2) as (s' & Hl & Hh3 & [Hsh|[[Hlk _]|[Hun _]]]); [|by destruct (Hop Hlk)|by destruct (Htk Hun)].
  exists s'. split; [|by split]. unfold returns, unlock_as. eapply bind_returns; [reflexivity|].
  eapply (bind_returns _ _ _ tt ((Locked f1, t), x)); [reflexivity|]. eapply bind_returns; [exact Hr|exact Hl].
Qed.

Lemma home_draws V s : at_home V s -> exists sc, render_popup WEB_VAULT_URL s.1.1 = Some sc.
Proof.
  intros [_ Hp]. destruct (s.1.1) as [|f|v|]; [by eexists| |by eexists|by eexists]. cbn [page_ok] in Hp. cbn [render_popup].
  unfold render_unlock. rewrite Hp. by eexists.
Qed.

Lemma open_in_view V s v : at_home V s -> s.1.1 = Opened v -> vv_loading v = false -> in_view V (vv_popup v).
Proof.
  intros [_ Hp] Hv Hl. rewrite Hv in Hp. destruct Hp as (_ & [(Vs & Hls & [Hi|Hi]) _ _] & _); [congruence|]. by exists Vs.
Qed.
End Pages.

(** ** Theorems *)
Section Theorems.
Context {N E D Node : Type} `{Unicode} `{UrlParser} `{WebCrypto} `{Environment N} `{Entropy E} `{!Clock N} `{EngineText} `{Dom D Node}.
Abbreviation rest base i pw uk V w := (WebApp.at_rest (N := N) (E := E) base i pw uk V w).

(** C8: The life of an account in the browser extension: from a vault on the server
    and a worker without a session on, whatever is done on the popup, opened on any
    tab and closed again, with texts that can be typed and the unlock form sent with
    the account's identifier and password, and whatever happens meanwhile (logins
    are captured, the alarm goes off, the browser is left, time passes, with or
    without the server taking the worker's token any longer), the vault on the
    server is what the popup's gestures make of it: each is Save or Delete of the
    item in the form, in its turn done as that button says, or turned away, by a
    worker that has locked itself or by the server, which changes nothing.  Every
    page can be drawn; the list, once read, is that vault, but for an error shown
    with it.  Each button answers, and does to the vault what it says or, when the
    worker has locked itself, nothing but to lead back to the blank form, or, when
    the server refuses, nothing but to show an error in the form, which stays.
    Reading the vault shows it, or the same two exceptions.  On the blank form the
    identifier, in any spelling, and the password show the vault again. *)
Theorem extension_life base `{!AccountServer N base} `{!VaultServer N base} i pw uk V clipboard_ok WEB_VAULT_URL
  (t : tab) (x : extension N E) log (s' : (popup_page * tab) * extension N E)
  (Hsay : engine_message JsTypeError <> [] /\ engine_message JsSyntaxError <> [])
  (Hhost : forall text u, units_ok text -> parse_url text = Some u -> units_ok (hostname u))
  (Hr : rest base i pw uk V (world_of x)) (Hs : session_slot x = None) (Hp : pending_slot x = None)
  (Hl : logged (popup_life base i pw clipboard_ok WEB_VAULT_URL) ((Loading, t), x) log s') :
  exists V', replay (turned_away base i) log V V' /\ Forall of_form log /\ rest base i pw uk V' (world_of s'.2) /\
    (exists sc, render_popup WEB_VAULT_URL s'.1.1 = Some sc) /\
    match s'.1.1 with
    | Opened v => (vv_loading v = false -> in_view V' (vv_popup v)) /\
        (exists s1, load s' = (inl tt, s1) /\ read_out base i V' s' s1) /\
        forall a, offered (popup_screen WEB_VAULT_URL s') a -> typeable a ->
          exists r s1 V1, popup_do clipboard_ok a s' = (r, s1) /\ (no_excuse clipboard_ok a -> r = inl tt) /\
            rest base i pw uk V1 (world_of s1.2) /\ happens base i (meant v a) V' s' V1 s1
    | Locked _ => forall j, ascii j -> normalizeIdentifier j = normalizeIdentifier i ->
        exists s1, returns (unlock_as pw clipboard_ok j) s' tt s1 /\ showing V' s1
    | Loading | Gone => True
    end.
Proof.
  assert (Hh : at_home base i pw uk V ((Loading, t), x)).
  { split; [|done]. split; [exact Hr| |]; cbn; [by rewrite Hs|by rewrite Hp]. }
  destruct (popup_lives Hsay base i pw uk clipboard_ok WEB_VAULT_URL Hhost V _ log s' Hh Hl) as (V' & He & Hh'). exists V'. split; [exact He|].
  split; [by eapply log_of_form|]. split; [apply Hh'|]. split; [by eapply home_draws|]. destruct s' as [[[|f|v|] t'] x']; cbn [fst snd]; try done.
  - intros j Hj Hn. destruct (unlock_shows Hsay base i pw uk clipboard_ok V' f t' x' j Hh' Hj Hn) as (s1 & Hu & _ & Hsh). by exists s1.
  - split; [|split].
    + intros Hld. by eapply open_in_view.
    + destruct (load_home Hsay base i pw uk V' v t' x' Hh') as (s1 & Hld & _ & Ho). by exists s1.
    + intros a Ho Hu. destruct (use_kept Hsay base i pw uk clipboard_ok WEB_VAULT_URL Hhost V' v t' x' a Hh' Ho Hu) as (r & s1 & V1 & Hm & Hok & Hh1 & Hv).
      exists r, s1, V1. split; [exact Hm|]. split; [exact Hok|]. split; [apply Hh1|exact Hv].
Qed.
End Theorems.

(** ** Two clients, one vault *)
Section Clients.
Context {N E L B D Node : Type} `{Unicode} `{UrlParser} `{WebCrypto} `{Environment N} `{Entropy E} `{!Clock N} `{LocalStorage L}
  `{!Sha256} `{!Sha1} `{!Dates} `{EngineText} `{!Biometric B} `{!Collation} `{!Locale} `{Dom D Node}.
Abbreviation registers i pw := [Type_ (Identifier i); Type_ (Password pw); Type_ (Confirm pw); Type_ (ConfirmId i); Submit].
Abbreviation signs_in_as j pw := [Switch WebAuth.Login; Type_ (Identifier j); Type_ (Password pw); Submit].

(** C7: One account, two clients, one vault.  Who registers in the web app, uses it as
    in [life], goes on in the extension with what is then on the server, uses that as
    in [popup_life], and comes back to a web app: the vault the web app leaves is
    what its logged gestures make of the empty one; the popup's log holds nothing
    but Save and Delete of the item in its form, and the vault it leaves is what
    these make of the web app's, each done as it says or turned away, and nothing
    else changes it; what the open web app and, once read, the popup list is the
    vault of that time, but for an error shown with it; and signing in again shows
    the vault as the popup left it. *)
Theorem clients_agree base `{!AccountServer N base} `{!VaultServer N base} SITE_URL WEB_VAULT_URL supported clipboard_ok today i pw
  (w : world N E) (ls : L) (b : B) r s0 log1 s1 (t : tab) (x : extension N E) log2 (s2 : (popup_page * tab) * extension N E)
  (Hsay : engine_message JsTypeError <> [] /\ engine_message JsSyntaxError <> [])
  (Hhost : forall text u, units_ok text -> parse_url text = Some u -> units_ok (hostname u))
  (Hb : baseUrl w = base) (Hok : acc_ok (net w)) (Hi : identifier_ok i) (Hpw : masterPasswordIssue pw = None)
  (Hmail : 64 ∈ i -> email_shape (trim i)) (Hnew : accounts (net w) !! normalizeIdentifier i = None)
  (Hreg : gestures supported clipboard_ok today (registers i pw) (fresh_app, ((w, ls), b)) = (r, s0))
  (Hweb : logged (WebApp.life SITE_URL supported clipboard_ok today i pw) s0 log1 s1)
  (Hx : baseUrl (world_of x) = base) (Hnet : net (world_of x) = net s1.2.1.1)
  (Hs : session_slot x = None) (Hp : pending_slot x = None)
  (Hpop : logged (popup_life base i pw clipboard_ok WEB_VAULT_URL) ((Loading, t), x) log2 s2) :
  exists V1 V2, replay (turned_down base i) log1 ∅ V1 /\ replay (turned_away base i) log2 V1 V2 /\ Forall of_form log2 /\
    (forall se v, s1.1 = WebApp.Opened se v -> in_sight base SITE_URL supported i se v s1.2 V1) /\
    (forall v, s2.1.1 = Opened v -> vv_loading v = false -> in_view V2 (vv_popup v)) /\
    forall j (w' : world N E) (ls' : L) (b' : B), ascii j -> normalizeIdentifier j = normalizeIdentifier i ->
      baseUrl w' = base -> net w' = net (world_of s2.2) ->
      exists se v o, returns (gestures supported clipboard_ok today (signs_in_as j pw)) (fresh_app, ((w', ls'), b')) tt
        (WebApp.Opened se v, o) /\ WebVault.shows (wb_screen v) V2.
Proof.
  destruct (sign_up base supported clipboard_ok today i pw Hi Hpw Hsay w ls b Hb Hok Hnew Hmail) as (se & v & o & Hsu & Hh).
  rewrite Hsu in Hreg. injection Hreg as _ <-.
  destruct (lives_home base SITE_URL supported clipboard_ok today i pw Hi Hpw Hsay _ ∅ _ log1 s1 Hh Hweb) as (V1 & He1 & Hh1).
  assert (Hr1 : at_rest base i pw (ss_userKey se) V1 s1.2.1.1).
  { destruct s1 as [[phrase l a|se1 v1] o1]; [apply Hh1|exact (rest_home base i pw _ V1 se1 v1 o1 Hh1)]. }
  assert (Hh2 : at_home (D := D) base i pw (ss_userKey se) V1 ((Loading, t), x)).
  { split; [|done]. split; [by eapply rest_moves|cbn; by rewrite Hs|cbn; by rewrite Hp]. }
  destruct (popup_lives Hsay base i pw _ clipboard_ok WEB_VAULT_URL Hhost V1 _ log2 s2 Hh2 Hpop) as (V2 & He2 & Hh3).
  exists V1, V2. split; [exact He1|]. split; [exact He2|]. split; [by eapply log_of_form|]. split; [|split].
  - intros se1 v1 Hs1. destruct s1 as [p1 o1]. cbn [fst snd] in *. subst p1.
    exact (proj2 (home_sight base SITE_URL supported i pw Hsay _ V1 se1 v1 o1 Hh1)).
  - intros v2 Hv Hld. by eapply open_in_view.
  - intros j w' ls' b' Hj Hn Hb' Hn'.
    pose proof (rest_moves base i pw _ V2 _ w' (wh_rest _ _ _ _ _ _ (ah_worker _ _ _ _ _ _ Hh3)) Hb' Hn') as Hr2.
    destruct (sign_in_again base supported clipboard_ok today i pw Hi Hpw Hsay _ V2 still fresh_auth ((w', ls'), b') j Hr2 Hj Hn)
      as (se2 & v2 & o2 & Hg & _ & Hv2).
    exists se2, v2, o2. split; [exact Hg|exact Hv2].
Qed.
End Clients.

(** ** A life *)
#[local] Existing Instances latin1_unicode model_crypto lcg_entropy office_environment office_accounts office_vaults office_clock
  map_storage mixed_sha256 demo_sha1 numeric_dates web_errors browser no_urls one_place plain_locale bare_page.

(** A worker that has just been installed. *)
Definition installed (n : office) : extension office Z := Extension (World [] n 5) None None None.

Lemma no_hosts : forall text u, units_ok text -> parse_url text = Some u -> units_ok (hostname u).
Proof. done. Qed.

Lemma alice_signs_up : exists se v o,
  returns (gestures (N := office) (E := Z) (L := gmap jsstr jsstr) (D := unit) true true []
    [Type_ (Identifier alice); Type_ (Password her_password); Type_ (Confirm her_password); Type_ (ConfirmId alice); Submit])
    (fresh_app, ((empty_office, ∅), tt)) tt (WebApp.Opened se v, o) /\
  WebApp.at_rest (N := office) (E := Z) [] alice her_password (ss_userKey se) ∅ o.1.1.
Proof.
  assert (Hok : acc_ok (net empty_office)) by exact empty_office_ok.
  assert (Hsay : engine_message JsTypeError <> [] /\ engine_message JsSyntaxError <> []) by by split.
  assert (Hmail : 64 ∈ alice -> email_shape (trim alice)) by (intros _; apply email_ok_shape; vm_compute; reflexivity).
  assert (Hpw : masterPasswordIssue her_password = None) by (vm_compute; reflexivity).
  destruct (sign_up [] true true [] alice her_password sample_identifier_ok Hpw Hsay empty_office (∅ : gmap jsstr jsstr) tt)
    as (se & v & o & Hj & Hh); [reflexivity|exact Hok|reflexivity|exact Hmail|].
  exists se, v, o. split; [exact Hj|]. exact (rest_home [] alice her_password _ ∅ se v o Hh).
Qed.

Lemma popup_asks n : logged (popup_life (D := unit) [] alice her_password true []) ((Loading, NoTab), installed n) []
  ((Locked blank_form, NoTab), installed n).
Proof. eapply logged_still; [|constructor]. by eapply (pl_state [] alice her_password true [] _ (inl tt)). Qed.

(** Open the popup, let the worker answer, and unlock. *)
Lemma extension_life_witness : exists n s,
  returns (unlock_as (D := unit) her_password true (js " alice@EXAMPLE.org")) ((Locked blank_form, NoTab), installed n) tt s /\ showing ∅ s.
Proof.
  destruct alice_signs_up as (se & v & o & _ & Hrest). exists (net o.1.1).
  destruct (extension_life (D := unit) [] alice her_password (ss_userKey se) ∅ true [] NoTab (installed (net o.1.1)) []
    ((Locked blank_form, NoTab), installed (net o.1.1)))
    as (V & He & _ & _ & _ & Hend).
  - by split.
  - exact no_hosts.
  - by eapply rest_moves.
  - reflexivity.
  - reflexivity.
  - apply popup_asks.
  - destruct (Hend (js " alice@EXAMPLE.org")) as (s & Hu & Hsh); [decide_forall|vm_compute; reflexivity|]. exists s.
    split; [exact Hu|]. inversion He; subst. exact Hsh.
Defined.

(** Register on the web, let it lock, open the popup, and come back. *)
Lemma clients_agree_witness : exists w se v o,
  returns (gestures (N := office) (E := Z) (L := gmap jsstr jsstr) (D := unit) true true []
    [Switch WebAuth.Login; Type_ (Identifier alice); Type_ (Password her_password); Submit]) (fresh_app, ((w, ∅), tt)) tt
    (WebApp.Opened se v, o) /\ WebVault.shows (wb_screen v) ∅.
Proof.
  destruct alice_signs_up as (se & v & o & Hj & Hrest).
  assert (Hmail : 64 ∈ alice -> email_shape (trim alice)) by (intros _; apply email_ok_shape; vm_compute; reflexivity).
  assert (Hb : baseUrl o.1.1 = []) by apply Hrest.
  destruct (clients_agree (D := unit) [] [] [] true true [] alice her_password empty_office (∅ : gmap jsstr jsstr) tt (inl tt)
    (WebApp.Opened se v, o) [] (fresh_app, o) NoTab (installed (net o.1.1)) [] ((Locked blank_form, NoTab), installed (net o.1.1)))
    as (V1 & V2 & He1 & He2 & _ & _ & _ & Hend).
  - by split.
  - exact no_hosts.
  - reflexivity.
  - exact empty_office_ok.
  - exact sample_identifier_ok.
  - vm_compute. reflexivity.
  - exact Hmail.
  - reflexivity.
  - exact Hj.
  - eapply logged_still; [apply life_idle|constructor].
  - reflexivity.
  - reflexivity.
  - reflexivity.
  - reflexivity.
  - apply popup_asks.
  - destruct (Hend alice o.1.1 (∅ : gmap jsstr jsstr) tt) as (se2 & v2 & o2 & Hg & Hs); [decide_forall|reflexivity|exact Hb|reflexivity|].
    exists o.1.1, se2, v2, o2. split; [exact Hg|]. inversion He1; subst. inversion He2; subst. exact Hs.
Defined.
