(* ===== verification/GenVectors.v ===== *)
(** crypto/scripts/gen-vectors.ts, which writes docs/test-vectors.json, and the test
    suite crypto/src/vectors.test.ts that reads it. *)
From S2P Require Import Prelude Text Numeral Json JsonFacts Encoding JsonText Effects Platform Primitives.
From S2P Require Import EncString Kdf Identifier Account.

(** ** Hexadecimal text: Node's [Buffer] *)

Definition hex_byte (u : Z) : jsstr := [hex_digit (u / 16 mod 16); hex_digit (u mod 16)].
Definition hex (b : bytes) : jsstr := concat (map hex_byte b).

(** [Buffer.from(s, "hex")] ends at the first pair that is not one. *)
Fixpoint unhex (s : jsstr) : bytes :=
  match s with
  | a :: b :: s' =>
      match hex_val a, hex_val b with
      | Some x, Some y => 16 * x + y :: unhex s'
      | _, _ => []
      end
  | _ => []
  end.

Lemma unhex_hex b : bytes_ok b -> unhex (hex b) = b.
Proof.
  induction 1 as [|u b Hu _ IH]; [done|]. change (hex (u :: b)) with (hex_byte u ++ hex b). unfold hex_byte.
  cbn [app unhex]. rewrite !hex_val_digit by (apply Z.mod_pos_bound; lia). rewrite IH. f_equal. unfold_ok. divlia.
Qed.

Lemma hex_ascii b : ascii (hex b).
Proof.
  induction b as [|u b IH]; [constructor|]. change (hex (u :: b)) with (hex_byte u ++ hex b). apply Forall_app. split; [|done].
  unfold hex_byte. repeat (constructor; [apply hex_digit_ascii, Z.mod_pos_bound; lia|]). constructor.
Qed.

(** ** The fixed inputs *)

Definition PASSWORD : jsstr := js "correct horse battery staple".
Definition IDENTIFIER : jsstr := js "alice@example.com".
Definition PBKDF2 : json := kdf_params (js "pbkdf2") (jint 100000) None None.
Definition ARGON2 : json := kdf_params (js "argon2id") (jint 2) (jint 8) (jint 1).
Definition AES_KEY : bytes := unhex (js "000102030405060708090a0b0c0d0e0f101112131415161718191a1b1c1d1e1f").
Definition AES_NONCE : bytes := unhex (js "0102030405060708090a0b0c").
Definition AES_PLAINTEXT : jsstr := js "vault item: github.com / alice / hunter2".

Definition vector_inputs (salt : jsstr) : json :=
  JObj [(js "password", JStr PASSWORD); (js "identifier", JStr IDENTIFIER); (js "normalizedIdentifier", JStr salt);
        (js "pbkdf2", PBKDF2); (js "argon2id", ARGON2); (js "aesKeyHex", JStr (hex AES_KEY));
        (js "aesNonceHex", JStr (hex AES_NONCE)); (js "aesPlaintext", JStr AES_PLAINTEXT);
        (js "hkdfInfoEnc", JStr (js "enc")); (js "hkdfInfoMac", JStr (js "mac"))].
Definition vector_expected (mkPbkdf2 mkArgon2 encKey macKey : bytes) (mph : jsstr) (ct : bytes) (enc : jsstr) : json :=
  JObj [(js "masterKeyPbkdf2Hex", JStr (hex mkPbkdf2)); (js "masterKeyArgon2idHex", JStr (hex mkArgon2));
        (js "stretchedEncKeyHex", JStr (hex encKey)); (js "stretchedMacKeyHex", JStr (hex macKey));
        (js "masterPasswordHashB64", JStr mph); (js "aesGcmCiphertextHex", JStr (hex ct)); (js "encString", JStr enc)].
Definition vector_comment : jsstr :=
  js "Known-answer vectors for @passwd/crypto. Both the TS package and the Go " ++
  js "reference impl must reproduce these exactly. Regenerate via " ++ js "`npm -w @passwd/crypto run gen-vectors`.".

Section Vectors.
Context {St : Type} `{Unicode} `{Entropy St} `{WebCrypto}.

(** [main]; the result is the text that is written to the file. *)
Definition main : M St jsstr :=
  let salt := normalizeIdentifier IDENTIFIER in
  masterKeyPbkdf2 ← deriveKey PASSWORD (Some (JStr salt)) (Some PBKDF2);
  masterKeyArgon2 ← deriveKey PASSWORD (Some (JStr salt)) (Some ARGON2);
  encKey ← hkdfExpand masterKeyPbkdf2 (js "enc") 32;
  macKey ← hkdfExpand masterKeyPbkdf2 (js "mac") 32;
  mph ← deriveMasterPasswordHash masterKeyPbkdf2 PASSWORD;
  gcm ← aesGcmEncrypt AES_KEY (utf8 AES_PLAINTEXT) (Some AES_NONCE);
  let encString := serializeEncString {| e_type := AesGcm; e_nonce := AES_NONCE; e_data := ciphertext gcm |} in
  mret (stringify2 (JObj [(js "_comment", JStr vector_comment); (js "inputs", vector_inputs salt);
     (js "expected", vector_expected masterKeyPbkdf2 masterKeyArgon2 encKey macKey mph (ciphertext gcm) encString)])
   ++ [c_lf]).

(** ** The test suite *)

(** A member of the file that is used as a text. *)
Definition text_prop (k : jsstr) (v : json) : M St jsstr :=
  match get_prop k v with Some (JStr s) => mret s | _ => raise JsTypeError end.
(** [assert.equal] of a text with a member of the file. *)
Definition equals (s : jsstr) (k : jsstr) (v : json) : bool := bool_decide (get_prop k v = Some (JStr s)).

(** The tests, in their order, on the [inputs] and [expected] of the file. *)
Definition vector_tests (inputs expected : json) : list (M St bool) :=
  [ (pw ← text_prop (js "password") inputs; i ← text_prop (js "identifier") inputs;
     mk ← deriveKey pw (Some (JStr (normalizeIdentifier i))) (get_prop (js "pbkdf2") inputs);
     mret (equals (hex mk) (js "masterKeyPbkdf2Hex") expected));
    (pw ← text_prop (js "password") inputs; i ← text_prop (js "identifier") inputs;
     mk ← deriveKey pw (Some (JStr (normalizeIdentifier i))) (get_prop (js "argon2id") inputs);
     mret (equals (hex mk) (js "masterKeyArgon2idHex") expected));
    (mk ← text_prop (js "masterKeyPbkdf2Hex") expected; ie ← text_prop (js "hkdfInfoEnc") inputs;
     e ← hkdfExpand (unhex mk) ie 32; im ← text_prop (js "hkdfInfoMac") inputs; m ← hkdfExpand (unhex mk) im 32;
     mret (equals (hex e) (js "stretchedEncKeyHex") expected && equals (hex m) (js "stretchedMacKeyHex") expected));
    (mk ← text_prop (js "masterKeyPbkdf2Hex") expected; pw ← text_prop (js "password") inputs;
     h ← deriveMasterPasswordHash (unhex mk) pw; mret (equals h (js "masterPasswordHashB64") expected));
    (k ← text_prop (js "aesKeyHex") inputs; p ← text_prop (js "aesPlaintext") inputs; n ← text_prop (js "aesNonceHex") inputs;
     r ← aesGcmEncrypt (unhex k) (utf8 p) (Some (unhex n));
     mret (equals (hex (ciphertext r)) (js "aesGcmCiphertextHex") expected));
    (n ← text_prop (js "aesNonceHex") inputs; c ← text_prop (js "aesGcmCiphertextHex") expected;
     mret (equals (serializeEncString {| e_type := AesGcm; e_nonce := unhex n; e_data := unhex c |}) (js "encString") expected)) ].

(** Every test of the suite passes on the text of a file. *)
Definition suite_passes (file : jsstr) : Prop := exists v inputs expected, json_parse file = Some v /\
  get_prop (js "inputs") v = Some inputs /\ get_prop (js "expected") v = Some expected /\
  Forall (fun t => forall s : St, returns t s true s) (vector_tests inputs expected).

Lemma salt_is : normalizeIdentifier IDENTIFIER = IDENTIFIER.
Proof.
  unfold normalizeIdentifier. rewrite to_lower_ascii; [vm_compute; reflexivity|].
  apply Forall_forall. intros u. revert u. apply Forall_forall. vm_compute. repeat (constructor; [split; discriminate || reflexivity|]). constructor.
Qed.

Lemma text_prop_returns k v t (s : St) : get_prop k v = Some (JStr t) -> returns (text_prop k v) s t s.
Proof. intros Hk. unfold returns, text_prop. by rewrite Hk. Qed.

Lemma equals_same t k v : get_prop k v = Some (JStr t) -> equals t k v = true.
Proof. intros Hk. unfold equals. by rewrite bool_decide_eq_true_2. Qed.

(** The printed document: numbers in range, texts of units, keys in order. *)
Lemma vectors_ok salt mk ma ek km mph ct enc : ascii salt -> ascii mph -> ascii enc ->
  json_ok (JObj [(js "_comment", JStr vector_comment); (js "inputs", vector_inputs salt);
    (js "expected", vector_expected mk ma ek km mph ct enc)]).
Proof.
  intros Hs Hm He.
  assert (Ht : forall t, ascii t -> json_ok (JStr t)) by (intros t; apply ascii_units).
  apply json_ok_obj. split; [vm_compute; reflexivity|].
  constructor; [split; [decide_forall|apply json_okb_ok; vm_compute; reflexivity]|].
  constructor; [split; [decide_forall|]|constructor; [split; [decide_forall|]|constructor]].
  - apply json_ok_obj. split; [vm_compute; reflexivity|].
    do 2 (constructor; [split; [decide_forall|apply json_okb_ok; vm_compute; reflexivity]|]).
    constructor; [split; [decide_forall|by apply Ht]|].
    repeat (constructor; [split; [decide_forall|apply json_okb_ok; vm_compute; reflexivity]|]). constructor.
  - apply json_ok_obj. split; [vm_compute; reflexivity|].
    repeat (constructor; [split; [decide_forall|apply Ht; first [apply hex_ascii|assumption]]|]). constructor.
Qed.
End Vectors.

(** ** Theorems *)
Section Theorems.
Context {St : Type} `{Unicode} `{Entropy St} `{WebCrypto}.

Lemma aes_returns (s : St) : returns (aesGcmEncrypt AES_KEY (utf8 AES_PLAINTEXT) (Some AES_NONCE)) s
  {| nonce := AES_NONCE; ciphertext := gcm_seal AES_KEY AES_NONCE (utf8 AES_PLAINTEXT) |} s.
Proof.
  assert (Hk : aes_key_ok AES_KEY = true) by (vm_compute; reflexivity). unfold returns, aesGcmEncrypt. by rewrite bind_ret, Hk.
Qed.

Lemma keys_read_back : unhex (hex AES_KEY) = AES_KEY /\ unhex (hex AES_NONCE) = AES_NONCE.
Proof. split; vm_compute; reflexivity. Qed.

Lemma gcm_back : unhex (hex (gcm_seal AES_KEY AES_NONCE (utf8 AES_PLAINTEXT))) = gcm_seal AES_KEY AES_NONCE (utf8 AES_PLAINTEXT).
Proof. apply unhex_hex, gcm_seal_bytes, utf8_bytes. apply ascii_units. decide_forall. Qed.

Lemma envelope_ok : enc_ok {| e_type := AesGcm; e_nonce := AES_NONCE; e_data := gcm_seal AES_KEY AES_NONCE (utf8 AES_PLAINTEXT) |}.
Proof.
  assert (Hp : bytes_ok (utf8 AES_PLAINTEXT)) by (apply utf8_bytes, ascii_units; decide_forall).
  split; [done|]. split; [decide_forall|]. split; [by apply gcm_seal_bytes|]. split; [done|].
  cbn [e_data]. intros E. pose proof (gcm_seal_length AES_KEY AES_NONCE (utf8 AES_PLAINTEXT)) as Hl. rewrite E in Hl. discriminate Hl.
Qed.

(** What the script computes, the same in every state. *)
Record vector_run (mk ma ek km : bytes) (mph : jsstr) : Prop := {
  vr_mk : forall s : St, returns (deriveKey PASSWORD (Some (JStr IDENTIFIER)) (Some PBKDF2)) s mk s;
  vr_ma : forall s : St, returns (deriveKey PASSWORD (Some (JStr IDENTIFIER)) (Some ARGON2)) s ma s;
  vr_bytes : bytes_ok mk;
  vr_ek : forall s : St, returns (hkdfExpand mk (js "enc") 32) s ek s;
  vr_km : forall s : St, returns (hkdfExpand mk (js "mac") 32) s km s;
  vr_mph : forall s : St, returns (deriveMasterPasswordHash mk PASSWORD) s mph s;
  vr_ascii : ascii mph;
}.

Lemma vectors_run : exists mk ma ek km mph, vector_run mk ma ek km mph.
Proof.
  assert (Hi : ascii IDENTIFIER) by decide_forall. assert (Hl : (8 <= length IDENTIFIER)%nat) by (vm_compute; lia).
  destruct (deriveKey_returns (St := St) PASSWORD IDENTIFIER PBKDF2 ltac:(done) Hi Hl) as (mk & Hmk & Hlen & Hb).
  { left. split; [done|]. exists 100000. split; [done|lia]. }
  destruct (deriveKey_returns (St := St) PASSWORD IDENTIFIER ARGON2 ltac:(done) Hi Hl) as (ma & Hma & _).
  { right. split; [done|]. exists 2, 8, 1. repeat split; (done || lia). }
  assert (Hn : mk <> []) by (by intros ->).
  destruct (hkdfExpand_returns (St := St) mk (js "enc") Hn) as (ek & Hek & _).
  destruct (hkdfExpand_returns (St := St) mk (js "mac") Hn) as (km & Hkm & _).
  set (salt := utf8 (MASTER_PASSWORD_HASH_DOMAIN ++ nfkc PASSWORD)).
  exists mk, ma, ek, km, (toBase64 (pbkdf2_bits mk salt 1 32)). split; [exact Hmk|exact Hma|exact Hb|exact Hek|exact Hkm| |apply toBase64_ascii, pbkdf2_bytes].
  intros s. unfold returns, deriveMasterPasswordHash. by run (pbkdf2_returns mk salt 1 32 s ltac:(lia)).
Qed.

#[local] Ltac reads := eapply bind_returns; [by apply text_prop_returns|cbv beta].

#[local] Ltac agrees := rewrite !equals_same by reflexivity; reflexivity.

(** C36: The vectors are the contract they say they are: the script never fails, draws
    no randomness and writes the same text in every state and on any platform whose
    primitives keep their laws; the text survives the file, and every test of the
    suite that reads it passes on it, through the same functions and the hexadecimal
    and base-64 texts of the file. *)
Theorem generated_vectors_pass : exists file,
  (forall s : St, returns main s file s) /\ fromUtf8 (utf8 file) = file /\ suite_passes (St := St) file.
Proof.
  destruct vectors_run as (mk & ma & ek & km & mph & [Hmk Hma Hb Hek Hkm Hmph Ha]).
  set (ct := gcm_seal AES_KEY AES_NONCE (utf8 AES_PLAINTEXT)).
  set (enc := serializeEncString {| e_type := AesGcm; e_nonce := AES_NONCE; e_data := ct |}).
  set (v := JObj [(js "_comment", JStr vector_comment); (js "inputs", vector_inputs IDENTIFIER);
    (js "expected", vector_expected mk ma ek km mph ct enc)]).
  assert (Hct : bytes_ok ct) by (apply gcm_seal_bytes, utf8_bytes; apply ascii_units; decide_forall).
  assert (Henc : ascii enc) by apply enc_units, envelope_ok.
  assert (Hok : json_ok v) by (apply vectors_ok; [decide_forall|exact Ha|exact Henc]).
  exists (stringify2 v ++ [c_lf]). split_and!.
  - intros s. unfold returns, main. rewrite salt_is.
    run (Hmk s). run (Hma s). run (Hek s). run (Hkm s). run (Hmph s). run (aes_returns s). reflexivity.
  - apply fromUtf8_utf8_id. destruct (stringify2_text_ok v Hok) as (Hu & Hw & Hf). split_and!.
    + apply Forall_app. split; [exact Hu|decide_forall].
    + by apply well_formed_app.
    + intros E. apply Hf. by destruct (stringify2 v).
  - exists v, (vector_inputs IDENTIFIER), (vector_expected mk ma ek km mph ct enc). split_and!; [|done|done|].
    + apply json_parse_stringify_ws; [by repeat constructor|exact Hok|by repeat constructor|done].
    + destruct keys_read_back as [Hkey Hnonce].
      assert (Hback : unhex (hex mk) = mk) by by apply unhex_hex.
      assert (Hctb : unhex (hex ct) = ct) by by apply unhex_hex.
      unfold vector_tests. repeat constructor; intros s; rewrite ?salt_is; reads; rewrite ?Hback, ?Hkey, ?Hnonce, ?salt_is.
      * reads; rewrite salt_is. run (Hmk s). agrees.
      * reads; rewrite salt_is. run (Hma s). agrees.
      * reads. run (Hek s). reads. run (Hkm s). agrees.
      * reads. run (Hmph s). agrees.
      * reads. reads. rewrite Hnonce. run (aes_returns s). agrees.
      * reads. rewrite Hctb. agrees.
Qed.
End Theorems.

(** ** The file in the repository *)

(** docs/test-vectors.json *)
Definition committed : jsstr := jq "{
  '_comment': 'Known-answer vectors for @passwd/crypto. Both the TS package and the Go reference impl must reproduce these exactly. Regenerate via `npm -w @passwd/crypto run gen-vectors`.',
  'inputs': {
    'password': 'correct horse battery staple',
    'identifier': 'alice@example.com',
    'normalizedIdentifier': 'alice@example.com',
    'pbkdf2': {
      'type': 'pbkdf2',
      'iterations': 100000
    },
    'argon2id': {
      'type': 'argon2id',
      'iterations': 2,
      'memoryMiB': 8,
      'parallelism': 1
    },
    'aesKeyHex': '000102030405060708090a0b0c0d0e0f101112131415161718191a1b1c1d1e1f',
    'aesNonceHex': '0102030405060708090a0b0c',
    'aesPlaintext': 'vault item: github.com / alice / hunter2',
    'hkdfInfoEnc': 'enc',
    'hkdfInfoMac': 'mac'
  },
  'expected': {
    'masterKeyPbkdf2Hex': 'cb235fd1233ecd275d1dc2744ea654f7f88a3ec0979b1bca0c4c580112f64e63',
    'masterKeyArgon2idHex': 'f28ac28adf71ddb3bc88f7fe6d6eb65f9a0002b5ea2715babb8fa905e5b46e7a',
    'stretchedEncKeyHex': 'a5b6666a8d81e5acc3bc0f8a938853b308fa81954b2f59f28192ad980fccaa5f',
    'stretchedMacKeyHex': '234aedb53432bf14b2f86fc62d772c25933815bda89462d658799e1195e11f2f',
    'masterPasswordHashB64': 'CQGqcPQu9wVUyK7nlQTz3P30QsoyR8ODzIZHc/57cjo=',
    'aesGcmCiphertextHex': '738b2fb998b499f229cf5967777a9e403721cf9df80070ea813e954dfdd356eaa48ceeb11ad09eadc51dc2c36cc33d2c1c96e5a48471d733',
    'encString': '1.AQIDBAUGBwgJCgsM|c4svuZi0mfIpz1lnd3qeQDchz534AHDqgT6VTf3TVuqkjO6xGtCercUdwsNswz0sHJblpIRx1zM='
  }
}
".

(** The committed file is, to the letter, what the script prints for the values of the
    primitives that the file states; and its envelope is the one of its nonce and its
    ciphertext. *)
Theorem committed_vectors : exists mk ma ek km mph ct,
  committed = stringify2 (JObj [(js "_comment", JStr vector_comment); (js "inputs", vector_inputs IDENTIFIER);
    (js "expected", vector_expected mk ma ek km mph ct
       (serializeEncString {| e_type := AesGcm; e_nonce := AES_NONCE; e_data := ct |}))]) ++ [c_lf] /\
  length mk = 32%nat /\ length ma = 32%nat /\ length ek = 32%nat /\ length km = 32%nat /\
  length ct = (length (utf8 AES_PLAINTEXT) + 16)%nat.
Proof.
  exists (unhex (js "cb235fd1233ecd275d1dc2744ea654f7f88a3ec0979b1bca0c4c580112f64e63")),
    (unhex (js "f28ac28adf71ddb3bc88f7fe6d6eb65f9a0002b5ea2715babb8fa905e5b46e7a")),
    (unhex (js "a5b6666a8d81e5acc3bc0f8a938853b308fa81954b2f59f28192ad980fccaa5f")),
    (unhex (js "234aedb53432bf14b2f86fc62d772c25933815bda89462d658799e1195e11f2f")),
    (js "CQGqcPQu9wVUyK7nlQTz3P30QsoyR8ODzIZHc/57cjo="),
    (unhex (js "738b2fb998b499f229cf5967777a9e403721cf9df80070ea813e954dfdd356eaa48ceeb11ad09eadc51dc2c36cc33d2c1c96e5a48471d733")).
  split_and!; vm_compute; reflexivity.
Qed.
